(* ===== verification/_CoqProject ===== *)
-Q . S2P
Prelude.v
Errors.v
PyStr.v
PyStrFacts.v
PyDict.v
PyVal.v
Regex.v
RegexFacts.v
IpAddr.v
IpAddrFacts.v
Json.v
JsonFacts.v
DateTime.v
UrlParse.v
Uuid.v
UuidText.v
Enums.v
Hashing.v
HashingFacts.v
Models.v
Effects.v
Normalize.v
NormalizeFacts.v
Stages.v
PersistFacts.v
PublishFacts.v
StageFacts.v
Queue.v
Network.v
NetworkFacts.v
Completion.v
Pipeline.v
PipelineFacts.v
Converse.v
PipelineRuns.v
Steady.v
Breaker.v
RateLimit.v
Scanning.v
Secrets.v
Config.v
Registry.v
Retry.v
Concurrency.v
Sha256.v
Rows.v
Engine.v
State.v
Builder.v
Runner.v
RunnerFacts.v
RunnerProps.v
Logging.v
Worker.v
Repositories.v
PostgresFacts.v
Aggregate.v
Feed.v
Metrics.v
Partitioning.v
Schema.v
Ranges.v
Egress.v
Archive.v
Auth.v
HttpApp.v
Enrichers.v
Publishers.v
HttpConnector.v
CsvParser.v
JsonParser.v
TxtExtractor.v
TxtFacts.v
Commands.v
Processes.v
Alembic.v
System.v
Transactions.v
SharedRuns.v
