(* ===== verification/Prelude.v ===== *)
(** * CTI ingestion framework: a verification library

    The program (under [src/src/cti/]; paths below are relative to it) pulls feeds
    of threat indicators, turns them into indicators with stable identifiers and
    publishes them.  A _source_ names a connector, a parser, enrichers and
    publishers; a _run_ of a source is a pipeline of seven stages joined by bounded
    queues; a _manager_ wraps the run in a circuit breaker, permits, retries and
    database sessions; workers, a scheduler, a command line and an HTTP interface
    start runs and read what they stored.

    This file holds the notations, tactics, hint databases and generic lemmas that
    the others share.

    ** The parts, from the bottom up

    _Python._  [Errors]: [core/errors.py] with the built-in exceptions the code
    meets, [isinstance] on a class table, and [res], the results of code that can
    raise.  [PyStr], [PyStrFacts], [PyDict], [PyVal], [Uuid], [UuidText], [Sha256],
    [IpAddr], [IpAddrFacts], [UrlParse], [Json], [JsonFacts], [Regex],
    [RegexFacts], [Scanning], [DateTime]: the strings, dictionaries, values and modules of the
    standard library that the sources call, as executable definitions with samples.

    _Core._  [Enums]: [core/enums.py], [security/tlp.py].  [Hashing],
    [HashingFacts]: [core/hashing.py], one canonicalizer per type of indicator.
    [Models]: [core/models.py], with [build] for [Indicator.build].  [Effects]: a
    stage as a script of effects (what it puts, counts, stores, publishes), the
    trace of a writer monad over [res].  [Stages], [Normalize]: [core/stages/*.py]
    over the plugin interfaces of [core/interfaces.py].  [Queue]: [core/queue.py].
    [Network]: one task per stage under [asyncio.TaskGroup] as a step relation,
    with every interleaving, failure and cancellation.  [Pipeline]:
    [core/pipeline.py].  [Steady]: pipelines whose plugins raise no [CancelledError].
    [RateLimit]: [core/ratelimit.py], with the expiry of the keys in Redis.  [Metrics]:
    [obs/metrics.py] and the calls that the other parts make on it.

    _Plugins._  [HttpConnector], [CsvParser], [JsonParser], [TxtExtractor],
    [Enrichers], [Publishers]: [plugins/connectors], [plugins/parsers],
    [plugins/enrichers], [plugins/publishers].  [Builder]: [plugins/loader.py] and
    [plugins/builder.py].

    _Manager._  [Breaker], [Concurrency], [Retry], [Registry], [State], [Runner],
    [Worker]: the files of [manager/] of those names ([State] also has
    [manager/deadletter.py], [Worker] also [manager/scheduler.py]).
    [Runner.execute] is [FeedRunner.execute]; its state [runner] is the breakers,
    the semaphores, the database and the plugins closed so far.

    _Storage._  [Rows]: [persistence/models.py] and [persistence/db.py]; the class
    [Database] is what the code relies on (a statement that returns did what it
    says, a commit keeps what the transaction sees), [MemoryDb] an instance.
    [Engine]: the engine of a process, from which sessions are made.
    [Repositories]: [persistence/repositories.py] and the canonical publisher.
    [Partitioning]: [persistence/partitioning.py].  [Schema]: the models and the
    migration as data, with all their differences, and the first partitions.  [Alembic]: [migrations/env.py] and [db migrate], which run
    it.  [Archive]: [security/archive.py].  [Aggregate]: the reference for what the
    tables hold after any batches.  [Feed]: a run of [Runner] whose pipeline is an
    execution of [Network] that publishes to the same database.

    _Edges._  [Config], [Secrets]: [config/*.py].  [Ranges], [Egress]:
    [security/egress.py].  [Auth], [HttpApp]: [obs/auth.py], [obs/http_app.py].
    [Logging]: [obs/logging.py], [obs/tracing.py] and the log of a job.
    [Commands]: [cli/commands/*.py].  [Processes]: [cli/app.py] and how the API, the
    worker and the scheduler start.  [System]: the steps of all processes over the
    shared database, a run being one step.  [Transactions]: the same processes
    transaction by transaction, in any order.  [SharedRuns]: [Runner.execute] over
    [Network], with the transactions of other runs between its own.

    ** What the theorems show

    - The pipeline: if no stage fails, every interleaving ends, for queues of any
      size, with the effects of running the stages one after another
      ([PipelineFacts.pipeline_refines_sequential]); nothing is forwarded that the
      canonical publisher did not accept ([PersistFacts.persist_fence], and across
      tasks [PipelineFacts.durability_fence]); a finished execution has no error
      and no cancelled task exactly when the stages one after another have none
      ([Converse.success_is_sequential]).  A [CancelledError] that a stage raises
      itself is no error to the task group: it can hide a loss
      ([PipelineRuns.cancellation_hides_loss]), so what is said of a success asks
      that there was none, which holds if no plugin raises one
      ([Steady.orderly_clean]).  A stage that fails can leave its consumer waiting
      for ever ([PipelineRuns.failure_deadlock]).
    - Indicators: identifiers are functions of the canonical value
      ([Models.build_identity]), what leaves [normalize] is well formed
      ([NormalizeFacts]), the TLP limits of the publishers hold ([Publishers]).
    - Reading feeds: what the parsers make of text that was written as a table, as
      JSON or as lines ([CsvParser], [JsonParser], [TxtFacts]), where the format and
      the node of a path are relations that do not mention the parsers; every way a fetch
      can end ([HttpConnector.http_fetch_outcomes]) and the conditional request of
      the next run; the egress guard ([Egress]).
    - Control: when the breaker admits, how many tokens a limiter gives in any
      interval and that the wait it returns is the right one, permits never exceeded and always obtained in the end ([Breaker],
      [RateLimit], [Concurrency]).
    - Runs: [RunnerFacts.ending] is the abstract specification of a run, the ways
      it can end with the tables each leaves; [RunnerProps.run_lifecycle] is the
      refinement; from it the watermark moves with success only and no dead letter
      is ever written.
    - A feed, end to end: after a run, whatever became of it, the tables are the
      stored ones with the sightings of some pairs aggregated into them, and after a
      success these are the pairs that the feed says, and the other publishers were
      offered exactly these ([Feed.feed_end_to_end], [Aggregate.stored_aggregates]).
      A feed that repeats an indicator within a batch never succeeds
      ([Feed.repeated_record_fails_run]).
    - Overlapping runs: in every history of transactions a run goes through its
      life once and no other run touches its row ([Transactions.runs_isolated]), a
      watermark comes from a run of its source that succeeded
      ([Transactions.watermark_earned]), observations belong to the run that they
      name ([Transactions.observations_isolated]) and nothing that is known is lost
      ([Transactions.knowledge_grows]); [SharedRuns.feed_among_others] shows that the
      code refines these histories and that a success stores its own feed whatever
      else is committed meanwhile.  Two runs of one source are not kept apart
      ([RunnerProps.open_run_no_exclusion], [RunnerProps.conflict_undetected]).
    - The system: invariants of every sequence of jobs, commands and requests
      ([System]).  Nothing gives a source the row that a run needs, and nothing can
      be replayed.  What these invariants ask of a pipeline holds of the concurrent
      one ([System.execution_grounded]).
    - Processes: how each starts and fails to ([Processes.boot_outcome]), which
      settings have no effect ([Processes.settings_unread]), which database is
      migrated ([Alembic.migration_address]), what the lines of a job carry
      ([Logging.job_log_context]), that the failures a row records are not the ones
      that are logged ([Logging.failures_unlogged]), and that no call on a metric is refused
      ([Metrics.metric_calls_accepted]).
    - Storage and edges: publishing is one transaction, every instant has one
      partition, the migration and the command create the same partitions, archives
      read back what they wrote, the interface is closed to strangers and reading does not write,
      references to secrets are expanded once, masked settings hide exactly the
      sensitive values.

    Theorems that state a defect or a difference from a comment keep that in their
    own comment.

    ** Choices

    - Text is of code points below 256, one character each; lower-casing, digits
      and blanks follow Python on that range.  Bytes that decode to other text, IDNA
      of other names and code points above 255 in JSON are arguments.
    - Instants are integers of microseconds; times of the breaker, the limiter and
      the policies are rationals, where the code has doubles.  A float is its text,
      its truncation and two flags.
    - Clocks, random numbers and new identifiers are arguments of the call that
      reads them.
    - Fuel.  [issubclass] climbs at most five levels, which is the height of the
      class table.  The matcher of [Regex] takes a bound on unbounded repetition
      that exceeds the length of the subject.  [Json.loads] takes the recursion
      limit of the interpreter, where running out of it is the [RecursionError] of
      the code; its loops over elements take the length of the text, proved enough
      in [JsonFacts].  [Alembic.interpolate] follows references ten deep, the limit
      of [configparser], beyond which it is an error.  Runs of [Network] are a relation, so need none: completion is
      proved with a decreasing measure.
    - Locks: the operations of the breaker, the limiter and the queue are atomic,
      as the code's locks or the event loop make them.
    - A run that has its permits is taken to end sooner or later in [Concurrency];
      that a pipeline can wait for ever is [PipelineRuns.failure_deadlock].
    - Transactions are single steps: the rows that one reads and then writes are of
      its own run, or a source that it has locked, or it writes them by single
      statements whatever they held.

    ** Not modelled

    The libraries the program calls are arguments: the HTTP client, codecs of
    compressed data, YAML, pydantic's validation of a document against a model (its
    validators that the sources write are modelled), SQLAlchemy and PostgreSQL
    beyond [Database] and the constraints that the statements rely on, Redis,
    Kafka, S3, MaxMind databases, cron expressions, the reading of ISO 8601
    ([datetime.fromisoformat]; its printing is [DateTime.isoformat]), structlog,
    OpenTelemetry and prometheus_client beyond what is handed to them, typer's
    parsing of options, and the servers (uvicorn, arq, APScheduler, alembic) once
    they have been started.  Not modelled at all: the text of a rendered log line
    and of the exposed metrics, signal handlers and the shutdown of the scheduler,
    and the extensions of the schema; its indexes are data of [Schema] only, since
    they change no answer. *)

From stdpp Require Export base list option strings gmap numbers.
From stdpp Require Export pretty.
From Stdlib Require Export Ascii ZArith Lia.
From Stdlib Require String.

#[global] Open Scope string_scope.
#[global] Open Scope list_scope.

#[global] Arguments String.append !s1 s2 : simpl nomatch.

(** ** Hint databases *)

Create HintDb cti.
Create Rewrite HintDb cti_rw.

(** ** Automation shared by the components *)

(** Split the scrutinee of every [match] of the goal and of the hypotheses,
    closing the branches that are contradictory. *)
Ltac case_all :=
  repeat (case_match || case_decide || case_bool_decide);
  simplify_eq/=; try done.

(** Case analysis on the boolean tests of a hypothesis [H], discarding the
    branches that contradict it. *)
Ltac split_branches H :=
  repeat (match type of H with
          | context [if ?b then _ else _] => destruct b eqn:?; simplify_eq/=
          | context [match ?x with _ => _ end] => destruct x eqn:?; simplify_eq/=
          end).

(** Turn boolean arithmetic tests of the context into propositions. *)
Ltac bool_to_prop :=
  repeat match goal with
         | H : (_ && _)%bool = true |- _ => apply andb_true_iff in H as [? ?]
         | H : (_ || _)%bool = false |- _ => apply orb_false_iff in H as [? ?]
         | H : negb _ = true |- _ => apply negb_true_iff in H
         | H : negb _ = false |- _ => apply negb_false_iff in H
         | H : (_ <=? _)%Z = true |- _ => apply Z.leb_le in H
         | H : (_ <=? _)%Z = false |- _ => apply Z.leb_gt in H
         | H : (_ <? _)%Z = true |- _ => apply Z.ltb_lt in H
         | H : (_ <? _)%Z = false |- _ => apply Z.ltb_ge in H
         | H : (_ =? _)%Z = true |- _ => apply Z.eqb_eq in H
         | H : (_ =? _)%Z = false |- _ => apply Z.eqb_neq in H
         | H : (_ <=? _)%nat = true |- _ => apply Nat.leb_le in H
         | H : (_ <=? _)%nat = false |- _ => apply Nat.leb_gt in H
         | H : (_ <? _)%nat = true |- _ => apply Nat.ltb_lt in H
         | H : (_ <? _)%nat = false |- _ => apply Nat.ltb_ge in H
         | H : (_ =? _)%nat = true |- _ => apply Nat.eqb_eq in H
         | H : (_ =? _)%string = true |- _ => apply String.eqb_eq in H
         | H : (_ =? _)%string = false |- _ => apply String.eqb_neq in H
         end.

(** ** Lists *)

Section lists.
Context {A B : Type}.
Implicit Types l k : list A.

Lemma prefix_filter (P : A → Prop) `{!∀ x, Decision (P x)} l k :
  l `prefix_of` k → filter P l `prefix_of` filter P k.
Proof. intros [r ->]. rewrite filter_app. by eexists. Qed.

Lemma prefix_omap (f : A → option B) l k : l `prefix_of` k → omap f l `prefix_of` omap f k.
Proof. intros [r ->]. rewrite omap_app. by eexists. Qed.

Lemma prefix_fmap (f : A → B) l k : l `prefix_of` k → f <$> l `prefix_of` f <$> k.
Proof. intros [r ->]. rewrite fmap_app. by eexists. Qed.

Lemma existsb_false_forall (f : A → bool) l :
  existsb f l = false ↔ ∀ x, x ∈ l → f x = false.
Proof.
  induction l as [|a l IH]; simpl; [set_solver|].
  rewrite orb_false_iff, IH. set_solver.
Qed.

Lemma existsb_true_exists (f : A → bool) l :
  existsb f l = true ↔ ∃ x, x ∈ l ∧ f x = true.
Proof.
  rewrite existsb_exists. setoid_rewrite <- list_elem_of_In. done.
Qed.

Lemma forallb_true_forall (f : A → bool) l :
  forallb f l = true ↔ ∀ x, x ∈ l → f x = true.
Proof. rewrite forallb_forall. setoid_rewrite <- list_elem_of_In. done. Qed.
End lists.

#[export] Hint Resolve prefix_fmap prefix_filter prefix_omap : cti.

(** ** Integers *)

Lemma Z_div_mod_step (m i : Z) :
  ((m + i + 1) / 12 = (m + i) / 12 + (if decide ((m + i) mod 12 = 11) then 1 else 0) ∧
   (m + i + 1) mod 12 = if decide ((m + i) mod 12 = 11) then 0 else (m + i) mod 12 + 1)%Z.
Proof.
  set (k := (m + i)%Z).
  pose proof (Z.div_mod k 12 ltac:(lia)). pose proof (Z.mod_pos_bound k 12 ltac:(lia)).
  pose proof (Z.div_mod (k + 1) 12 ltac:(lia)).
  pose proof (Z.mod_pos_bound (k + 1) 12 ltac:(lia)).
  case_decide; lia.
Qed.

(** ** Finite sums *)

Fixpoint sum_upto (k : nat) (f : nat → nat) : nat :=
  match k with O => 0 | S k => sum_upto k f + f k end.

Lemma sum_upto_ext k f g : (∀ j, j < k → f j = g j) → sum_upto k f = sum_upto k g.
Proof. induction k as [|k IH]; intros H; simpl; [done|]. rewrite IH by auto. by rewrite H by lia. Qed.

Lemma sum_upto_lt k f g i :
  i < k → f i < g i → (∀ j, j ≠ i → f j = g j) → sum_upto k f < sum_upto k g.
Proof.
  induction k as [|k IH]; intros Hi Hlt Hoth; [lia|]. simpl.
  destruct (decide (i = k)) as [->|Hne].
  - rewrite (sum_upto_ext k f g); [lia|]. intros j Hj. apply Hoth. lia.
  - rewrite (Hoth k) by done. specialize (IH ltac:(lia) Hlt Hoth). lia.
Qed.
