(* ===== verification/Errors.v ===== *)
(** The exception classes of [core/errors.py], the Python built-ins the code
    raises or catches, and the result type of code that can raise. *)

From S2P Require Import Prelude.

(** ** Classes *)

(** The classes of [core/errors.py], then the built-in and third-party classes
    that the modelled code raises, catches or lets through. *)
Inductive exn_class :=
  | CTIError | TransientError | RateLimited | PermanentError | CircuitOpen
  | PluginError | PluginConfigError | PluginLoadError | EgressBlocked
  | TLPViolation | WatermarkConflict
  | PyException | PyBaseException | CancelledError
  | ValueError | TypeError | KeyError | IndexError | ArithmeticError | OverflowError
  | LookupError | RuntimeError | AssertionError | OSError | UnicodeError
  | JSONDecodeError | ValidationError | AddressValueError | NetmaskValueError
  | CsvError | DatabaseError | HTTPError | TimeoutException | AttributeError
  | ImportError | InterpolationError
  | Unauthorized.                             (* [_Unauthorized] of [obs/http_app.py] *)

#[export] Instance exn_class_eq_dec : EqDecision exn_class.
Proof. solve_decision. Defined.

(** The bases in the [class] statements, in order. *)
Definition bases (c : exn_class) : list exn_class :=
  match c with
  | CTIError => [PyException]
  | TransientError => [CTIError]
  | RateLimited => [TransientError]
  | PermanentError => [CTIError]
  | CircuitOpen => [TransientError]
  | PluginError => [CTIError]
  | PluginConfigError => [PluginError; PermanentError]
  | PluginLoadError => [PluginError]
  | EgressBlocked => [PermanentError]
  | TLPViolation => [PermanentError]
  | WatermarkConflict => [CTIError]
  | PyException => [PyBaseException]
  | PyBaseException => []
  | CancelledError => [PyBaseException]
  | ValueError | TypeError | LookupError | ArithmeticError | RuntimeError
  | AssertionError | OSError | DatabaseError | HTTPError | CsvError | AttributeError
  | ImportError | InterpolationError | Unauthorized => [PyException]
  | KeyError | IndexError => [LookupError]
  | OverflowError => [ArithmeticError]
  | UnicodeError | JSONDecodeError | ValidationError
  | AddressValueError | NetmaskValueError => [ValueError]
  | TimeoutException => [HTTPError]
  end.

(** [issubclass c d]: [d] is reached from [c] along [bases].  The longest chain
    has five classes ([RateLimited] up to [BaseException]). *)
Fixpoint issubclass_fuel (n : nat) (c d : exn_class) : bool :=
  bool_decide (c = d) ||
  match n with
  | O => false
  | S n => existsb (λ b, issubclass_fuel n b d) (bases c)
  end.

Definition issubclass : exn_class → exn_class → bool := issubclass_fuel 5.

Record exn := Exn { cls : exn_class; msg : string }.

Definition isinstance (e : exn) (c : exn_class) : bool := issubclass (cls e) c.

(** ** Results *)

Inductive res (A : Type) := Ok (a : A) | Raise (e : exn).
Arguments Ok {A} a.
Arguments Raise {A} e.

#[export] Instance res_ret : MRet res := λ A a, Ok a.
#[export] Instance res_bind : MBind res := λ A B f m,
  match m with Ok a => f a | Raise e => Raise e end.

Definition raise {A} (c : exn_class) (m : string) : res A := Raise (Exn c m).

(** [try: m except classes: h]. *)
Definition try_except {A} (m : res A) (classes : list exn_class) (h : exn → res A) : res A :=
  match m with
  | Ok a => Ok a
  | Raise e => if existsb (isinstance e) classes then h e else Raise e
  end.

Definition is_ok {A} (m : res A) : bool := match m with Ok _ => true | Raise _ => false end.

Fixpoint mapM_res {A B} (f : A → res B) (l : list A) : res (list B) :=
  match l with
  | [] => Ok []
  | x :: l => y ← f x; ys ← mapM_res f l; Ok (y :: ys)
  end.

(** ** Facts *)

Lemma Ok_inj {A} (a b : A) : Ok a = Ok b → a = b.
Proof. congruence. Qed.

Lemma bind_Ok {A B} (m : res A) (f : A → res B) b :
  m ≫= f = Ok b ↔ ∃ a, m = Ok a ∧ f a = Ok b.
Proof. destruct m; simpl; naive_solver. Qed.

Lemma mapM_res_Ok {A B} (f : A → res B) l k :
  mapM_res f l = Ok k ↔ Forall2 (λ x y, f x = Ok y) l k.
Proof.
  revert k. induction l as [|x l IH]; intros k; simpl.
  - split; [intros [= <-]; constructor|]. by inversion 1.
  - rewrite bind_Ok. setoid_rewrite bind_Ok. split.
    + intros (y & Hy & ys & Hys & [= <-]). constructor; [done|]. by apply IH.
    + inversion 1; subst. eexists. split; [done|]. eexists. split; [by apply IH|done].
Qed.

(** [m] raises nothing but instances of the classes. *)
Definition raises_only {A} (m : res A) (classes : list exn_class) : Prop :=
  ∀ e, m = Raise e → existsb (isinstance e) classes = true.

Lemma raises_only_Ok {A} (a : A) cs : raises_only (Ok a) cs.
Proof. done. Qed.

Lemma raises_only_raise {A} c s cs :
  existsb (issubclass c) cs = true → raises_only (@raise A c s) cs.
Proof. by intros H e [= <-]. Qed.

Lemma raises_only_bind {A B} (m : res A) (f : A → res B) cs :
  raises_only m cs → (∀ a, m = Ok a → raises_only (f a) cs) → raises_only (m ≫= f) cs.
Proof.
  intros Hm Hf e. destruct m as [a|e'] eqn:E; simpl; [by apply Hf|].
  intros [= <-]. by apply Hm.
Qed.

Lemma raises_only_mapM {A B} (f : A → res B) l cs :
  (∀ a, raises_only (f a) cs) → raises_only (mapM_res f l) cs.
Proof.
  intros Hf. induction l as [|a l IH]; [done|]. simpl.
  apply raises_only_bind; [done|]. intros b _. by apply raises_only_bind.
Qed.

Lemma raises_only_try {A} (m : res A) cs (h : exn → res A) ds :
  (∀ e, m = Raise e → existsb (isinstance e) cs = true ∨ existsb (isinstance e) ds = true) →
  (∀ e, raises_only (h e) ds) → raises_only (try_except m cs h) ds.
Proof.
  intros Hm Hh e. unfold try_except. destruct m as [a|e']; [done|].
  destruct (Hm e' eq_refl) as [->|H]; [by apply Hh|].
  destruct (existsb (isinstance e') cs); [by apply Hh|]. by intros [= <-].
Qed.

(** Decompose a computation into its raising leaves. *)
Ltac raises_step :=
  match goal with
  | |- raises_only (Ok _) _ => apply raises_only_Ok
  | |- raises_only (mret _) _ => apply raises_only_Ok
  | |- raises_only (raise _ _) _ => apply raises_only_raise; reflexivity
  | |- raises_only (mbind _ _) _ => apply raises_only_bind; [|intros ? ?]
  | |- raises_only (mapM_res _ _) _ => apply raises_only_mapM; intros ?
  | |- raises_only (if ?b then _ else _) _ => destruct b eqn:?
  | |- raises_only (match ?x with _ => _ end) _ => destruct x eqn:?
  end.
Ltac raises := repeat raises_step; eauto with cti.

(** [issubclass] is a preorder: the fuel of [issubclass] is enough for the
    hierarchy to be closed under composition. *)
Lemma issubclass_refl c : issubclass c c = true.
Proof. by destruct c. Qed.

Lemma issubclass_trans c d e :
  issubclass c d = true → issubclass d e = true → issubclass c e = true.
Proof. destruct c, d; try discriminate; destruct e; by vm_compute. Qed.

#[export] Hint Resolve issubclass_refl issubclass_trans : cti.
