(* ===== verification/PyStr.v ===== *)
(** Python strings.  A Python [str] whose code points are all below 256 is a
    [string]: the character with code [n] stands for the code point [n].  The
    operations are those the sources call ([strip], [lower], [replace],
    [split], [splitlines], ...), with Python's behaviour on that range. *)

From stdpp Require Import pretty.
From S2P Require Import Prelude.

(** ** Characters *)

Definition code (c : ascii) : N := N_of_ascii c.
Definition chr (n : N) : ascii := ascii_of_N n.

Definition in_range (lo hi : N) (c : ascii) : bool :=
  (N.leb lo (code c) && N.leb (code c) hi)%bool.

(** [str.isspace] of one character. *)
Definition is_space (c : ascii) : bool :=
  in_range 9 13 c || in_range 28 32 c || N.eqb (code c) 133 || N.eqb (code c) 160.

Definition is_digit (c : ascii) : bool := in_range 48 57 c.
Definition is_upper_ascii (c : ascii) : bool := in_range 65 90 c.
Definition is_lower_ascii (c : ascii) : bool := in_range 97 122 c.
Definition is_ascii (c : ascii) : bool := N.leb (code c) 127.

(** [str.lower] of one character. *)
Definition lower_char (c : ascii) : ascii :=
  if is_upper_ascii c || (in_range 192 222 c && negb (N.eqb (code c) 215))
  then chr (code c + 32) else c.

(** [str.isalnum] of one character: letters, decimals, digits and numerics. *)
Definition is_alnum_char (c : ascii) : bool :=
  is_digit c || is_upper_ascii c || is_lower_ascii c
  || existsb (N.eqb (code c)) [170; 178; 179; 181; 185; 186; 188; 189; 190]%N
  || in_range 192 214 c || in_range 216 246 c || in_range 248 255 c.

(** [\w] of a [str] pattern: alphanumeric or underscore. *)
Definition is_word (c : ascii) : bool := is_alnum_char c || N.eqb (code c) 95.

(** A line boundary of [str.splitlines]. *)
Definition is_linebreak (c : ascii) : bool :=
  in_range 10 13 c || in_range 28 30 c || N.eqb (code c) 133.

(** ** Whole strings *)

Fixpoint map_str (f : ascii → ascii) (s : string) : string :=
  match s with "" => "" | String c s => String (f c) (map_str f s) end.

Fixpoint all_str (p : ascii → bool) (s : string) : bool :=
  match s with "" => true | String c s => p c && all_str p s end.

Definition lower : string → string := map_str lower_char.

Fixpoint lstrip_by (p : ascii → bool) (s : string) : string :=
  match s with
  | "" => ""
  | String c s' => if p c then lstrip_by p s' else s
  end.

Fixpoint rstrip_by (p : ascii → bool) (s : string) : string :=
  match s with
  | "" => ""
  | String c s' =>
      match rstrip_by p s' with
      | "" => if p c then "" else String c ""
      | r => String c r
      end
  end.

Definition strip_by (p : ascii → bool) (s : string) : string := rstrip_by p (lstrip_by p s).
Definition strip : string → string := strip_by is_space.

Definition startswith (s p : string) : bool := String.prefix p s.

Fixpoint endswith (s p : string) : bool :=
  String.eqb s p || match s with "" => false | String _ s => endswith s p end.

(** [s[n:]]. *)
Fixpoint drop_str (n : nat) (s : string) : string :=
  match n, s with
  | O, _ => s
  | S _, "" => ""
  | S n, String _ s => drop_str n s
  end.

(** [s[:n]]. *)
Fixpoint take_str (n : nat) (s : string) : string :=
  match n, s with
  | O, _ => ""
  | S _, "" => ""
  | S n, String c s => String c (take_str n s)
  end.

Definition removeprefix (s p : string) : string :=
  if startswith s p then drop_str (String.length p) s else s.

(** [s.replace(src, dst)] for a non-empty [src]: [skip] counts the characters
    of an occurrence already replaced. *)
Fixpoint replace_go (src dst : string) (skip : nat) (s : string) : string :=
  match s with
  | "" => ""
  | String c s' =>
      match skip with
      | S k => replace_go src dst k s'
      | O => if startswith s src
             then dst +:+ replace_go src dst (pred (String.length src)) s'
             else String c (replace_go src dst 0 s')
      end
  end.

Definition replace (s src dst : string) : string := replace_go src dst 0 s.

(** [sub in s]. *)
Fixpoint contains (s sub : string) : bool :=
  startswith s sub || match s with "" => false | String _ s => contains s sub end.

(** [s.split(c)] for a one-character separator. *)
Fixpoint split (c : ascii) (s : string) : list string :=
  match s with
  | "" => [""]
  | String a s =>
      if bool_decide (a = c) then "" :: split c s
      else match split c s with
           | [] => [String a ""]
           | w :: ws => String a w :: ws
           end
  end.

Fixpoint join (sep : string) (l : list string) : string :=
  match l with
  | [] => ""
  | [s] => s
  | s :: l => s +:+ sep +:+ join sep l
  end.

(** [s.partition(c)] without the separator: [None] when it does not occur. *)
Fixpoint partition (c : ascii) (s : string) : option (string * string) :=
  match s with
  | "" => None
  | String a s =>
      if bool_decide (a = c) then Some ("", s)
      else match partition c s with
           | Some (l, r) => Some (String a l, r)
           | None => None
           end
  end.

(** [s.rpartition(c)] without the separator. *)
Fixpoint rpartition (c : ascii) (s : string) : option (string * string) :=
  match s with
  | "" => None
  | String a s =>
      match rpartition c s with
      | Some (l, r) => Some (String a l, r)
      | None => if bool_decide (a = c) then Some ("", s) else None
      end
  end.

Definition contains_char (c : ascii) (s : string) : bool :=
  negb (all_str (λ a, negb (bool_decide (a = c))) s).

(** [s.splitlines()]: [\r\n] is one boundary and a boundary at the end opens no
    further line. *)
Fixpoint splitlines_go (after_cr : bool) (cur : string) (started : bool) (s : string)
    : list string :=
  match s with
  | "" => if started then [cur] else []
  | String c s =>
      if after_cr && N.eqb (code c) 10 then splitlines_go false cur started s
      else if is_linebreak c
           then cur :: splitlines_go (N.eqb (code c) 13) "" false s
           else splitlines_go false (cur +:+ String c "") true s
  end.

Definition splitlines : string → list string := splitlines_go false "" false.

Definition isalnum (s : string) : bool := negb (String.eqb s "") && all_str is_alnum_char s.

(** ** Numbers *)

Definition digit_val (c : ascii) : N := code c - 48.

(** The value of a string of decimal digits. *)
Fixpoint digits_val (acc : N) (s : string) : N :=
  match s with
  | "" => acc
  | String c s => digits_val (acc * 10 + digit_val c) s
  end.

Definition is_digits (s : string) : bool := negb (String.eqb s "") && all_str is_digit s.

(** [str(n)] of an [int], the library's decimal printer. *)
Definition str_of_Z (n : Z) : string := pretty n.
Definition str_of_N (n : N) : string := pretty n.

Fixpoint zeros (n : nat) : string := match n with O => "" | S n => String "0" (zeros n) end.

(** [f"{n:0<w>d}"] of a non-negative [n]. *)
Definition zfill (w : nat) (n : Z) : string :=
  let s := str_of_Z n in zeros (w - String.length s) +:+ s.
