(* ===== verification/PyStrFacts.v ===== *)
(** Facts on the string operations: what [strip], [lower], [split] and
    [replace] preserve, and the round trips between [split] and [join]. *)

From S2P Require Import Prelude PyStr.

(** ** Characters *)

(** A property of all characters, checked on the 256 of them. *)
Definition all_ascii : list ascii := map (λ n, ascii_of_nat n) (seq 0 256).

Lemma all_ascii_complete c : c ∈ all_ascii.
Proof.
  rewrite list_elem_of_In. apply in_map_iff. exists (nat_of_ascii c).
  split; [apply ascii_nat_embedding|]. apply in_seq. pose proof (nat_ascii_bounded c). lia.
Qed.

Lemma by_ascii (f : ascii → bool) : forallb f all_ascii = true → ∀ c, f c = true.
Proof. rewrite forallb_true_forall. intros H c. apply H, all_ascii_complete. Qed.

(** Prove [∀ c, f c = true] by computing [f] on every character. *)
Ltac check_ascii := apply by_ascii; vm_compute; reflexivity.

Lemma lower_char_idem c : lower_char (lower_char c) = lower_char c.
Proof.
  revert c. assert (∀ c, Ascii.eqb (lower_char (lower_char c)) (lower_char c) = true) as H
    by check_ascii.
  intros c. by apply Ascii.eqb_eq.
Qed.

Lemma is_space_lower c : is_space (lower_char c) = is_space c.
Proof.
  revert c. assert (∀ c, Bool.eqb (is_space (lower_char c)) (is_space c) = true) as H
    by check_ascii.
  intros c. by apply Bool.eqb_prop.
Qed.

(** ** [all_str] and [map_str] *)

Lemma app_str_nil_r s : s +:+ "" = s.
Proof. induction s as [|c s IH]; [done|]. simpl. by rewrite IH. Qed.

Lemma app_str_assoc s t u : s +:+ (t +:+ u) = (s +:+ t) +:+ u.
Proof. induction s as [|c s IH]; [done|]. simpl. by rewrite IH. Qed.

Lemma length_app_str s t : String.length (s +:+ t) = String.length s + String.length t.
Proof. induction s as [|c s IH]; [done|]. simpl. by rewrite IH. Qed.

Lemma app_str_inj_r t s u : s +:+ t = u +:+ t → s = u.
Proof.
  intros H. assert (String.length s = String.length u) as Hl.
  { apply (f_equal String.length) in H. rewrite !length_app_str in H. lia. }
  revert u Hl H. induction s as [|c s IH]; intros [|d u] Hl H; simplify_eq/=; [done|].
  f_equal. by apply IH.
Qed.

Lemma all_str_app p s t : all_str p (s +:+ t) = all_str p s && all_str p t.
Proof. induction s as [|c s IH]; [done|]. simpl. by rewrite IH, andb_assoc. Qed.

Lemma all_str_impl (p q : ascii → bool) s :
  (∀ c, p c = true → q c = true) → all_str p s = true → all_str q s = true.
Proof.
  intros Hpq. induction s as [|c s IH]; [done|]. simpl. rewrite !andb_true_iff.
  intros [??]. eauto.
Qed.

Lemma map_str_id (f : ascii → ascii) (p : ascii → bool) s :
  (∀ c, p c = true → f c = c) → all_str p s = true → map_str f s = s.
Proof.
  intros Hf. induction s as [|c s IH]; [done|]. simpl. rewrite andb_true_iff.
  intros [Hc Hs]. by rewrite Hf, IH.
Qed.

Lemma length_map_str f s : String.length (map_str f s) = String.length s.
Proof. induction s as [|c s IH]; [done|]. simpl. by rewrite IH. Qed.

Lemma map_str_app f s t : map_str f (s +:+ t) = map_str f s +:+ map_str f t.
Proof. induction s as [|c s IH]; [done|]. simpl. by rewrite IH. Qed.

Lemma lower_idem s : lower (lower s) = lower s.
Proof. unfold lower. induction s as [|c s IH]; [done|]. simpl. by rewrite lower_char_idem, IH. Qed.

Lemma lower_app s t : lower (s +:+ t) = lower s +:+ lower t.
Proof. apply map_str_app. Qed.

(** ** Stripping *)

Section strip.
Context (p : ascii → bool).

(** [head_ok s]: [s] is empty or does not begin with a [p] character. *)
Definition head_ok (s : string) : bool :=
  match s with "" => true | String c _ => negb (p c) end.

Fixpoint last_ok (s : string) : bool :=
  match s with
  | "" => true
  | String c "" => negb (p c)
  | String _ s => last_ok s
  end.

Lemma lstrip_head s : head_ok (lstrip_by p s) = true.
Proof. induction s as [|c s IH]; [done|]. simpl. destruct (p c) eqn:E; [done|]. simpl. by rewrite E. Qed.

Lemma lstrip_id s : head_ok s = true → lstrip_by p s = s.
Proof. destruct s as [|c s]; [done|]. simpl. by destruct (p c). Qed.

Lemma rstrip_id s : last_ok s = true → rstrip_by p s = s.
Proof.
  induction s as [|c s IH]; [done|]. intros H. simpl.
  destruct s as [|d s]; simpl in H |- *; [by destruct (p c)|].
  simpl in IH. by rewrite (IH H).
Qed.

Lemma rstrip_last s : last_ok (rstrip_by p s) = true.
Proof.
  induction s as [|c s IH]; [done|]. simpl.
  destruct (rstrip_by p s) as [|d r] eqn:E; [|done].
  destruct (p c) eqn:Ec; [done|]. simpl. by rewrite Ec.
Qed.

Lemma rstrip_head s : head_ok s = true → head_ok (rstrip_by p s) = true.
Proof.
  destruct s as [|c s]; [done|]. simpl. intros H.
  destruct (rstrip_by p s); [|done]. destruct (p c) eqn:E; simpl; by rewrite ?E.
Qed.

Lemma rstrip_nil s : rstrip_by p s = "" → all_str p s = true.
Proof.
  induction s as [|c s IH]; [done|]. simpl.
  destruct (rstrip_by p s) eqn:E; [|done]. destruct (p c); [|done]. intros _. by rewrite IH.
Qed.

Lemma rstrip_snoc s c : p c = true → rstrip_by p s = s → rstrip_by p (s +:+ String c "") = s.
Proof.
  intros Hc. induction s as [|a s IH]; intros Hs; simpl; [by rewrite Hc|].
  simpl in Hs. destruct s as [|b s].
  - simpl in *. rewrite Hc. by destruct (p a).
  - destruct (rstrip_by p (String b s)) as [|d r] eqn:E; [by destruct (p a)|].
    injection Hs as -> ->. by rewrite IH.
Qed.

Lemma strip_head s : head_ok (strip_by p s) = true.
Proof. apply rstrip_head, lstrip_head. Qed.

Lemma strip_last s : last_ok (strip_by p s) = true.
Proof. apply rstrip_last. Qed.

Lemma strip_id s : head_ok s = true → last_ok s = true → strip_by p s = s.
Proof. intros Hh Hl. unfold strip_by. by rewrite lstrip_id, rstrip_id. Qed.

Lemma strip_idem s : strip_by p (strip_by p s) = strip_by p s.
Proof. apply strip_id; [apply strip_head|apply strip_last]. Qed.

Lemma all_str_lstrip q s : all_str q s = true → all_str q (lstrip_by p s) = true.
Proof.
  induction s as [|c s IH]; [done|]. simpl. rewrite andb_true_iff. intros [Hc Hs].
  destruct (p c); [by apply IH|]. simpl. by rewrite Hc, Hs.
Qed.

Lemma all_str_rstrip q s : all_str q s = true → all_str q (rstrip_by p s) = true.
Proof.
  induction s as [|c s IH]; [done|]. simpl. rewrite andb_true_iff. intros [Hc Hs].
  specialize (IH Hs). destruct (rstrip_by p s); [|simpl in *; by rewrite Hc, IH].
  destruct (p c); [done|]. simpl. by rewrite Hc.
Qed.

Lemma all_str_strip q s : all_str q s = true → all_str q (strip_by p s) = true.
Proof. intros. by apply all_str_rstrip, all_str_lstrip. Qed.

(** Characters that are never [p] make stripping the identity. *)
Lemma strip_none s : all_str (λ c, negb (p c)) s = true → strip_by p s = s.
Proof.
  intros H. apply strip_id.
  - destruct s; [done|]. simpl in *. by apply andb_true_iff in H as [? _].
  - induction s as [|c s IH]; [done|]. simpl in *. apply andb_true_iff in H as [? H].
    destruct s; auto.
Qed.
End strip.

Lemma map_str_head f (p : ascii → bool) s :
  (∀ c, p (f c) = p c) → head_ok p (map_str f s) = head_ok p s.
Proof. intros Hf. destruct s; simpl; [done|]. by rewrite Hf. Qed.

Lemma map_str_last f (p : ascii → bool) s :
  (∀ c, p (f c) = p c) → last_ok p (map_str f s) = last_ok p s.
Proof.
  intros Hf. induction s as [|c s IH]; [done|]. destruct s; simpl in *; [by rewrite Hf|done].
Qed.

(** ** [split] and [join] *)

Lemma split_not_nil c s : split c s ≠ [].
Proof. destruct s; simpl; [done|]. case_bool_decide; [done|]. by case_match. Qed.

Lemma join_split c s : join (String c "") (split c s) = s.
Proof.
  induction s as [|a s IH]; [done|]. simpl. case_bool_decide as Ha.
  - subst. pose proof (split_not_nil c s). simpl.
    destruct (split c s) as [|w ws] eqn:E; [done|]. simpl in *. by rewrite IH.
  - pose proof (split_not_nil c s). destruct (split c s) as [|w ws] eqn:E; [done|].
    destruct ws as [|w' ws]; simpl in *; by rewrite IH.
Qed.

Lemma split_no_sep c s w :
  w ∈ split c s → all_str (λ a, negb (bool_decide (a = c))) w = true.
Proof.
  revert w. induction s as [|a s IH]; intros w; simpl.
  - by intros ->%list_elem_of_singleton.
  - case_bool_decide as Ha.
    + intros [->|?]%elem_of_cons; [done|auto].
    + destruct (split c s) as [|w' ws].
      * intros ->%list_elem_of_singleton. simpl. by rewrite bool_decide_eq_false_2.
      * intros [->|?]%elem_of_cons; [|apply IH; set_solver].
        simpl. rewrite bool_decide_eq_false_2 by done. apply IH. set_solver.
Qed.

Lemma split_all_str p c s w : all_str p s = true → w ∈ split c s → all_str p w = true.
Proof.
  revert w. induction s as [|a s IH]; intros w Hs; simpl.
  - by intros ->%list_elem_of_singleton.
  - simpl in Hs. apply andb_true_iff in Hs as [Ha Hs]. case_bool_decide.
    + intros [->|?]%elem_of_cons; [done|auto].
    + destruct (split c s) as [|w' ws].
      * intros ->%list_elem_of_singleton. simpl. by rewrite Ha.
      * intros [->|?]%elem_of_cons; [|apply IH; [done|set_solver]].
        simpl. rewrite Ha. apply IH; [done|set_solver].
Qed.

Lemma split_none c s :
  all_str (λ a, negb (bool_decide (a = c))) s = true → split c s = [s].
Proof.
  induction s as [|a s IH]; [done|]. simpl. rewrite andb_true_iff. intros [Ha Hs].
  rewrite (IH Hs). by destruct (bool_decide (a = c)).
Qed.

Lemma split_app c w s :
  all_str (λ a, negb (bool_decide (a = c))) w = true →
  split c (w +:+ String c s) = w :: split c s.
Proof.
  induction w as [|a w IH]; simpl; [by rewrite bool_decide_eq_true_2|].
  rewrite andb_true_iff. intros [Ha Hw]. rewrite (IH Hw).
  by destruct (bool_decide (a = c)).
Qed.

Lemma split_join c l :
  l ≠ [] → Forall (λ w, all_str (λ a, negb (bool_decide (a = c))) w = true) l →
  split c (join (String c "") l) = l.
Proof.
  intros Hl. induction 1 as [|w l Hw Hall IH]; [done|].
  destruct l as [|w' l]; [by apply split_none|].
  change (join (String c "") (w :: w' :: l))
    with (w +:+ String c (join (String c "") (w' :: l))).
  rewrite split_app, IH; done.
Qed.

Lemma all_str_join p sep l :
  all_str p sep = true → Forall (λ w, all_str p w = true) l → all_str p (join sep l) = true.
Proof.
  intros Hsep. induction 1 as [|w l Hw Hall IH]; [done|]. destruct l as [|w' l]; [done|].
  change (join sep (w :: w' :: l)) with (w +:+ (sep +:+ join sep (w' :: l))).
  by rewrite !all_str_app, Hw, Hsep, IH.
Qed.

Lemma contains_char_all c s :
  contains_char c s = false ↔ all_str (λ a, negb (bool_decide (a = c))) s = true.
Proof. unfold contains_char. apply negb_false_iff. Qed.

(** ** [rpartition] and [partition] *)

Lemma partition_Some c s l r :
  partition c s = Some (l, r) →
  s = l +:+ String c r ∧ all_str (λ a, negb (bool_decide (a = c))) l = true.
Proof.
  revert l. induction s as [|a s IH]; intros l; simpl; [done|].
  case_bool_decide as Ha; [intros [= <- <-]; by subst|].
  destruct (partition c s) as [[l' r']|]; [|done]. intros [= <- <-].
  destruct (IH _ eq_refl) as [-> Hl]. simpl. by rewrite bool_decide_eq_false_2, Hl.
Qed.

Lemma rpartition_Some c s l r :
  rpartition c s = Some (l, r) →
  s = l +:+ String c r ∧ all_str (λ a, negb (bool_decide (a = c))) r = true.
Proof.
  revert l r. induction s as [|a s IH]; intros l r; simpl; [done|].
  destruct (rpartition c s) as [[l' r']|] eqn:E.
  - intros [= <- <-]. by destruct (IH _ _ eq_refl) as [-> ?].
  - case_bool_decide as Ha; [|done]. intros [= <- <-]. subst. split; [done|].
    clear IH. revert E. induction s as [|b s IHs]; [done|]. simpl.
    destruct (rpartition c s) as [[??]|]; [done|].
    case_bool_decide; [done|]. intros _. by rewrite IHs.
Qed.

Lemma rpartition_None c s : contains_char c s = false → rpartition c s = None.
Proof.
  unfold contains_char. rewrite negb_false_iff.
  induction s as [|a s IH]; [done|]. simpl. rewrite andb_true_iff. intros [Ha Hs].
  rewrite IH by done. by destruct (bool_decide (a = c)).
Qed.

Lemma rpartition_is_Some c s : contains_char c s = true → is_Some (rpartition c s).
Proof.
  unfold contains_char. rewrite negb_true_iff.
  induction s as [|a s IH]; [done|]. simpl. rewrite andb_false_iff.
  destruct (rpartition c s) as [[??]|]; [by eexists|].
  intros [Ha|Hs]; [|by destruct (IH Hs)]. destruct (bool_decide (a = c)); [by eexists|done].
Qed.

(** ** Prefixes *)

Lemma startswith_refl_app p s : startswith (p +:+ s) p = true.
Proof.
  unfold startswith. induction p as [|c p IH]; [by destruct s|]. simpl.
  destruct (ascii_dec c c); done.
Qed.

Lemma startswith_spec s p : startswith s p = true ↔ ∃ r, s = p +:+ r.
Proof.
  unfold startswith. split.
  - revert s. induction p as [|c p IH]; intros s; [by exists s|].
    destruct s as [|d s]; simpl; [done|]. destruct (ascii_dec c d); [|done].
    intros [r ->]%IH. exists r. by subst.
  - intros [r ->]. apply startswith_refl_app.
Qed.

Lemma drop_str_app p s : drop_str (String.length p) (p +:+ s) = s.
Proof. induction p as [|c p IH]; [by destruct s|done]. Qed.

Lemma removeprefix_app p s : removeprefix (p +:+ s) p = s.
Proof. unfold removeprefix. by rewrite startswith_refl_app, drop_str_app. Qed.

Lemma take_drop_str n s : take_str n s +:+ drop_str n s = s.
Proof. revert s. induction n as [|n IH]; intros [|c s]; simpl; [done..|]. by rewrite IH. Qed.

Lemma length_take_str n s : String.length (take_str n s) = n `min` String.length s.
Proof. revert s. induction n as [|n IH]; intros [|c s]; simpl; [done..|]. by rewrite IH. Qed.

Lemma endswith_spec s p : endswith s p = true ↔ ∃ r, s = r +:+ p.
Proof.
  split.
  - induction s as [|c s IH]; cbn [endswith]; rewrite orb_true_iff, String.eqb_eq.
    + intros [<-|?]; [by exists ""|done].
    + intros [<-|H]; [by exists ""|]. destruct (IH H) as [r ->]. by exists (String c r).
  - intros [r ->]. induction r as [|c r IH].
    + simpl. destruct p; cbn [endswith]; by rewrite String.eqb_refl.
    + simpl String.append. cbn [endswith]. by rewrite IH, orb_true_r.
Qed.

(** ** [replace] *)

(** What is contained stands somewhere. *)
Lemma contains_elim s p : contains s p = true → ∃ u w, s = u +:+ p +:+ w.
Proof.
  induction s as [|c s IH].
  - cbn [contains]. rewrite orb_false_r. intros [w ->]%startswith_spec. by exists "", w.
  - change (contains (String c s) p) with (startswith (String c s) p || contains s p).
    intros [[w Hw]%startswith_spec|(u & w & ->)%IH]%orb_true_iff; [by exists "", w|by exists (String c u), w].
Qed.

(** A string in which [src] does not occur is unchanged. *)
Lemma replace_id s src dst : contains s src = false → replace s src dst = s.
Proof.
  unfold replace. induction s as [|c s IH]; [done|]. intros H.
  change (contains (String c s) src) with (startswith (String c s) src || contains s src) in H.
  apply orb_false_iff in H as [H1 H2].
  change (replace_go src dst 0 (String c s)) with
    (if startswith (String c s) src
     then dst +:+ replace_go src dst (pred (String.length src)) s
     else String c (replace_go src dst 0 s)).
  by rewrite H1, IH.
Qed.

Lemma contains_char_startswith c p s r :
  startswith s (String c p) = true → s = String c r → contains_char c s = true.
Proof. intros _ ->. unfold contains_char. simpl. by rewrite bool_decide_eq_true_2. Qed.

(** The first character of [sub] occurs wherever [sub] does. *)
Lemma contains_false_char c p s : contains_char c s = false → contains s (String c p) = false.
Proof.
  unfold contains_char. rewrite negb_false_iff. induction s as [|a s IH]; [done|].
  cbn [all_str]. rewrite andb_true_iff. intros [Ha Hs].
  change (contains (String a s) (String c p)) with
    (startswith (String a s) (String c p) || contains s (String c p)).
  rewrite IH by done. unfold startswith. simpl.
  destruct (ascii_dec c a); [|done]. subst. by rewrite bool_decide_eq_true_2 in Ha.
Qed.

#[export] Hint Rewrite app_str_nil_r length_app_str length_map_str lower_idem : cti_rw.
#[export] Hint Resolve strip_head strip_last lstrip_head rstrip_last : cti.

(** Splitting at a separator distributes over what stands before and after one
    of its occurrences. *)
Lemma split_sep c s t : split c (s +:+ String c t) = split c s ++ split c t.
Proof.
  induction s as [|a s IH]; simpl; [by rewrite bool_decide_eq_true_2|].
  rewrite IH. destruct (bool_decide (a = c)); [done|].
  pose proof (split_not_nil c s) as Hne. by destruct (split c s).
Qed.

Lemma split_inj c s t : split c s = split c t → s = t.
Proof. intros H. rewrite <- (join_split c s), <- (join_split c t). by rewrite H. Qed.

Lemma join_app c l k :
  l ≠ [] → k ≠ [] → join (String c "") (l ++ k) = join (String c "") l +:+ String c (join (String c "") k).
Proof.
  intros Hl Hk. induction l as [|w l IH]; [done|]. destruct l as [|w' l].
  - simpl. destruct k as [|v k]; [done|]. done.
  - change (join (String c "") ((w :: w' :: l) ++ k))
      with (w +:+ String c (join (String c "") ((w' :: l) ++ k))).
    rewrite IH by done. change (join (String c "") (w :: w' :: l))
      with (w +:+ String c (join (String c "") (w' :: l))).
    by rewrite <- app_str_assoc.
Qed.

(** A name is another or ends with it after a dot exactly if the labels of one
    are the last labels of the other. *)
Lemma label_suffix c s t :
  (s = t ∨ ∃ r, s = r +:+ String c t) ↔ split c t `suffix_of` split c s.
Proof.
  split.
  - intros [->|[r ->]]; [done|]. rewrite split_sep. by eexists.
  - intros [l Hl]. destruct l as [|w l]; [left; by apply (split_inj c)|right].
    exists (join (String c "") (w :: l)). rewrite <- (join_split c s), Hl.
    rewrite join_app; [|done|apply split_not_nil]. by rewrite join_split.
Qed.

(** Replacing a character by nothing. *)
Fixpoint remove_char (c : ascii) (s : string) : string :=
  match s with
  | "" => ""
  | String a s => if bool_decide (a = c) then remove_char c s else String a (remove_char c s)
  end.

Lemma replace_remove c s : replace s (String c "") "" = remove_char c s.
Proof.
  unfold replace. induction s as [|a s IH]; [done|]. simpl.
  unfold startswith. simpl. destruct (ascii_dec c a) as [->|Hne].
  - rewrite bool_decide_eq_true_2 by done. destruct s; simpl in *; done.
  - rewrite bool_decide_eq_false_2 by congruence. by rewrite IH.
Qed.

Lemma all_str_remove p c s : all_str p (remove_char c s) = all_str (λ a, bool_decide (a = c) || p a) s.
Proof.
  induction s as [|a s IH]; [done|]. simpl. case_bool_decide; simpl; by rewrite IH.
Qed.

(** ** Lines *)

Definition no_break (s : string) : bool := all_str (λ c, negb (is_linebreak c)) s.

Lemma splitlines_go_no_break a cur st s :
  no_break cur = true → Forall (λ l, no_break l = true) (splitlines_go a cur st s).
Proof.
  revert a cur st. induction s as [|c s IH]; intros a cur st Hcur; simpl.
  - destruct st; repeat constructor; done.
  - destruct (a && (code c =? 10)%N); [by apply IH|]. destruct (is_linebreak c) eqn:E.
    + constructor; [done|]. by apply IH.
    + apply IH. unfold no_break in *. rewrite all_str_app, Hcur. simpl. by rewrite E.
Qed.

Lemma splitlines_no_break s l : l ∈ splitlines s → no_break l = true.
Proof. intros Hl. pose proof (splitlines_go_no_break false "" false s eq_refl) as H. rewrite Forall_forall in H. by apply H. Qed.

Lemma splitlines_go_word w cur st s :
  no_break w = true →
  splitlines_go false cur st (w +:+ s) = splitlines_go false (cur +:+ w) (st || negb (String.eqb w "")) s.
Proof.
  revert cur st. induction w as [|c w IH]; intros cur st; [by rewrite app_str_nil_r, orb_false_r|].
  unfold no_break. simpl. rewrite andb_true_iff, negb_true_iff. intros [-> Hw].
  rewrite IH by done. rewrite orb_true_r, <- app_str_assoc. done.
Qed.

(** Lines without boundaries, joined by line feeds, are split again. *)
Lemma splitlines_join l :
  Forall (λ w, no_break w = true ∧ w ≠ "") l → splitlines (join (String (chr 10) "") l) = l.
Proof.
  unfold splitlines. intros H. induction H as [|w l [Hw Hne] Hall IH]; [done|].
  destruct l as [|w' l].
  - simpl. rewrite <- (app_str_nil_r w), splitlines_go_word by done. simpl. rewrite app_str_nil_r.
    apply String.eqb_neq in Hne. by rewrite Hne.
  - change (join (String (chr 10) "") (w :: w' :: l)) with (w +:+ String (chr 10) (join (String (chr 10) "") (w' :: l))).
    rewrite splitlines_go_word by done. cbn [splitlines_go]. simpl andb. cbn iota.
    change (is_linebreak (chr 10)) with true. cbn iota. f_equal. exact IH.
Qed.

(** A text of lines, each but perhaps the last closed by a line feed, with a
    carriage return before it or not. *)
Inductive written : list string → string → Prop :=
  | w_none : written [] ""
  | w_open l : no_break l = true → l ≠ "" → written [l] l
  | w_lf l ls t : no_break l = true → written ls t → written (l :: ls) (l +:+ String (chr 10) t)
  | w_crlf l ls t :
      no_break l = true → written ls t → written (l :: ls) (l +:+ String (chr 13) (String (chr 10) t)).

Lemma splitlines_written ls t : written ls t → splitlines t = ls.
Proof.
  unfold splitlines. induction 1 as [|l Hl Hne|l ls t Hl _ IH|l ls t Hl _ IH]; [done| | |].
  - rewrite <- (app_str_nil_r l) at 1. rewrite splitlines_go_word by done. apply String.eqb_neq in Hne. simpl. by rewrite Hne.
  - rewrite splitlines_go_word by done. cbn [splitlines_go]. change (is_linebreak (chr 10)) with true. simpl. by rewrite IH.
  - rewrite splitlines_go_word by done. cbn [splitlines_go]. change (is_linebreak (chr 13)) with true. simpl. by rewrite IH.
Qed.

Lemma last_ok_app p s t : t ≠ "" → last_ok p (s +:+ t) = last_ok p t.
Proof.
  intros Ht. induction s as [|c s IH]; [done|]. simpl.
  destruct (s +:+ t) eqn:E; [|done]. by destruct s, t.
Qed.

