(* ===== verification/PyDict.v ===== *)
(** Python dictionaries with string keys: insertion-ordered association lists.
    Assigning to a present key keeps its position, a new key goes last. *)

From S2P Require Import Prelude.

Section dict.
Context {V : Type}.
Implicit Types (d : list (string * V)) (k : string) (v : V).

(** [d.get(k)]. *)
Fixpoint dget d k : option V :=
  match d with
  | [] => None
  | (k', v) :: d => if String.eqb k' k then Some v else dget d k
  end.

(** [d[k] = v]. *)
Fixpoint dset d k v : list (string * V) :=
  match d with
  | [] => [(k, v)]
  | (k', v') :: d => if String.eqb k' k then (k', v) :: d else (k', v') :: dset d k v
  end.

(** [k in d]. *)
Definition dmem d k : bool := match dget d k with Some _ => true | None => false end.

Definition dkeys d : list string := map fst d.
Definition dvalues d : list V := map snd d.

(** [d.update(l)], and [dict(l)] for a list of pairs. *)
Definition dupdate d (l : list (string * V)) : list (string * V) :=
  fold_left (λ d kv, dset d kv.1 kv.2) l d.
Definition dict (l : list (string * V)) : list (string * V) := dupdate [] l.

Lemma dget_app d d' k :
  dget (d ++ d') k = match dget d k with Some v => Some v | None => dget d' k end.
Proof. induction d as [|[k' v] d IH]; [done|]. simpl. by destruct (String.eqb k' k). Qed.

Lemma dget_dset d k k' v :
  dget (dset d k v) k' = if decide (k = k') then Some v else dget d k'.
Proof.
  induction d as [|[j w] d IH]; simpl.
  - case_decide as E; destruct (String.eqb_spec k k'); done.
  - destruct (String.eqb_spec j k) as [->|Hj]; simpl.
    + case_decide; destruct (String.eqb_spec k k'); done.
    + rewrite IH. destruct (String.eqb_spec j k'); [|done]. by case_decide; subst.
Qed.

Lemma dget_dset_eq d k v : dget (dset d k v) k = Some v.
Proof. rewrite dget_dset. by case_decide. Qed.

Lemma dget_dset_ne d k k' v : k ≠ k' → dget (dset d k v) k' = dget d k'.
Proof. intros. rewrite dget_dset. by case_decide. Qed.

Lemma dget_None d k : dget d k = None ↔ k ∉ dkeys d.
Proof.
  induction d as [|[j w] d IH]; simpl; [set_solver|].
  destruct (String.eqb_spec j k) as [->|Hj]; [set_solver|]. rewrite IH. set_solver.
Qed.

Lemma dget_Some_elem d k v : dget d k = Some v → (k, v) ∈ d.
Proof.
  induction d as [|[j w] d IH]; simpl; [done|].
  destruct (String.eqb_spec j k) as [->|Hj]; [intros [= ->]|]; set_solver.
Qed.

Lemma dget_elem d k v : NoDup (dkeys d) → (k, v) ∈ d → dget d k = Some v.
Proof.
  induction d as [|[j w] d IH]; simpl; [set_solver|].
  intros [Hj Hd]%NoDup_cons [Heq|Hin]%elem_of_cons; [simplify_eq|].
  - by rewrite String.eqb_refl.
  - destruct (String.eqb_spec j k) as [->|]; [|by apply IH].
    destruct Hj. apply list_elem_of_fmap. by exists (k, v).
Qed.

Lemma dkeys_dset d k v :
  dkeys (dset d k v) = if decide (k ∈ dkeys d) then dkeys d else dkeys d ++ [k].
Proof.
  induction d as [|[j w] d IH]; [rewrite decide_False by set_solver; done|]. simpl.
  destruct (String.eqb_spec j k) as [->|Hj]; simpl.
  - by rewrite decide_True by set_solver.
  - rewrite IH. case_decide; case_decide; set_solver.
Qed.

Lemma NoDup_dset d k v : NoDup (dkeys d) → NoDup (dkeys (dset d k v)).
Proof.
  intros Hd. rewrite dkeys_dset. case_decide; [done|].
  apply NoDup_app. split; [done|]. split; [set_solver|]. apply NoDup_singleton.
Qed.

Lemma dset_new d k v : dget d k = None → dset d k v = d ++ [(k, v)].
Proof.
  induction d as [|[j w] d IH]; simpl; [done|].
  destruct (String.eqb_spec j k); [done|]. intros H. by rewrite IH.
Qed.

Lemma dset_same d k v : dget d k = Some v → dset d k v = d.
Proof.
  induction d as [|[j w] d IH]; simpl; [done|].
  destruct (String.eqb_spec j k) as [->|]; [by intros [= ->]|]. intros H. by rewrite IH.
Qed.

Lemma NoDup_dupdate d l : NoDup (dkeys d) → NoDup (dkeys (dupdate d l)).
Proof.
  unfold dupdate. revert d. induction l as [|[k v] l IH]; intros d Hd; [done|].
  simpl. by apply IH, NoDup_dset.
Qed.

Lemma NoDup_dict l : NoDup (dkeys (dict l)).
Proof. apply NoDup_dupdate. constructor. Qed.
End dict.

Lemma dupdate_fresh {V} (d l : list (string * V)) :
  NoDup (dkeys (d ++ l)) → dupdate d l = d ++ l.
Proof.
  revert d. induction l as [|[k v] l IH]; intros d Hnd; [by rewrite app_nil_r|].
  unfold dupdate in *. simpl. rewrite dset_new.
  - rewrite IH; [by rewrite <- app_assoc|]. by rewrite <- app_assoc.
  - apply dget_None. unfold dkeys in *. rewrite map_app in Hnd. intros Hin.
    apply NoDup_app in Hnd as (_ & Hdis & _). apply (Hdis k); [done|]. simpl. set_solver.
Qed.

Lemma dict_id {V} (d : list (string * V)) : NoDup (dkeys d) → dict d = d.
Proof. intros H. by apply (dupdate_fresh []). Qed.

(** [list(dict.fromkeys(l))]: the distinct elements in order of first
    occurrence. *)
Definition fromkeys_step (acc : list string) (x : string) : list string :=
  if decide (x ∈ acc) then acc else acc ++ [x].
Definition fromkeys (l : list string) : list string := fold_left fromkeys_step l [].

Lemma fold_fromkeys_elem l acc x :
  x ∈ fold_left fromkeys_step l acc ↔ x ∈ acc ∨ x ∈ l.
Proof.
  revert acc. induction l as [|y l IH]; intros acc; simpl; [set_solver|].
  rewrite IH. unfold fromkeys_step. case_decide; set_solver.
Qed.

Lemma fold_fromkeys_NoDup l acc : NoDup acc → NoDup (fold_left fromkeys_step l acc).
Proof.
  revert acc. induction l as [|y l IH]; intros acc Hacc; simpl; [done|].
  apply IH. unfold fromkeys_step. case_decide; [done|].
  apply NoDup_app. split; [done|]. split; [set_solver|]. apply NoDup_singleton.
Qed.

Lemma fromkeys_elem l x : x ∈ fromkeys l ↔ x ∈ l.
Proof. unfold fromkeys. rewrite fold_fromkeys_elem. set_solver. Qed.

Lemma fromkeys_NoDup l : NoDup (fromkeys l).
Proof. apply fold_fromkeys_NoDup. constructor. Qed.

Lemma fold_fromkeys_id l acc :
  NoDup (acc ++ l) → fold_left fromkeys_step l acc = acc ++ l.
Proof.
  revert acc. induction l as [|y l IH]; intros acc H; simpl; [by rewrite app_nil_r|].
  unfold fromkeys_step at 2. apply NoDup_app in H as (Hacc & Hd & Hl).
  rewrite decide_False by set_solver.
  rewrite IH; [by rewrite <- app_assoc|]. rewrite <- app_assoc. simpl.
  apply NoDup_app. set_solver.
Qed.

Lemma fromkeys_id l : NoDup l → fromkeys l = l.
Proof. intros. by apply fold_fromkeys_id. Qed.

#[export] Hint Resolve NoDup_dset NoDup_dict NoDup_dupdate fromkeys_NoDup : cti.
#[export] Hint Rewrite @dget_dset_eq : cti_rw.
