(* ===== verification/PyVal.v ===== *)
(** Python values as they occur in records, watermarks and configuration: the
    values of JSON and YAML documents, with [bool], [str], [int] and truth. *)

From S2P Require Import Prelude Errors PyStr PyDict.

(** A [float] is represented by what the code observes of it: its [repr], the
    integer [int(f)] truncates to ([None] for an infinity, for which [int]
    raises [OverflowError], and for a NaN, for which it raises [ValueError]),
    and whether it is zero or NaN. *)
Record pyfloat := PyFloatV {
  f_repr : string;
  f_trunc : option Z;
  f_is_zero : bool;
  f_is_nan : bool
}.

Inductive pyval :=
  | PyNone
  | PyBool (b : bool)
  | PyInt (n : Z)
  | PyFloat (f : pyfloat)
  | PyStr (s : string)
  | PyList (l : list pyval)
  | PyDict (d : list (string * pyval)).

(** Structural induction through the lists and dictionaries. *)
Section pyval_ind.
Context (P : pyval → Prop).
Context (HNone : P PyNone) (HBool : ∀ b, P (PyBool b)) (HInt : ∀ n, P (PyInt n)).
Context (HFloat : ∀ f, P (PyFloat f)) (HStr : ∀ s, P (PyStr s)).
Context (HList : ∀ l, Forall P l → P (PyList l)).
Context (HDict : ∀ d, Forall (λ kv, P kv.2) d → P (PyDict d)).

Fixpoint pyval_nested_ind (v : pyval) : P v :=
  match v with
  | PyNone => HNone
  | PyBool b => HBool b
  | PyInt n => HInt n
  | PyFloat f => HFloat f
  | PyStr s => HStr s
  | PyList l =>
      HList l ((fix go l : Forall P l :=
        match l with
        | [] => Forall_nil_2 _
        | v :: l => Forall_cons_2 _ _ _ (pyval_nested_ind v) (go l)
        end) l)
  | PyDict d =>
      HDict d ((fix go d : Forall (λ kv, P kv.2) d :=
        match d with
        | [] => Forall_nil_2 _
        | kv :: d => Forall_cons_2 _ _ _ (pyval_nested_ind kv.2) (go d)
        end) d)
  end.
End pyval_ind.

(** A record or a configuration mapping. *)
Abbreviation pydict := (list (string * pyval)).

(** ** Truth *)

Definition truthy (v : pyval) : bool :=
  match v with
  | PyNone => false
  | PyBool b => b
  | PyInt n => negb (Z.eqb n 0)
  | PyFloat f => negb (f_is_zero f)
  | PyStr s => negb (String.eqb s "")
  | PyList l => match l with [] => false | _ => true end
  | PyDict d => match d with [] => false | _ => true end
  end.

(** ** [repr] and [str] *)

Definition quote_char : ascii := chr 39.
Definition dquote_char : ascii := chr 34.

Definition hex_digit (n : N) : ascii := chr (if N.ltb n 10 then 48 + n else 87 + n)%N.

(** [repr] of one character inside quotes [q]. *)
Definition repr_char (q c : ascii) : string :=
  let n := code c in
  if bool_decide (c = q) || N.eqb n 92 then String (chr 92) (String c "")
  else if N.eqb n 9 then String (chr 92) "t"
  else if N.eqb n 10 then String (chr 92) "n"
  else if N.eqb n 13 then String (chr 92) "r"
  else if N.ltb n 32 || (N.leb 127 n && N.leb n 160) || N.eqb n 173
  then String (chr 92) (String "x" (String (hex_digit (n / 16)) (String (hex_digit (n mod 16)) "")))
  else String c "".

(** [repr(s)]: single quotes unless the string holds one and no double quote. *)
Definition repr_str (s : string) : string :=
  let q := if contains_char quote_char s && negb (contains_char dquote_char s)
           then dquote_char else quote_char in
  let fix go s := match s with "" => "" | String c s => repr_char q c +:+ go s end in
  String q (go s +:+ String q "").

Fixpoint py_repr (v : pyval) : string :=
  match v with
  | PyNone => "None"
  | PyBool true => "True"
  | PyBool false => "False"
  | PyInt n => str_of_Z n
  | PyFloat f => f_repr f
  | PyStr s => repr_str s
  | PyList l => "[" +:+ join ", " (map py_repr l) +:+ "]"
  | PyDict d =>
      "{" +:+ join ", " (map (λ kv, repr_str kv.1 +:+ ": " +:+ py_repr kv.2) d) +:+ "}"
  end.

(** [str(v)]. *)
Definition py_str (v : pyval) : string :=
  match v with PyStr s => s | _ => py_repr v end.

(** ** [int] *)

(** A literal of [int(s)]: digits with single underscores between them. *)
Fixpoint int_digits (p : ascii → bool) (after_digit : bool) (s : string) : option string :=
  match s with
  | "" => if after_digit then Some "" else None
  | String c s =>
      if p c then String c <$> int_digits p true s
      else if N.eqb (code c) 95 && after_digit
           then match s with
                | String d _ => if p d then int_digits p false s else None
                | "" => None
                end
           else None
  end.

Lemma int_digits_all p b u : all_str p u = true → u ≠ "" ∨ b = true → int_digits p b u = Some u.
Proof.
  revert b. induction u as [|c u IH]; intros b; simpl; [intros _ [?| ->]; done|].
  intros [Hc Hu]%andb_true_iff _. rewrite Hc, IH by auto. done.
Qed.

(** The interpreter refuses to convert more digits than this by default. *)
Definition int_max_str_digits : nat := 4300.

(** The blanks [int] skips: those of C and the two non-ASCII spaces. *)
Definition is_int_space (c : ascii) : bool :=
  in_range 9 13 c || existsb (N.eqb (code c)) [32; 133; 160]%N.

Definition int_sign (t : string) : Z * string :=
  match t with String "-" u => ((-1)%Z, u) | String "+" u => (1%Z, u) | _ => (1%Z, t) end.

Definition int_of_str (s : string) : res Z :=
  let bad := raise ValueError ("invalid literal for int() with base 10: " +:+ repr_str s) in
  let '(sign, u) := int_sign (strip_by is_int_space s) in
  match int_digits is_digit false u with
  | Some ds => if (int_max_str_digits <? String.length ds)%nat then bad
               else Ok (sign * Z.of_N (digits_val 0 ds))%Z
  | None => bad
  end.

(** [int(v)]. *)
Definition py_int (v : pyval) : res Z :=
  match v with
  | PyBool b => Ok (if b then 1 else 0)%Z
  | PyInt n => Ok n
  | PyFloat f =>
      match f_trunc f with
      | Some n => Ok n
      | None => if f_is_nan f then raise ValueError "cannot convert float NaN to integer"
                else raise OverflowError "cannot convert float infinity to integer"
      end
  | PyStr s => int_of_str s
  | PyNone | PyList _ | PyDict _ =>
      raise TypeError "int() argument must be a string, a bytes-like object or a real number"
  end.

(** ** Samples, checked against the interpreter *)

Example int_of_str_underscore : int_of_str " -1_000 " = Ok (-1000)%Z.
Proof. reflexivity. Qed.
Example int_of_str_bad : is_ok (int_of_str "1__0") = false.
Proof. reflexivity. Qed.
Example repr_nested :
  py_repr (PyDict [("a", PyList [PyInt 1; PyStr "it's"; PyNone])])
  = "{'a': [1, " +:+ String dquote_char ("it's" +:+ String dquote_char ", None]}").
Proof. vm_compute. reflexivity. Qed.
