(* ===== verification/Regex.v ===== *)
(** Regular expressions of Python's [re], on the subset the sources use: a
    backtracking matcher with greedy bounded and unbounded repetition, ordered
    alternation, groups, anchors and word boundaries.  The matcher explores the
    choices in Python's order and returns the first success. *)

From S2P Require Import Prelude PyStr PyStrFacts.

(** ** Syntax *)

Inductive regex :=
  | RChar (p : ascii → bool)                  (* one character of a class *)
  | REps
  | RSeq (r1 r2 : regex)
  | RAlt (r1 r2 : regex)                      (* tried from left to right *)
  | RRepeat (r : regex) (lo : nat) (hi : option nat)   (* greedy {lo,hi} *)
  | RGroup (n : nat) (r : regex)              (* capturing group *)
  | RWordB                                    (* \b *)
  | RStart                                    (* ^ *)
  | REnd.                                     (* $: the end, or before a final \n *)

Definition RStar (r : regex) : regex := RRepeat r 0 None.
Definition RPlus (r : regex) : regex := RRepeat r 1 None.
Definition ROpt (r : regex) : regex := RRepeat r 0 (Some 1).

Definition RLit (c : ascii) : regex := RChar (λ a, bool_decide (a = c)).
(** A literal under [re.IGNORECASE]. *)
Definition RLitI (c : ascii) : regex := RChar (λ a, bool_decide (lower_char a = lower_char c)).

Fixpoint RStr (s : string) : regex :=
  match s with "" => REps | String c s => RSeq (RLit c) (RStr s) end.
Fixpoint RStrI (s : string) : regex :=
  match s with "" => REps | String c s => RSeq (RLitI c) (RStrI s) end.

(** ** Matching *)

(** A position: the character before it, if any, and the text after it. *)
Record pos := Pos { before : option ascii; after : string }.

Definition advance (c : ascii) (s : string) : pos := Pos (Some c) s.

Definition wordish (o : option ascii) : bool :=
  match o with Some c => is_word c | None => false end.
Definition head_char (s : string) : option ascii :=
  match s with "" => None | String c _ => Some c end.

Definition at_word_boundary (p : pos) : bool :=
  xorb (wordish (before p)) (wordish (head_char (after p))).

Definition at_end (p : pos) : bool :=
  String.eqb (after p) "" || String.eqb (after p) (String (chr 10) "").

(** Captured groups: the text captured by each group, the last capture wins. *)
Definition captures := list (nat * string).

(** What the text before a later position of the same subject was. *)
Definition consumed (p q : pos) : string :=
  take_str (String.length (after p) - String.length (after q)) (after p).

Definition cont := pos → captures → option (pos * captures).

(** Iteration of a repetition whose body is matched by [body].  [n] bounds the
    number of iterations still allowed; an iteration that consumes nothing is
    not repeated. *)
Fixpoint repeat_match (n : nat) (lo : nat) (body : cont → cont) (k : cont) : cont :=
  λ p cs,
    match n with
    | O => if (lo =? 0)%nat then k p cs else None
    | S n =>
        let more := body (λ q cs',
          if (String.length (after q) =? String.length (after p))%nat
          then (if (lo =? 0)%nat then None else repeat_match n (pred lo) body k q cs')
          else repeat_match n (pred lo) body k q cs') p cs in
        match more with
        | Some r => Some r
        | None => if (lo =? 0)%nat then k p cs else None
        end
    end.

(** The bound on iterations of an unbounded repetition: each useful iteration
    consumes a character, besides the [lo] mandatory ones. *)
Definition repeat_bound (lo : nat) (hi : option nat) (p : pos) : nat :=
  match hi with Some h => h | None => lo + S (String.length (after p)) end.

Fixpoint rmatch (r : regex) (k : cont) : cont :=
  λ p cs,
    match r with
    | RChar f =>
        match after p with
        | String c s => if f c then k (advance c s) cs else None
        | "" => None
        end
    | REps => k p cs
    | RSeq r1 r2 => rmatch r1 (rmatch r2 k) p cs
    | RAlt r1 r2 =>
        match rmatch r1 k p cs with Some x => Some x | None => rmatch r2 k p cs end
    | RRepeat r lo hi => repeat_match (repeat_bound lo hi p) lo (rmatch r) k p cs
    | RGroup n r => rmatch r (λ q cs', k q ((n, consumed p q) :: cs')) p cs
    | RWordB => if at_word_boundary p then k p cs else None
    | RStart => match before p with None => k p cs | Some _ => None end
    | REnd => if at_end p then k p cs else None
    end.

(** A match object: [m.group(0)], the groups, and where the match ended. *)
Record match_obj := Match { m_text : string; m_groups : captures; m_end : pos }.

Definition group (m : match_obj) (n : nat) : string :=
  match find (λ g, Nat.eqb g.1 n) (m_groups m) with Some g => g.2 | None => "" end.

(** A match beginning exactly at [p]. *)
Definition match_at (r : regex) (p : pos) : option match_obj :=
  match rmatch r (λ q cs, Some (q, cs)) p [] with
  | Some (q, cs) => Some (Match (consumed p q) cs q)
  | None => None
  end.

Definition start_pos (s : string) : pos := Pos None s.

(** [pattern.match(s)]. *)
Definition re_match (r : regex) (s : string) : option match_obj := match_at r (start_pos s).

(** The segments of a subject: text copied through, and matches.  After an
    empty match one character is copied; the patterns of the sources match no
    empty text.  [skip] counts characters inside the match just taken. *)
Inductive segment := Copied (c : ascii) | Matched (m : match_obj).

Fixpoint scan (r : regex) (prev : option ascii) (skip : nat) (s : string) : list segment :=
  match s with
  | "" => []
  | String c s' =>
      match skip with
      | S k => scan r (Some c) k s'
      | O =>
          match match_at r (Pos prev s) with
          | Some m =>
              match String.length (m_text m) with
              | O => Copied c :: scan r (Some c) 0 s'
              | S k => Matched m :: scan r (Some c) k s'
              end
          | None => Copied c :: scan r (Some c) 0 s'
          end
      end
  end.

Definition segments (r : regex) (s : string) : list segment := scan r None 0 s.

(** [pattern.finditer(s)]. *)
Definition finditer (r : regex) (s : string) : list match_obj :=
  omap (λ g, match g with Matched m => Some m | Copied _ => None end) (segments r s).

(** [pattern.sub(repl, s)] for a replacement function. *)
Definition re_sub (r : regex) (repl : match_obj → string) (s : string) : string :=
  fold_right (λ g acc, match g with
                       | Copied c => String c acc
                       | Matched m => repl m +:+ acc
                       end) "" (segments r s).

(** ** Facts *)

(** A position reached from [p] is a suffix of it. *)
Definition later (p q : pos) : Prop := ∃ n, drop_str n (after p) = after q.

#[export] Instance later_refl : Reflexive later.
Proof. intros p. by exists 0. Qed.

Lemma drop_str_add n m s : drop_str m (drop_str n s) = drop_str (n + m) s.
Proof.
  revert s. induction n as [|n IH]; intros s; [done|].
  destruct s as [|c s]; simpl; [by destruct m|apply IH].
Qed.

#[export] Instance later_trans : Transitive later.
Proof.
  intros p q r [n Hn] [m Hm]. exists (n + m). rewrite <- drop_str_add. by rewrite Hn.
Qed.

(** A continuation that only succeeds at a position reached from the one it is
    given. *)
Definition cont_later (k : cont) : Prop := ∀ p cs q cs', k p cs = Some (q, cs') → later p q.

Lemma repeat_match_later n lo body k :
  (∀ k, cont_later k → cont_later (body k)) → cont_later k →
  cont_later (repeat_match n lo body k).
Proof.
  intros Hbody. revert lo k. induction n as [|n IH]; intros lo k Hk p cs q cs'; simpl.
  - case_match; [apply Hk|done].
  - match goal with |- context [body ?f p cs] => set (g := f) end.
    destruct (body g p cs) as [[q' cs'']|] eqn:E.
    + intros [= <- <-]. refine (Hbody g _ _ _ _ _ E).
      intros q1 c1 q2 c2. unfold g. repeat case_match; try done; apply IH; done.
    + case_match; [apply Hk|done].
Qed.

Lemma rmatch_later r k : cont_later k → cont_later (rmatch r k).
Proof.
  revert k. induction r as [f| |r1 IH1 r2 IH2|r1 IH1 r2 IH2|r IH lo hi|m r IH| | |];
    intros k Hk p cs q cs'; simpl.
  - destruct (after p) as [|c s] eqn:Ep; [done|]. case_match; [|done].
    intros Hr. apply Hk in Hr as [n Hn]. exists (S n). by rewrite Ep.
  - apply Hk.
  - apply (IH1 (rmatch r2 k)). by apply IH2.
  - destruct (rmatch r1 k p cs) as [[??]|] eqn:E; [intros [= <- <-]; eapply IH1; eauto|].
    by apply IH2.
  - apply (repeat_match_later _ _ (rmatch r)); [done|done].
  - apply (IH (λ q cs', k q ((m, consumed p q) :: cs'))). intros q1 c1 q2 c2. apply Hk.
  - case_match; [apply Hk|done].
  - case_match; [done|apply Hk].
  - case_match; [apply Hk|done].
Qed.

Lemma length_drop_str n s : String.length (drop_str n s) = String.length s - n.
Proof. revert s. induction n as [|n IH]; intros [|c s]; simpl; [done..|apply IH]. Qed.

Lemma drop_str_all n s : String.length s <= n → drop_str n s = "".
Proof. revert s. induction n as [|n IH]; intros [|c s]; simpl; intros; [done|lia|done|apply IH; lia]. Qed.

Lemma consumed_app p q : later p q → after p = consumed p q +:+ after q.
Proof.
  intros [n Hn]. unfold consumed. rewrite <- Hn, length_drop_str.
  destruct (decide (n <= String.length (after p))).
  - replace (String.length (after p) - (String.length (after p) - n)) with n by lia.
    by rewrite take_drop_str.
  - rewrite drop_str_all by lia.
    replace (String.length (after p) - (String.length (after p) - n))
      with (String.length (after p)) by lia.
    rewrite <- (take_drop_str (String.length (after p)) (after p)) at 1.
    by rewrite (drop_str_all (String.length (after p))) by lia.
Qed.

Lemma match_at_split r p m : match_at r p = Some m → after p = m_text m +:+ after (m_end m).
Proof.
  unfold match_at. destruct (rmatch r _ p []) as [[q cs]|] eqn:E; [|done].
  intros [= <-]. simpl. apply consumed_app.
  refine (rmatch_later r _ _ p [] q cs E). by intros ???? [= <- <-].
Qed.

(** Replacing every match by its own text gives the subject back: [sub]
    touches nothing between the matches and loses nothing. *)
Lemma scan_identity r s prev skip :
  fold_right (λ g acc, match g with
                       | Copied c => String c acc
                       | Matched m => m_text m +:+ acc
                       end) "" (scan r prev skip s) = drop_str skip s.
Proof.
  revert prev skip. induction s as [|c s IH]; intros prev skip; [by destruct skip|].
  destruct skip as [|skip]; [|simpl; apply IH]. simpl scan.
  destruct (match_at r (Pos prev (String c s))) as [m|] eqn:E.
  - apply match_at_split in E. simpl in E.
    destruct (m_text m) as [|c' t] eqn:Et; simpl.
    + by rewrite IH.
    + rewrite Et, IH. simpl in E. injection E as -> ->. by rewrite drop_str_app.
  - simpl. by rewrite IH.
Qed.

Lemma re_sub_identity r s : re_sub r m_text s = s.
Proof. unfold re_sub, segments. by rewrite scan_identity. Qed.

(** Without a match nothing is replaced. *)
Lemma re_sub_no_match r repl s : finditer r s = [] → re_sub r repl s = s.
Proof.
  intros H. rewrite <- (re_sub_identity r s) at 2. unfold re_sub.
  unfold finditer in H. induction (segments r s) as [|[c|m] l IH]; simpl in *; [done| |done].
  by rewrite IH.
Qed.

