(* ===== verification/RegexFacts.v ===== *)
(** A declarative semantics of the regular expressions and the soundness of the
    backtracking matcher for it, with the shape lemmas the clients use. *)

From S2P Require Import Prelude PyStr PyStrFacts Regex.

(** [span r p q]: [r] can match the text between the positions [p] and [q]. *)
Inductive span : regex → pos → pos → Prop :=
  | span_char f c s b : f c = true → span (RChar f) (Pos b (String c s)) (Pos (Some c) s)
  | span_eps p : span REps p p
  | span_seq r1 r2 p q t : span r1 p q → span r2 q t → span (RSeq r1 r2) p t
  | span_alt_l r1 r2 p q : span r1 p q → span (RAlt r1 r2) p q
  | span_alt_r r1 r2 p q : span r2 p q → span (RAlt r1 r2) p q
  | span_rep_nil r hi p : span (RRepeat r 0 hi) p p
  | span_rep_cons r lo hi p q t :
      hi ≠ Some 0 → span r p q → span (RRepeat r (pred lo) (pred <$> hi)) q t →
      span (RRepeat r lo hi) p t
  | span_group n r p q : span r p q → span (RGroup n r) p q
  | span_wordb p : at_word_boundary p = true → span RWordB p p
  | span_start p : before p = None → span RStart p p
  | span_end p : at_end p = true → span REnd p p.

(** A matcher for the continuation-passing style is sound for a relation when
    each of its successes goes through a related position. *)
Definition sound_for (R : pos → pos → Prop) (m : cont → cont) : Prop :=
  ∀ k p cs x, m k p cs = Some x → ∃ q cs', R p q ∧ k q cs' = Some x.

Lemma repeat_match_sound r m hi n lo :
  sound_for (span r) m → (∀ h, hi = Some h → n <= h) →
  sound_for (span (RRepeat r lo hi)) (repeat_match n lo m).
Proof.
  intros Hm. revert lo hi. induction n as [|n IH]; intros lo hi Hn k p cs x; simpl.
  - destruct lo; simpl; [|done]. intros. do 2 eexists. split; [apply span_rep_nil|done].
  - match goal with |- context [m ?f p cs] => set (g := f) end.
    destruct (m g p cs) as [y|] eqn:E.
    + intros [= <-]. apply Hm in E as (q & cs' & Hpq & Hg).
      assert (repeat_match n (pred lo) m k q cs' = Some y) as Hy.
      { clear -Hg. unfold g in Hg.
        destruct (String.length (after q) =? String.length (after p))%nat; [|exact Hg].
        destruct (lo =? 0)%nat; [done|exact Hg]. }
      apply (IH (pred lo) (pred <$> hi)) in Hy as (t & cs'' & Hqt & Hk).
      * do 2 eexists. split; [|done]. eapply span_rep_cons; [|done|done].
        intros ->. specialize (Hn 0 eq_refl). lia.
      * intros h. destruct hi as [h'|]; simpl; [|done]. intros [= <-].
        specialize (Hn h' eq_refl). lia.
    + destruct lo; simpl; [|done]. intros. do 2 eexists. split; [apply span_rep_nil|done].
Qed.

Lemma rmatch_sound r : sound_for (span r) (rmatch r).
Proof.
  induction r as [f| |r1 IH1 r2 IH2|r1 IH1 r2 IH2|r IH lo hi|m r IH| | |];
    intros k p cs x; simpl.
  - destruct p as [b [|c s]]; simpl; [done|]. destruct (f c) eqn:E; [|done].
    intros. do 2 eexists. split; [by constructor|done].
  - intros. do 2 eexists. split; [constructor|done].
  - intros (q & cs' & Hpq & (t & cs'' & Hqt & Hk)%IH2)%IH1.
    do 2 eexists. split; [by econstructor|done].
  - destruct (rmatch r1 k p cs) as [y|] eqn:E.
    + intros [= <-]. apply IH1 in E as (q & cs' & Hpq & Hk).
      do 2 eexists. split; [by apply span_alt_l|done].
    + intros (q & cs' & Hpq & Hk)%IH2. do 2 eexists. split; [by apply span_alt_r|done].
  - apply repeat_match_sound; [done|]. by intros h ->.
  - intros (q & cs' & Hpq & Hk)%IH. do 2 eexists. split; [by constructor|done].
  - destruct (at_word_boundary p) eqn:E; [|done].
    intros. do 2 eexists. split; [by constructor|done].
  - destruct (before p) eqn:E; [done|]. intros. do 2 eexists. split; [by constructor|done].
  - destruct (at_end p) eqn:E; [|done]. intros. do 2 eexists. split; [by constructor|done].
Qed.

(** A match object describes a span of the subject. *)
Lemma match_at_sound r p m : match_at r p = Some m → span r p (m_end m).
Proof.
  unfold match_at. destruct (rmatch r _ p []) as [[q cs]|] eqn:E; [|done].
  apply rmatch_sound in E as (q' & cs' & Hs & [= -> ->]). by intros [= <-].
Qed.

(** ** Shapes *)

Lemma span_lit_iff (f : ascii → bool) p q :
  span (RChar f) p q → ∃ c, after p = String c (after q) ∧ f c = true.
Proof. inversion 1 as [f' c s b Hc| | | | | | | | | |]; subst. by exists c. Qed.

(** A repetition of a class spans a text of characters of the class. *)
Lemma span_repeat_chars f lo hi p q :
  span (RRepeat (RChar f) lo hi) p q →
  ∃ w, after p = w +:+ after q ∧ all_str f w = true ∧
       lo <= String.length w ∧ (∀ h, hi = Some h → String.length w <= h).
Proof.
  remember (RRepeat (RChar f) lo hi) as r eqn:Er. intros H. revert lo hi Er.
  induction H as [| | | | |r hi' p|r lo' hi' p q t Hhi H1 _ H2 IH2| | | |];
    intros lo hi Er; simplify_eq.
  - exists "". repeat split; [lia|]. intros. simpl. lia.
  - apply span_lit_iff in H1 as (c & Hp & Hc).
    destruct (IH2 _ _ eq_refl) as (w & Hw & Hall & Hlo & Hhi').
    exists (String c w). rewrite Hp, Hw. simpl. repeat split; [by rewrite Hc, Hall|lia|].
    intros h ->. specialize (Hhi' _ eq_refl). destruct h; [done|]. simpl in Hhi'. lia.
Qed.

Lemma at_end_cases p : at_end p = true → after p = "" ∨ after p = String (chr 10) "".
Proof. unfold at_end. rewrite orb_true_iff, !String.eqb_eq. done. Qed.

(** Without any character accepted by the first class, nothing matches. *)
Lemma match_at_None r p :
  (∀ q, ¬ span r p q) → match_at r p = None.
Proof.
  intros H. destruct (match_at r p) as [m|] eqn:E; [|done].
  by apply match_at_sound, H in E.
Qed.

(** A pattern that cannot match at any suffix of the subject has no match. *)
Lemma scan_no_match r s prev :
  (∀ b t q, (∃ u, s = u +:+ t) → ¬ span r (Pos b t) q) →
  scan r prev 0 s = Copied <$> String.list_ascii_of_string s.
Proof.
  revert prev. induction s as [|c s IH]; intros prev H; [done|]. simpl.
  rewrite match_at_None.
  - rewrite IH; [done|]. intros b t q [u ->]. apply H. by exists (String c u).
  - intros q. apply H. by exists "".
Qed.

Lemma finditer_no_match r s :
  (∀ b t q, (∃ u, s = u +:+ t) → ¬ span r (Pos b t) q) → finditer r s = [].
Proof.
  intros H. unfold finditer, segments. rewrite scan_no_match by done.
  by induction (String.list_ascii_of_string s).
Qed.

(** A pattern that needs a character [c] does not match text without it. *)
Lemma re_sub_needs_char r repl c s :
  (∀ p q, span r p q → ∃ u v, after p = u +:+ String c v) →
  contains_char c s = false → re_sub r repl s = s.
Proof.
  intros Hneed Hc. apply re_sub_no_match, finditer_no_match.
  intros b t q [u ->] Hs. apply Hneed in Hs as (v & w & Hv). simpl in Hv. subst t.
  unfold contains_char in Hc. rewrite negb_false_iff, !all_str_app in Hc. simpl in Hc.
  rewrite bool_decide_eq_true_2 in Hc by done. simpl in Hc.
  by rewrite !andb_false_r in Hc.
Qed.

(** A span is text followed by what is left. *)
Lemma span_text r p q : span r p q → ∃ w, after p = w +:+ after q.
Proof.
  induction 1 as [f c s b _|p|r1 r2 p q t _ [w Hw] _ [v Hv]|r1 r2 p q _ IH|r1 r2 p q _ IH|r hi p
    |r lo hi p q t _ _ [w Hw] _ [v Hv]|n r p q _ IH|p _|p _|p _]; try done; try by exists "".
  - by exists (String c "").
  - exists (w +:+ v). by rewrite Hw, Hv, app_str_assoc.
  - exists (w +:+ v). by rewrite Hw, Hv, app_str_assoc.
Qed.

(** The class accepts the character [c] at most. *)
Definition only_char (c : ascii) (f : ascii → bool) : bool :=
  forallb (λ a, negb (f a) || bool_decide (a = c)) all_ascii.

Lemma only_char_sound c f a : only_char c f = true → f a = true → a = c.
Proof.
  intros Hn Hf. pose proof (by_ascii (λ a, negb (f a) || bool_decide (a = c)) Hn a) as Ha.
  simpl in Ha. rewrite Hf in Ha. by apply bool_decide_eq_true in Ha.
Qed.

(** The pattern can match no text without the character [c]. *)
Fixpoint needs (c : ascii) (r : regex) : bool :=
  match r with
  | RChar f => only_char c f
  | RSeq r1 r2 => needs c r1 || needs c r2
  | RAlt r1 r2 => needs c r1 && needs c r2
  | RRepeat r lo _ => (1 <=? lo)%nat && needs c r
  | RGroup _ r => needs c r
  | _ => false
  end.

Lemma needs_sound c r p q : span r p q → needs c r = true → ∃ u v, after p = u +:+ String c v.
Proof.
  induction 1 as [f a s b Hf|p|r1 r2 p q t H1 IH1 _ IH2|r1 r2 p q _ IH|r1 r2 p q _ IH|r hi p
    |r lo hi p q t _ _ IH _ _|n r p q _ IH|p _|p _|p _]; simpl; try done.
  - intros Hn. rewrite (only_char_sound _ _ _ Hn Hf). by exists "", s.
  - intros [Hn|Hn]%orb_true_iff; [by apply IH1|].
    destruct (span_text _ _ _ H1) as [w ->]. destruct (IH2 Hn) as (u & v & ->).
    exists (w +:+ u), v. by rewrite app_str_assoc.
  - intros [Hn _]%andb_true_iff. by apply IH.
  - intros [_ Hn]%andb_true_iff. by apply IH.
  - intros [_ Hn]%andb_true_iff. by apply IH.
Qed.

Lemma re_sub_needs c r repl s : needs c r = true → contains_char c s = false → re_sub r repl s = s.
Proof.
  intros Hn. apply re_sub_needs_char. intros p q Hs. by eapply needs_sound.
Qed.

(** ** Completeness *)

(** The patterns whose repeated bodies always consume: the matcher stops an
    iteration that consumes nothing. *)
Definition consumes (r : regex) : Prop :=
  ∀ p q, span r p q → String.length (after q) < String.length (after p).

Fixpoint well_formed (r : regex) : Prop :=
  match r with
  | RSeq r1 r2 | RAlt r1 r2 => well_formed r1 ∧ well_formed r2
  | RRepeat r _ _ => well_formed r ∧ consumes r
  | RGroup _ r => well_formed r
  | _ => True
  end.

(** A matcher is complete for a relation when it succeeds as soon as the
    continuation succeeds at some related position. *)
Definition complete_for (R : pos → pos → Prop) (m : cont → cont) : Prop :=
  ∀ k p cs q, R p q → (∀ cs', is_Some (k q cs')) → is_Some (m k p cs).

Lemma repeat_match_complete r m :
  complete_for (span r) m → consumes r →
  ∀ lo hi n k p cs q, span (RRepeat r lo hi) p q → (∀ cs', is_Some (k q cs')) →
    (∀ h, hi = Some h → n = h) → (hi = None → String.length (after p) <= n) →
    is_Some (repeat_match n lo m k p cs).
Proof.
  intros Hm Hc lo hi n k p cs q Hs. remember (RRepeat r lo hi) as r0 eqn:E.
  revert lo hi n cs E.
  induction Hs as [| | | | |r' hi' p|r' lo' hi' p q t Hhi Hpq _ Hqt IH| | | |];
    intros xlo xhi xn cs E Hk Hn1 Hn2; simplify_eq.
  - destruct xn; simpl; [apply Hk|]. case_match; [done|apply Hk].
  - destruct xn as [|n].
    + exfalso. destruct xhi as [h|]; [by specialize (Hn1 h eq_refl); subst|].
      specialize (Hn2 eq_refl). apply Hc in Hpq. lia.
    + simpl. match goal with |- context [m ?f p cs] => set (g := f) end.
      destruct (Hm g p cs q Hpq) as [x ->]; [|done].
      intros cs'. unfold g. pose proof (Hc _ _ Hpq) as Hlt.
      destruct (Nat.eqb_spec (String.length (after q)) (String.length (after p))); [lia|].
      apply (IH (pred xlo) (pred <$> xhi)); [done|done| |].
      * intros h Hh. destruct xhi as [h'|]; [|done]. injection Hh as <-.
        by rewrite <- (Hn1 h' eq_refl).
      * intros Hh. destruct xhi; [done|]. specialize (Hn2 eq_refl). lia.
Qed.

Lemma rmatch_complete r : well_formed r → complete_for (span r) (rmatch r).
Proof.
  induction r as [f| |r1 IH1 r2 IH2|r1 IH1 r2 IH2|r IH lo hi|m r IH| | |];
    intros Hwf k p cs q Hs Hk; simpl in *.
  - apply span_lit_iff in Hs as Hs'. inversion Hs as [f' c s b Hc| | | | | | | | | |]; subst.
    simpl. by rewrite Hc.
  - inversion Hs; subst. apply Hk.
  - inversion Hs; subst. eapply IH1; [tauto|done|]. intros. eapply IH2; [tauto|done|done].
  - destruct Hwf as [W1 W2]. inversion Hs; subst.
    + destruct (IH1 W1 k p cs q) as [x ->]; [done|done|done].
    + destruct (rmatch r1 k p cs); [done|]. by eapply IH2.
  - destruct Hwf as [W1 W2]. eapply repeat_match_complete; [by apply IH|done|done|done| |].
    + by intros h ->.
    + intros ->. simpl. lia.
  - inversion Hs; subst. eapply IH; [done|done|]. intros cs'. apply Hk.
  - inversion Hs as [| | | | | | | |? Hb| |]; subst. rewrite Hb. apply Hk.
  - inversion Hs as [| | | | | | | | |? Hb|]; subst. rewrite Hb. apply Hk.
  - inversion Hs as [| | | | | | | | | |? Hb]; subst. rewrite Hb. apply Hk.
Qed.

(** The engine finds a match at a position exactly when the declarative
    semantics has one. *)
Lemma match_at_iff r p :
  well_formed r → is_Some (match_at r p) ↔ ∃ q, span r p q.
Proof.
  intros Hwf. unfold match_at. split.
  - destruct (rmatch r _ p []) as [[q cs]|] eqn:E; [|by intros [? ?]].
    intros _. apply rmatch_sound in E as (q' & cs' & Hs & _). eauto.
  - intros [q Hs].
    destruct (rmatch_complete r Hwf (λ q cs, Some (q, cs)) p [] q Hs) as [[q' cs'] ->]; done.
Qed.

Lemma consumes_char f : consumes (RChar f).
Proof. intros p q (c & -> & _)%span_lit_iff. simpl. lia. Qed.

Lemma span_repeat_intro f lo hi b w s :
  all_str f w = true → lo <= String.length w → (∀ h, hi = Some h → String.length w <= h) →
  ∃ b', span (RRepeat (RChar f) lo hi) (Pos b (w +:+ s)) (Pos b' s).
Proof.
  revert lo hi b. induction w as [|c w IH]; intros lo hi b Hw Hlo Hhi; simpl in *.
  - destruct lo; [|lia]. exists b. constructor.
  - apply andb_true_iff in Hw as [Hc Hw].
    destruct (IH (pred lo) (pred <$> hi) (Some c)) as [b' Hb']; [done|lia| |].
    + intros h. destruct hi as [h'|]; [|done]. intros [= <-]. specialize (Hhi h' eq_refl). lia.
    + exists b'. eapply span_rep_cons; [|by constructor|done].
      intros ->. specialize (Hhi 0 eq_refl). lia.
Qed.

(** ** What [finditer] finds *)

(** A match begins somewhere in the subject and its text is what stands there. *)
Lemma scan_matched r b k s m :
  Matched m ∈ scan r b k s → ∃ b' u t, match_at r (Pos b' t) = Some m ∧ s = u +:+ t.
Proof.
  revert b k. induction s as [|c s IH]; intros b k Hin; [by apply elem_of_nil in Hin|].
  assert (∀ b' k', Matched m ∈ scan r b' k' s →
            ∃ b' u t, match_at r (Pos b' t) = Some m ∧ String c s = u +:+ t) as Hrec.
  { intros b' k' (b2 & u & t & Hm & ->)%IH. by exists b2, (String c u), t. }
  simpl in Hin. destruct k as [|k]; [|by eapply Hrec].
  destruct (match_at r (Pos b (String c s))) as [m'|] eqn:E.
  - destruct (String.length (m_text m')) as [|k].
    + apply elem_of_cons in Hin as [?|Hin]; [done|by eapply Hrec].
    + apply elem_of_cons in Hin as [[= ->]|Hin]; [by exists b, "", (String c s)|by eapply Hrec].
  - apply elem_of_cons in Hin as [?|Hin]; [done|by eapply Hrec].
Qed.

(** [w] occurs in [s]. *)
Definition occurs (w s : string) : Prop := ∃ u v, s = u +:+ w +:+ v.

Lemma finditer_matched r s m :
  m ∈ finditer r s →
  occurs (m_text m) s ∧ ∃ p, span r p (m_end m) ∧ after p = m_text m +:+ after (m_end m).
Proof.
  intros Hin. assert (Matched m ∈ segments r s) as Hseg.
  { unfold finditer in Hin. apply list_elem_of_omap in Hin as (g & Hg & He).
    destruct g; [done|]. by injection He as ->. }
  apply scan_matched in Hseg as (b & u & t & Hm & ->).
  pose proof (match_at_split _ _ _ Hm) as Ht. simpl in Ht. split.
  - exists u, (after (m_end m)). by rewrite <- Ht.
  - exists (Pos b t). split; [by apply match_at_sound|done].
Qed.
