(* ===== verification/IpAddr.v ===== *)
(** The part of Python's [ipaddress] the sources use: parsing and printing of
    IPv4 and IPv6 addresses, networks in CIDR notation, membership. *)

From S2P Require Import Prelude Errors PyStr PyStrFacts.

Local Open Scope Z_scope.

(** ** IPv4 addresses *)

Definition address_error {A} (s : string) : res A := raise AddressValueError s.

(** [_BaseV4._parse_octet]. *)
Definition parse_octet (s : string) : res Z :=
  if String.eqb s "" then raise ValueError "Empty octet not permitted"
  else if negb (all_str is_digit s) then raise ValueError "Only decimal digits permitted"
  else if (3 <? String.length s)%nat then raise ValueError "At most 3 characters permitted"
  else if negb (String.eqb s "0") && startswith s "0"
  then raise ValueError "Leading zeros are not permitted"
  else let n := Z.of_N (digits_val 0 s) in
       if 255 <? n then raise ValueError "Octet not permitted" else Ok n.

(** [IPv4Address(s)]: the address as an integer of 32 bits. *)
Definition IPv4Address (s : string) : res Z :=
  if contains_char "/" s then address_error "Unexpected '/'"
  else if String.eqb s "" then address_error "Address cannot be empty"
  else match split "." s with
       | [a; b; c; d] =>
           match mapM_res parse_octet [a; b; c; d] with
           | Ok [a; b; c; d] => Ok (((a * 256 + b) * 256 + c) * 256 + d)
           | _ => address_error s
           end
       | _ => address_error "Expected 4 octets"
       end.

(** The octets of a 32-bit address, most significant first. *)
Definition octets (n : Z) : list Z :=
  [n / 16777216 mod 256; n / 65536 mod 256; n / 256 mod 256; n mod 256].

(** [str(IPv4Address(n))]. *)
Definition str_ipv4 (n : Z) : string := join "." (map str_of_Z (octets n)).

(** ** IPv6 addresses *)

Definition hex_val (c : ascii) : Z :=
  let n := Z.of_N (code c) in
  if is_digit c then n - 48 else if is_lower_ascii c then n - 87 else n - 55.

Definition is_hex_digit (c : ascii) : bool :=
  is_digit c || in_range 97 102 c || in_range 65 70 c.

Fixpoint hex_of_str (acc : Z) (s : string) : Z :=
  match s with "" => acc | String c s => hex_of_str (acc * 16 + hex_val c) s end.

Definition hex_char (n : Z) : ascii := chr (Z.to_N (if n <? 10 then 48 + n else 87 + n)).

(** ['%x' % n] for [0 <= n < 65536]. *)
Definition hex16 (n : Z) : string :=
  let d3 := n / 4096 mod 16 in let d2 := n / 256 mod 16 in
  let d1 := n / 16 mod 16 in let d0 := n mod 16 in
  let t0 := String (hex_char d0) "" in
  if 4096 <=? n then String (hex_char d3) (String (hex_char d2) (String (hex_char d1) t0))
  else if 256 <=? n then String (hex_char d2) (String (hex_char d1) t0)
  else if 16 <=? n then String (hex_char d1) t0 else t0.

(** [_BaseV6._parse_hextet]. *)
Definition parse_hextet (s : string) : res Z :=
  if negb (all_str is_hex_digit s) then raise ValueError "Only hex digits permitted"
  else if (4 <? String.length s)%nat then raise ValueError "At most 4 characters permitted"
  else if String.eqb s "" then raise ValueError "invalid literal for int() with base 16"
  else Ok (hex_of_str 0 s).

(** [_split_scope_id]: the address and its scope, if any. *)
Definition split_scope_id (s : string) : res (string * option string) :=
  match partition "%" s with
  | None => Ok (s, None)
  | Some (addr, scope) =>
      if String.eqb scope "" || contains_char "%" scope then address_error "Invalid scope"
      else Ok (addr, Some scope)
  end.

(** The indices strictly between the endpoints at which the part is empty. *)
Definition inner_empty (parts : list string) : list nat :=
  filter (λ i, parts !! i = Some "") (seq 1 (length parts - 2)).

Definition fold_hextets (acc : Z) (hs : list Z) : Z :=
  fold_left (λ acc h, acc * 65536 + h) hs acc.

(** The dotted-quad suffix replaced by two hextets. *)
Definition expand_v4_suffix (parts : list string) : res (list string) :=
  match last parts with
  | Some p =>
      if contains_char "." p then
        n ← IPv4Address p;
        Ok (removelast parts ++ [hex16 (n / 65536); hex16 (n mod 65536)])
      else Ok parts
  | None => Ok parts
  end.

(** [_BaseV6._ip_int_from_string], from the list of parts on. *)
Definition ipv6_of_parts (s : string) (parts : list string) : res Z :=
  if (9 <? length parts)%nat then address_error "At most 8 colons permitted" else
  let first_empty := bool_decide (head parts = Some "") in
  let last_empty := bool_decide (last parts = Some "") in
  let finish (hi lo skipped : nat) :=
    match mapM_res parse_hextet (take hi parts),
          mapM_res parse_hextet (drop (length parts - lo) parts) with
    | Ok his, Ok los =>
        Ok (fold_hextets (fold_hextets 0 his * 65536 ^ Z.of_nat skipped) los)
    | _, _ => address_error s
    end in
  match inner_empty parts with
  | [] =>
      if negb (length parts =? 8)%nat then address_error "Exactly 8 parts expected"
      else if first_empty then address_error "Leading ':' only permitted as part of '::'"
      else if last_empty then address_error "Trailing ':' only permitted as part of '::'"
      else finish (length parts) 0%nat 0%nat
  | [i] =>
      let hi := (if first_empty then i - 1 else i)%nat in
      let lo0 := (length parts - i - 1)%nat in
      let lo := (if last_empty then lo0 - 1 else lo0)%nat in
      if first_empty && negb (hi =? 0)%nat
      then address_error "Leading ':' only permitted as part of '::'"
      else if last_empty && negb (lo =? 0)%nat
      then address_error "Trailing ':' only permitted as part of '::'"
      else if (8 <=? hi + lo)%nat then address_error "Expected at most 7 other parts with '::'"
      else finish hi lo (8 - (hi + lo))%nat
  | _ => address_error "At most one '::' permitted"
  end.

(** [_BaseV6._ip_int_from_string]. *)
Definition ipv6_int_from_string (s : string) : res Z :=
  if String.eqb s "" then address_error "Address cannot be empty" else
  let parts := split ":" s in
  if (length parts <? 3)%nat then address_error "At least 3 parts expected" else
  parts ← expand_v4_suffix parts;
  ipv6_of_parts s parts.

(** [IPv6Address(s)]. *)
Definition IPv6Address (s : string) : res (Z * option string) :=
  if contains_char "/" s then address_error "Unexpected '/'" else
  '(addr, scope) ← split_scope_id s;
  n ← ipv6_int_from_string addr;
  Ok (n, scope).

(** The eight 16-bit groups, most significant first. *)
Definition hextets (n : Z) : list Z :=
  map (λ i, n / 65536 ^ Z.of_nat i mod 65536) [7; 6; 5; 4; 3; 2; 1; 0]%nat.

(** The loop of [_compress_hextets]: the first longest run of zero groups. *)
Record run := Run { best_start : nat; best_len : nat; cur_start : nat; cur_len : nat }.

Fixpoint longest_zero_run (i : nat) (r : run) (hs : list string) : run :=
  match hs with
  | [] => r
  | h :: hs =>
      let r' :=
        if String.eqb h "0" then
          let len := S (cur_len r) in
          let start := if (cur_len r =? 0)%nat then i else cur_start r in
          if (best_len r <? len)%nat then Run start len start len
          else Run (best_start r) (best_len r) start len
        else Run (best_start r) (best_len r) 0 0 in
      longest_zero_run (S i) r' hs
  end.

Definition compress_hextets (hs : list string) : list string :=
  let r := longest_zero_run 0 (Run 0 0 0 0) hs in
  if (1 <? best_len r)%nat then
    let stop := (best_start r + best_len r)%nat in
    let tail := drop stop hs ++ (if (stop =? length hs)%nat then [""] else []) in
    let body := take (best_start r) hs ++ "" :: tail in
    if (best_start r =? 0)%nat then "" :: body else body
  else hs.

(** [str(IPv6Address(...))]. *)
Definition str_ipv6_int (n : Z) : string :=
  join ":" (compress_hextets (map hex16 (hextets n))).
Definition str_ipv6 (a : Z * option string) : string :=
  match a with
  | (n, Some scope) => str_ipv6_int n +:+ "%" +:+ scope
  | (n, None) => str_ipv6_int n
  end.

(** ** Addresses and networks of either version *)

Inductive ip := IP4 (n : Z) | IP6 (n : Z) (scope : option string).

Definition str_ip (a : ip) : string :=
  match a with IP4 n => str_ipv4 n | IP6 n sc => str_ipv6 (n, sc) end.

(** [ip_address(s)]. *)
Definition ip_address (s : string) : res ip :=
  match IPv4Address s with
  | Ok n => Ok (IP4 n)
  | Raise _ =>
      match IPv6Address s with
      | Ok (n, sc) => Ok (IP6 n sc)
      | Raise _ => raise ValueError (s +:+ " does not appear to be an IPv4 or IPv6 address")
      end
  end.

Record network := Net { net_v6 : bool; net_addr : Z; net_prefixlen : Z }.

Definition max_prefixlen (v6 : bool) : Z := if v6 then 128 else 32.

(** The size of a network: the addresses that share its prefix. *)
Definition net_size (v6 : bool) (prefixlen : Z) : Z := 2 ^ (max_prefixlen v6 - prefixlen).

(** The address with its host bits cleared. *)
Definition mask_addr (v6 : bool) (prefixlen n : Z) : Z :=
  n / net_size v6 prefixlen * net_size v6 prefixlen.

(** A prefix length written in decimal. *)
Definition parse_prefixlen (v6 : bool) (s : string) : res Z :=
  if is_digits s then
    let n := Z.of_N (digits_val 0 s) in
    if n <=? max_prefixlen v6 then Ok n else raise NetmaskValueError s
  else raise NetmaskValueError s.

(** [IPv4Network(s, strict)] and [IPv6Network(s, strict)] for a mask that is a
    prefix length, the only form that occurs. *)
Definition ip_net (v6 strict : bool) (s : string) : res network :=
  let '(addr, mask) := match split "/" s with
                       | [a] => (a, Ok (max_prefixlen v6))
                       | [a; m] => (a, parse_prefixlen v6 m)
                       | _ => (s, address_error "Only one '/' permitted")
                       end in
  n ← (if v6 then '(n, _) ← IPv6Address addr; Ok n else IPv4Address addr);
  p ← mask;
  if strict && negb (mask_addr v6 p n =? n) then raise ValueError "has host bits set"
  else Ok (Net v6 (mask_addr v6 p n) p).

(** [ip_network(s)]: version 4 is tried first. *)
Definition ip_network (s : string) : res network :=
  match ip_net false true s with
  | Ok n => Ok n
  | Raise _ =>
      match ip_net true true s with
      | Ok n => Ok n
      | Raise _ => raise ValueError (s +:+ " does not appear to be an IPv4 or IPv6 network")
      end
  end.

(** [ip in net]. *)
Definition in_net (a : ip) (net : network) : bool :=
  match a with
  | IP4 n => negb (net_v6 net) && (mask_addr false (net_prefixlen net) n =? net_addr net)
  | IP6 n _ => net_v6 net && (mask_addr true (net_prefixlen net) n =? net_addr net)
  end.

(** [str(net)] of an IPv4 network. *)
Definition str_net4 (net : network) : string :=
  str_ipv4 (net_addr net) +:+ "/" +:+ str_of_Z (net_prefixlen net).

(** [net.hosts()] of an IPv4 network: without the network and broadcast
    addresses, except for the prefix lengths 31 and 32. *)
Definition hosts4 (net : network) : list Z :=
  let size := net_size false (net_prefixlen net) in
  if 31 <=? net_prefixlen net then seqZ (net_addr net) size
  else seqZ (net_addr net + 1) (size - 2).

(** ** Samples *)

Example ipv6_parse_print :
  (str_ipv6 <$> match IPv6Address "2001:DB8:0:0:1::1%eth0" with Ok a => Some a | _ => None end)
  = Some "2001:db8::1:0:0:1%eth0".
Proof. vm_compute. reflexivity. Qed.
Example ipv6_mapped : IPv6Address "::ffff:127.0.0.1" = Ok (281472812449793, None).
Proof. vm_compute. reflexivity. Qed.
Example hosts_30 : (str_ipv4 <$> hosts4 (Net false 3232235776 30)) = ["192.168.1.1"; "192.168.1.2"].
Proof. vm_compute. reflexivity. Qed.
