(* ===== verification/IpAddrFacts.v ===== *)
(** Parsing and printing of addresses are inverse to each other, and the bounds
    of parsed addresses. *)

From S2P Require Import Prelude Errors PyStr PyStrFacts IpAddr.

Local Open Scope Z_scope.

(** ** Octets *)

Definition digit_chars : list ascii := filter (λ c, is_digit c = true) all_ascii.

Lemma digit_chars_complete c : is_digit c = true → c ∈ digit_chars.
Proof. intros H. apply list_elem_of_filter. split; [done|apply all_ascii_complete]. Qed.

(** Every string of at most [n] digits. *)
Fixpoint digit_strings (n : nat) : list string :=
  match n with
  | O => [""]
  | S n => "" :: (c ← digit_chars; s ← digit_strings n; [String c s])
  end.

Lemma digit_strings_complete n s :
  all_str is_digit s = true → (String.length s <= n)%nat → s ∈ digit_strings n.
Proof.
  revert s. induction n as [|n IH]; intros [|c s] Hs Hl; simpl in Hl; try lia;
    [by left..|].
  simpl in Hs. apply andb_true_iff in Hs as [Hc Hs].
  cbn [digit_strings]. apply elem_of_cons. right. apply list_elem_of_bind.
  exists c. split; [|by apply digit_chars_complete]. apply list_elem_of_bind.
  exists s. split; [set_solver|]. apply IH; [done|lia].
Qed.

(** The octets [parse_octet] accepts are those [str] prints, in range. *)
Lemma parse_octet_canonical s n : parse_octet s = Ok n → s = str_of_Z n ∧ 0 <= n < 256.
Proof.
  intros H.
  assert (all_str is_digit s = true ∧ (String.length s <= 3)%nat) as [Hd Hl].
  { unfold parse_octet in H. split_branches H. bool_to_prop. split; [done|lia]. }
  pose proof (digit_strings_complete 3 s Hd Hl) as Hin.
  set (ok s := match parse_octet s with
               | Ok n => String.eqb s (str_of_Z n) && (0 <=? n) && (n <? 256)
               | Raise _ => true
               end).
  assert (forallb ok (digit_strings 3) = true) as Hall by (vm_compute; reflexivity).
  rewrite forallb_true_forall in Hall. specialize (Hall s Hin). unfold ok in Hall.
  rewrite H in Hall. bool_to_prop. split; [done|lia].
Qed.

(** A check of the [2 ^ k] integers below [2 ^ k], by computation. *)
Fixpoint all_below (k : nat) (acc : Z) (f : Z → bool) : bool :=
  match k with
  | O => f acc
  | S k => all_below k (2 * acc) f && all_below k (2 * acc + 1) f
  end.

Lemma check_below_from f k acc n :
  all_below k acc f = true → acc * 2 ^ Z.of_nat k <= n < (acc + 1) * 2 ^ Z.of_nat k →
  f n = true.
Proof.
  revert acc. induction k as [|k IH]; intros acc.
  - simpl. intros H Hn. by replace n with acc by lia.
  - rewrite Nat2Z.inj_succ, Z.pow_succ_r by lia. simpl. rewrite andb_true_iff.
    intros [H1 H2] Hn. destruct (decide (n < (2 * acc + 1) * 2 ^ Z.of_nat k)).
    + apply (IH (2 * acc)); [done|lia].
    + apply (IH (2 * acc + 1)); [done|lia].
Qed.

Lemma check_range (f : Z → bool) (k : nat) :
  all_below k 0 f = true → ∀ n, 0 <= n < 2 ^ Z.of_nat k → f n = true.
Proof. intros H n Hn. apply (check_below_from f k 0 n H). lia. Qed.

Lemma parse_octet_str n : 0 <= n < 256 → parse_octet (str_of_Z n) = Ok n.
Proof.
  intros Hn.
  pose proof (check_range (λ n, match parse_octet (str_of_Z n) with
                                | Ok m => m =? n | Raise _ => false end) 8
                ltac:(vm_compute; reflexivity) n Hn) as H. cbv beta in H.
  destruct (parse_octet (str_of_Z n)); [|done]. bool_to_prop. by subst.
Qed.

Lemma str_octet_digits n : 0 <= n < 256 → all_str is_digit (str_of_Z n) = true.
Proof.
  intros Hn. by apply (check_range (λ n, all_str is_digit (str_of_Z n)) 8
                         ltac:(vm_compute; reflexivity)).
Qed.

(** ** IPv4 *)

Lemma octets_of_bytes a b c d :
  0 <= a < 256 → 0 <= b < 256 → 0 <= c < 256 → 0 <= d < 256 →
  octets (((a * 256 + b) * 256 + c) * 256 + d) = [a; b; c; d].
Proof.
  intros. unfold octets.
  repeat match goal with |- _ :: _ = _ :: _ => f_equal end; try done;
    Z.to_euclidean_division_equations; lia.
Qed.

Lemma bytes_of_octets n :
  0 <= n < 4294967296 →
  ∃ a b c d, octets n = [a; b; c; d] ∧ n = ((a * 256 + b) * 256 + c) * 256 + d ∧
             0 <= a < 256 ∧ 0 <= b < 256 ∧ 0 <= c < 256 ∧ 0 <= d < 256.
Proof.
  intros. do 4 eexists. split; [reflexivity|].
  Z.to_euclidean_division_equations. lia.
Qed.

(** An accepted IPv4 address is in canonical form already. *)
Lemma IPv4Address_canonical s n :
  IPv4Address s = Ok n → str_ipv4 n = s ∧ 0 <= n < 4294967296.
Proof.
  unfold IPv4Address. intros H.
  destruct (contains_char "/" s); [done|]. destruct (String.eqb s ""); [done|].
  destruct (split "." s) as [|w1 [|w2 [|w3 [|w4 [|]]]]] eqn:Hs; try done.
  destruct (mapM_res parse_octet [w1; w2; w3; w4]) as [l|] eqn:Hm; [|done].
  apply mapM_res_Ok in Hm.
  repeat match goal with E : Forall2 _ (_ :: _) _ |- _ => inversion E; clear E; subst end.
  match goal with E : Forall2 _ [] _ |- _ => inversion E; clear E; subst end.
  injection H as <-.
  repeat match goal with E : parse_octet _ = Ok _ |- _ =>
    apply parse_octet_canonical in E as [-> ?] end.
  split; [|lia]. unfold str_ipv4. rewrite octets_of_bytes by done.
  rewrite <- (join_split "." s), Hs. done.
Qed.

Lemma is_digit_not c d : is_digit c = true → is_digit d = false → c ≠ d.
Proof. intros ?? ->. congruence. Qed.

Lemma digits_no_char c s :
  is_digit c = false → all_str is_digit s = true →
  all_str (λ a, negb (bool_decide (a = c))) s = true.
Proof.
  intros Hc. apply all_str_impl. intros a Ha. rewrite bool_decide_eq_false_2; [done|].
  by apply is_digit_not.
Qed.

(** Printing and parsing an IPv4 address gives it back. *)
Lemma IPv4Address_str n : 0 <= n < 4294967296 → IPv4Address (str_ipv4 n) = Ok n.
Proof.
  intros Hn. destruct (bytes_of_octets n Hn) as (a & b & c & d & Ho & Hn' & Ha & Hb & Hc & Hd).
  unfold str_ipv4. rewrite Ho. simpl map.
  set (ws := [str_of_Z a; str_of_Z b; str_of_Z c; str_of_Z d]).
  assert (Forall (λ w, all_str is_digit w = true) ws) as Hws
    by (repeat constructor; by apply str_octet_digits).
  assert (split "." (join "." ws) = ws) as Hsplit.
  { apply split_join; [done|]. eapply Forall_impl; [exact Hws|]. intros w. by apply digits_no_char. }
  unfold IPv4Address.
  assert (contains_char "/" (join "." ws) = false) as ->.
  { apply contains_char_all, all_str_join; [done|]. eapply Forall_impl; [exact Hws|].
    intros w. by apply digits_no_char. }
  destruct (String.eqb_spec (join "." ws) "") as [E|_].
  { rewrite E in Hsplit. done. }
  rewrite Hsplit. unfold ws. cbn [mapM_res].
  rewrite !parse_octet_str by done. simpl. by rewrite Hn'.
Qed.

(** ** IPv6: groups *)

Lemma hex_char_checks d :
  0 <= d < 16 →
  hex_val (hex_char d) = d ∧ is_hex_digit (hex_char d) = true ∧
  Ascii.eqb (hex_char d) "0" = (d =? 0).
Proof.
  intros Hd.
  pose proof (check_range
    (λ d, (hex_val (hex_char d) =? d) && is_hex_digit (hex_char d)
          && Bool.eqb (Ascii.eqb (hex_char d) "0") (d =? 0)) 4
    ltac:(vm_compute; reflexivity) d Hd) as H. cbv beta in H.
  bool_to_prop. repeat split; [done|done|by apply Bool.eqb_prop].
Qed.

Lemma hex16_checks h :
  0 <= h < 65536 →
  parse_hextet (hex16 h) = Ok h ∧ all_str is_hex_digit (hex16 h) = true ∧
  hex16 h ≠ "" ∧ String.eqb (hex16 h) "0" = (h =? 0).
Proof.
  intros Hh. unfold hex16.
  set (d3 := h / 4096 mod 16). set (d2 := h / 256 mod 16).
  set (d1 := h / 16 mod 16). set (d0 := h mod 16).
  assert (0 <= d3 < 16 ∧ 0 <= d2 < 16 ∧ 0 <= d1 < 16 ∧ 0 <= d0 < 16) as (H3 & H2 & H1 & H0)
    by (repeat split; apply Z.mod_pos_bound; lia).
  assert (h = ((d3 * 16 + d2) * 16 + d1) * 16 + d0) as Hd.
  { subst d3 d2 d1 d0. Z.to_euclidean_division_equations. lia. }
  clearbody d3 d2 d1 d0.
  destruct (hex_char_checks d3 H3) as (V3 & X3 & Z3), (hex_char_checks d2 H2) as (V2 & X2 & Z2),
    (hex_char_checks d1 H1) as (V1 & X1 & Z1), (hex_char_checks d0 H0) as (V0 & X0 & Z0).
  unfold parse_hextet.
  destruct (Z.leb_spec 4096 h); [|destruct (Z.leb_spec 256 h); [|destruct (Z.leb_spec 16 h)]];
    cbn [all_str hex_of_str String.length String.eqb]; rewrite ?X3, ?X2, ?X1, ?X0, ?V3, ?V2, ?V1, ?V0, ?Z3, ?Z2, ?Z1, ?Z0;
    cbn; (repeat split); try done; try (f_equal; lia).
  - destruct (Z.eqb_spec d3 0), (Z.eqb_spec h 0); try done; lia.
  - destruct (Z.eqb_spec d2 0), (Z.eqb_spec h 0); try done; lia.
  - destruct (Z.eqb_spec d1 0), (Z.eqb_spec h 0); try done; lia.
  - destruct (Z.eqb_spec d0 0), (Z.eqb_spec h 0); try done; lia.
Qed.

(** The groups of a 128-bit address, in range, and the address they make. *)
Lemma hextets_fold n :
  0 <= n < 2 ^ 128 →
  ∃ a b c d e f g h, hextets n = [a; b; c; d; e; f; g; h] ∧
    fold_hextets 0 [a; b; c; d; e; f; g; h] = n ∧
    Forall (λ x, 0 <= x < 65536) [a; b; c; d; e; f; g; h].
Proof.
  intros Hn. do 8 eexists. split; [reflexivity|]. split.
  - unfold fold_hextets. cbn [fold_left].
    assert (∀ k, n / 65536 ^ Z.of_nat k
                 = n / 65536 ^ Z.of_nat (S k) * 65536 + n / 65536 ^ Z.of_nat k mod 65536) as Hk.
    { intros k. rewrite Nat2Z.inj_succ, Z.pow_succ_r, (Z.mul_comm 65536) by lia.
      rewrite <- Z.div_div by lia.
      rewrite (Z.div_mod (n / 65536 ^ Z.of_nat k) 65536) at 1 by lia. lia. }
    assert (n / 65536 ^ Z.of_nat 8 = 0) as H8 by (apply Z.div_small; simpl; lia).
    pose proof (Hk 7%nat). pose proof (Hk 6%nat). pose proof (Hk 5%nat). pose proof (Hk 4%nat).
    pose proof (Hk 3%nat). pose proof (Hk 2%nat). pose proof (Hk 1%nat). pose proof (Hk 0%nat).
    assert (n / 65536 ^ Z.of_nat 0 = n) by (simpl; apply Z.div_1_r). lia.
  - repeat constructor; apply Z.mod_pos_bound; lia.
Qed.

(** ** IPv6: the longest run of zero groups *)

(** All the entries of [ws] from [a] to [b] are ["0"]. *)
Definition zeros_in (ws : list string) (a b : nat) : Prop :=
  ∀ i, (a <= i < b)%nat → ws !! i = Some "0".

(** The loop keeps a best run and a current run ending here, of zeros only. *)
Definition run_ok (ws : list string) (i : nat) (r : run) : Prop :=
  (best_start r + best_len r <= i)%nat ∧ zeros_in ws (best_start r) (best_start r + best_len r) ∧
  (cur_len r = 0%nat ∨ (cur_start r + cur_len r = i)%nat ∧ zeros_in ws (cur_start r) i).

Lemma longest_zero_run_ok pre hs r :
  run_ok (pre ++ hs) (length pre) r →
  run_ok (pre ++ hs) (length (pre ++ hs)) (longest_zero_run (length pre) r hs).
Proof.
  revert pre r. induction hs as [|h hs IH]; intros pre r Hr; [by rewrite app_nil_r in *|].
  simpl longest_zero_run.
  assert (∀ ws i r', run_ok ws i r' → run_ok ws i r') as _ by done.
  replace (pre ++ h :: hs) with ((pre ++ [h]) ++ hs) in * by (by rewrite <- app_assoc).
  replace (S (length pre)) with (length (pre ++ [h])) by (rewrite length_app; simpl; lia).
  apply IH. destruct Hr as (Hb & Hbz & Hc).
  assert (((pre ++ [h]) ++ hs) !! length pre = Some h) as Hh
    by (rewrite <- app_assoc, lookup_app_r, Nat.sub_diag by done; done).
  rewrite length_app. simpl length.
  destruct (String.eqb_spec h "0") as [->|].
  - set (st := if (cur_len r =? 0)%nat then length pre else cur_start r).
    assert ((st + S (cur_len r))%nat = (length pre + 1)%nat ∧
            zeros_in ((pre ++ ["0"]) ++ hs) st (length pre + 1)) as [Hst Hz].
    { unfold st. destruct (Nat.eqb_spec (cur_len r) 0) as [E|E].
      - split; [lia|]. intros i Hi. by replace i with (length pre) by lia.
      - destruct Hc as [?|[Hc Hz]]; [done|]. split; [lia|]. intros i Hi.
        destruct (decide (i = length pre)) as [->|]; [done|]. apply Hz. lia. }
    unfold run_ok.
    destruct (best_len r <? S (cur_len r))%nat; simpl; (split; [lia|]); (split; [|right; split; [lia|done]]).
    + by rewrite Hst.
    + done.
  - unfold run_ok. simpl. split; [lia|]. split; [done|by left].
Qed.

(** A compressed list of eight groups leaves out a run of zeros. *)
Lemma compress_cases ws :
  length ws = 8%nat →
  compress_hextets ws = ws ∨
  ∃ s l, (2 <= l)%nat ∧ (s + l <= 8)%nat ∧ zeros_in ws s (s + l) ∧
    compress_hextets ws =
      (if (s =? 0)%nat then [""] else []) ++ take s ws ++
      "" :: drop (s + l) ws ++ (if (s + l =? 8)%nat then [""] else []).
Proof.
  intros Hl. pose proof (longest_zero_run_ok [] ws (Run 0 0 0 0)) as H. simpl in H.
  unfold compress_hextets. set (r := longest_zero_run 0 _ ws) in *.
  destruct H as (Hb & Hz & _).
  { split; [done|]. split; [intros i Hi; simpl in Hi; lia|by left]. }
  destruct (Nat.ltb_spec 1 (best_len r)); [right|by left].
  exists (best_start r), (best_len r). rewrite Hl in *. repeat split; [lia|lia|done|].
  by destruct (best_start r =? 0)%nat.
Qed.

(** ** IPv6: round trip *)

Lemma hex_no_char c s :
  is_hex_digit c = false → all_str is_hex_digit s = true →
  all_str (λ a, negb (bool_decide (a = c))) s = true.
Proof.
  intros Hc. apply all_str_impl. intros a Ha. rewrite bool_decide_eq_false_2; [done|].
  intros ->. congruence.
Qed.

Lemma expand_v4_suffix_none parts :
  Forall (λ w, all_str is_hex_digit w = true) parts → expand_v4_suffix parts = Ok parts.
Proof.
  intros H. unfold expand_v4_suffix. destruct (last parts) as [p|] eqn:E; [|done].
  apply last_Some in E as [l' ->]. apply Forall_app in H as [_ Hp].
  apply Forall_cons in Hp as [Hp _].
  assert (contains_char "." p = false) as ->; [|done].
  apply contains_char_all, hex_no_char; [reflexivity|exact Hp].
Qed.

Lemma ipv6_of_parts_full s ws hs :
  length ws = 8%nat → Forall (λ w, w ≠ "") ws → mapM_res parse_hextet ws = Ok hs →
  ipv6_of_parts s ws = Ok (fold_hextets 0 hs).
Proof.
  intros Hl Hne Hp.
  do 8 (destruct ws as [|[|? ?] ws]; simpl in Hl;
        [discriminate|apply Forall_cons in Hne as [Hne _]; done|apply Forall_cons in Hne as [_ Hne]]).
  destruct ws; [|discriminate]. clear Hl Hne.
  unfold ipv6_of_parts. cbn [length Nat.ltb Nat.leb]. 
  match goal with |- context [inner_empty ?l] =>
    replace (inner_empty l) with (@nil nat) by reflexivity end.
  cbn [negb Nat.eqb]. rewrite firstn_all2 by done. rewrite Hp. cbn [drop skipn Nat.sub mapM_res].
  simpl. f_equal. rewrite Z.mul_1_r. done.
Qed.

(** Eliding a run of at least two zero groups parses to the same address: one
    case per position and length of the run. *)
Lemma ipv6_of_parts_run s w0 w1 w2 w3 w4 w5 w6 w7 h0 h1 h2 h3 h4 h5 h6 h7 i l :
  let ws := [w0; w1; w2; w3; w4; w5; w6; w7] in
  let hs := [h0; h1; h2; h3; h4; h5; h6; h7] in
  Forall (λ w, w ≠ "") ws → Forall2 (λ w h, parse_hextet w = Ok h) ws hs →
  (2 <= l)%nat → (i + l <= 8)%nat → zeros_in ws i (i + l) →
  ipv6_of_parts s ((if (i =? 0)%nat then [""] else []) ++ take i ws ++
                   "" :: drop (i + l) ws ++ (if (i + l =? 8)%nat then [""] else []))
  = Ok (fold_hextets 0 hs).
Proof.
  intros ws hs Hne Hp Hl Hil Hz. subst ws hs.
  repeat match goal with H : Forall2 _ (_ :: _) (_ :: _) |- _ =>
    apply Forall2_cons in H as [? H] end.
  assert (∀ k w h, [w0; w1; w2; w3; w4; w5; w6; w7] !! k = Some w →
          parse_hextet w = Ok h → (i <= k < i + l)%nat → h = 0) as Hzero.
  { intros k w h Hk Hw Hr. rewrite (Hz k Hr) in Hk. injection Hk as <-.
    by injection Hw as <-. }
  destruct w0, w1, w2, w3, w4, w5, w6, w7;
    try (exfalso; repeat match goal with H : Forall _ (_ :: _) |- _ =>
           apply Forall_cons in H as [? H] end; congruence).
  clear Hne Hz.
  pose proof (Hzero 0%nat). pose proof (Hzero 1%nat). pose proof (Hzero 2%nat).
  pose proof (Hzero 3%nat). pose proof (Hzero 4%nat). pose proof (Hzero 5%nat).
  pose proof (Hzero 6%nat). pose proof (Hzero 7%nat). clear Hzero.
  repeat match goal with
         | H : ∀ w h, [_; _; _; _; _; _; _; _] !! _ = Some w → _, P : parse_hextet ?w = Ok ?h |- _ =>
             specialize (H w h eq_refl P)
         end.
  assert (i < 7)%nat as Hi by lia.
  destruct i as [|[|[|[|[|[|[|i]]]]]]]; try lia;
    destruct l as [|[|[|[|[|[|[|[|[|l]]]]]]]]]; try lia.
  all: repeat match goal with H : (_ <= _ < _)%nat → _ = 0 |- _ =>
         first [ rewrite (H ltac:(lia)) in *; clear H | clear H ] end.
  all: unfold ipv6_of_parts; cbn [Nat.eqb Nat.add app take drop length Nat.ltb Nat.leb].
  all: match goal with |- context [inner_empty ?l] =>
         let v := eval vm_compute in (inner_empty l) in change (inner_empty l) with v end.
  all: repeat match goal with |- context [bool_decide ?P] =>
         let v := eval vm_compute in (bool_decide P) in change (bool_decide P) with v end.
  all: cbn [negb andb Nat.eqb Nat.sub Nat.add Nat.leb take drop].
  all: cbn [mapM_res].
  all: repeat match goal with P : parse_hextet _ = Ok _ |- _ => rewrite P; clear P end.
  all: cbn [mbind res_bind]; f_equal; unfold fold_hextets; cbn [fold_left Z.of_nat].
  all: lia.
Qed.

(** Printing and parsing an IPv6 address gives it back. *)
Lemma ipv6_int_from_string_str n :
  0 <= n < 2 ^ 128 → ipv6_int_from_string (str_ipv6_int n) = Ok n.
Proof.
  intros Hn. destruct (hextets_fold n Hn) as (a & b & c & d & e & f & g & h & Hx & Hf & Hr).
  unfold str_ipv6_int. rewrite Hx. cbn [map].
  set (ws := [hex16 a; hex16 b; hex16 c; hex16 d; hex16 e; hex16 f; hex16 g; hex16 h]).
  assert (ws = map hex16 [a; b; c; d; e; f; g; h]) as Ews by done.
  assert (Forall2 (λ w x, parse_hextet w = Ok x) ws [a; b; c; d; e; f; g; h]) as Hp.
  { rewrite Ews. clear -Hr. induction Hr as [|x l Hx _ IH]; constructor; [|done].
    by apply hex16_checks. }
  assert (Forall (λ w, all_str is_hex_digit w = true ∧ w ≠ "") ws) as Hw.
  { rewrite Ews. apply Forall_map. eapply Forall_impl; [exact Hr|].
    intros x Hx'. simpl. by destruct (hex16_checks x Hx') as (? & ? & ? & ?). }
  assert (Forall (λ w, w ≠ "") ws) as Hne by (eapply Forall_impl; [exact Hw|naive_solver]).
  set (parts := compress_hextets ws).
  assert (Forall (λ w, all_str is_hex_digit w = true) parts ∧ (3 <= length parts)%nat ∧
          ∀ s, ipv6_of_parts s parts = Ok n) as (Hhex & H3 & Hparse).
  { assert (Forall (λ w, all_str is_hex_digit w = true) ws) as Hh
      by (eapply Forall_impl; [exact Hw|naive_solver]).
    unfold parts. destruct (compress_cases ws eq_refl) as [->|(i & l & Hl & Hil & Hz & ->)].
    - split; [done|]. split; [simpl; lia|]. intros s.
      rewrite (ipv6_of_parts_full s ws [a; b; c; d; e; f; g; h]); [by rewrite Hf|done|done|].
      by apply mapM_res_Ok.
    - split; [|split].
      + rewrite !Forall_app, Forall_cons, !Forall_app. split_and!.
        * case_match; repeat constructor.
        * by apply Forall_take.
        * done.
        * by apply Forall_drop.
        * case_match; repeat constructor.
      + assert (length ws = 8%nat) as H8 by done.
        rewrite !length_app, length_take, length_cons, length_app, length_drop, H8.
        destruct (Nat.eqb_spec i 0), (Nat.eqb_spec (i + l) 8); simpl; lia.
      + intros s. rewrite <- Hf. by apply ipv6_of_parts_run. }
  unfold ipv6_int_from_string.
  assert (split ":" (join ":" parts) = parts) as Hsp.
  { apply split_join; [by intros E; rewrite E in H3; simpl in H3; lia|].
    eapply Forall_impl; [exact Hhex|]. intros w. by apply hex_no_char. }
  destruct (String.eqb_spec (join ":" parts) "") as [E|_].
  { rewrite E in Hsp. rewrite <- Hsp in H3. simpl in H3. lia. }
  rewrite Hsp. destruct (Nat.ltb_spec (length parts) 3); [lia|].
  rewrite expand_v4_suffix_none by done. apply Hparse.
Qed.

(** ** IPv6: bounds *)

Lemma hex_val_bound c : is_hex_digit c = true → 0 <= hex_val c < 16.
Proof.
  intros Hc.
  assert (∀ c, implb (is_hex_digit c) ((0 <=? hex_val c) && (hex_val c <? 16)) = true) as H
    by check_ascii.
  specialize (H c). rewrite Hc in H. simpl in H. bool_to_prop. lia.
Qed.

Lemma hex_of_str_bound s acc :
  0 <= acc → all_str is_hex_digit s = true →
  0 <= hex_of_str acc s < (acc + 1) * 16 ^ Z.of_nat (String.length s).
Proof.
  revert acc. induction s as [|c s IH]; intros acc Ha; [simpl; lia|].
  cbn [all_str hex_of_str String.length]. rewrite andb_true_iff. intros [Hc Hs].
  pose proof (hex_val_bound c Hc). specialize (IH (acc * 16 + hex_val c) ltac:(lia) Hs).
  rewrite Nat2Z.inj_succ, Z.pow_succ_r by lia.
  assert (0 < 16 ^ Z.of_nat (String.length s)) by (apply Z.pow_pos_nonneg; lia). nia.
Qed.

Lemma parse_hextet_bound s n : parse_hextet s = Ok n → 0 <= n < 65536.
Proof.
  unfold parse_hextet. destruct (all_str is_hex_digit s) eqn:Hs; [|done]. simpl.
  destruct (Nat.ltb_spec 4 (String.length s)) as [|Hl]; [done|].
  destruct (String.eqb s ""); [done|]. intros [= <-].
  pose proof (hex_of_str_bound s 0 ltac:(lia) Hs) as H.
  assert (16 ^ Z.of_nat (String.length s) <= 16 ^ 4) by (apply Z.pow_le_mono_r; lia). lia.
Qed.

Lemma fold_hextets_bound l acc :
  0 <= acc → Forall (λ h, 0 <= h < 65536) l →
  0 <= fold_hextets acc l < (acc + 1) * 65536 ^ Z.of_nat (length l).
Proof.
  intros Ha Hl. revert acc Ha. induction Hl as [|h l Hh _ IH]; intros acc Ha; [simpl; lia|].
  unfold fold_hextets in *. cbn [fold_left length].
  specialize (IH (acc * 65536 + h) ltac:(lia)).
  rewrite Nat2Z.inj_succ, Z.pow_succ_r by lia.
  assert (0 < 65536 ^ Z.of_nat (length l)) by (apply Z.pow_pos_nonneg; lia). nia.
Qed.

Lemma mapM_parse_hextet l hs :
  mapM_res parse_hextet l = Ok hs → length hs = length l ∧ Forall (λ h, 0 <= h < 65536) hs.
Proof.
  rewrite mapM_res_Ok. induction 1 as [|w h l hs Hw _ [IH1 IH2]]; [done|].
  split; [simpl; lia|]. constructor; [by eapply parse_hextet_bound|done].
Qed.

Lemma parts_value_bound (hi lo skipped : nat) parts his los :
  (hi + lo + skipped = 8)%nat → (hi <= length parts)%nat → (lo <= length parts)%nat →
  mapM_res parse_hextet (take hi parts) = Ok his →
  mapM_res parse_hextet (drop (length parts - lo) parts) = Ok los →
  0 <= fold_hextets (fold_hextets 0 his * 65536 ^ Z.of_nat skipped) los < 2 ^ 128.
Proof.
  intros Hsum Hhi Hlo H1%mapM_parse_hextet H2%mapM_parse_hextet.
  destruct H1 as [L1 B1], H2 as [L2 B2].
  rewrite length_take in L1. rewrite length_drop in L2.
  pose proof (fold_hextets_bound his 0 ltac:(lia) B1) as F1.
  assert (0 < 65536 ^ Z.of_nat skipped) as P0 by (apply Z.pow_pos_nonneg; lia).
  pose proof (fold_hextets_bound los (fold_hextets 0 his * 65536 ^ Z.of_nat skipped)
                ltac:(nia) B2) as F2.
  assert (65536 ^ Z.of_nat (length his) * 65536 ^ Z.of_nat skipped
          * 65536 ^ Z.of_nat (length los) = 2 ^ 128) as E.
  { rewrite <- !Z.pow_add_r by lia.
    replace (Z.of_nat (length his) + Z.of_nat skipped + Z.of_nat (length los)) with 8 by lia.
    reflexivity. }
  split; [lia|]. rewrite <- E.
  eapply Z.lt_le_trans; [apply F2|]. apply Z.mul_le_mono_nonneg_r; [|nia].
  apply Z.pow_nonneg. lia.
Qed.

Lemma ipv6_of_parts_bound s parts n : ipv6_of_parts s parts = Ok n → 0 <= n < 2 ^ 128.
Proof.
  unfold ipv6_of_parts. intros H.
  destruct (9 <? length parts)%nat; [done|].
  set (fe := bool_decide (head parts = Some "")) in *.
  set (le := bool_decide (last parts = Some "")) in *. clearbody fe le.
  destruct (inner_empty parts) as [|i [|]] eqn:Ei; [| |done].
  - destruct (Nat.eqb_spec (length parts) 8) as [E8|]; [|done]. simpl in H.
    destruct fe; [done|]. destruct le; [done|].
    destruct (mapM_res _ (take _ _)) as [his|] eqn:M1; [|done].
    destruct (mapM_res _ (drop _ _)) as [los|] eqn:M2; [|done]. injection H as <-.
    apply (parts_value_bound (length parts) 0 0 parts); [lia|lia|lia|done|done].
  - assert (i ∈ inner_empty parts) as Hin by (rewrite Ei; by left).
    unfold inner_empty in Hin. apply list_elem_of_filter in Hin as [_ Hin].
    apply list_elem_of_In, in_seq in Hin.
    set (hi := (if fe then i - 1 else i)%nat) in *.
    set (lo := (if le then length parts - i - 1 - 1 else length parts - i - 1)%nat) in *.
    assert (hi <= i ∧ lo <= length parts - i - 1)%nat as [??].
    { unfold hi, lo. destruct fe, le; lia. }
    destruct (fe && _); [done|]. destruct (le && _); [done|].
    destruct (Nat.leb_spec 8 (hi + lo)); [done|].
    destruct (mapM_res _ (take _ _)) as [his|] eqn:M1; [|done].
    destruct (mapM_res _ (drop _ _)) as [los|] eqn:M2; [|done]. injection H as <-.
    apply (parts_value_bound hi lo (8 - (hi + lo)) parts); [lia|lia|lia|done|done].
Qed.

(** The characters of a printed address. *)
Definition is_ipv6_char (c : ascii) : bool := is_hex_digit c || bool_decide (c = ":"%char).

Lemma compress_hextets_forall (P : string → Prop) ws :
  P "" → Forall P ws → Forall P (compress_hextets ws).
Proof.
  intros H0 H. unfold compress_hextets.
  repeat case_match; rewrite ?Forall_cons, ?Forall_app, ?Forall_cons, ?Forall_app;
    split_and?; auto using Forall_take, Forall_drop.
Qed.

Lemma str_ipv6_int_chars n : all_str is_ipv6_char (str_ipv6_int n) = true.
Proof.
  unfold str_ipv6_int. apply all_str_join; [done|]. apply compress_hextets_forall; [done|].
  unfold hextets. rewrite Forall_map, Forall_map. apply Forall_true. intros i.
  eapply all_str_impl; [|apply hex16_checks, Z.mod_pos_bound; lia].
  intros c Hc. unfold is_ipv6_char. by rewrite Hc.
Qed.

Lemma str_ipv6_int_no_char c n :
  is_ipv6_char c = false → all_str (λ a, negb (bool_decide (a = c))) (str_ipv6_int n) = true.
Proof.
  intros Hc. eapply all_str_impl; [|apply str_ipv6_int_chars].
  intros a Ha. rewrite bool_decide_eq_false_2; [done|]. intros ->. congruence.
Qed.

Lemma partition_app c w s :
  all_str (λ a, negb (bool_decide (a = c))) w = true → partition c (w +:+ String c s) = Some (w, s).
Proof.
  induction w as [|a w IH]; simpl; [by rewrite bool_decide_eq_true_2|].
  rewrite andb_true_iff. intros [Ha Hw]. rewrite (IH Hw). by destruct (bool_decide (a = c)).
Qed.

Lemma partition_no c w :
  all_str (λ a, negb (bool_decide (a = c))) w = true → partition c w = None.
Proof.
  induction w as [|a w IH]; simpl; [done|].
  rewrite andb_true_iff. intros [Ha Hw]. rewrite (IH Hw). by destruct (bool_decide (a = c)).
Qed.

(** Splitting the scope off a text [t] that holds neither [%] nor [/]. *)
Lemma IPv6Address_plain t n :
  contains_char "/" t = false → contains_char "%" t = false →
  ipv6_int_from_string t = Ok n → IPv6Address t = Ok (n, None).
Proof.
  intros Hs Hp Hn. unfold IPv6Address, split_scope_id. rewrite Hs.
  rewrite partition_no by (by apply contains_char_all). simpl. by rewrite Hn.
Qed.

Lemma IPv6Address_scoped t n r :
  contains_char "/" t = false → contains_char "%" t = false →
  contains_char "/" r = false → String.eqb r "" || contains_char "%" r = false →
  ipv6_int_from_string t = Ok n → IPv6Address (t +:+ String "%" r) = Ok (n, Some r).
Proof.
  intros Hs Hp Hr Hr' Hn. apply contains_char_all in Hs, Hr.
  unfold IPv6Address, split_scope_id.
  rewrite (proj2 (contains_char_all "/" (t +:+ String "%" r)));
    [|by rewrite all_str_app, Hs].
  rewrite partition_app by (by apply contains_char_all). rewrite Hr'. simpl. by rewrite Hn.
Qed.

(** What an accepted address consists of. *)
Lemma IPv6Address_inv s n scope :
  IPv6Address s = Ok (n, scope) →
  0 <= n < 2 ^ 128 ∧
  ∀ r, scope = Some r → contains_char "/" r = false ∧ String.eqb r "" || contains_char "%" r = false.
Proof.
  unfold IPv6Address. destruct (contains_char "/" s) eqn:Hslash; [done|].
  destruct (split_scope_id s) as [[addr sc]|] eqn:Hsc; simpl; [|done].
  destruct (ipv6_int_from_string addr) as [m|] eqn:Hn; simpl; [|done]. intros [= -> ->]. split.
  - unfold ipv6_int_from_string in Hn. destruct (String.eqb addr ""); [done|].
    destruct (_ <? 3)%nat; [done|]. destruct (expand_v4_suffix _); [|done].
    by eapply ipv6_of_parts_bound.
  - intros r ->. unfold split_scope_id in Hsc.
    destruct (partition "%" s) as [[l r']|] eqn:Hp; [|done].
    destruct (String.eqb r' "" || contains_char "%" r') eqn:Hr; [done|].
    injection Hsc as <- <-. split; [|done]. apply partition_Some in Hp as [-> _].
    apply contains_char_all in Hslash. apply contains_char_all.
    rewrite all_str_app in Hslash. by apply andb_true_iff in Hslash as [_ Hslash].
Qed.

(** An accepted IPv6 address prints to text that parses to it, scope included. *)
Lemma IPv6Address_str s a : IPv6Address s = Ok a → IPv6Address (str_ipv6 a) = Ok a.
Proof.
  destruct a as [n scope]. intros [Hb Hr]%IPv6Address_inv.
  pose proof (ipv6_int_from_string_str n Hb) as Hrt.
  assert (contains_char "/" (str_ipv6_int n) = false) as H1
    by (by apply contains_char_all, str_ipv6_int_no_char).
  assert (contains_char "%" (str_ipv6_int n) = false) as H2
    by (by apply contains_char_all, str_ipv6_int_no_char).
  unfold str_ipv6. generalize dependent (str_ipv6_int n). intros t Ht H1 H2.
  destruct scope as [r|]; [|by apply IPv6Address_plain].
  destruct (Hr r eq_refl). by apply IPv6Address_scoped.
Qed.

Lemma ipv6_chars_no_space t :
  all_str is_ipv6_char t = true → head_ok is_space t = true ∧ last_ok is_space t = true.
Proof.
  intros H. assert (all_str (λ c, negb (is_space c)) t = true) as Ht.
  { eapply all_str_impl; [|exact H]. intros c Hc.
    assert (∀ c, implb (is_ipv6_char c) (negb (is_space c)) = true) as Hd by check_ascii.
    specialize (Hd c). by rewrite Hc in Hd. }
  split; [by destruct t as [|c t]; [|simpl in Ht |- *; apply andb_true_iff in Ht as [? _]]|].
  clear H. induction t as [|c t IH]; [done|]. simpl in Ht. apply andb_true_iff in Ht as [Hc Ht].
  destruct t; [done|by apply IH].
Qed.

(** The text of an address parsed from stripped text has no outer blank. *)
Lemma IPv6Address_strip s a :
  last_ok is_space s = true → IPv6Address s = Ok a → strip (str_ipv6 a) = str_ipv6 a.
Proof.
  destruct a as [n scope]. intros Hl H. pose proof (str_ipv6_int_chars n) as Hc.
  unfold str_ipv6. generalize dependent (str_ipv6_int n). intros t Ht.
  pose proof (ipv6_chars_no_space t Ht) as [Hh Hlt].
  destruct scope as [r|]; [|by apply strip_id].
  assert (r ≠ "" ∧ ∃ l, s = l +:+ String "%" r) as [Hr [l ->]].
  { unfold IPv6Address in H. destruct (contains_char "/" s); [done|].
    unfold split_scope_id in H. destruct (partition "%" s) as [[l r']|] eqn:Hp.
    - destruct (String.eqb_spec r' ""), (contains_char "%" r'); try done. simpl in H.
      destruct (ipv6_int_from_string l); [|done]. simpl in H. injection H as -> ->.
      apply partition_Some in Hp as [-> _]. eauto.
    - simpl in H. by destruct (ipv6_int_from_string s). }
  apply strip_id; [by destruct t|]. rewrite last_ok_app in Hl by done.
  rewrite last_ok_app by done. done.
Qed.
