(* ===== verification/Json.v ===== *)
(** Python's [json] module on the values of [PyVal]: [dumps] with its default
    arguments and [loads].  Text is of code points below 256; a code point above
    that an escape names, and the double that a decimal text denotes, are
    arguments.  The messages of errors do not carry the position. *)

From S2P Require Import Prelude Errors PyStr PyStrFacts PyDict PyVal IpAddr.

(** ** [dumps] *)

Definition backslash : ascii := chr 92.

(** The escapes of a letter after the backslash, both ways. *)
Definition short_escapes : list (ascii * ascii) :=
  [(chr 34, chr 34); (chr 92, chr 92); (chr 10, "n"%char); (chr 13, "r"%char); (chr 9, "t"%char);
   (chr 12, "f"%char); (chr 8, "b"%char)].

Definition escape_char (c : ascii) : string :=
  match find (λ p, bool_decide (p.1 = c)) short_escapes with
  | Some p => String backslash (String p.2 "")
  | None =>
      if in_range 32 126 c then String c ""
      else String backslash (String "u" (String "0" (String "0"
             (String (hex_digit (code c / 16)) (String (hex_digit (code c mod 16)) "")))))
  end.

Fixpoint escape (s : string) : string :=
  match s with "" => "" | String c s => escape_char c +:+ escape s end.

Definition dumps_str (s : string) : string := String dquote_char (escape s +:+ String dquote_char "").

(** [float.__repr__], with the names of the values that are no numbers. *)
Definition dumps_float (f : pyfloat) : string :=
  if f_is_nan f then "NaN"
  else match f_trunc f with
       | Some _ => f_repr f
       | None => if startswith (f_repr f) "-" then "-Infinity" else "Infinity"
       end.

Fixpoint dumps (v : pyval) : string :=
  match v with
  | PyNone => "null"
  | PyBool true => "true"
  | PyBool false => "false"
  | PyInt n => str_of_Z n
  | PyFloat f => dumps_float f
  | PyStr s => dumps_str s
  | PyList l => String "[" (join ", " (map dumps l) +:+ "]")
  | PyDict d => String "{" (join ", " (map (λ kv, dumps_str kv.1 +:+ ": " +:+ dumps kv.2) d) +:+ "}")
  end.

(** [dumps(v, indent=...)]: [step] is the indentation of a level, [nl] the end of
    a line with the indentation of this level. *)
Fixpoint dumps_indent (step nl : string) (v : pyval) : string :=
  let lines (items : list string) := nl +:+ step +:+ join ("," +:+ nl +:+ step) items +:+ nl in
  match v with
  | PyList (_ :: _ as l) => "[" +:+ lines (map (dumps_indent step (nl +:+ step)) l) +:+ "]"
  | PyDict (_ :: _ as d) =>
      "{" +:+ lines (map (λ kv, dumps_str kv.1 +:+ ": " +:+ dumps_indent step (nl +:+ step) kv.2) d) +:+ "}"
  | v => dumps v
  end.

(** ** [loads] *)

Section loads.
Context (wide : N → string).          (* a code point of 256 or more *)
Context (float_of : string → pyfloat).   (* [float(text)] *)

Definition bad {A} (m : string) : res A := raise JSONDecodeError m.

Definition is_json_space (c : ascii) : bool := existsb (N.eqb (code c)) [32; 9; 10; 13]%N.
Definition skip_ws : string → string := lstrip_by is_json_space.

Definition unescape (e : ascii) : option ascii :=
  if bool_decide (e = "/"%char) then Some e
  else fst <$> find (λ p, bool_decide (p.2 = e)) short_escapes.

(** Four hexadecimal digits. *)
Definition hex4 (a b c d : ascii) : option Z :=
  if forallb is_hex_digit [a; b; c; d]
  then Some (((hex_val a * 16 + hex_val b) * 16 + hex_val c) * 16 + hex_val d)%Z else None.

Definition uchr (n : Z) : string :=
  if (n <? 256)%Z then String (chr (Z.to_N n)) "" else wide (Z.to_N n).
Definition high_surrogate (n : Z) : bool := (55296 <=? n)%Z && (n <=? 56319)%Z.
Definition low_surrogate (n : Z) : bool := (56320 <=? n)%Z && (n <=? 57343)%Z.
Definition joined (n m : Z) : Z := (65536 + (n - 55296) * 1024 + (m - 56320))%Z.

(** A text after its opening quote, and what follows its closing quote. *)
Fixpoint scanstring (s : string) : res (string * string) :=
  match s with
  | "" => bad "Unterminated string"
  | String c s =>
      if N.eqb (code c) 34 then Ok ("", s)
      else if N.eqb (code c) 92 then
        match s with
        | "" => bad "Unterminated string"
        | String e s =>
            if bool_decide (e = "u"%char) then
              match s with
              | String h1 (String h2 (String h3 (String h4 s))) =>
                  match hex4 h1 h2 h3 h4 with
                  | None => bad "Invalid \uXXXX escape"
                  | Some n =>
                      let one := '(t, r) ← scanstring s; Ok (uchr n +:+ t, r) in
                      if high_surrogate n then
                        match s with
                        | String b (String u (String k1 (String k2 (String k3 (String k4 s))))) =>
                            if N.eqb (code b) 92 && bool_decide (u = "u"%char) then
                              match hex4 k1 k2 k3 k4 with
                              | None => bad "Invalid \uXXXX escape"
                              | Some m =>
                                  if low_surrogate m
                                  then '(t, r) ← scanstring s; Ok (uchr (joined n m) +:+ t, r)
                                  else one
                              end
                            else one
                        | _ => one
                        end
                      else one
                  end
              | _ => bad "Invalid \uXXXX escape"
              end
            else match unescape e with
                 | Some x => '(t, r) ← scanstring s; Ok (String x t, r)
                 | None => bad "Invalid \escape"
                 end
        end
      else if N.ltb (code c) 32 then bad "Invalid control character"
      else '(t, r) ← scanstring s; Ok (String c t, r)
  end.

(** The characters at the front that satisfy [f], and the rest. *)
Fixpoint take_while (f : ascii → bool) (s : string) : string * string :=
  match s with
  | "" => ("", "")
  | String c t => if f c then let '(w, r) := take_while f t in (String c w, r) else ("", s)
  end.

(** [(-?(?:0|[1-9]\d* ))(\.\d+)?([eE][-+]?\d+)?], as its three groups and the rest. *)
Definition int_part (s : string) : option (string * string) :=
  match s with
  | String c t =>
      if bool_decide (c = "0"%char) then Some ("0", t)
      else if is_digit c then Some (take_while is_digit s) else None
  | "" => None
  end.
Definition frac_part (s : string) : string * string :=
  match s with
  | String "." t => match take_while is_digit t with
                    | ("", _) => ("", s)
                    | (ds, r) => (String "." ds, r)
                    end
  | _ => ("", s)
  end.
Definition exp_part (s : string) : string * string :=
  match s with
  | String e t =>
      if bool_decide (e = "e"%char) || bool_decide (e = "E"%char) then
        let '(sign, u) := match t with
                          | String "-" u => ("-", u)
                          | String "+" u => ("+", u)
                          | _ => ("", t)
                          end in
        match take_while is_digit u with
        | ("", _) => ("", s)
        | (ds, r) => (String e (sign +:+ ds), r)
        end
      else ("", s)
  | "" => ("", s)
  end.

Definition scan_number (s : string) : res (pyval * string) :=
  let '(sign, u) := match s with String "-" u => ("-", u) | _ => ("", s) end in
  match int_part u with
  | None => bad "Expecting value"
  | Some (ds, r) =>
      let '(fs, r1) := frac_part r in
      let '(es, r2) := exp_part r1 in
      match fs, es with
      | "", "" => n ← int_of_str (sign +:+ ds); Ok (PyInt n, r2)
      | _, _ => Ok (PyFloat (float_of (sign +:+ ds +:+ fs +:+ es)), r2)
      end
  end.

(** The rest of an array after a value is expected; [n] bounds the values. *)
Fixpoint scan_items (value : string → res (pyval * string)) (n : nat) (s : string)
    : res (list pyval * string) :=
  match n with
  | O => bad "Expecting value"
  | S n =>
      '(v, r) ← value s;
      match skip_ws r with
      | String "]" r => Ok ([v], r)
      | String "," r => '(vs, r) ← scan_items value n (skip_ws r); Ok (v :: vs, r)
      | _ => bad "Expecting ',' delimiter"
      end
  end.

(** The rest of an object after a key is expected. *)
Fixpoint scan_pairs (value : string → res (pyval * string)) (n : nat) (s : string)
    : res (list (string * pyval) * string) :=
  match n with
  | O => bad "Expecting property name"
  | S n =>
      match s with
      | String q s =>
          if N.eqb (code q) 34 then
            '(k, r) ← scanstring s;
            match skip_ws r with
            | String ":" r =>
                '(v, r) ← value (skip_ws r);
                match skip_ws r with
                | String "}" r => Ok ([(k, v)], r)
                | String "," r => '(vs, r) ← scan_pairs value n (skip_ws r); Ok ((k, v) :: vs, r)
                | _ => bad "Expecting ',' delimiter"
                end
            | _ => bad "Expecting ':' delimiter"
            end
          else bad "Expecting property name enclosed in double quotes"
      | "" => bad "Expecting property name enclosed in double quotes"
      end
  end.

(** [s] without [w] at its front. *)
Definition after_word (w s : string) : option string :=
  if startswith s w then Some (drop_str (String.length w) s) else None.

(** The values that are words. *)
Definition words : list (string * pyval) :=
  [("null", PyNone); ("true", PyBool true); ("false", PyBool false)].

Definition scan_scalar (s : string) : res (pyval * string) :=
  match find (λ w, startswith s w.1) words with
  | Some (w, v) => Ok (v, drop_str (String.length w) s)
  | None =>
      match find (λ w, startswith s w) ["NaN"; "Infinity"; "-Infinity"] with
      | Some w => Ok (PyFloat (float_of w), drop_str (String.length w) s)
      | None => scan_number s
      end
  end.

(** A value and the rest; [depth] is the nesting that the interpreter allows. *)
Fixpoint scan_once (depth : nat) (s : string) : res (pyval * string) :=
  match s with
  | "" => bad "Expecting value"
  | String c t =>
      if N.eqb (code c) 34 then '(v, r) ← scanstring t; Ok (PyStr v, r)
      else if bool_decide (c = "{"%char) then
        match depth with
        | O => raise RuntimeError "maximum recursion depth exceeded"
        | S depth =>
            match skip_ws t with
            | String "}" r => Ok (PyDict [], r)
            | u => '(d, r) ← scan_pairs (scan_once depth) (String.length u) u; Ok (PyDict (dict d), r)
            end
        end
      else if bool_decide (c = "["%char) then
        match depth with
        | O => raise RuntimeError "maximum recursion depth exceeded"
        | S depth =>
            match skip_ws t with
            | String "]" r => Ok (PyList [], r)
            | u => '(l, r) ← scan_items (scan_once depth) (String.length u) u; Ok (PyList l, r)
            end
        end
      else scan_scalar s
  end.

(** [json.loads(s)]. *)
Definition loads (depth : nat) (s : string) : res pyval :=
  '(v, r) ← scan_once depth (skip_ws s);
  if String.eqb (skip_ws r) "" then Ok v else bad "Extra data".
End loads.
