(* ===== verification/JsonFacts.v ===== *)
(** Reading back what [json.dumps] wrote. *)

From S2P Require Import Prelude Errors PyStr PyStrFacts PyDict PyVal IpAddr Json.

(** ** Decimal numbers *)

Lemma pretty_N_char_digit d :
  (d < 10)%N → is_digit (pretty_N_char d) = true ∧ (code (pretty_N_char d) - 48 = d)%N ∧
               (d ≠ 0%N → pretty_N_char d ≠ "0"%char).
Proof.
  intros Hd. assert (d ∈ [0;1;2;3;4;5;6;7;8;9]%N) as Hin.
  { repeat (destruct (decide (d = _)) as [->|]; [set_solver|]).
    assert (∃ k, d = N.of_nat k ∧ k < 10) as (k & -> & Hk) by (exists (N.to_nat d); lia).
    do 10 (destruct k as [|k]; [set_solver|]). lia. }
  repeat (apply elem_of_cons in Hin as [->|Hin]); [done..|by apply elem_of_nil in Hin].
Qed.

(** The digits of a positive number: they do not begin with 0, and they denote
    the number. *)
Lemma pretty_N_go_digits x : (0 < x)%N → ∀ s, ∃ c t,
  pretty_N_go x s = String c t +:+ s ∧ all_str is_digit (String c t) = true ∧ c ≠ "0"%char.
Proof.
  induction (N.lt_wf_0 x) as [x _ IH]. intros Hx s. rewrite pretty_N_go_step by done.
  destruct (pretty_N_char_digit (x `mod` 10)) as (Hd & _ & Hz); [by apply N.mod_lt|].
  destruct (decide (0 < x `div` 10)%N) as [Hq|Hq].
  - destruct (IH (x `div` 10)%N ltac:(apply N.div_lt; lia) Hq (String (pretty_N_char (x `mod` 10)) s))
      as (c & t & -> & Hall & Hc).
    exists c, (t +:+ String (pretty_N_char (x `mod` 10)) ""). split; [simpl; f_equal; by rewrite <- app_str_assoc|].
    split; [|done]. simpl in *. apply andb_true_iff in Hall as [-> Ht].
    rewrite all_str_app, Ht. simpl. by rewrite Hd.
  - assert (x `div` 10 = 0)%N as Hq0 by (by apply N.nlt_ge, N.le_0_r in Hq). rewrite Hq0, pretty_N_go_0.
    exists (pretty_N_char (x `mod` 10)), "". split; [done|]. split; [simpl; by rewrite Hd|].
    apply Hz. intros Hm. pose proof (N.div_mod x 10 ltac:(done)); rewrite ?Hq0 in *; lia.
Qed.

Lemma digits_val_pretty x s : digits_val 0 (pretty_N_go x s) = digits_val x s.
Proof.
  revert s. induction (N.lt_wf_0 x) as [x _ IH]. intros s.
  destruct (decide (0 < x)%N) as [Hx|Hx].
  - rewrite pretty_N_go_step by done. rewrite IH by (apply N.div_lt; lia). simpl.
    unfold digit_val. destruct (pretty_N_char_digit (x `mod` 10)) as (_ & Hv & _); [by apply N.mod_lt|].
    rewrite Hv. f_equal. pose proof (N.div_mod x 10 ltac:(done)); rewrite ?Hq0 in *; lia.
  - assert (x = 0)%N as -> by lia. by rewrite pretty_N_go_0.
Qed.

(** [take_while] stops where the class does. *)
Definition ends (f : ascii → bool) (s : string) : bool :=
  match s with "" => true | String c _ => negb (f c) end.

Lemma take_while_app f w r : all_str f w = true → ends f r = true → take_while f (w +:+ r) = (w, r).
Proof.
  intros Hw Hr. induction w as [|c w IH]; simpl in *.
  - destruct r as [|c r]; [done|]. simpl in *. by destruct (f c).
  - apply andb_true_iff in Hw as [-> Hw]. by rewrite IH.
Qed.

Lemma digit_facts c : is_digit c = true → is_int_space c = false ∧ c ≠ "-"%char ∧ c ≠ "+"%char.
Proof.
  revert c. assert (∀ c, negb (is_digit c) || (negb (is_int_space c)
    && negb (bool_decide (c = "-"%char)) && negb (bool_decide (c = "+"%char))) = true) as H.
  { check_ascii. }
  intros c Hc. specialize (H c). rewrite Hc in H. simpl in H.
  apply andb_true_iff in H as [[H1 H2]%andb_true_iff H3]. apply negb_true_iff in H1.
  apply negb_true_iff, bool_decide_eq_false in H2, H3. done.
Qed.

Lemma strip_digits u : all_str is_digit u = true → strip_by is_int_space u = u.
Proof.
  intros Hu. apply strip_none. eapply all_str_impl; [|exact Hu].
  intros c Hc. by destruct (digit_facts c Hc) as (-> & _).
Qed.

(** The text of a number: its sign, and its digits without a leading 0. *)
Lemma str_of_Z_shape n :
  n = 0%Z ∨ ∃ sign c t, str_of_Z n = sign +:+ String c t ∧ all_str is_digit (String c t) = true ∧
    c ≠ "0"%char ∧ (sign = "" ∧ (0 < n)%Z ∨ sign = "-" ∧ (n < 0)%Z) ∧
    Z.of_N (digits_val 0 (String c t)) = Z.abs n.
Proof.
  assert (∀ p, ∃ c t, pretty (N.pos p) = String c t ∧ all_str is_digit (String c t) = true ∧ c ≠ "0"%char ∧
            digits_val 0 (String c t) = N.pos p) as Hpos.
  { intros p. destruct (pretty_N_go_digits (N.pos p) ltac:(lia) "") as (c & t & Hp & Hall & Hc).
    rewrite app_str_nil_r in Hp. exists c, t.
    assert (pretty (N.pos p) = pretty_N_go (N.pos p) "") as -> by reflexivity.
    split; [exact Hp|]. split; [done|]. split; [done|]. by rewrite <- Hp, digits_val_pretty. }
  destruct n as [|p|p]; [by left|right..]; destruct (Hpos p) as (c & t & Hp & Hall & Hc & Hv).
  - exists "", c, t. split; [exact Hp|]. rewrite Hv. split_and!; [done|done|by left|done].
  - exists "-", c, t. split; [exact (f_equal (String "-") Hp)|].
    rewrite Hv. split_and!; [done|done|by right|done].
Qed.

Lemma int_of_str_str n :
  String.length (str_of_Z n) <= int_max_str_digits → int_of_str (str_of_Z n) = Ok n.
Proof.
  intros Hlen. destruct (str_of_Z_shape n) as [->|(sign & c & t & Hs & Hall & Hc & Hsign & Hv)]; [reflexivity|].
  rewrite Hs in Hlen |- *. pose proof Hall as [Hd _]%andb_true_iff.
  destruct (digit_facts c Hd) as (Hsp & Hm & Hp). unfold int_of_str.
  assert (strip_by is_int_space (sign +:+ String c t) = sign +:+ String c t) as ->.
  { apply strip_none. rewrite all_str_app. apply andb_true_iff. split.
    - by destruct Hsign as [[-> _]|[-> _]].
    - eapply all_str_impl; [|exact Hall]. intros a Ha. by destruct (digit_facts a Ha) as (-> & _). }
  assert (String.length (String c t) <= int_max_str_digits) as Hl.
  { rewrite length_app_str in Hlen. lia. }
  apply Nat.ltb_ge in Hl.
  destruct Hsign as [[-> Hn]|[-> Hn]]; unfold String.append.
  - assert (int_sign (String c t) = (1%Z, String c t)) as ->.
    { clear -Hm Hp. by destruct c as [[] [] [] [] [] [] [] []]. }
    rewrite int_digits_all by (done || by left). rewrite Hl, Hv. f_equal. lia.
  - cbn [int_sign]. rewrite int_digits_all by (done || by left). rewrite Hl, Hv. f_equal. lia.
Qed.

(** ** Scalars *)

(** The characters that would continue a number. *)
Definition continues_number (c : ascii) : bool :=
  is_digit c || bool_decide (c = "."%char) || bool_decide (c = "e"%char) || bool_decide (c = "E"%char).

Lemma number_ends r : ends continues_number r = true →
  ends is_digit r = true ∧ frac_part r = ("", r) ∧ exp_part r = ("", r).
Proof.
  destruct r as [|c r]; [done|]. simpl. unfold continues_number. rewrite negb_true_iff, !orb_false_iff.
  intros [[[-> Hdot] ->] ->]. simpl. split; [done|]. split; [|done].
  apply bool_decide_eq_false in Hdot. clear -Hdot. by destruct c as [[] [] [] [] [] [] [] []].
Qed.

Section facts.
Context (wide : N → string) (float_of : string → pyfloat).
Implicit Types (s r u : string) (v : pyval).

Lemma scan_number_str n r :
  String.length (str_of_Z n) <= int_max_str_digits → ends continues_number r = true →
  scan_number float_of (str_of_Z n +:+ r) = Ok (PyInt n, r).
Proof.
  intros Hlen (Hd & Hf & He)%number_ends. unfold scan_number.
  destruct (str_of_Z_shape n) as [->|(sign & c & t & Hs & Hall & Hc & Hsign & _)].
  - change (str_of_Z 0) with "0". simpl. rewrite Hf, He. reflexivity.
  - assert (int_part (String c t +:+ r) = Some (String c t, r)) as Hint.
    { simpl. rewrite bool_decide_eq_false_2 by done. pose proof Hall as [Hcd _]%andb_true_iff.
      pose proof (take_while_app is_digit (String c t) r Hall Hd) as Ht. simpl in Ht.
      rewrite Hcd in Ht |- *. by rewrite Ht. }
    pose proof (int_of_str_str n Hlen) as Hn. rewrite Hs in Hn |- *. rewrite <- app_str_assoc.
    assert (match sign +:+ String c t +:+ r with String "-" u => ("-", u) | _ => ("", sign +:+ String c t +:+ r) end
            = (sign, String c t +:+ r)) as ->.
    { pose proof Hall as [Hcd _]%andb_true_iff. destruct (digit_facts c Hcd) as (_ & Hm & _).
      destruct Hsign as [[-> _]|[-> _]]; [|done]. clear -Hm. simpl.
      by destruct c as [[] [] [] [] [] [] [] []]. }
    rewrite Hint, Hf, He, Hn. done.
Qed.

Lemma scanstring_char c u :
  scanstring wide (escape_char c +:+ u) = ('(t, r) ← scanstring wide u; Ok (String c t, r)).
Proof. by destruct c as [[] [] [] [] [] [] [] []]. Qed.

Lemma scanstring_escape s r : scanstring wide (escape s +:+ String dquote_char r) = Ok (s, r).
Proof.
  induction s as [|c s IH]; [done|]. simpl escape. by rewrite <- app_str_assoc, scanstring_char, IH.
Qed.

Lemma startswith_head a w c t : c ≠ a → startswith (String c t) (String a w) = false.
Proof. intros Hca. unfold startswith. simpl. destruct (ascii_dec a c); congruence. Qed.

(** The words are told from a number by its first characters. *)
Lemma scan_scalar_number c t :
  (is_digit c = true ∨ c = "-"%char ∧ startswith t "Infinity" = false) →
  scan_scalar float_of (String c t) = scan_number float_of (String c t).
Proof.
  intros Hc. unfold scan_scalar.
  assert (c ∉ ["n"; "t"; "f"; "N"; "I"]%char ∧ (c = "-"%char → startswith t "Infinity" = false)) as [Hw Hm].
  { destruct Hc as [Hd|[-> Hi]]; [|split; [set_solver|done]].
    split; [|intros ->; done]. intros Hin. repeat (apply elem_of_cons in Hin as [->|Hin]); try done.
    by apply elem_of_nil in Hin. }
  rewrite !not_elem_of_cons in Hw. destruct Hw as (Hn & Ht & Hf & HN & HI & _).
  unfold words. cbn [find fst]. rewrite !startswith_head by done.
  destruct (ascii_dec "-" c) as [<-|Hd]; [|by rewrite !startswith_head by congruence].
  unfold startswith in *. simpl String.prefix in *. destruct (ascii_dec "-" "-"); [|done]. by rewrite Hm.
Qed.

(** ** Values *)

(** Values without floats, whose integers can be read back and whose keys are
    distinct. *)
Fixpoint plain (v : pyval) : bool :=
  match v with
  | PyInt n => (String.length (str_of_Z n) <=? int_max_str_digits)%nat
  | PyFloat _ => false
  | PyList l => forallb plain l
  | PyDict d => bool_decide (NoDup (dkeys d)) && forallb (λ kv, plain kv.2) d
  | _ => true
  end.

Fixpoint depth (v : pyval) : nat :=
  match v with
  | PyList l => S (list_max (map depth l))
  | PyDict d => S (list_max (map (λ kv, depth kv.2) d))
  | _ => 0
  end.

(** How the text of a value may begin. *)
Definition begins (s : string) : Prop :=
  ∃ c t, s = String c t ∧ is_json_space c = false ∧ c ≠ "]"%char ∧ c ≠ "}"%char.

Lemma digit_begins c : is_digit c = true → is_json_space c = false ∧ c ≠ "]"%char ∧ c ≠ "}"%char.
Proof. intros Hc. destruct c as [[] [] [] [] [] [] [] []]; try discriminate Hc; repeat split; done. Qed.

Lemma dumps_begins v : plain v = true → begins (dumps v).
Proof.
  destruct v as [|[]|n|f|s|l|d]; simpl; intros Hv; try done;
    try (eexists _, _; split; [reflexivity|]; split_and!; done).
  destruct (str_of_Z_shape n) as [->|(sign & c & t & -> & [Hc _]%andb_true_iff & _ & Hs & _)].
  - by exists "0"%char, "".
  - destruct Hs as [[-> _]|[-> _]]; [|by eexists _, _].
    exists c, t. split; [done|]. by apply digit_begins.
Qed.

Lemma skip_ws_begins s r : begins s → skip_ws (s +:+ r) = s +:+ r.
Proof. intros (c & t & -> & Hc & _). unfold skip_ws. simpl. by rewrite Hc. Qed.

(** A printer of elements that a reader reads back before a delimiter. *)
Definition reads {A} (value : string → res (A * string)) (print : A → string) (a : A) : Prop :=
  begins (print a) ∧ ∀ r, ends continues_number r = true → value (print a +:+ r) = Ok (a, r).

Lemma scan_items_join value l r n :
  l ≠ [] → Forall (reads value dumps) l → length l <= n →
  scan_items value n (join ", " (map dumps l) +:+ String "]" r) = Ok (l, r).
Proof.
  intros Hne Hall. revert n. induction Hall as [|v l [_ Hv] Hall IH]; [done|]. intros [|n] Hn; [simpl in Hn; lia|].
  destruct l as [|v' l].
  - simpl. by rewrite Hv.
  - change (join ", " (map dumps (v :: v' :: l))) with (dumps v +:+ ", " +:+ join ", " (map dumps (v' :: l))).
    rewrite <- !app_str_assoc. cbn [scan_items]. rewrite Hv by done.
    change (skip_ws (", " +:+ ?x)) with (", " +:+ x).
    assert (∀ x, skip_ws (String " " x) = skip_ws x) as Hsp by done.
    cbn [mbind res_bind String.append]. change (skip_ws (String "," ?x)) with (String "," x). cbn iota.
    rewrite Hsp. inversion Hall as [|? ? [Hb' _] _]; subst.
    assert (begins (join ", " (map dumps (v' :: l)))) as Hb.
    { destruct Hb' as (c & t & Ht & Hc). destruct l as [|w l]; simpl; rewrite Ht; by eexists _, _. }
    rewrite skip_ws_begins by done. rewrite IH; [done..|simpl in *; lia].
Qed.

Definition dumps_pair (kv : string * pyval) : string := dumps_str kv.1 +:+ ": " +:+ dumps kv.2.

Lemma scan_pairs_join value d r n :
  d ≠ [] → Forall (λ kv, reads value dumps kv.2) d → length d <= n →
  scan_pairs wide value n (join ", " (map dumps_pair d) +:+ String "}" r) = Ok (d, r).
Proof.
  intros Hne Hall. revert n. induction Hall as [|[k v] d [Hb Hv] Hall IH]; [done|].
  intros [|n] Hn; [simpl in Hn; lia|]. cbn [snd] in Hb, Hv.
  assert (∀ x m, scan_pairs wide value (S m) (dumps_pair (k, v) +:+ x)
          = '(v, r) ← value (dumps v +:+ x);
            match skip_ws r with
            | String "}" r => Ok ([(k, v)], r)
            | String "," r => '(vs, r) ← scan_pairs wide value m (skip_ws r); Ok ((k, v) :: vs, r)
            | _ => bad "Expecting ',' delimiter"
            end) as Hstep.
  { intros x m. unfold dumps_pair, dumps_str. cbn [fst snd]. rewrite <- !app_str_assoc.
    cbn [String.append]. rewrite <- app_str_assoc. cbn [scan_pairs String.append].
    change (code dquote_char =? 34)%N with true. cbn iota. rewrite scanstring_escape.
    cbn [mbind res_bind]. change (skip_ws (String ":" ?y)) with (String ":" y). cbn iota.
    assert (∀ y, skip_ws (String " " y) = skip_ws y) as -> by done. by rewrite skip_ws_begins. }
  destruct d as [|kv' d].
  - change (join ", " (map dumps_pair [(k, v)])) with (dumps_pair (k, v)). rewrite Hstep, Hv by done. done.
  - change (join ", " (map dumps_pair ((k, v) :: kv' :: d)))
      with (dumps_pair (k, v) +:+ ", " +:+ join ", " (map dumps_pair (kv' :: d))).
    rewrite <- !app_str_assoc, Hstep. cbn [String.append]. rewrite Hv by done.
    cbn [mbind res_bind]. change (skip_ws (String "," ?x)) with (String "," x). cbn iota.
    assert (∀ y, skip_ws (String " " y) = skip_ws y) as -> by done.
    rewrite skip_ws_begins by (destruct d; by eexists _, _). rewrite IH; [done..|simpl in *; lia].
Qed.

Lemma length_join {A} (f : A → string) l c r :
  length l <= String.length (join ", " (map f l) +:+ String c r).
Proof.
  rewrite length_app_str. cut (length l <= S (String.length (join ", " (map f l)))); [simpl; lia|].
  induction l as [|x l IH]; [simpl; lia|]. destruct l as [|y l]; [simpl; lia|].
  change (join ", " (map f (x :: y :: l))) with (f x +:+ ", " +:+ join ", " (map f (y :: l))).
  rewrite !length_app_str. simpl in *. lia.
Qed.

Lemma join_begins {A} (f : A → string) x l s : begins (f x) → begins (join ", " (map f (x :: l)) +:+ s).
Proof. intros (c & t & Ht & Hc). destruct l; simpl; rewrite Ht; by eexists _, _. Qed.

Lemma scan_array d l r :
  l ≠ [] → Forall (reads (scan_once wide float_of d) dumps) l →
  scan_once wide float_of (S d) (dumps (PyList l) +:+ r) = Ok (PyList l, r).
Proof.
  intros Hne Hall. destruct l as [|v l]; [done|]. cbn [dumps String.append]. rewrite <- app_str_assoc.
  cbn [String.append]. set (u := join _ _ +:+ _).
  assert (begins u) as Hb. { inversion Hall as [|? ? [Hv _] _]; subst. by apply join_begins. }
  assert (skip_ws u = u) as Hu.
  { destruct Hb as (c & t & -> & Hc & _). unfold skip_ws. simpl. by rewrite Hc. }
  assert (scan_items (scan_once wide float_of d) (String.length u) u = Ok (v :: l, r)) as Hi.
  { apply scan_items_join; [done|done|apply length_join]. }
  cbn [scan_once]. change (N.eqb (code "[") 34) with false. cbn iota.
  change (bool_decide ("["%char = "{"%char)) with false. change (bool_decide ("["%char = "["%char)) with true.
  cbn iota. rewrite Hu. clearbody u. destruct Hb as (c & t & -> & _ & Hc & _).
  clear -Hc Hi. destruct c as [[] [] [] [] [] [] [] []]; try (rewrite Hi; reflexivity). done.
Qed.

Lemma scan_object d l r :
  l ≠ [] → Forall (λ kv, reads (scan_once wide float_of d) dumps kv.2) l →
  scan_once wide float_of (S d) (dumps (PyDict l) +:+ r) = Ok (PyDict (dict l), r).
Proof.
  intros Hne Hall. destruct l as [|v l]; [done|]. cbn [dumps String.append]. rewrite <- app_str_assoc.
  cbn [String.append]. fold dumps_pair. change (map _ (v :: l)) with (map dumps_pair (v :: l)).
  set (u := join _ _ +:+ _).
  assert (begins u) as Hb. { apply join_begins. by eexists _, _. }
  assert (skip_ws u = u) as Hu.
  { destruct Hb as (c & t & -> & Hc & _). unfold skip_ws. simpl. by rewrite Hc. }
  assert (scan_pairs wide (scan_once wide float_of d) (String.length u) u = Ok (v :: l, r)) as Hi.
  { apply scan_pairs_join; [done|done|apply length_join]. }
  cbn [scan_once]. change (N.eqb (code "{") 34) with false. cbn iota.
  change (bool_decide ("{"%char = "{"%char)) with true.
  cbn iota. rewrite Hu. clearbody u. destruct Hb as (c & t & -> & _ & _ & Hc).
  clear -Hc Hi. destruct c as [[] [] [] [] [] [] [] []]; try (rewrite Hi; reflexivity). done.
Qed.

Lemma scan_word w v d r : (w, v) ∈ words → scan_once wide float_of d (w +:+ r) = Ok (v, r).
Proof.
  intros Hin. assert (scan_scalar float_of (w +:+ r) = Ok (v, r)) as Hs.
  { unfold scan_scalar, words in *. cbn [find fst].
    pose proof (startswith_refl_app w r) as Hw. pose proof (drop_str_app w r) as Hd.
    repeat (apply elem_of_cons in Hin as [[= -> ->]|Hin]); [..|by apply elem_of_nil in Hin].
    - by rewrite Hw, Hd.
    - change (startswith ("true" +:+ r) "null") with false. by rewrite Hw, Hd.
    - change (startswith ("false" +:+ r) "null") with false.
      change (startswith ("false" +:+ r) "true") with false. by rewrite Hw, Hd. }
  repeat (apply elem_of_cons in Hin as [[= -> ->]|Hin]); [..|by apply elem_of_nil in Hin];
    (etransitivity; [|exact Hs]); by destruct d.
Qed.

(** Reading a value at the front of a text. *)
Lemma scan_dumps v : plain v = true → ∀ d r,
  depth v <= d → ends continues_number r = true →
  scan_once wide float_of d (dumps v +:+ r) = Ok (v, r).
Proof.
  induction v as [|[]|n|f|s|l IH|l IH] using pyval_nested_ind; intros Hp d r Hd Hr; try done;
    try (apply scan_word; unfold words; set_solver).
  - simpl in Hp. apply Nat.leb_le in Hp. pose proof (scan_number_str n r Hp Hr) as Hn.
    cbn [dumps]. assert (∃ c t, str_of_Z n +:+ r = String c t ∧
      (is_digit c = true ∨ c = "-"%char ∧ startswith t "Infinity" = false)) as (c & t & Hs & Hc).
    { destruct (str_of_Z_shape n) as [->|(sign & c & t & -> & [Hc _]%andb_true_iff & _ & Hs & _)].
      - exists "0"%char, r. split; [done|by left].
      - destruct Hs as [[-> _]|[-> _]]; [exists c, (t +:+ r); split; [done|by left]|].
        exists "-"%char, (String c t +:+ r). split; [done|right]. split; [done|].
        apply startswith_head. intros ->. discriminate Hc. }
    rewrite Hs in Hn |- *. rewrite <- (scan_scalar_number _ _ Hc) in Hn.
    assert (is_digit c = true ∨ c = "-"%char) as Hc' by tauto. clear Hc Hs.
    destruct d, c as [[] [] [] [] [] [] [] []]; first [exact Hn|destruct Hc'; discriminate].
  - cbn [dumps]. unfold dumps_str. cbn [String.append]. rewrite <- app_str_assoc. cbn [String.append].
    destruct d; cbn [scan_once]; change (N.eqb (code dquote_char) 34) with true; cbn iota;
      by rewrite scanstring_escape.
  - simpl in Hd. destruct d as [|d]; [lia|]. destruct l as [|v l]; [done|]. apply scan_array; [done|].
    cbn [plain] in Hp. rewrite forallb_true_forall in Hp.
    assert (list_max (map depth (v :: l)) <= d) as Hm by lia. apply list_max_le, List.Forall_map in Hm.
    rewrite Forall_forall in IH, Hm. apply Forall_forall. intros x Hx.
    split; [by apply dumps_begins, Hp|]. intros r' Hr'. apply IH; [done|by apply Hp|by apply Hm|done].
  - simpl in Hd. destruct d as [|d]; [lia|]. destruct l as [|v l]; [done|].
    cbn [plain] in Hp. apply andb_true_iff in Hp as [Hnd%bool_decide_eq_true Hp].
    rewrite forallb_true_forall in Hp. rewrite scan_object; [by rewrite dict_id|done|].
    assert (list_max (map (λ kv, depth kv.2) (v :: l)) <= d) as Hm by lia.
    apply list_max_le, List.Forall_map in Hm.
    rewrite Forall_forall in IH, Hm. apply Forall_forall. intros x Hx.
    split; [by apply dumps_begins, Hp|]. intros r' Hr'. apply IH; [done|by apply Hp|by apply Hm|done].
Qed.

(** [json.loads(json.dumps(v))]. *)
Lemma loads_dumps v d : plain v = true → depth v <= d → loads wide float_of d (dumps v) = Ok v.
Proof.
  intros Hp Hd. unfold loads. destruct (dumps_begins v Hp) as (c & t & Ht & Hc & _).
  assert (skip_ws (dumps v) = dumps v +:+ "") as ->.
  { rewrite app_str_nil_r, Ht. unfold skip_ws. simpl. by rewrite Hc. }
  by rewrite scan_dumps.
Qed.

(** ** The bounds on elements are enough *)

(** A reader that takes at least one character. *)
Definition consumes {A} (value : string → res (A * string)) : Prop :=
  ∀ s a r, value s = Ok (a, r) → String.length r < String.length s.

Lemma length_lstrip p s : String.length (lstrip_by p s) <= String.length s.
Proof. induction s as [|c s IH]; simpl; [done|]. destruct (p c); simpl; lia. Qed.

Lemma length_skip_ws s : String.length (skip_ws s) <= String.length s.
Proof. apply length_lstrip. Qed.

Lemma length_take_while f s w r : take_while f s = (w, r) → String.length w + String.length r = String.length s.
Proof.
  revert w r. induction s as [|c s IH]; intros w r; simpl; [by intros [= <- <-]|].
  destruct (f c); [|by intros [= <- <-]]. destruct (take_while f s) as [w' r'] eqn:E.
  intros [= <- <-]. simpl. by rewrite (IH _ _ eq_refl).
Qed.

(** Every value of a list needs at least the character it takes, so a bound of
    the length of the text is never reached: any greater bound gives the same. *)
Lemma scan_items_enough value : consumes value → ∀ n m s,
  String.length s <= n → String.length s <= m → 0 < n → 0 < m →
  scan_items value n s = scan_items value m s.
Proof.
  intros Hv. induction n as [|n IH]; intros m s Hn Hm Hn0 Hm0; [lia|].
  destruct m as [|m]; [lia|]. cbn [scan_items]. destruct (value s) as [[v r]|e] eqn:E; [|done].
  apply Hv in E. cbn [mbind res_bind]. pose proof (length_skip_ws r).
  destruct (skip_ws r) as [|c u] eqn:Eu; [done|]. simpl in *. pose proof (length_skip_ws u).
  destruct n as [|n]; [lia|]. destruct m as [|m]; [lia|].
  rewrite (IH (S m) (skip_ws u)) by lia. done.
Qed.

(** Split the tests at the head of a hypothesis and close what raises. *)
#[local] Ltac split_head H :=
  repeat (first
    [ discriminate H
    | match type of H with
      | (if ?b then _ else _) = _ => destruct b
      | match ?x with _ => _ end = _ => is_var x; destruct x
      end ]).

Lemma scanstring_consumes : consumes (scanstring wide).
Proof.
  intros s. induction s as [s IH] using (well_founded_induction (well_founded_ltof _ String.length)).
  unfold ltof in IH. intros t r H. destruct s as [|c s]; [done|]. cbn [scanstring] in H.
  assert (∀ u (f : string → string) x, String.length u < String.length (String c s) →
    ('(t, r) ← scanstring wide u; Ok (f t, r)) = Ok (x, r) → String.length r < String.length (String c s)) as Hrec.
  { intros u f x Hu Hb. apply bind_Ok in Hb as ([t' r'] & Ht & [= _ <-]).
    pose proof (IH u Hu _ _ Ht). lia. }
  destruct (N.eqb (code c) 34); [by injection H as <- <-; simpl; lia|].
  destruct (N.eqb (code c) 92).
  - destruct s as [|e s]; [done|]. destruct (bool_decide (e = "u"%char)).
    + split_head H. destruct (hex4 _ _ _ _) as [n|]; [|done]. cbv zeta in H.
      destruct (high_surrogate n); [|eapply Hrec; [|exact H]; simpl; lia].
      split_head H; try (eapply Hrec; [|exact H]; simpl; lia).
      destruct (hex4 _ _ _ _) as [m|]; [|done].
      destruct (low_surrogate m); (eapply Hrec; [|exact H]; simpl; lia).
    + destruct (unescape e) as [x|]; [|done].
      eapply (Hrec s (String x)); [|exact H]; simpl; lia.
  - destruct (N.ltb (code c) 32); [done|]. eapply (Hrec s (String c)); [|exact H]; simpl; lia.
Qed.

Lemma after_startswith s w :
  startswith s w = true → w ≠ "" → String.length (drop_str (String.length w) s) < String.length s.
Proof.
  intros (r & ->)%startswith_spec Hw. rewrite drop_str_app, length_app_str.
  destruct w; [done|]. simpl. lia.
Qed.

Lemma scan_number_consumes : consumes (scan_number float_of).
Proof.
  intros s v r H. unfold scan_number in H.
  destruct (match s with String "-" u => ("-", u) | _ => ("", s) end) as [sign u] eqn:Es.
  assert (String.length u <= String.length s) as Hu.
  { clear -Es. destruct s as [|c s]; [by injection Es as <- <-|].
    destruct c as [[] [] [] [] [] [] [] []]; injection Es as <- <-; simpl; lia. }
  destruct (int_part u) as [[ds r0]|] eqn:Ei; [|done].
  assert (String.length r0 < String.length u) as H0.
  { destruct u as [|c t]; [done|]. unfold int_part in Ei.
    destruct (bool_decide _); [injection Ei as <- <-; simpl; lia|].
    destruct (is_digit c) eqn:Ec; [|done]. injection Ei as Ei. cbn [take_while] in Ei. rewrite Ec in Ei.
    destruct (take_while is_digit t) as [w r1] eqn:Et. injection Ei as <- <-.
    apply length_take_while in Et. simpl. lia. }
  destruct (frac_part r0) as [fs r1] eqn:Ef. destruct (exp_part r1) as [es r2] eqn:Ee.
  assert (String.length r1 <= String.length r0) as H1.
  { clear -Ef. destruct r0 as [|c t]; [by injection Ef as <- <-|].
    destruct c as [[] [] [] [] [] [] [] []]; try (injection Ef as <- <-; lia). simpl in Ef.
    destruct (take_while is_digit t) as [[|w ws] r] eqn:Et; injection Ef as <- <-; [lia|].
    apply length_take_while in Et. simpl in *. lia. }
  assert (String.length r2 <= String.length r1) as H2.
  { clear -Ee. destruct r1 as [|e t]; [by injection Ee as <- <-|]. unfold exp_part in Ee.
    destruct (_ || _); [|injection Ee as <- <-; lia].
    destruct (match t with String "-" u => ("-", u) | String "+" u => ("+", u) | _ => ("", t) end)
      as [sign u] eqn:Es.
    assert (String.length u <= String.length t) as Hu.
    { clear -Es. destruct t as [|c t]; [by injection Es as <- <-|].
      destruct c as [[] [] [] [] [] [] [] []]; injection Es as <- <-; simpl; lia. }
    destruct (take_while is_digit u) as [[|w ws] r] eqn:Et; injection Ee as <- <-; [simpl; lia|].
    apply length_take_while in Et. simpl in *. lia. }
  assert (r = r2) as ->; [|lia].
  destruct fs, es; try (by injection H as _ <-).
  by apply bind_Ok in H as (n & _ & [= _ <-]).
Qed.

Lemma scan_scalar_consumes : consumes (scan_scalar float_of).
Proof.
  intros s v r H. unfold scan_scalar in H. destruct (find _ words) as [[w x]|] eqn:E.
  - injection H as _ <-. apply find_some in E as [Hin Hs]. apply after_startswith; [done|].
    unfold words in Hin. simpl in Hin. naive_solver.
  - destruct (find _ _) as [w|] eqn:E' in H; [|by eapply scan_number_consumes].
    injection H as _ <-. apply find_some in E' as [Hin Hs]. apply after_startswith; [done|].
    simpl in Hin. naive_solver.
Qed.

Lemma scan_items_consumes value n : consumes value → consumes (scan_items value n).
Proof.
  intros Hv. induction n as [|n IH]; intros s l r H; [done|]. cbn [scan_items] in H.
  apply bind_Ok in H as ([v r1] & HA & H). apply Hv in HA. pose proof (length_skip_ws r1).
  destruct (skip_ws r1) as [|c u] eqn:Eu; [done|]. simpl in *. pose proof (length_skip_ws u).
  assert (('(vs, r) ← scan_items value n (skip_ws u); Ok (v :: vs, r)) = Ok (l, r) → String.length r < String.length s)
    as Hrec by (intros ([vs r2] & HB%IH & [= _ <-])%bind_Ok; lia).
  destruct c as [[] [] [] [] [] [] [] []]; 
    first [discriminate H|by apply Hrec|injection H as _ <-; lia].
Qed.

Lemma scan_pairs_consumes value n : consumes value → consumes (scan_pairs wide value n).
Proof.
  intros Hv. induction n as [|n IH]; intros s l r H; [done|]. cbn [scan_pairs] in H.
  destruct s as [|q s]; [done|]. destruct (N.eqb (code q) 34); [|done].
  apply bind_Ok in H as ([k r1] & HA%scanstring_consumes & H). pose proof (length_skip_ws r1).
  destruct (skip_ws r1) as [|c u] eqn:Eu; [done|].
  assert (∃ p, p = ('(v, r) ← value (skip_ws u);
             match skip_ws r with
             | String "}" r => Ok ([(k, v)], r)
             | String "," r => '(vs, r) ← scan_pairs wide value n (skip_ws r); Ok ((k, v) :: vs, r)
             | _ => bad "Expecting ',' delimiter"
             end) ∧ p = Ok (l, r)) as (p & -> & Hp).
  { destruct c as [[] [] [] [] [] [] [] []]; try discriminate H. eexists. split; [reflexivity|exact H]. }
  clear H. apply bind_Ok in Hp as ([v r2] & HB%Hv & H). pose proof (length_skip_ws u).
  pose proof (length_skip_ws r2). destruct (skip_ws r2) as [|c' u'] eqn:Eu'; [done|].
  simpl in *. pose proof (length_skip_ws u').
  assert (('(vs, r) ← scan_pairs wide value n (skip_ws u'); Ok ((k, v) :: vs, r)) = Ok (l, r) →
          String.length r < S (String.length s))
    as Hrec by (intros ([vs r3] & HC%IH & [= _ <-])%bind_Ok; lia).
  destruct c' as [[] [] [] [] [] [] [] []]; 
    first [discriminate H|by apply Hrec|injection H as _ <-; lia].
Qed.

Lemma scan_pairs_enough value : consumes value → ∀ n m s,
  String.length s <= n → String.length s <= m → 0 < n → 0 < m →
  scan_pairs wide value n s = scan_pairs wide value m s.
Proof.
  intros Hv. induction n as [|n IH]; intros m s Hn Hm Hn0 Hm0; [lia|].
  destruct m as [|m]; [lia|]. cbn [scan_pairs]. destruct s as [|q s]; [done|].
  destruct (N.eqb (code q) 34); [|done].
  destruct (scanstring wide s) as [[k r1]|e] eqn:E1; [|done]. apply scanstring_consumes in E1.
  cbn [mbind res_bind]. pose proof (length_skip_ws r1). destruct (skip_ws r1) as [|c u] eqn:Eu; [done|].
  assert (∀ k', ('(v, r) ← value (skip_ws u);
             match skip_ws r with
             | String "}" r => Ok ([(k', v)], r)
             | String "," r => '(vs, r) ← scan_pairs wide value n (skip_ws r); Ok ((k', v) :: vs, r)
             | _ => bad "Expecting ',' delimiter"
             end)
          = ('(v, r) ← value (skip_ws u);
             match skip_ws r with
             | String "}" r => Ok ([(k', v)], r)
             | String "," r => '(vs, r) ← scan_pairs wide value m (skip_ws r); Ok ((k', v) :: vs, r)
             | _ => bad "Expecting ',' delimiter"
             end)) as Hvalue.
  { intros k'. destruct (value (skip_ws u)) as [[v r2]|e] eqn:E2; [|done]. apply Hv in E2.
    cbn [mbind res_bind]. pose proof (length_skip_ws u). pose proof (length_skip_ws r2).
    destruct (skip_ws r2) as [|c' u'] eqn:Eu'; [done|]. simpl in *. pose proof (length_skip_ws u').
    destruct n as [|n]; [lia|]. destruct m as [|m]; [lia|]. rewrite (IH (S m) (skip_ws u')) by lia. done. }
  destruct c as [[] [] [] [] [] [] [] []]; first [reflexivity|exact (Hvalue k)].
Qed.

Lemma scan_once_consumes d : consumes (scan_once wide float_of d).
Proof.
  induction d as [|d IH]; intros s v r H; destruct s as [|c t]; try done; cbn [scan_once] in H;
    (destruct (N.eqb (code c) 34);
      [apply bind_Ok in H as ([x r'] & HA%scanstring_consumes & [= _ <-]); simpl; lia|]);
    (destruct (bool_decide (c = "{"%char)); [|destruct (bool_decide (c = "["%char))]);
    try done; try by eapply scan_scalar_consumes.
  - pose proof (length_skip_ws t). destruct (skip_ws t) as [|a u] eqn:Eu; [done|].
    assert (∀ n, ('(d, r) ← scan_pairs wide (scan_once wide float_of d) n (String a u); Ok (PyDict (dict d), r))
              = Ok (v, r) → String.length r < String.length (String c t)) as Hrec.
    { intros n ([l r1] & HA%scan_pairs_consumes & [= _ <-])%bind_Ok; [simpl in *; lia|done]. }
    destruct a as [[] [] [] [] [] [] [] []]; first [by eapply Hrec|injection H as _ <-; simpl in *; lia].
  - pose proof (length_skip_ws t). destruct (skip_ws t) as [|a u] eqn:Eu; [done|].
    assert (∀ n, ('(l, r) ← scan_items (scan_once wide float_of d) n (String a u); Ok (PyList l, r))
              = Ok (v, r) → String.length r < String.length (String c t)) as Hrec.
    { intros n ([l r1] & HA%scan_items_consumes & [= _ <-])%bind_Ok; [simpl in *; lia|done]. }
    destruct a as [[] [] [] [] [] [] [] []]; first [by eapply Hrec|injection H as _ <-; simpl in *; lia].
Qed.
End facts.
