(* ===== verification/DateTime.v ===== *)
(** The instants of [datetime]: the proleptic Gregorian calendar, [isoformat] and
    [strftime] of times in UTC, which are the only times the sources make
    ([datetime.now(UTC)]; [TIMESTAMPTZ] columns are read back in UTC).

    An instant is its number of microseconds since 1970-01-01T00:00:00Z; it is one
    of [datetime] when its year is between 1 and 9999. *)

From S2P Require Import Prelude Errors PyStr PyStrFacts JsonFacts.
#[local] Open Scope Z_scope.

(** ** The calendar *)

Definition is_leap (year : Z) : bool :=
  (year mod 4 =? 0) && (negb (year mod 100 =? 0) || (year mod 400 =? 0)).

Definition leap_day (year : Z) : Z := if is_leap year then 1 else 0.

(** Days of a common year before a month, [_DAYS_BEFORE_MONTH]. *)
Definition month_offset (month : Z) : Z :=
  nth (Z.to_nat month) [0; 0; 31; 59; 90; 120; 151; 181; 212; 243; 273; 304; 334; 365] 0.

Definition days_before_year (year : Z) : Z :=
  let y := year - 1 in y * 365 + y / 4 - y / 100 + y / 400.

Definition days_before_month (year month : Z) : Z :=
  month_offset month + if month >? 2 then leap_day year else 0.

Definition days_in_month (year month : Z) : Z :=
  days_before_month year (month + 1) - days_before_month year month.

(** [date.toordinal]: 0001-01-01 is day 1. *)
Definition ymd2ord (year month day : Z) : Z :=
  days_before_year year + days_before_month year month + day.

(** The month and day of a day of a year, counted from 0. *)
Definition month_day (leap : bool) (n : Z) : Z * Z :=
  let before m := month_offset m + if (m >? 2) && leap then 1 else 0 in
  let month := Z.shiftr (n + 50) 5 in
  let month := if before month >? n then month - 1 else month in
  (month, n - before month + 1).

(** [date.fromordinal]: cycles of 400, 100, 4 years and 1 year. *)
Definition ord2ymd (n : Z) : Z * Z * Z :=
  let n := n - 1 in
  let n400 := n / 146097 in let n := n mod 146097 in
  let n100 := n / 36524 in let n := n mod 36524 in
  let n4 := n / 1461 in let n := n mod 1461 in
  let n1 := n / 365 in let n := n mod 365 in
  let year := n400 * 400 + 1 + n100 * 100 + n4 * 4 + n1 in
  if (n1 =? 4) || (n100 =? 4) then (year - 1, 12, 31)
  else
    let leap := (n1 =? 3) && (negb (n4 =? 24) || (n100 =? 3)) in
    let md := month_day leap n in (year, md.1, md.2).

(** ** Times of day and instants *)

Record datetime := MkDatetime {
  dt_year : Z; dt_month : Z; dt_day : Z;
  dt_hour : Z; dt_minute : Z; dt_second : Z; dt_microsecond : Z
}.

Definition us_per_day : Z := 86400 * 1000000.

(** [date(1970, 1, 1).toordinal()]. *)
Definition epoch_ordinal : Z := 719163.

Definition datetime_of (t : Z) : datetime :=
  let '(y, m, d) := ord2ymd (t / us_per_day + epoch_ordinal) in
  let us := t mod us_per_day in
  let s := us / 1000000 in
  MkDatetime y m d (s / 3600) (s / 60 mod 60) (s mod 60) (us mod 1000000).

Definition instant (d : datetime) : Z :=
  (ymd2ord (dt_year d) (dt_month d) (dt_day d) - epoch_ordinal) * us_per_day
  + ((dt_hour d * 60 + dt_minute d) * 60 + dt_second d) * 1000000 + dt_microsecond d.

(** The instants of years 1 to 9999. *)
Definition in_calendar (t : Z) : Prop :=
  (ymd2ord 1 1 1 - epoch_ordinal) * us_per_day <= t < (ymd2ord 10000 1 1 - epoch_ordinal) * us_per_day.

(** ** Texts *)

(** [t.isoformat()]: no fraction where it is 0. *)
Definition isoformat (t : Z) : string :=
  let d := datetime_of t in
  zfill 4 (dt_year d) +:+ "-" +:+ zfill 2 (dt_month d) +:+ "-" +:+ zfill 2 (dt_day d) +:+ "T"
  +:+ zfill 2 (dt_hour d) +:+ ":" +:+ zfill 2 (dt_minute d) +:+ ":" +:+ zfill 2 (dt_second d)
  +:+ (if dt_microsecond d =? 0 then "" else "." +:+ zfill 6 (dt_microsecond d)) +:+ "+00:00".

(** [t.strftime("%Y%m%dT%H%M%SZ")]; the C library does not pad the year. *)
Definition strftime (t : Z) : string :=
  let d := datetime_of t in
  str_of_Z (dt_year d) +:+ zfill 2 (dt_month d) +:+ zfill 2 (dt_day d) +:+ "T"
  +:+ zfill 2 (dt_hour d) +:+ zfill 2 (dt_minute d) +:+ zfill 2 (dt_second d) +:+ "Z".

Example iso_epoch : isoformat 0 = "1970-01-01T00:00:00+00:00".
Proof. vm_compute. reflexivity. Qed.
Example iso_leap : isoformat 1709251199000001 = "2024-02-29T23:59:59.000001+00:00".
Proof. vm_compute. reflexivity. Qed.
Example iso_first : isoformat (-62135596800000000) = "0001-01-01T00:00:00+00:00".
Proof. vm_compute. reflexivity. Qed.
Example iso_last : isoformat 253402300799999999 = "9999-12-31T23:59:59.999999+00:00".
Proof. vm_compute. reflexivity. Qed.
Example strftime_leap : strftime 1709251199000001 = "20240229T235959Z".
Proof. vm_compute. reflexivity. Qed.

(** ** The calendar counts days *)

Definition date_ok (year month day : Z) : Prop :=
  1 <= month <= 12 ∧ 1 <= day <= days_in_month year month.

Definition year_length (year : Z) : Z := 365 + leap_day year.

Lemma days_before_next year : days_before_year (year + 1) = days_before_year year + year_length year.
Proof.
  unfold days_before_year, year_length, leap_day, is_leap. replace (year + 1 - 1) with year by lia.
  destruct (Z.eqb_spec (year mod 4) 0), (Z.eqb_spec (year mod 100) 0), (Z.eqb_spec (year mod 400) 0);
    simpl; Z.to_euclidean_division_equations; lia.
Qed.

Lemma year_length_bounds year : 365 <= year_length year <= 366.
Proof. unfold year_length, leap_day. destruct (is_leap year); lia. Qed.

Lemma days_before_mono y y' : y < y' → days_before_year y + year_length y <= days_before_year y'.
Proof.
  intros H. replace y' with (y + 1 + (y' - y - 1)) by lia.
  assert (0 <= y' - y - 1) as Hk by lia. revert Hk. generalize (y' - y - 1). clear.
  apply (natlike_ind (λ k, days_before_year y + year_length y <= days_before_year (y + 1 + k))).
  - rewrite Z.add_0_r, days_before_next. lia.
  - intros k _ IH. unfold Z.succ. rewrite Z.add_assoc, days_before_next.
    pose proof (year_length_bounds (y + 1 + k)). lia.
Qed.

(** The months are the twelve that the table has. *)
Ltac each_month m :=
  assert (m = 1 ∨ m = 2 ∨ m = 3 ∨ m = 4 ∨ m = 5 ∨ m = 6 ∨ m = 7 ∨ m = 8 ∨ m = 9 ∨ m = 10 ∨ m = 11 ∨ m = 12)
    as [->|[->|[->|[->|[->|[->|[->|[->|[->|[->|[->| ->]]]]]]]]]]] by lia.

Lemma days_before_month_mono y m m' :
  1 <= m → m < m' → m' <= 12 → days_before_month y m + days_in_month y m <= days_before_month y m'.
Proof.
  intros H1 H H12. unfold days_in_month, days_before_month, leap_day.
  each_month m; each_month m'; try lia; destruct (is_leap y); vm_compute; discriminate.
Qed.

Lemma day_of_year y m d :
  date_ok y m d → 1 <= days_before_month y m + d <= year_length y.
Proof.
  intros [Hm Hd]. revert Hd. unfold days_in_month, days_before_month, year_length, leap_day.
  each_month m; destruct (is_leap y); vm_compute (month_offset _); simpl; lia.
Qed.

(** A day has one date. *)
Lemma ymd2ord_inj y m d y' m' d' :
  date_ok y m d → date_ok y' m' d' → ymd2ord y m d = ymd2ord y' m' d' → y = y' ∧ m = m' ∧ d = d'.
Proof.
  intros H H' E. unfold ymd2ord in E.
  pose proof (day_of_year _ _ _ H). pose proof (day_of_year _ _ _ H').
  assert (y = y') as <-.
  { destruct (Z.lt_trichotomy y y') as [Hy|[Hy|Hy]]; [|done|];
      pose proof (days_before_mono _ _ Hy); lia. }
  destruct H as [Hm Hd], H' as [Hm' Hd'].
  assert (m = m') as <-; [|lia].
  destruct (Z.lt_trichotomy m m') as [H|[H|H]]; [|done|].
  - pose proof (days_before_month_mono y m m'). lia.
  - pose proof (days_before_month_mono y m' m). lia.
Qed.

(** ** Decoding a day *)

Definition month_day_ok (leap : bool) (n : Z) : bool :=
  let before m := month_offset m + if (m >? 2) && leap then 1 else 0 in
  let '(m, d) := month_day leap n in
  (1 <=? m) && (m <=? 12) && (1 <=? d) && (d <=? before (m + 1) - before m) && (before m + d =? n + 1).

Lemma month_day_all :
  forallb (λ leap, forallb (λ k, month_day_ok leap (Z.of_nat k)) (seq 0 (if leap then 366 else 365)))
    [true; false] = true.
Proof. vm_compute. reflexivity. Qed.

Lemma month_day_spec y n m d :
  0 <= n < year_length y → month_day (is_leap y) n = (m, d) →
  date_ok y m d ∧ days_before_month y m + d = n + 1.
Proof.
  intros Hn E. pose proof month_day_all as Hall. rewrite forallb_true_forall in Hall.
  assert (is_leap y ∈ [true; false]) as Hb by (destruct (is_leap y); clear; set_solver).
  specialize (Hall _ Hb). simpl in Hall.
  rewrite forallb_true_forall in Hall. specialize (Hall (Z.to_nat n)).
  rewrite Z2Nat.id in Hall by lia. unfold month_day_ok in Hall. rewrite E in Hall.
  unfold year_length, leap_day in Hn.
  assert (Z.to_nat n ∈ seq 0 (if is_leap y then 366%nat else 365%nat)) as Hin.
  { apply elem_of_seq. destruct (is_leap y); lia. }
  specialize (Hall Hin). bool_to_prop. unfold date_ok, days_in_month, days_before_month, leap_day.
  destruct (is_leap y); simpl in *; rewrite ?andb_true_r, ?andb_false_r in *;
    destruct (m >? 2), (m + 1 >? 2); lia.
Qed.

(** Whole years: [n400] cycles of 400 years and so on make the days before the
    year, and say whether it is a leap year. *)
Lemma cycles_year n400 n100 n4 n1 :
  0 <= n100 <= 3 → 0 <= n4 <= 24 → 0 <= n1 <= 3 →
  let year := n400 * 400 + 1 + n100 * 100 + n4 * 4 + n1 in
  days_before_year year = n400 * 146097 + n100 * 36524 + n4 * 1461 + n1 * 365 ∧
  is_leap year = ((n1 =? 3) && (negb (n4 =? 24) || (n100 =? 3))).
Proof.
  intros H100 H4 H1 year. subst year. split.
  - unfold days_before_year. cbv zeta.
    assert (∀ k y, 0 < k → ∀ q r, y = k * q + r → 0 <= r < k → y / k = q) as Hdiv.
    { intros k y Hk q r -> Hr. symmetry. by apply (Z.div_unique _ _ _ r); [left|]. }
    rewrite (Hdiv 4 _ ltac:(lia) (n400 * 100 + n100 * 25 + n4) n1) by lia.
    rewrite (Hdiv 100 _ ltac:(lia) (n400 * 4 + n100) (n4 * 4 + n1)) by lia.
    rewrite (Hdiv 400 _ ltac:(lia) n400 (n100 * 100 + n4 * 4 + n1)) by lia. lia.
  - unfold is_leap.
    assert (∀ k y q r, y = k * q + r → 0 <= r < k → y mod k = r) as Hmod.
    { intros k y q r -> Hr. symmetry. by apply (Z.mod_unique _ _ q); [left|]. }
    destruct (Z.eqb_spec n1 3) as [->|Hn]; cbn [andb].
    + rewrite (Hmod 4 _ (n400 * 100 + n100 * 25 + n4 + 1) 0) by lia. cbn [andb Z.eqb].
      destruct (Z.eqb_spec n4 24) as [->|Hn4]; cbn [negb orb].
      * rewrite (Hmod 100 _ (n400 * 4 + n100 + 1) 0) by lia. cbn [Z.eqb negb orb].
        destruct (Z.eqb_spec n100 3) as [->|]; [by rewrite (Hmod 400 _ (n400 + 1) 0) by lia|].
        rewrite (Hmod 400 _ n400 (n100 * 100 + 100)) by lia. by apply Z.eqb_neq; lia.
      * rewrite (Hmod 100 _ (n400 * 4 + n100) (n4 * 4 + 4)) by lia.
        by rewrite (proj2 (Z.eqb_neq (n4 * 4 + 4) 0)) by lia.
    + rewrite (Hmod 4 _ (n400 * 100 + n100 * 25 + n4) (n1 + 1)) by lia.
      by rewrite (proj2 (Z.eqb_neq (n1 + 1) 0)) by lia.
Qed.

(** The 366th day of the last year of a cycle of 4. *)
Lemma last_day n400 n100 n4 :
  0 <= n100 <= 3 → 0 <= n4 <= 24 → n4 ≠ 24 ∨ n100 = 3 →
  let year := n400 * 400 + 1 + n100 * 100 + n4 * 4 + 3 in
  date_ok year 12 31 ∧ ymd2ord year 12 31 = n400 * 146097 + n100 * 36524 + n4 * 1461 + 1461.
Proof.
  intros H100 H4 Hl year. destruct (cycles_year n400 n100 n4 3) as [Hy Hleap]; [lia..|].
  fold year in Hy, Hleap. assert (is_leap year = true) as Hyes.
  { rewrite Hleap. cbn [Z.eqb Pos.eqb andb].
    destruct (Z.eqb_spec n4 24), (Z.eqb_spec n100 3); simpl; try done; lia. }
  unfold date_ok, days_in_month, ymd2ord, days_before_month, leap_day. rewrite Hy, Hyes.
  vm_compute (month_offset _). simpl. lia.
Qed.

(** [ord2ymd] finds the date of a day. *)
Lemma ord2ymd_spec n y m d :
  ord2ymd n = (y, m, d) → date_ok y m d ∧ ymd2ord y m d = n.
Proof.
  unfold ord2ymd.
  pose proof (Z.div_mod (n - 1) 146097 ltac:(lia)) as E400.
  pose proof (Z.mod_pos_bound (n - 1) 146097 ltac:(lia)) as B400.
  set (n400 := (n - 1) / 146097) in *. set (r400 := (n - 1) mod 146097) in *.
  pose proof (Z.div_mod r400 36524 ltac:(lia)) as E100.
  pose proof (Z.mod_pos_bound r400 36524 ltac:(lia)) as B100.
  set (n100 := r400 / 36524) in *. set (r100 := r400 mod 36524) in *.
  pose proof (Z.div_mod r100 1461 ltac:(lia)) as E4.
  pose proof (Z.mod_pos_bound r100 1461 ltac:(lia)) as B4.
  set (n4 := r100 / 1461) in *. set (r4 := r100 mod 1461) in *.
  pose proof (Z.div_mod r4 365 ltac:(lia)) as E1.
  pose proof (Z.mod_pos_bound r4 365 ltac:(lia)) as B1.
  set (n1 := r4 / 365) in *. set (r1 := r4 mod 365) in *.
  clearbody n400 n100 n4 n1 r400 r100 r4 r1.
  destruct (Z.eqb_spec n1 4) as [H1|H1], (Z.eqb_spec n100 4) as [H100|H100]; cbn [orb];
    [intros [= <- <- <-].. |intros [= <- Hm Hd]].
  - lia.
  - destruct (last_day n400 n100 n4) as [Hok Hv]; [lia..|].
    replace (_ - 1) with (n400 * 400 + 1 + n100 * 100 + n4 * 4 + 3) by lia. split; [done|]. rewrite Hv. lia.
  - destruct (last_day n400 3 24) as [Hok Hv]; [lia..|].
    replace (_ - 1) with (n400 * 400 + 1 + 3 * 100 + 24 * 4 + 3) by lia. split; [done|]. rewrite Hv. lia.
  - destruct (cycles_year n400 n100 n4 n1) as [Hy Hl]; [lia..|].
    rewrite <- Hl in Hm, Hd.
    set (y := n400 * 400 + 1 + n100 * 100 + n4 * 4 + n1) in *.
    assert (month_day (is_leap y) r1 = (m, d)) as E by (unfold month_day; by rewrite <- Hm, <- Hd).
    destruct (month_day_spec y r1 m d) as [Hok Hv]; [pose proof (year_length_bounds y); lia|done|].
    split; [done|]. unfold ymd2ord. rewrite Hy. lia.
Qed.

(** ** Decoding an instant *)

Definition datetime_ok (d : datetime) : Prop :=
  date_ok (dt_year d) (dt_month d) (dt_day d) ∧
  0 <= dt_hour d < 24 ∧ 0 <= dt_minute d < 60 ∧ 0 <= dt_second d < 60 ∧
  0 <= dt_microsecond d < 1000000.

Lemma datetime_of_spec t : datetime_ok (datetime_of t) ∧ instant (datetime_of t) = t.
Proof.
  unfold datetime_of. destruct (ord2ymd _) as [[y m] d] eqn:E.
  apply ord2ymd_spec in E as [Hok Hord].
  pose proof (Z.div_mod t us_per_day ltac:(done)) as Et.
  pose proof (Z.mod_pos_bound t us_per_day ltac:(done)) as Bt.
  set (us := t mod us_per_day) in *. clearbody us.
  pose proof (Z.div_mod us 1000000 ltac:(done)). pose proof (Z.mod_pos_bound us 1000000 ltac:(done)).
  set (s := us / 1000000) in *. set (f := us mod 1000000) in *. clearbody s f.
  assert (0 <= s < 86400) as Bs by (unfold us_per_day in *; lia).
  split.
  - split; [done|]. simpl.
    pose proof (Z.mod_pos_bound (s / 60) 60 ltac:(done)). pose proof (Z.mod_pos_bound s 60 ltac:(done)).
    split; [|lia]. split; [by apply Z.div_pos; lia|]. apply Z.div_lt_upper_bound; lia.
  - unfold instant. simpl. rewrite Hord.
    replace 3600 with (60 * 60) by done. rewrite <- Z.div_div by done.
    pose proof (Z.div_mod s 60 ltac:(done)). pose proof (Z.div_mod (s / 60) 60 ltac:(done)). lia.
Qed.

Lemma datetime_of_inj t t' : datetime_of t = datetime_of t' → t = t'.
Proof.
  intros E. destruct (datetime_of_spec t) as [_ <-], (datetime_of_spec t') as [_ <-]. by rewrite E.
Qed.

Lemma datetime_ext d d' :
  dt_year d = dt_year d' → dt_month d = dt_month d' → dt_day d = dt_day d' → dt_hour d = dt_hour d' →
  dt_minute d = dt_minute d' → dt_second d = dt_second d' → dt_microsecond d = dt_microsecond d' → d = d'.
Proof. destruct d, d'. cbn. by intros -> -> -> -> -> -> ->. Qed.

Lemma instant_inj d d' : datetime_ok d → datetime_ok d' → instant d = instant d' → d = d'.
Proof.
  intros (Hd & Hh & Hm & Hs & Hu) (Hd' & Hh' & Hm' & Hs' & Hu') E. unfold instant, us_per_day in E.
  assert (ymd2ord (dt_year d) (dt_month d) (dt_day d) = ymd2ord (dt_year d') (dt_month d') (dt_day d')) as Eo by lia.
  destruct (ymd2ord_inj _ _ _ _ _ _ Hd Hd' Eo) as (Ey & Em & Edd).
  rewrite Eo in E. apply datetime_ext; [done..|lia|lia|lia|lia].
Qed.

(** A date and a time of day are read off the instant they denote. *)
Lemma datetime_of_instant d : datetime_ok d → datetime_of (instant d) = d.
Proof. intros Hd. destruct (datetime_of_spec (instant d)) as [Hok E]. by apply instant_inj. Qed.

(** Later instants have later years. *)
Lemma year_bounds t : in_calendar t → 1 <= dt_year (datetime_of t) <= 9999.
Proof.
  destruct (datetime_of_spec t) as [(Hd & Hh & Hm & Hs & Hu) E]. set (d := datetime_of t) in *. clearbody d.
  unfold in_calendar. rewrite <- E. clear E. unfold instant, us_per_day.
  pose proof (day_of_year _ _ _ Hd). unfold ymd2ord.
  assert (days_before_month 1 1 + 1 = 1) as H1 by reflexivity.
  assert (days_before_month 10000 1 + 1 = 1) as H2 by reflexivity.
  intros [Hlo Hhi]. split.
  - destruct (Z_le_gt_dec 1 (dt_year d)); [done|].
    pose proof (days_before_mono (dt_year d) 1 ltac:(lia)). lia.
  - destruct (Z_le_gt_dec (dt_year d) 9999); [done|].
    destruct (Z.eq_dec (dt_year d) 10000) as [Hy|]; [rewrite Hy in *; lia|].
    pose proof (days_before_mono 10000 (dt_year d) ltac:(lia)). pose proof (year_length_bounds 10000). lia.
Qed.

(** ** Decimal fields *)

Lemma digits_val_bounds s : ∀ acc, all_str is_digit s = true →
  (acc * 10 ^ N.of_nat (String.length s) <= digits_val acc s < (acc + 1) * 10 ^ N.of_nat (String.length s))%N.
Proof.
  induction s as [|c s IH]; intros acc Hs; cbn [all_str digits_val String.length] in *; [simpl; lia|].
  apply andb_true_iff in Hs as [Hc Hs]. specialize (IH (acc * 10 + digit_val c)%N Hs).
  rewrite Nat2N.inj_succ, N.pow_succ_r'. revert IH.
  assert (digit_val c <= 9)%N.
  { unfold is_digit, in_range in Hc. apply andb_true_iff in Hc as [_ Hc%N.leb_le]. unfold digit_val. lia. }
  generalize (10 ^ N.of_nat (String.length s))%N. intros k [Hlo Hhi]. split; nia.
Qed.

Lemma zeros_digits k s : digits_val 0 (zeros k +:+ s) = digits_val 0 s.
Proof. induction k as [|k IH]; [done|]. exact IH. Qed.

Lemma zeros_all k : all_str is_digit (zeros k) = true ∧ String.length (zeros k) = k.
Proof. induction k as [|k [IH IHl]]; [done|]. simpl. by rewrite IH, IHl. Qed.

(** A number below [10^w] is written as [w] digits that denote it. *)
Lemma zfill_spec w n : (0 < w)%nat → 0 <= n < 10 ^ Z.of_nat w →
  String.length (zfill w n) = w ∧ all_str is_digit (zfill w n) = true ∧ Z.of_N (digits_val 0 (zfill w n)) = n.
Proof.
  intros Hw [H0 Hn]. unfold zfill. destruct (zeros_all (w - String.length (str_of_Z n))) as [Hz Hl].
  rewrite length_app_str, all_str_app, Hl, Hz, zeros_digits.
  destruct (str_of_Z_shape n) as [->|(sign & c & t & E & Hall & Hc & Hsign & Hv)].
  { change (str_of_Z 0) with (String "0" ""). cbn [String.length]. split; [lia|done]. }
  destruct Hsign as [[-> Hpos]|[_ Hneg]]; [|lia]. simpl in E. rewrite E.
  split; [|split; [done|rewrite Hv; lia]].
  enough (String.length (String c t) <= w)%nat by lia. cbn [String.length].
  destruct (Nat.le_gt_cases (S (String.length t)) w) as [|Hgt]; [done|exfalso].
  cbn [all_str] in Hall. apply andb_true_iff in Hall as [Hd Ht].
  pose proof (digits_val_bounds t (digit_val c) Ht) as [Hlo _].
  assert (1 <= digit_val c)%N as H1.
  { revert Hc Hd. clear. assert (∀ c, bool_decide (c = "0"%char) || negb (is_digit c) || (1 <=? digit_val c)%N = true)
      as H by check_ascii.
    intros Hc Hd. specialize (H c). rewrite Hd in H. destruct (bool_decide_reflect (c = "0"%char)); [done|].
    by apply N.leb_le. }
  assert (10 ^ Z.of_nat w <= 10 ^ Z.of_nat (String.length t)) by (apply Z.pow_le_mono_r; lia).
  assert (Z.of_N (10 ^ N.of_nat (String.length t)) = 10 ^ Z.of_nat (String.length t)) as Ep.
  { rewrite N2Z.inj_pow, nat_N_Z. done. }
  simpl in Hv. change (digits_val (0 * 10 + digit_val c) t) with (digits_val (digit_val c) t) in Hv.
  rewrite Z.abs_eq in Hv by lia. nia.
Qed.

Lemma app_str_inj_l s t : ∀ s' t', String.length s = String.length s' → s +:+ t = s' +:+ t' → s = s' ∧ t = t'.
Proof.
  induction s as [|c s IH]; intros [|c' s'] t' Hl E; try discriminate; [done|].
  injection E as -> E. destruct (IH s' t') as [-> ->]; [by injection Hl|done|done].
Qed.

(** Fields of a fixed width are read back one by one. *)
Lemma zfill_app_inj w n n' s s' : (0 < w)%nat → 0 <= n < 10 ^ Z.of_nat w → 0 <= n' < 10 ^ Z.of_nat w →
  zfill w n +:+ s = zfill w n' +:+ s' → n = n' ∧ s = s'.
Proof.
  intros Hw Hn Hn' E.
  destruct (zfill_spec w n Hw Hn) as (Hl & _ & Hv), (zfill_spec w n' Hw Hn') as (Hl' & _ & Hv').
  destruct (app_str_inj_l (zfill w n) s (zfill w n') s' ltac:(by rewrite Hl, Hl') E) as [Ez Es].
  split; [|done]. by rewrite <- Hv, <- Hv', Ez.
Qed.

(** ** What the texts keep of an instant *)

Lemma days_of_month y m d : date_ok y m d → 0 <= m < 100 ∧ 0 <= d < 100.
Proof.
  intros [Hm Hd]. revert Hd. unfold days_in_month, days_before_month, leap_day.
  each_month m; destruct (is_leap y); vm_compute (month_offset _); simpl; lia.
Qed.

Ltac read_field E H :=
  cbn [String.append] in E; first [injection E as E | idtac];
  apply zfill_app_inj in E as [H E]; [|lia|simpl; lia|simpl; lia].

(** Two instants with one text are one instant. *)
Lemma isoformat_inj t t' : in_calendar t → in_calendar t' → isoformat t = isoformat t' → t = t'.
Proof.
  intros Hc Hc' E. pose proof (year_bounds t Hc) as Hy. pose proof (year_bounds t' Hc') as Hy'.
  apply datetime_of_inj. unfold isoformat in E.
  destruct (datetime_of_spec t) as [(Hd%days_of_month & Hh & Hm & Hs & Hu) _].
  destruct (datetime_of_spec t') as [(Hd'%days_of_month & Hh' & Hm' & Hs' & Hu') _].
  set (d := datetime_of t) in *. set (d' := datetime_of t') in *. clearbody d d'.
  read_field E E1. read_field E E2. read_field E E3. read_field E E4. read_field E E5. read_field E E6.
  apply datetime_ext; [done..|].
  destruct (Z.eqb_spec (dt_microsecond d) 0) as [->|Hn], (Z.eqb_spec (dt_microsecond d') 0) as [->|Hn'];
    [done|discriminate..|].
  by read_field E E7.
Qed.

(** Below a second, [strftime] sees nothing. *)
Lemma strftime_second t t' : t / 1000000 = t' / 1000000 → strftime t = strftime t'.
Proof.
  intros E. unfold strftime, datetime_of.
  assert (∀ t, t / us_per_day = t / 1000000 / 86400) as Hday.
  { intros u. unfold us_per_day. rewrite Z.mul_comm. by rewrite Z.div_div by lia. }
  assert (∀ t, t mod us_per_day / 1000000 = (t / 1000000) mod 86400) as Hsec.
  { intros u. unfold us_per_day. rewrite (Z.mul_comm 86400), Z.rem_mul_r by lia.
    rewrite (Z.add_comm (u mod 1000000)), Z.mul_comm, Z.div_add_l by lia.
    rewrite (Z.div_small (u mod 1000000)); [lia|]. apply Z.mod_pos_bound; lia. }
  rewrite !Hday, !Hsec, E. by destruct (ord2ymd _) as [[y m] d].
Qed.
