(* ===== verification/UrlParse.v ===== *)
(** The part of Python 3.12's [urllib.parse] the sources use: [urlparse], the
    [hostname] of its result, and [urlunparse]. *)

From S2P Require Import Prelude Errors PyStr IpAddr.

Record parse_result := ParseResult {
  scheme : string; netloc : string; path : string;
  params : string; query : string; fragment : string
}.

Definition is_ascii_alpha (c : ascii) : bool := is_upper_ascii c || is_lower_ascii c.

(** [scheme_chars]: letters, digits and [+-.]. *)
Definition is_scheme_char (c : ascii) : bool :=
  is_ascii_alpha c || is_digit c || existsb (N.eqb (code c)) [43; 45; 46]%N.

(** C0 controls and space, stripped from the left. *)
Definition is_c0_or_space (c : ascii) : bool := N.leb (code c) 32.
(** Tab, carriage return and line feed, removed everywhere. *)
Definition is_unsafe (c : ascii) : bool := existsb (N.eqb (code c)) [9; 10; 13]%N.

Fixpoint remove_chars (p : ascii → bool) (s : string) : string :=
  match s with
  | "" => ""
  | String c s => if p c then remove_chars p s else String c (remove_chars p s)
  end.

(** The scheme before the first colon, if it is well formed. *)
Definition split_scheme (url : string) : string * string :=
  match partition ":" url with
  | Some (String c s as sch, rest) =>
      if is_ascii_alpha c && all_str is_scheme_char sch then (lower sch, rest) else ("", url)
  | _ => ("", url)
  end.

(** [_splitnetloc]: up to the first of [/?#]. *)
Definition is_netloc_end (c : ascii) : bool := existsb (N.eqb (code c)) [47; 63; 35]%N.

Fixpoint span_until (p : ascii → bool) (s : string) : string * string :=
  match s with
  | "" => ("", "")
  | String c s' =>
      if p c then ("", s)
      else let '(l, r) := span_until p s' in (String c l, r)
  end.

(** [s.rpartition(c)[2]] and [s.partition(c)] with Python's defaults. *)
Definition after_last (c : ascii) (s : string) : string :=
  match rpartition c s with Some (_, r) => r | None => s end.
Definition partition_def (c : ascii) (s : string) : string * string :=
  match partition c s with Some (l, r) => (l, r) | None => (s, "") end.

(** [_check_bracketed_host]. *)
Definition check_bracketed_host (h : string) : res unit :=
  if startswith h "v" then
    match partition "." (drop_str 1 h) with
    | Some (hex, rest) =>
        if negb (String.eqb hex "") && all_str is_hex_digit hex && negb (String.eqb rest "")
           && negb (contains_char (chr 10) rest)
        then Ok tt else raise ValueError "IPvFuture address is invalid"
    | None => raise ValueError "IPvFuture address is invalid"
    end
  else
    match ip_address h with
    | Ok (IP6 _ _) => Ok tt
    | Ok (IP4 _) => raise ValueError "An IPv4 address cannot be in brackets"
    | Raise e => Raise e
    end.

(** [_check_bracketed_netloc]. *)
Definition check_bracketed_netloc (n : string) : res unit :=
  let hp := after_last "@" n in
  match partition "[" hp with
  | Some (before, bracketed) =>
      if negb (String.eqb before "") then raise ValueError "Invalid IPv6 URL"
      else let '(host, port) := partition_def "]" bracketed in
           if negb (String.eqb port "") && negb (startswith port ":")
           then raise ValueError "Invalid IPv6 URL"
           else check_bracketed_host host
  | None => check_bracketed_host (fst (partition_def ":" hp))
  end.

Definition check_netloc (n : string) : res unit :=
  match contains_char "[" n, contains_char "]" n with
  | true, true => check_bracketed_netloc n
  | false, false => Ok tt
  | _, _ => raise ValueError "Invalid IPv6 URL"
  end.

(** [urlsplit]: scheme, netloc, path, query and fragment.  The NFKC check of a
    non-ASCII netloc raises for no string of code points below 256. *)
Definition urlsplit (url : string) : res (string * string * string * string * string) :=
  let url := remove_chars is_unsafe (lstrip_by is_c0_or_space url) in
  let '(sch, url) := split_scheme url in
  let '(net, url) := if startswith url "//" then span_until is_netloc_end (drop_str 2 url)
                     else ("", url) in
  _ ← check_netloc net;
  let '(url, frag) := partition_def "#" url in
  let '(url, q) := partition_def "?" url in
  Ok (sch, net, url, q, frag).

Definition uses_params : list string :=
  [""; "ftp"; "hdl"; "prospero"; "http"; "imap"; "https"; "shttp"; "rtsp"; "rtspu";
   "sip"; "sips"; "mms"; "sftp"; "tel"].

Definition uses_netloc : list string :=
  [""; "ftp"; "http"; "gopher"; "nntp"; "telnet"; "imap"; "wais"; "file"; "mms";
   "https"; "shttp"; "snews"; "prospero"; "rtsp"; "rtsps"; "rtspu"; "rsync"; "svn";
   "svn+ssh"; "sftp"; "nfs"; "git"; "git+ssh"; "ws"; "wss"; "itms-services"].

Definition in_list (s : string) (l : list string) : bool := existsb (String.eqb s) l.

(** [_splitparams]: the parameters of the last path segment. *)
Definition splitparams (url : string) : string * string :=
  match rpartition "/" url with
  | Some (l, seg) =>
      match partition ";" seg with
      | Some (a, b) => (l +:+ String "/" a, b)
      | None => (url, "")
      end
  | None => partition_def ";" url
  end.

(** [urlparse(url)]. *)
Definition urlparse (url : string) : res parse_result :=
  '(sch, net, url, q, frag) ← urlsplit url;
  let '(path, par) := if in_list sch uses_params && contains_char ";" url
                      then splitparams url else (url, "") in
  Ok (ParseResult sch net path par q frag).

(** [parsed.hostname]; [None] when empty. *)
Definition hostname (p : parse_result) : option string :=
  let hostinfo := after_last "@" (netloc p) in
  let host := match partition "[" hostinfo with
              | Some (_, bracketed) => fst (partition_def "]" bracketed)
              | None => fst (partition_def ":" hostinfo)
              end in
  if String.eqb host "" then None
  else Some (match partition "%" host with
             | Some (h, zone) => lower h +:+ String "%" zone
             | None => lower host
             end).

(** [urlunsplit]. *)
Definition urlunsplit (sch net url q frag : string) : string :=
  let url :=
    if negb (String.eqb net "") then
      let url := if negb (String.eqb url "") && negb (startswith url "/")
                 then String "/" url else url in
      "//" +:+ net +:+ url
    else if startswith url "//" then "//" +:+ url
    else if negb (String.eqb sch "") && in_list sch uses_netloc
            && (String.eqb url "" || startswith url "/")
    then "//" +:+ url else url in
  let url := if String.eqb sch "" then url else sch +:+ ":" +:+ url in
  let url := if String.eqb q "" then url else url +:+ "?" +:+ q in
  if String.eqb frag "" then url else url +:+ "#" +:+ frag.

(** [urlunparse((scheme, netloc, path, params, query, fragment))]. *)
Definition urlunparse (p : parse_result) : string :=
  let url := if String.eqb (params p) "" then path p else path p +:+ ";" +:+ params p in
  urlunsplit (scheme p) (netloc p) url (query p) (fragment p).

Example urlparse_sample :
  urlparse "HTTP://u@Host:80/a/b;p?q#f" =
  Ok (ParseResult "http" "u@Host:80" "/a/b" "p" "q" "f").
Proof. vm_compute. reflexivity. Qed.
Example hostname_sample :
  (p ← urlparse "http://u:p@[2001:DB8::1%Eth0]:8080/"; Ok (hostname p))
  = Ok (Some "2001:db8::1%Eth0").
Proof. vm_compute. reflexivity. Qed.
