(* ===== verification/Uuid.v ===== *)
(** Python's [uuid]: a UUID is its 128-bit integer.  [uuid5] hashes the
    namespace and the UTF-8 name with SHA-1, defined here on 32-bit words. *)

From S2P Require Import Prelude PyStr.

Local Open Scope N_scope.

(** ** SHA-1 *)

Definition w32 (n : N) : N := n mod 4294967296.
Definition add32 (a b : N) : N := w32 (a + b).
Definition rotl (k n : N) : N := w32 (N.shiftl n k) + N.shiftr n (32 - k).
Definition not32 (n : N) : N := 4294967295 - n.

(** The integer written by bytes, most significant first. *)
Definition be (bs : list N) : N := fold_left (λ acc b, acc * 256 + b) bs 0.

(** [k] bytes of [n], most significant first. *)
Fixpoint to_be (k : nat) (n : N) : list N :=
  match k with
  | O => []
  | S k => N.shiftr n (8 * N.of_nat k) mod 256 :: to_be k n
  end.

Definition sha1_pad (m : list N) : list N :=
  let len := length m in
  let zeros := ((119 - len mod 64) mod 64)%nat in
  m ++ [128] ++ repeat 0 zeros ++ to_be 8 (8 * N.of_nat len).

(** Consecutive chunks of [k] elements; [fuel] chunks at most. *)
Fixpoint chunks {A} (fuel k : nat) (l : list A) : list (list A) :=
  match fuel with
  | O => []
  | S fuel => match l with [] => [] | _ => take k l :: chunks fuel k (drop k l) end
  end.

(** The message schedule, last word first. *)
Fixpoint extend (n : nat) (ws : list N) : list N :=
  match n with
  | O => ws
  | S n =>
      let w i := nth i ws 0 in
      extend n (rotl 1 (N.lxor (N.lxor (w 2%nat) (w 7%nat)) (N.lxor (w 13%nat) (w 15%nat))) :: ws)
  end.

Record digest := Digest { da : N; db : N; dc : N; dd : N; de : N }.

Definition sha1_f (t : nat) (b c d : N) : N * N :=
  if (t <? 20)%nat then (N.lor (N.land b c) (N.land (not32 b) d), 1518500249)
  else if (t <? 40)%nat then (N.lxor (N.lxor b c) d, 1859775393)
  else if (t <? 60)%nat
       then (N.lor (N.lor (N.land b c) (N.land b d)) (N.land c d), 2400959708)
  else (N.lxor (N.lxor b c) d, 3395469782).

Definition sha1_round (st : nat * digest) (w : N) : nat * digest :=
  let '(t, Digest a b c d e) := st in
  let '(f, k) := sha1_f t b c d in
  let tmp := add32 (add32 (add32 (rotl 5 a) f) (add32 e k)) w in
  (S t, Digest tmp a (rotl 30 b) c d).

Definition sha1_block (h : digest) (block : list N) : digest :=
  let ws := rev (extend 64 (rev (map be (chunks 16 4 block)))) in
  let '(_, r) := fold_left sha1_round ws (0%nat, h) in
  Digest (add32 (da h) (da r)) (add32 (db h) (db r)) (add32 (dc h) (dc r))
         (add32 (dd h) (dd r)) (add32 (de h) (de r)).

Definition sha1_init : digest :=
  Digest 1732584193 4023233417 2562383102 271733878 3285377520.

(** [hashlib.sha1(m).digest()]. *)
Definition sha1 (m : list N) : list N :=
  let p := sha1_pad m in
  let h := fold_left sha1_block (chunks (S (length p)) 64 p) sha1_init in
  flat_map (to_be 4) [da h; db h; dc h; dd h; de h].

(** ** UUIDs *)

(** The bytes of a string in UTF-8, for code points below 256. *)
Fixpoint utf8 (s : string) : list N :=
  match s with
  | "" => []
  | String c s =>
      let n := code c in
      if n <? 128 then n :: utf8 s else (192 + n / 64) :: (128 + n mod 64) :: utf8 s
  end.

(** The version nibble and the variant bits of a UUID. *)
Definition set_version (n v : N) : N :=
  let n := N.lor (N.ldiff n (N.shiftl 49152 48)) (N.shiftl 32768 48) in
  N.lor (N.ldiff n (N.shiftl 61440 64)) (N.shiftl v 76).

(** [uuid5(ns, name)]. *)
Definition uuid5 (ns : N) (name : string) : N :=
  set_version (be (take 16 (sha1 (to_be 16 ns ++ utf8 name)))) 5.

#[global] Arguments uuid5 : simpl never.

Definition hex_digit (n : N) : ascii := chr (if n <? 10 then 48 + n else 87 + n).
Fixpoint hex_bytes (bs : list N) : string :=
  match bs with
  | [] => ""
  | b :: bs => String (hex_digit (b / 16)) (String (hex_digit (b mod 16)) (hex_bytes bs))
  end.

(** [str(u)]. *)
Definition str_uuid (u : N) : string :=
  let bs := to_be 16 u in
  join "-" [hex_bytes (take 4 bs); hex_bytes (take 2 (drop 4 bs));
            hex_bytes (take 2 (drop 6 bs)); hex_bytes (take 2 (drop 8 bs));
            hex_bytes (drop 10 bs)].

(** The FIPS sample, and a sample of the interpreter. *)
Example sha1_abc : hex_bytes (sha1 [97; 98; 99]) = "a9993e364706816aba3e25717850c26c9cd0d89d".
Proof. vm_compute. reflexivity. Qed.
Example uuid5_dns :
  str_uuid (uuid5 143098242404177361603877621312831893704 "python.org")
  = "886313e1-3b8a-5372-9b90-0c9aee199e5d".
Proof. vm_compute. reflexivity. Qed.
