(* ===== verification/UuidText.v ===== *)
(** Reading a UUID: [uuid.UUID(text)], and that it reads what [str] writes. *)

From S2P Require Import Prelude Errors PyStr PyStrFacts PyVal IpAddr IpAddrFacts Uuid.

#[local] Open Scope N_scope.

(** [int(s, 16)]: an optional prefix [0x], which an underscore may follow. *)
Definition is_x (c : ascii) : bool := N.eqb (code c) 120 || N.eqb (code c) 88.
Definition after_0x (s : string) : string :=
  match s with
  | String "0" (String x u) =>
      if is_x x
      then match u with String "_" u => u | _ => u end else s
  | _ => s
  end.

Definition int16_of_str (s : string) : res Z :=
  let '(sign, u) := int_sign (strip_by is_int_space s) in
  match int_digits is_hex_digit false (after_0x u) with
  | Some ds => Ok (sign * hex_of_str 0 ds)%Z
  | None => raise ValueError ("invalid literal for int() with base 16: " +:+ repr_str s)
  end.

Definition is_brace (c : ascii) : bool := N.eqb (code c) 123 || N.eqb (code c) 125.

Definition parse_uuid (s : string) : res N :=
  let hex := replace (strip_by is_brace (replace (replace s "urn:" "") "uuid:" "")) "-" "" in
  if (String.length hex =? 32)%nat then
    n ← int16_of_str hex;
    if (0 <=? n)%Z && (n <? 2 ^ 128)%Z then Ok (Z.to_N n)
    else raise ValueError "int is out of range (need a 128-bit value)"
  else raise ValueError "badly formed hexadecimal UUID string".

Example parse_uuid_braces :
  parse_uuid "{886313E1-3b8a-5372-9b900c9aee199e5d}" = Ok (uuid5 143098242404177361603877621312831893704 "python.org").
Proof. vm_compute. reflexivity. Qed.
Example parse_uuid_short : is_ok (parse_uuid "886313e1") = false.
Proof. reflexivity. Qed.

(** ** The round trip *)

Definition small (b : N) : Prop := b < 256.

Lemma to_be_small k n : Forall small (to_be k n).
Proof.
  induction k as [|k IH]; [constructor|]. cbn [to_be]. constructor; [|exact IH]. unfold small. by apply N.mod_lt.
Qed.

Lemma length_to_be k n : length (to_be k n) = k.
Proof. induction k as [|k IH]; [done|]. simpl. by rewrite IH. Qed.

Lemma be_snoc acc bs : fold_left (λ acc b, acc * 256 + b) bs acc = acc * 256 ^ N.of_nat (length bs) + be bs.
Proof.
  revert acc. unfold be. induction bs as [|b bs IH]; intros acc; [simpl; lia|].
  cbn [fold_left length]. rewrite IH, (IH (0 * 256 + b)), Nat2N.inj_succ, N.pow_succ_r'. lia.
Qed.

Lemma be_to_be k n : be (to_be k n) = n mod 256 ^ N.of_nat k.
Proof.
  induction k as [|k IH]; [by rewrite N.mod_1_r|]. cbn [to_be]. unfold be. cbn [fold_left].
  rewrite be_snoc, IH, length_to_be, N.shiftr_div_pow2, Nat2N.inj_succ, N.pow_succ_r'.
  replace (2 ^ (8 * N.of_nat k)) with (256 ^ N.of_nat k) by (rewrite N.pow_mul_r; done).
  rewrite (N.mul_comm 256), N.Div0.mod_mul_r. lia.
Qed.

(** A digit, and the two digits of a byte. *)
Lemma hex_digit_checks d :
  d < 16 → is_hex_digit (hex_digit d) = true ∧ hex_val (hex_digit d) = Z.of_N d.
Proof.
  intros Hd. replace (hex_digit d) with (hex_char (Z.of_N d)).
  - destruct (hex_char_checks (Z.of_N d)) as (Hv & Hx & _); [lia|done].
  - unfold hex_char, hex_digit. f_equal. destruct (Z.ltb_spec (Z.of_N d) 10), (N.ltb_spec d 10); lia.
Qed.

Lemma byte_digits b : small b → b / 16 < 16 ∧ b mod 16 < 16 ∧ b = 16 * (b / 16) + b mod 16.
Proof.
  unfold small. intros Hb. split; [apply N.Div0.div_lt_upper_bound; lia|].
  split; [by apply N.mod_lt|by apply N.div_mod].
Qed.

Lemma hex_bytes_app xs ys : hex_bytes (xs ++ ys) = hex_bytes xs +:+ hex_bytes ys.
Proof. induction xs as [|x xs IH]; [done|]. simpl. by rewrite IH. Qed.

Lemma hex_bytes_digits bs : Forall small bs → all_str is_hex_digit (hex_bytes bs) = true.
Proof.
  induction 1 as [|b bs Hb _ IH]; [done|]. destruct (byte_digits b Hb) as (H1 & H2 & _). cbn [hex_bytes all_str].
  by rewrite (proj1 (hex_digit_checks _ H1)), (proj1 (hex_digit_checks _ H2)), IH.
Qed.

Lemma length_hex_bytes bs : String.length (hex_bytes bs) = (2 * length bs)%nat.
Proof. induction bs as [|b bs IH]; [done|]. cbn [hex_bytes String.length length]. lia. Qed.

Lemma hex_of_bytes acc bs :
  Forall small bs →
  hex_of_str (Z.of_N acc) (hex_bytes bs) = Z.of_N (fold_left (λ acc b, acc * 256 + b) bs acc).
Proof.
  intros Hbs. revert acc. induction Hbs as [|b bs Hb _ IH]; intros acc; [done|].
  destruct (byte_digits b Hb) as (H1 & H2 & Hd). cbn [hex_bytes hex_of_str fold_left].
  rewrite (proj2 (hex_digit_checks _ H1)), (proj2 (hex_digit_checks _ H2)), <- IH. f_equal. lia.
Qed.

Lemma hex_of_be bs : Forall small bs → hex_of_str 0 (hex_bytes bs) = Z.of_N (be bs).
Proof. apply (hex_of_bytes 0). Qed.

(** The characters of the text of a UUID. *)
Definition uuid_char (c : ascii) : bool := is_hex_digit c || bool_decide (c = "-"%char).

Lemma uuid_char_checks c :
  uuid_char c = true → c ≠ "u"%char ∧ is_brace c = false.
Proof.
  intros H. assert (∀ c, negb (uuid_char c) || (negb (bool_decide (c = "u"%char)) && negb (is_brace c)) = true) as Hc
    by check_ascii.
  specialize (Hc c). rewrite H in Hc. simpl in Hc. apply andb_true_iff in Hc as [Hu Hb].
  apply negb_true_iff in Hb. split; [|done]. intros ->. done.
Qed.

Lemma hex_digit_no_space c :
  is_hex_digit c = true → is_int_space c = false ∧ c ≠ "-"%char ∧ c ≠ "+"%char ∧ is_x c = false.
Proof.
  intros H.
  assert (∀ c, negb (is_hex_digit c) || (negb (is_int_space c) && negb (bool_decide (c = "-"%char))
                 && negb (bool_decide (c = "+"%char)) && negb (is_x c)) = true) as Hc
    by check_ascii.
  specialize (Hc c). rewrite H in Hc. simpl in Hc. rewrite !andb_true_iff, !negb_true_iff in Hc.
  destruct Hc as [[[H1 H2] H3] H4]. apply bool_decide_eq_false in H2, H3. done.
Qed.

Lemma remove_none c s : all_str (λ a, negb (bool_decide (a = c))) s = true → remove_char c s = s.
Proof.
  induction s as [|a s IH]; [done|]. simpl. rewrite andb_true_iff, negb_true_iff. intros [-> Hs]. by rewrite IH.
Qed.

Lemma remove_char_app c s t : remove_char c (s +:+ t) = remove_char c s +:+ remove_char c t.
Proof. induction s as [|a s IH]; [done|]. simpl. destruct (bool_decide (a = c)); [done|]. simpl. by rewrite IH. Qed.

Lemma remove_hyphen_hex bs : Forall small bs → remove_char "-" (hex_bytes bs) = hex_bytes bs.
Proof.
  intros H. apply remove_none. eapply all_str_impl; [|by apply hex_bytes_digits].
  intros c Hc. destruct (hex_digit_no_space c Hc) as (_ & Hm & _). by rewrite bool_decide_eq_false_2.
Qed.

Lemma int16_of_digits s :
  s ≠ "" → all_str is_hex_digit s = true → int16_of_str s = Ok (hex_of_str 0 s).
Proof.
  intros Hne Hall. unfold int16_of_str.
  assert (strip_by is_int_space s = s) as ->.
  { apply strip_none. eapply all_str_impl; [|exact Hall]. intros c Hc. by destruct (hex_digit_no_space c Hc) as (-> & _). }
  assert (int_sign s = (1%Z, s)) as ->.
  { destruct s as [|c s]; [done|]. simpl in Hall. apply andb_true_iff in Hall as [Hc _].
    destruct (hex_digit_no_space c Hc) as (_ & Hm & Hp & _).
    by destruct c as [[] [] [] [] [] [] [] []]. }
  assert (after_0x s = s) as ->.
  { destruct s as [|c [|x s]]; [done|by destruct c as [[] [] [] [] [] [] [] []]|].
    simpl in Hall. rewrite !andb_true_iff in Hall. destruct Hall as (_ & Hx & _).
    destruct (hex_digit_no_space x Hx) as (_ & _ & _ & Hx'). unfold after_0x. rewrite Hx'.
    by destruct c as [[] [] [] [] [] [] [] []]. }
  rewrite int_digits_all by (done || by left). f_equal. lia.
Qed.

(** The groups of a text, joined. *)
Lemma groups_join {A} (bs : list A) :
  take 4 bs ++ take 2 (drop 4 bs) ++ take 2 (drop 6 bs) ++ take 2 (drop 8 bs) ++ drop 10 bs = bs.
Proof. do 10 (destruct bs as [|? bs]; [done|]). done. Qed.

Lemma str_uuid_chars u : all_str uuid_char (str_uuid u) = true.
Proof.
  assert (∀ xs, Forall small xs → all_str uuid_char (hex_bytes xs) = true) as Hx.
  { intros xs Hxs. eapply all_str_impl; [|by apply hex_bytes_digits]. intros c Hc. unfold uuid_char. by rewrite Hc. }
  pose proof (to_be_small 16 u) as Hs. unfold str_uuid. apply all_str_join; [done|].
  repeat (apply Forall_cons; split; [apply Hx; first [by apply Forall_take, Forall_drop|by apply Forall_take|by apply Forall_drop]|]).
  constructor.
Qed.

Lemma str_uuid_hex u : remove_char "-" (str_uuid u) = hex_bytes (to_be 16 u).
Proof.
  pose proof (to_be_small 16 u) as Hs. rewrite <- (groups_join (to_be 16 u)) at 1.
  rewrite !hex_bytes_app. unfold str_uuid. cbn [join]. rewrite !remove_char_app.
  rewrite !remove_hyphen_hex by (first [by apply Forall_take, Forall_drop|by apply Forall_take|by apply Forall_drop]).
  reflexivity.
Qed.

(** [UUID(str(u))] is [u]. *)
Lemma parse_str_uuid u : u < 2 ^ 128 → parse_uuid (str_uuid u) = Ok u.
Proof.
  intros Hu. pose proof (to_be_small 16 u) as Hs. pose proof (str_uuid_chars u) as Hall.
  assert (∀ p, replace (str_uuid u) (String "u" p) "" = str_uuid u) as Hrep.
  { intros p. apply replace_id, contains_false_char. unfold contains_char. rewrite negb_false_iff.
    eapply all_str_impl; [|exact Hall]. intros c [Hc _]%uuid_char_checks. by rewrite bool_decide_eq_false_2. }
  assert (strip_by is_brace (str_uuid u) = str_uuid u) as Hstrip.
  { apply strip_none. eapply all_str_impl; [|exact Hall]. intros c [_ Hb]%uuid_char_checks. by rewrite Hb. }
  unfold parse_uuid. rewrite !Hrep, Hstrip, replace_remove, str_uuid_hex.
  rewrite length_hex_bytes, length_to_be. change (2 * 16 =? 32)%nat with true. cbn iota.
  rewrite int16_of_digits by (done || by apply hex_bytes_digits). cbn [mbind res_bind].
  rewrite hex_of_be, be_to_be, N.mod_small by done.
  assert ((0 <=? Z.of_N u)%Z && (Z.of_N u <? 2 ^ 128)%Z = true) as ->.
  { apply andb_true_iff. split; [apply Z.leb_le; lia|apply Z.ltb_lt]. change (2 ^ 128)%Z with (Z.of_N (2 ^ 128)). lia. }
  by rewrite N2Z.id.
Qed.
