(* ===== verification/Enums.v ===== *)
(** [core/enums.py]: the enumerations of the framework and the TLP order, which
    [security/tlp.py] re-exports. *)

From S2P Require Import Prelude Errors.

(** ** Members *)

Inductive IndicatorType :=
  | IPV4 | IPV6 | DOMAIN | URL | SHA256 | SHA1 | MD5 | EMAIL
  | FILE_NAME | MUTEX | REGISTRY_KEY | YARA_RULE.

Inductive TLP := CLEAR | GREEN | AMBER | AMBER_STRICT | RED.

Inductive RunState := PENDING | RUNNING | SUCCESS | PARTIAL | FAILED.

Inductive Severity := INFO | LOW | MEDIUM | HIGH | CRITICAL.

Inductive StageName :=
  | S_FETCH | S_PARSE | S_NORMALIZE | S_ENRICH | S_DEDUP | S_PERSIST | S_PUBLISH.

#[export] Instance IndicatorType_eq_dec : EqDecision IndicatorType.
Proof. solve_decision. Defined.
#[export] Instance TLP_eq_dec : EqDecision TLP.
Proof. solve_decision. Defined.
#[export] Instance RunState_eq_dec : EqDecision RunState.
Proof. solve_decision. Defined.
#[export] Instance Severity_eq_dec : EqDecision Severity.
Proof. solve_decision. Defined.
#[export] Instance StageName_eq_dec : EqDecision StageName.
Proof. solve_decision. Defined.

(** ** Values: a [StrEnum] is a set of members with distinct string values *)

(** A string enumeration: its members in declaration order and their values. *)
Class StrEnum (A : Type) := {
  members : list A;
  value : A → string;
  members_complete : ∀ a, a ∈ members;
  value_inj : ∀ a b, value a = value b → a = b
}.

(** [E(raw)]: the member with that value, or [ValueError]. *)
Definition of_value {A} `{StrEnum A} (raw : string) : res A :=
  match find (λ a, String.eqb (value a) raw) members with
  | Some a => Ok a
  | None => raise ValueError (raw +:+ " is not a valid enum value")
  end.

Definition IndicatorType_value (t : IndicatorType) : string :=
  match t with
  | IPV4 => "ipv4" | IPV6 => "ipv6" | DOMAIN => "domain" | URL => "url"
  | SHA256 => "sha256" | SHA1 => "sha1" | MD5 => "md5" | EMAIL => "email"
  | FILE_NAME => "file_name" | MUTEX => "mutex"
  | REGISTRY_KEY => "registry_key" | YARA_RULE => "yara_rule"
  end.

Definition TLP_value (t : TLP) : string :=
  match t with
  | CLEAR => "CLEAR" | GREEN => "GREEN" | AMBER => "AMBER"
  | AMBER_STRICT => "AMBER+STRICT" | RED => "RED"
  end.

Definition RunState_value (s : RunState) : string :=
  match s with
  | PENDING => "PENDING" | RUNNING => "RUNNING" | SUCCESS => "SUCCESS"
  | PARTIAL => "PARTIAL" | FAILED => "FAILED"
  end.

Definition Severity_value (s : Severity) : string :=
  match s with
  | INFO => "info" | LOW => "low" | MEDIUM => "medium" | HIGH => "high"
  | CRITICAL => "critical"
  end.

Definition StageName_value (s : StageName) : string :=
  match s with
  | S_FETCH => "fetch" | S_PARSE => "parse" | S_NORMALIZE => "normalize"
  | S_ENRICH => "enrich" | S_DEDUP => "dedup" | S_PERSIST => "persist"
  | S_PUBLISH => "publish"
  end.

Ltac solve_enum :=
  solve [ intros []; repeat constructor | intros [] []; simpl; congruence ].

#[export] Program Instance IndicatorType_enum : StrEnum IndicatorType := {|
  members := [IPV4; IPV6; DOMAIN; URL; SHA256; SHA1; MD5; EMAIL; FILE_NAME; MUTEX;
              REGISTRY_KEY; YARA_RULE];
  value := IndicatorType_value |}.
Solve Obligations with solve_enum.
#[export] Program Instance TLP_enum : StrEnum TLP := {|
  members := [CLEAR; GREEN; AMBER; AMBER_STRICT; RED]; value := TLP_value |}.
Solve Obligations with solve_enum.
#[export] Program Instance RunState_enum : StrEnum RunState := {|
  members := [PENDING; RUNNING; SUCCESS; PARTIAL; FAILED]; value := RunState_value |}.
Solve Obligations with solve_enum.
#[export] Program Instance Severity_enum : StrEnum Severity := {|
  members := [INFO; LOW; MEDIUM; HIGH; CRITICAL]; value := Severity_value |}.
Solve Obligations with solve_enum.
#[export] Program Instance StageName_enum : StrEnum StageName := {|
  members := [S_FETCH; S_PARSE; S_NORMALIZE; S_ENRICH; S_DEDUP; S_PERSIST; S_PUBLISH];
  value := StageName_value |}.
Solve Obligations with solve_enum.

(** Looking a member up by its value gives the member back. *)
Lemma of_value_value {A} `{StrEnum A} (a : A) : of_value (value a) = Ok a.
Proof.
  unfold of_value. destruct (find _ members) as [b|] eqn:E.
  - apply find_some in E as [_ E]. apply String.eqb_eq in E. f_equal. by apply value_inj.
  - assert (In a members) as Ha by apply list_elem_of_In, members_complete.
    pose proof (find_none _ _ E a Ha) as Hn. simpl in Hn. by rewrite String.eqb_refl in Hn.
Qed.

Lemma of_value_Ok {A} `{StrEnum A} (raw : string) (a : A) :
  of_value raw = Ok a ↔ raw = value a.
Proof.
  split; [|intros ->; apply of_value_value].
  unfold of_value. destruct (find _ members) as [b|] eqn:E; [|done].
  intros [= ->]. apply find_some in E as [_ E]. by apply String.eqb_eq in E.
Qed.

(** ** The TLP order *)

Definition TLP_ORDER (t : TLP) : Z :=
  match t with CLEAR => 0 | GREEN => 1 | AMBER => 2 | AMBER_STRICT => 3 | RED => 4 end.

(** [max(values, key=...)]: the first element with the largest key; the built-in
    raises [ValueError] on no argument. *)
Fixpoint max_by {A} (key : A → Z) (best : A) (l : list A) : A :=
  match l with
  | [] => best
  | x :: l => max_by key (if (key best <? key x)%Z then x else best) l
  end.

Definition tlp_max (values : list TLP) : res TLP :=
  match values with
  | [] => raise ValueError "max() iterable argument is empty"
  | t :: ts => Ok (max_by TLP_ORDER t ts)
  end.

Lemma max_by_elem {A} (key : A → Z) b l : max_by key b l = b ∨ max_by key b l ∈ l.
Proof.
  revert b. induction l as [|x l IH]; intros b; simpl; [by left|].
  destruct (IH (if (key b <? key x)%Z then x else b)) as [->|]; [|set_solver].
  case_match; set_solver.
Qed.

Lemma max_by_ge {A} (key : A → Z) b l x :
  x = b ∨ x ∈ l → (key x <= key (max_by key b l))%Z.
Proof.
  revert b x. induction l as [|y l IH]; intros b x; simpl; [intros [->|?]; [lia|set_solver]|].
  intros H. set (b' := if (key b <? key y)%Z then y else b).
  assert (key b <= key b' ∧ key y <= key b')%Z as [Hb Hy].
  { unfold b'. destruct (Z.ltb_spec (key b) (key y)); lia. }
  assert (key b' <= key (max_by key b' l))%Z by (apply IH; by left).
  destruct H as [->|[->|H]%elem_of_cons]; [lia..|]. apply IH. by right.
Qed.

Lemma TLP_ORDER_inj s t : TLP_ORDER s = TLP_ORDER t → s = t.
Proof. by destruct s, t. Qed.

(** The strictest of a non-empty family is one of its members, and is at least
    as strict as every member. *)
Lemma tlp_max_spec ts t :
  tlp_max ts = Ok t ↔ t ∈ ts ∧ ∀ u, u ∈ ts → (TLP_ORDER u <= TLP_ORDER t)%Z.
Proof.
  destruct ts as [|b ts]; simpl; [split; [done|set_solver]|]. split.
  - intros [= <-]. split.
    + destruct (max_by_elem TLP_ORDER b ts) as [->|]; set_solver.
    + intros u Hu. apply max_by_ge. set_solver.
  - intros [Ht Hmax]. f_equal. apply TLP_ORDER_inj.
    assert (TLP_ORDER t <= TLP_ORDER (max_by TLP_ORDER b ts))%Z by (apply max_by_ge; set_solver).
    assert (TLP_ORDER (max_by TLP_ORDER b ts) <= TLP_ORDER t)%Z; [|lia].
    apply Hmax. destruct (max_by_elem TLP_ORDER b ts) as [->|]; set_solver.
Qed.
