(* ===== verification/Hashing.v ===== *)
(** [core/hashing.py]: canonical forms of indicator values and the identifiers
    derived from them. *)

From S2P Require Import Prelude Errors PyStr Regex IpAddr UrlParse Uuid Enums.

(** ** Constants *)

Definition CTI_NS : N := 105073515606222660406694048114360147854.

(** [[a-z0-9]] and [[a-z0-9-]] under [re.IGNORECASE]. *)
Definition is_label_edge (c : ascii) : bool :=
  is_digit c || is_upper_ascii c || is_lower_ascii c.
Definition is_label_char (c : ascii) : bool := is_label_edge c || N.eqb (code c) 45.

(** [r"^[a-z0-9]([a-z0-9-]{0,61}[a-z0-9])?$"]. *)
Definition DOMAIN_LABEL_RE : regex :=
  RSeq RStart
    (RSeq (RChar is_label_edge)
      (RSeq (ROpt (RGroup 1 (RSeq (RRepeat (RChar is_label_char) 0 (Some 61))
                                  (RChar is_label_edge))))
        REnd)).

Definition DEFANG_REPLACEMENTS : list (string * string) :=
  [("[.]", "."); ("(.)", "."); ("[:]", ":"); ("[at]", "@"); ("[://]", "://")].

(** [r"\bhxxp(s?)://"] with [re.IGNORECASE]. *)
Definition RE_HXXP : regex :=
  RSeq RWordB (RSeq (RStrI "hxxp") (RSeq (RGroup 1 (ROpt (RLitI "s"))) (RStrI "://"))).

(** ** Refanging *)

Definition refang (value : string) : string :=
  let out := fold_left (λ out r, replace out r.1 r.2) DEFANG_REPLACEMENTS value in
  re_sub RE_HXXP (λ m, "http" +:+ group m 1 +:+ "://") out.

(** ** Canonicalizers *)

Section canonical.
(** The [idna] codec on a domain with a non-ASCII character (nameprep and
    punycode over the Unicode tables); it raises [UnicodeError]. *)
Context (idna_nonascii : string → res string).

(** [domain.encode("idna").decode("ascii")].  ASCII input is checked label by
    label and returned as it is. *)
Definition encode_idna (domain : string) : res string :=
  if all_str is_ascii domain then
    if String.eqb domain "" then Ok "" else
    let labels := split "." domain in
    if existsb (λ l, String.eqb l "" || (64 <=? String.length l)%nat) (removelast labels)
    then raise UnicodeError "label empty or too long"
    else if (64 <=? String.length (List.last labels ""))%nat
    then raise UnicodeError "label too long"
    else Ok domain
  else
    d ← idna_nonascii domain;
    if all_str is_ascii d then Ok d else raise UnicodeError "ordinal not in range(128)".

(** The first label the pattern rejects raises. *)
Fixpoint check_labels (labels : list string) : res unit :=
  match labels with
  | [] => Ok tt
  | l :: ls =>
      match re_match DOMAIN_LABEL_RE l with
      | None => raise ValueError ("invalid domain label: " +:+ l)
      | Some _ => check_labels ls
      end
  end.

Definition canonical_domain (value : string) : res string :=
  let domain := rstrip_by (λ c, bool_decide (c = "."%char)) (lower (refang value)) in
  domain ← try_except (encode_idna domain) [UnicodeError]
             (λ _, raise ValueError ("invalid IDN domain: " +:+ value));
  _ ← check_labels (split "." domain);
  Ok domain.

Definition canonical_url (value : string) : res string :=
  parsed ← urlparse (strip (refang value));
  if String.eqb (scheme parsed) "" || String.eqb (netloc parsed) ""
  then raise ValueError ("invalid URL: " +:+ value) else
  let sch := lower (scheme parsed) in
  let net := lower (netloc parsed) in
  let net :=
    if (String.eqb sch "http" && endswith net ":80")
       || (String.eqb sch "https" && endswith net ":443")
    then match rpartition ":" net with Some (l, _) => l | None => net end
    else net in
  let path := if String.eqb (path parsed) "" then "/" else path parsed in
  Ok (urlunparse (ParseResult sch net path (params parsed) (query parsed) "")).

Definition hash_length (t : IndicatorType) : res nat :=
  match t with
  | MD5 => Ok 32
  | SHA1 => Ok 40
  | SHA256 => Ok 64
  | _ => raise KeyError (value t)
  end.

(** [c in "0123456789abcdef"]. *)
Definition is_lower_hex (c : ascii) : bool := is_digit c || in_range 97 102 c.

Definition canonical_hash (t : IndicatorType) (v : string) : res string :=
  expected ← hash_length t;
  let cleaned := lower (strip v) in
  if negb (String.length cleaned =? expected)%nat || negb (all_str is_lower_hex cleaned)
  then raise ValueError ("invalid " +:+ value t +:+ " hash: " +:+ v)
  else Ok cleaned.

Definition canonical_email (value : string) : res string :=
  match rpartition "@" value with
  | None => raise ValueError ("invalid email: " +:+ value)
  | Some (local, domain) =>
      d ← canonical_domain domain;
      Ok (lower (local +:+ "@" +:+ d))
  end.

Definition canonicalize (t : IndicatorType) (value : string) : res string :=
  let raw := strip value in
  if String.eqb raw "" then raise ValueError "empty indicator value" else
  match t with
  | IPV4 => n ← IPv4Address raw; Ok (str_ipv4 n)
  | IPV6 => a ← IPv6Address raw; Ok (str_ipv6 a)
  | DOMAIN => canonical_domain raw
  | URL => canonical_url raw
  | SHA256 | SHA1 | MD5 => canonical_hash t raw
  | EMAIL => canonical_email raw
  | FILE_NAME | MUTEX | REGISTRY_KEY | YARA_RULE => Ok (lower raw)
  end.

(** The name hashed into the identifier: ["{type}:{canonical}"]. *)
Definition uuid_name (t : IndicatorType) (canonical : string) : string :=
  value t +:+ ":" +:+ canonical.

Definition indicator_uuid (t : IndicatorType) (value : string) : res N :=
  canonical ← canonicalize t value;
  Ok (uuid5 CTI_NS (uuid_name t canonical)).
End canonical.

(** ** The samples of [tests/unit/test_hashing.py] *)

Definition no_idna (s : string) : res string := raise UnicodeError s.

Example sample_url :
  canonicalize no_idna URL "HTTP://Example.com:80/Foo?a=1#frag" = Ok "http://example.com/Foo?a=1".
Proof. vm_compute. reflexivity. Qed.
Example sample_domain : canonicalize no_idna DOMAIN "Example.COM." = Ok "example.com".
Proof. vm_compute. reflexivity. Qed.
Example sample_defanged :
  canonicalize no_idna URL "hxxps[:]//Evil[.]com:443/A" = Ok "https://evil.com/A".
Proof. vm_compute. reflexivity. Qed.
Example sample_ipv6 : canonicalize no_idna IPV6 "2001:DB8::1" = Ok "2001:db8::1".
Proof. vm_compute. reflexivity. Qed.
Example sample_bad :
  map is_ok [canonicalize no_idna IPV4 "256.1.1.1"; canonicalize no_idna SHA256 "deadbeef";
             canonicalize no_idna URL "/relative"] = [false; false; false].
Proof. vm_compute. reflexivity. Qed.
