(* ===== verification/HashingFacts.v ===== *)
(** What the canonicalizers guarantee: the shape of their results and that a
    canonical value is its own canonical form. *)

From S2P Require Import Prelude Errors PyStr PyStrFacts Regex RegexFacts IpAddr IpAddrFacts.
From S2P Require Import UrlParse Uuid Enums Hashing.

(** ** Domain labels *)

(** The text a domain label consists of: 1 to 63 letters, digits and hyphens,
    with no hyphen at either end. *)
Definition label_text (w : string) : Prop :=
  w ≠ "" ∧ String.length w <= 63 ∧ all_str is_label_char w = true ∧
  head_ok (λ c, negb (is_label_edge c)) w = true ∧ last_ok (λ c, negb (is_label_edge c)) w = true.

(** What the pattern accepts: [$] also matches before a final line feed. *)
Definition valid_label (l : string) : Prop :=
  ∃ w, label_text w ∧ (l = w ∨ l = w +:+ String (chr 10) "").

Lemma is_label_edge_char c : is_label_edge c = true → is_label_char c = true.
Proof. intros H. unfold is_label_char. by rewrite H. Qed.

Lemma last_ok_snoc p s c : last_ok p (s +:+ String c "") = negb (p c).
Proof. induction s as [|a s IH]; [done|]. simpl. rewrite IH. by destruct s. Qed.

(** Inversion of the compound patterns. *)
Lemma span_seq_inv r1 r2 p t : span (RSeq r1 r2) p t → ∃ q, span r1 p q ∧ span r2 q t.
Proof. inversion 1; subst; eauto. Qed.
Lemma span_group_inv n r p q : span (RGroup n r) p q → span r p q.
Proof. by inversion 1. Qed.
Lemma span_end_inv p q : span REnd p q → p = q ∧ at_end p = true.
Proof. by inversion 1. Qed.
Lemma span_start_inv p q : span RStart p q → p = q ∧ before p = None.
Proof. by inversion 1. Qed.
Lemma span_opt_inv r p q : span (ROpt r) p q → p = q ∨ span r p q.
Proof.
  unfold ROpt. inversion 1; subst; [by left|]. right.
  match goal with H : span (RRepeat _ _ _) _ _ |- _ => inversion H; subst; [done|] end.
  simpl in *. congruence.
Qed.

Lemma domain_label_valid l m : re_match DOMAIN_LABEL_RE l = Some m → valid_label l.
Proof.
  intros H%match_at_sound. unfold DOMAIN_LABEL_RE in H.
  generalize dependent (m_end m). clear m. intros q H.
  apply span_seq_inv in H as (p0 & [<- _]%span_start_inv & H).
  apply span_seq_inv in H as (p1 & (c & Hc & Ec)%span_lit_iff & H).
  apply span_seq_inv in H as (p2 & Hopt & [-> Hend]%span_end_inv). simpl in Hc. subst l.
  apply span_opt_inv in Hopt as [<-|H].
  - exists (String c ""). split.
    + unfold label_text. simpl. rewrite Ec, is_label_edge_char by done.
      repeat split; [done|lia].
    + destruct (at_end_cases _ Hend) as [->| ->]; [by left|by right].
  - apply span_group_inv, span_seq_inv in H as (p3 & Hrep & Hlast).
    apply span_repeat_chars in Hrep as (w & Hw & Hall & _ & Hlen).
    apply span_lit_iff in Hlast as (d & Hd & Ed).
    specialize (Hlen 61 eq_refl).
    exists (String c (w +:+ String d "")). split.
    + unfold label_text. split; [done|]. split; [simpl; rewrite length_app_str; simpl; lia|].
      split; [simpl; rewrite all_str_app, Hall; simpl; by rewrite !is_label_edge_char|].
      split; [simpl; by rewrite Ec|].
      change (String c (w +:+ String d "")) with (String c w +:+ String d "").
      rewrite last_ok_snoc. cbv beta. by rewrite Ed.
    + rewrite Hw, Hd. destruct (at_end_cases _ Hend) as [->| ->]; [by left|right].
      simpl. by rewrite <- app_str_assoc.
Qed.

(** The pattern is in the fragment for which the engine is complete. *)
Lemma label_re_well_formed : well_formed DOMAIN_LABEL_RE.
Proof.
  repeat split; try (apply consumes_char).
  intros p q H%span_group_inv. apply span_seq_inv in H as (p1 & H1 & H2).
  apply span_repeat_chars in H1 as (w & Hw & _).
  apply span_lit_iff in H2 as (c & Hc & _). rewrite Hw, Hc, length_app_str. simpl. lia.
Qed.

Lemma str_snoc_cases s : s = "" ∨ ∃ t c, s = t +:+ String c "".
Proof.
  induction s as [|c s IH]; [by left|]. right.
  destruct IH as [->|(t & d & ->)]; [by exists "", c|by exists (String c t), d].
Qed.

Lemma all_str_snoc p s c : all_str p (s +:+ String c "") = all_str p s && p c.
Proof. rewrite all_str_app. simpl. by rewrite andb_true_r. Qed.

Lemma label_text_span w e :
  label_text w → (∀ b, at_end (Pos b e) = true) →
  ∃ q, span DOMAIN_LABEL_RE (Pos None (w +:+ e)) q.
Proof.
  intros (Hne & Hlen & Hall & Hh & Hl) Hend. destruct w as [|c w]; [done|].
  simpl in Hh. apply negb_true_iff, negb_false_iff in Hh. clear Hne.
  cbn [all_str] in Hall. apply andb_true_iff in Hall as [_ Hall].
  destruct (str_snoc_cases w) as [->|(t & d & ->)].
  - eexists. eapply span_seq; [by constructor|]. eapply span_seq; [by apply span_char|].
    eapply span_seq; [apply span_rep_nil|]. by apply span_end.
  - rewrite all_str_snoc in Hall. apply andb_true_iff in Hall as [Ht Hd].
    simpl in Hlen. rewrite length_app_str in Hlen. simpl in Hlen.
    change (String c (t +:+ String d "")) with (String c t +:+ String d "") in Hl.
    rewrite last_ok_snoc in Hl. apply negb_true_iff, negb_false_iff in Hl.
    destruct (span_repeat_intro is_label_char 0 (Some 61) (Some c) t (String d e)) as [b' Hb'];
      [done|lia|intros h [= <-]; lia|].
    exists (Pos (Some d) e). eapply span_seq; [by constructor|].
    change ((String c (t +:+ String d "")) +:+ e) with (String c ((t +:+ String d "") +:+ e)).
    rewrite <- app_str_assoc. simpl.
    eapply span_seq; [by apply span_char|].
    eapply span_seq; [|by apply span_end]. unfold ROpt.
    eapply span_rep_cons; [done| |apply span_rep_nil].
    apply span_group. eapply span_seq; [done|]. by apply span_char.
Qed.

Lemma domain_label_match l : valid_label l → is_Some (re_match DOMAIN_LABEL_RE l).
Proof.
  intros (w & Hw & Hl). apply match_at_iff; [apply label_re_well_formed|].
  destruct Hl as [-> | ->].
  - rewrite <- (app_str_nil_r w). by apply (label_text_span w "").
  - by apply (label_text_span w (String (chr 10) "")).
Qed.

Lemma check_labels_iff ls : check_labels ls = Ok tt ↔ Forall valid_label ls.
Proof.
  induction ls as [|l ls IH]; simpl; [split; [constructor|done]|]. rewrite Forall_cons. split.
  - destruct (re_match DOMAIN_LABEL_RE l) eqn:E; [|done]. intros H.
    split; [by eapply domain_label_valid|by apply IH].
  - intros [H%domain_label_match Hls]. destruct H as [m ->]. by apply IH.
Qed.

(** The characters of a valid label. *)
Definition is_domain_char (c : ascii) : bool :=
  is_label_char c || N.eqb (code c) 46 || N.eqb (code c) 10.

Lemma valid_label_chars l : valid_label l → all_str is_domain_char l = true ∧ l ≠ "".
Proof.
  intros (w & (Hne & _ & Hall & _) & Hl).
  assert (all_str is_domain_char w = true).
  { eapply all_str_impl; [|done]. intros c Hc. unfold is_domain_char. by rewrite Hc. }
  destruct Hl as [-> | ->]; [done|]. split; [by rewrite all_str_app, H|].
  by destruct w.
Qed.

Lemma domain_chars_no c s :
  is_domain_char c = false → all_str is_domain_char s = true → contains_char c s = false.
Proof.
  intros Hc Hs. apply contains_char_all. eapply all_str_impl; [|done].
  intros a Ha. rewrite bool_decide_eq_false_2; [done|]. intros ->. congruence.
Qed.

(** ** Domains *)

Lemma last_ok_false p s : last_ok p s = false → ∃ s' c, s = s' +:+ String c "" ∧ p c = true.
Proof.
  induction s as [|a s IH]; [done|]. destruct s as [|b s].
  - simpl. intros H. exists "", a. split; [done|]. by apply negb_false_iff in H.
  - intros H. destruct (IH H) as (s' & c & E & Hc). exists (String a s'), c.
    split; [|done]. simpl. by rewrite E.
Qed.

Lemma split_trailing c s : last (split c (s +:+ String c "")) = Some "".
Proof.
  induction s as [|a s IH]; simpl.
  - by rewrite bool_decide_eq_true_2.
  - pose proof (split_not_nil c (s +:+ String c "")) as Hne.
    destruct (split c (s +:+ String c "")) as [|w [|w' ws]] eqn:E; [done| |].
    + simpl in IH. injection IH as ->. exfalso.
      assert (String.length (join (String c "") [""]) = String.length (s +:+ String c ""))
        by (by rewrite <- E, join_split).
      rewrite length_app_str in H. simpl in H. lia.
    + by case_bool_decide.
Qed.

Section domain.
Context (idna_nonascii : string → res string).
Abbreviation encode_idna := (encode_idna idna_nonascii).
Abbreviation canonical_domain := (canonical_domain idna_nonascii).

(** What the codec promises (RFC 3490, section 4.1): its result is lower-case
    for lower-case input, and encoding it again changes nothing. *)
Definition idna_stable : Prop :=
  ∀ s d, lower s = s → idna_nonascii s = Ok d → all_str is_ascii d = true →
         lower d = d ∧ encode_idna d = Ok d.

Lemma encode_idna_stable s d :
  idna_stable → lower s = s → encode_idna s = Ok d → lower d = d ∧ encode_idna d = Ok d.
Proof.
  intros Hst Hs H. unfold Hashing.encode_idna in H. destruct (all_str is_ascii s) eqn:Ha.
  - assert (s = d) as <- by (split_branches H; bool_to_prop; done). split; [done|].
    unfold Hashing.encode_idna. by rewrite Ha.
  - destruct (idna_nonascii s) as [d'|] eqn:Hd; simpl in H; [|done].
    destruct (all_str is_ascii d') eqn:Ha'; [|done]. injection H as ->. by eapply Hst.
Qed.

(** The labels of an accepted domain are valid. *)
Lemma canonical_domain_labels v d :
  canonical_domain v = Ok d → Forall valid_label (split "." d).
Proof.
  unfold Hashing.canonical_domain, try_except.
  destruct (encode_idna _) as [d'|e]; [|by destruct (existsb _ _)]. simpl.
  destruct (check_labels (split "." d')) as [[]|] eqn:E; [|done].
  intros [= <-]. by apply check_labels_iff.
Qed.

Lemma canonical_domain_chars v d :
  canonical_domain v = Ok d → all_str is_domain_char d = true ∧ d ≠ "".
Proof.
  intros H%canonical_domain_labels. split.
  - rewrite <- (join_split "." d). apply all_str_join; [done|].
    eapply Forall_impl; [done|]. intros l. apply valid_label_chars.
  - intros ->. simpl in H. apply Forall_cons in H as [H _]. by apply valid_label_chars in H as [_ []].
Qed.

Lemma lower_rstrip p s :
  (∀ c, p (lower_char c) = p c) → lower (rstrip_by p (lower s)) = rstrip_by p (lower s).
Proof.
  intros Hp. unfold lower. induction s as [|c s IH]; [done|]. simpl.
  destruct (rstrip_by p (map_str lower_char s)) as [|d r] eqn:E; simpl.
  - destruct (p (lower_char c)); [done|]. simpl. by rewrite lower_char_idem.
  - simpl in IH. rewrite lower_char_idem. by injection IH as -> ->.
Qed.
End domain.

(** ** Idempotence *)

Section idempotence.
Context (idna_nonascii : string → res string) (Hst : idna_stable idna_nonascii).
Abbreviation canonicalize := (canonicalize idna_nonascii).
Abbreviation canonical_domain := (canonical_domain idna_nonascii).

Lemma span_str_inv c s p q : span (RStr (String c s)) p q → ∃ t, after p = String c t.
Proof.
  simpl. intros (p' & (a & Hp & Ha)%span_lit_iff & _)%span_seq_inv.
  apply bool_decide_eq_true in Ha as ->. eauto.
Qed.

(** A match of the [hxxp] pattern holds a colon. *)
Lemma span_hxxp_colon p q : span RE_HXXP p q → ∃ u v, after p = u +:+ String ":" v.
Proof.
  unfold RE_HXXP. intros (p1 & Hw & H)%span_seq_inv.
  assert (p = p1) as <- by (by inversion Hw).
  apply span_seq_inv in H as (p2 & H1 & (p3 & H2 & H3)%span_seq_inv).
  assert (∀ r p q, span r p q → ∃ u, after p = u +:+ after q) as Hsuf.
  { clear. induction 1 as [f c s b _|p|r1 r2 p q t _ [u Hu] _ [v Hv]|r1 r2 p q _ IH
                          |r1 r2 p q _ IH|r hi p|r lo hi p q t _ _ [u Hu] _ [v Hv]
                          |n r p q _ IH|p _|p _|p _]; try done; try (by exists "").
    - by exists (String c "").
    - exists (u +:+ v). by rewrite <- app_str_assoc, <- Hv.
    - exists (u +:+ v). by rewrite <- app_str_assoc, <- Hv. }
  apply Hsuf in H1 as [u Hu], H2 as [v Hv].
  simpl in H3. apply span_seq_inv in H3 as (p4 & (a & Ha & Hc)%span_lit_iff & _).
  apply bool_decide_eq_true in Hc.
  assert (a = ":"%char) as ->.
  { assert (∀ a, implb (Ascii.eqb (lower_char a) (lower_char ":")) (Ascii.eqb a ":") = true)
      as H by check_ascii.
    specialize (H a). rewrite Hc, Ascii.eqb_refl in H. by apply Ascii.eqb_eq in H. }
  exists (u +:+ v), (after p4). rewrite Hu, Hv, Ha. by rewrite app_str_assoc.
Qed.

(** Text without brackets, parentheses and colons is left alone by [refang]. *)
Lemma refang_id s :
  contains_char "[" s = false → contains_char "(" s = false → contains_char ":" s = false →
  refang s = s.
Proof.
  intros H1 H2 H3. unfold refang. simpl fold_left.
  rewrite !(replace_id s) by (by apply contains_false_char).
  by apply (re_sub_needs_char _ _ ":"); [apply span_hxxp_colon|].
Qed.

Lemma domain_refang d : all_str is_domain_char d = true → refang d = d.
Proof. intros H. apply refang_id; by apply domain_chars_no. Qed.

Lemma domain_rstrip d :
  Forall valid_label (split "." d) → rstrip_by (λ c, bool_decide (c = "."%char)) d = d.
Proof.
  intros H. apply rstrip_id.
  destruct (last_ok (λ c, bool_decide (c = "."%char)) d) eqn:E; [done|].
  apply last_ok_false in E as (s & c & -> & ->%bool_decide_eq_true).
  pose proof (split_trailing "." s) as Hl. apply last_Some in Hl as [l' Hl].
  rewrite Hl in H. apply Forall_app in H as [_ H]. apply Forall_cons in H as [H _].
  by apply valid_label_chars in H as [_ []].
Qed.

(** An accepted domain is its own canonical form, and is in lower case. *)
Lemma canonical_domain_idem v d :
  canonical_domain v = Ok d → lower d = d ∧ canonical_domain d = Ok d.
Proof.
  intros H. pose proof (canonical_domain_labels _ _ _ H) as Hl.
  pose proof (canonical_domain_chars _ _ _ H) as [Hc Hne].
  unfold Hashing.canonical_domain, try_except in H.
  set (D := rstrip_by _ (lower (refang v))) in H.
  destruct (encode_idna idna_nonascii D) as [d'|e] eqn:He; [|by destruct (existsb _ _)].
  simpl in H. destruct (check_labels (split "." d')) as [[]|] eqn:Hk; [|done].
  simpl in H. injection H as ->.
  apply encode_idna_stable in He as [Hlow He]; [|done|].
  - split; [done|]. unfold Hashing.canonical_domain, try_except.
    rewrite domain_refang, Hlow, domain_rstrip by done. rewrite He. simpl. by rewrite Hk.
  - apply lower_rstrip. intros c.
    assert (∀ c, Bool.eqb (bool_decide (lower_char c = "."%char))
                          (bool_decide (c = "."%char)) = true) as Hd by check_ascii.
    by apply Bool.eqb_prop.
Qed.

Lemma rpartition_app c l r :
  contains_char c r = false → rpartition c (l +:+ String c r) = Some (l, r).
Proof.
  intros Hr. induction l as [|a l IH]; simpl.
  - by rewrite rpartition_None, bool_decide_eq_true_2.
  - by rewrite IH.
Qed.

Lemma canonical_email_idem v e :
  canonical_email idna_nonascii v = Ok e → canonical_email idna_nonascii e = Ok e ∧ e ≠ "".
Proof.
  unfold canonical_email. destruct (rpartition "@" v) as [[local dom]|]; [|done].
  destruct (canonical_domain dom) as [d|] eqn:Hd; [|done]. simpl. intros [= <-].
  pose proof (canonical_domain_chars _ _ _ Hd) as [Hc _].
  apply canonical_domain_idem in Hd as [Hlow Hd].
  assert (∀ l, lower (lower l +:+ String "@" d) = lower l +:+ String "@" d) as Hfix.
  { intros l. rewrite lower_app, lower_idem. f_equal. unfold lower in *. simpl.
    by rewrite Hlow. }
  assert (lower (local +:+ String "@" d) = lower local +:+ String "@" d) as ->.
  { rewrite lower_app. f_equal. unfold lower in *. simpl. by rewrite Hlow. }
  rewrite rpartition_app by (by apply domain_chars_no). rewrite Hd. simpl.
  rewrite Hfix. split; [done|]. by destruct (lower local).
Qed.

(** [canonical_hash] accepts exactly the hexadecimal strings of the length of
    the type, up to case and surrounding blanks. *)
Lemma canonical_hash_spec t v c n :
  hash_length t = Ok n →
  canonical_hash t v = Ok c ↔
  c = lower (strip v) ∧ String.length c = n ∧ all_str is_lower_hex c = true.
Proof.
  intros Hn. unfold canonical_hash. rewrite Hn. simpl.
  destruct (Nat.eqb_spec (String.length (lower (strip v))) n) as [El|El]; simpl.
  - destruct (all_str is_lower_hex (lower (strip v))) eqn:Eh; simpl.
    + split; [intros [= <-]; done|]. by intros (-> & _).
    + split; [done|]. intros (-> & _ & H). congruence.
  - split; [done|]. intros (-> & H & _). done.
Qed.

Lemma lower_hex_fixed c : all_str is_lower_hex c = true → lower c = c ∧ strip c = c.
Proof.
  intros H. split.
  - apply (map_str_id _ is_lower_hex); [|done]. intros a Ha.
    assert (∀ a, implb (is_lower_hex a) (Ascii.eqb (lower_char a) a) = true) as Hc
      by check_ascii.
    specialize (Hc a). rewrite Ha in Hc. by apply Ascii.eqb_eq.
  - apply strip_none. eapply all_str_impl; [|exact H]. intros a Ha.
    assert (∀ a, implb (is_lower_hex a) (negb (is_space a)) = true) as Hc by check_ascii.
    specialize (Hc a). by rewrite Ha in Hc.
Qed.

Lemma canonical_hash_idem t n v c :
  hash_length t = Ok n → 0 < n → canonical_hash t v = Ok c →
  canonical_hash t c = Ok c ∧ c ≠ "".
Proof.
  intros Hn Hpos H. apply (canonical_hash_spec _ _ _ n) in H as (_ & Hl & Hh); [|done].
  split; [|by intros ->; simpl in Hl; lia].
  apply (canonical_hash_spec _ _ _ n); [done|].
  destruct (lower_hex_fixed _ Hh) as [Hlow Hs]. by rewrite Hs, Hlow.
Qed.
End idempotence.

(** ** Stripping a canonical value *)

Lemma split_snoc c a s :
  a ≠ c → ∃ l w, split c s = l ++ [w] ∧ split c (s +:+ String a "") = l ++ [w +:+ String a ""].
Proof.
  intros Ha. induction s as [|b s (l & w & E & E')].
  - exists [], "". simpl. by rewrite bool_decide_eq_false_2.
  - simpl. rewrite E, E'. case_bool_decide; [by exists ("" :: l), w|].
    destruct l as [|x l]; [by exists [], (String b w)|by exists (String b x :: l), w].
Qed.

Lemma head_ok_app p s t : s ≠ "" → head_ok p (s +:+ t) = head_ok p s.
Proof. by destruct s. Qed.

(** The first label starts the domain, and no label starts with a blank. *)
Lemma valid_domain_head d :
  Forall valid_label (split "." d) → head_ok is_space d = true.
Proof.
  intros H. destruct d as [|c d]; [done|]. simpl in H |- *.
  destruct (bool_decide (c = "."%char)) eqn:E.
  { apply bool_decide_eq_true in E as ->. done. }
  assert (∃ w ws, Forall valid_label (String c w :: ws)) as (w & ws & H').
  { destruct (split "." d) as [|w ws]; eauto. }
  apply Forall_cons in H' as [(x & (Hne & _ & _ & Hh & _) & Hx) _].
  assert (head_ok (λ c, negb (is_label_edge c)) (String c w) = true) as Hc.
  { destruct Hx as [-> | ->]; [done|]. by rewrite head_ok_app. }
  simpl in Hc. apply negb_true_iff, negb_false_iff in Hc.
  assert (∀ c, implb (is_label_edge c) (negb (is_space c)) = true) as Hd by check_ascii.
  specialize (Hd c). by rewrite Hc in Hd.
Qed.

Lemma domain_char_space c :
  is_domain_char c = true → is_space c = true → c = chr 10.
Proof.
  assert (∀ c, implb (is_domain_char c && is_space c) (Ascii.eqb c (chr 10)) = true) as H
    by check_ascii.
  specialize (H c). intros H1 H2. rewrite H1, H2 in H. by apply Ascii.eqb_eq in H.
Qed.

(** The only blank an accepted domain can end with is one line feed. *)
Lemma valid_domain_strip d :
  Forall valid_label (split "." d) → all_str is_domain_char d = true →
  strip d = d ∨
  ∃ d0, d = d0 +:+ String (chr 10) "" ∧ strip d = d0 ∧ d0 ≠ "" ∧
        Forall valid_label (split "." d0) ∧
        removelast (split "." d0) = removelast (split "." d) ∧
        String.length (List.last (split "." d0) "")
        <= String.length (List.last (split "." d) "").
Proof.
  intros H Hc. pose proof (valid_domain_head _ H) as Hh.
  destruct (str_snoc_cases d) as [->|(d0 & a & ->)]; [by left|].
  destruct (is_space a) eqn:Ea.
  2:{ left. apply strip_id; [done|]. by rewrite last_ok_snoc, Ea. }
  right. exists d0. rewrite all_str_snoc in Hc. apply andb_true_iff in Hc as [Hc Hca].
  apply domain_char_space in Ea; [|done]. subst a.
  destruct (split_snoc "." (chr 10) d0) as (l & w & E & E'); [done|].
  rewrite E' in H. apply Forall_app in H as [Hl [(x & Hx & Hwx) _]%Forall_cons].
  assert (w = x) as ->.
  { destruct Hwx as [Hwx|Hwx]; [|by apply (app_str_inj_r (String (chr 10) ""))].
    subst x. destruct Hx as (_ & _ & _ & _ & Hlast). by rewrite last_ok_snoc in Hlast. }
  assert (Forall valid_label (split "." d0)) as Hd0.
  { rewrite E. apply Forall_app. split; [done|]. apply Forall_singleton. exists x. by split; [|left]. }
  assert (d0 ≠ "") as Hne.
  { intros ->. simpl in E. destruct l as [|? []]; simplify_eq/=; by destruct Hx. }
  assert (last_ok is_space d0 = true) as Hlast.
  { destruct (str_snoc_cases d0) as [->|(d1 & b & ->)]; [done|].
    rewrite last_ok_snoc. destruct (is_space b) eqn:Eb; [|done]. exfalso.
    rewrite all_str_snoc in Hc. apply andb_true_iff in Hc as [_ Hb].
    apply domain_char_space in Eb; [|done]. subst b.
    destruct (split_snoc "." (chr 10) d1) as (l' & w' & F & F'); [done|].
    rewrite E in F'. apply app_inj_tail in F' as [_ ->].
    destruct Hx as (_ & _ & _ & _ & Hlx). by rewrite last_ok_snoc in Hlx. }
  split; [done|]. split.
  { unfold strip, strip_by. rewrite lstrip_id by done. apply rstrip_snoc; [done|].
    by apply rstrip_id. }
  repeat split; [done..| |].
  - by rewrite E, E', !removelast_last.
  - rewrite E, E', !last_last, length_app_str. lia.
Qed.

Section strip_canonical.
Context (idna_nonascii : string → res string) (Hst : idna_stable idna_nonascii).
Abbreviation canonicalize := (canonicalize idna_nonascii).
Abbreviation canonical_domain := (canonical_domain idna_nonascii).

(** Only the labels matter to the codec once its input is ASCII. *)
Lemma encode_idna_labels d d0 :
  encode_idna idna_nonascii d = Ok d → all_str is_ascii d = true →
  all_str is_ascii d0 = true → d0 ≠ "" → d ≠ "" →
  removelast (split "." d0) = removelast (split "." d) →
  String.length (List.last (split "." d0) "") <= String.length (List.last (split "." d) "") →
  encode_idna idna_nonascii d0 = Ok d0.
Proof.
  intros H Ha Ha0 Hne0 Hne Hr Hl. unfold encode_idna in *. rewrite Ha in H. rewrite Ha0, Hr.
  destruct (String.eqb_spec d ""), (String.eqb_spec d0 ""); [done..|].
  destruct (existsb _ _); [done|].
  destruct (Nat.leb_spec 64 (String.length (List.last (split "." d) ""))); [done|].
  by destruct (Nat.leb_spec 64 (String.length (List.last (split "." d0) ""))); [lia|].
Qed.

Lemma domain_chars_ascii d : all_str is_domain_char d = true → all_str is_ascii d = true.
Proof.
  apply all_str_impl. intros c Hc.
  assert (∀ c, implb (is_domain_char c) (is_ascii c) = true) as H by check_ascii.
  specialize (H c). by rewrite Hc in H.
Qed.

(** Stripping an accepted domain leaves an accepted domain in canonical form. *)
Lemma canonical_domain_strip v d :
  canonical_domain v = Ok d →
  canonical_domain (strip d) = Ok (strip d) ∧ strip d ≠ "" ∧
  head_ok is_space d = true ∧ all_str is_domain_char (strip d) = true.
Proof.
  intros H. pose proof (canonical_domain_labels _ _ _ H) as Hv.
  pose proof (canonical_domain_chars _ _ _ H) as [Hc Hne].
  pose proof (valid_domain_head _ Hv) as Hh.
  apply canonical_domain_idem in H as [Hlow H]; [|done].
  assert (all_str is_domain_char (strip d) = true) as Hcs by by apply all_str_strip.
  destruct (valid_domain_strip _ Hv Hc) as [Hs|(d0 & -> & Hs & Hne0 & Hv0 & Hr & Hl)].
  { by rewrite Hs. }
  rewrite Hs in Hcs |- *. repeat split; [|done..].
  assert (lower d0 = d0) as Hlow0 by (rewrite lower_app in Hlow; by apply app_str_inj_r in Hlow).
  unfold Hashing.canonical_domain, try_except in H |- *.
  rewrite domain_refang, Hlow, domain_rstrip in H by done.
  rewrite domain_refang, Hlow0, domain_rstrip by done.
  destruct (encode_idna idna_nonascii (d0 +:+ _)) as [d'|] eqn:He;
    [|by destruct (existsb _ _)].
  simpl in H. apply bind_Ok in H as ([] & _ & [= ->]).
  rewrite (encode_idna_labels (d0 +:+ String (chr 10) "")); try done;
    [|by apply domain_chars_ascii..].
  simpl. by rewrite (proj2 (check_labels_iff _) Hv0).
Qed.

Lemma strip_app x d :
  head_ok is_space (x +:+ String "@" d) = true → head_ok is_space d = true → strip d ≠ "" →
  strip (x +:+ String "@" d) = x +:+ String "@" (strip d).
Proof.
  intros Hx Hd Hne. unfold strip, strip_by in *. rewrite lstrip_id by done.
  rewrite (lstrip_id _ d) in Hne |- * by done. clear Hx Hd.
  assert (∀ s t, rstrip_by is_space t ≠ "" →
            rstrip_by is_space (s +:+ t) = s +:+ rstrip_by is_space t) as Happ.
  { clear. induction s as [|c s IH]; intros t Ht; [done|]. simpl. rewrite IH by done.
    destruct (s +:+ rstrip_by is_space t) eqn:E; [|done].
    by destruct s, (rstrip_by is_space t). }
  rewrite Happ; simpl; by destruct (rstrip_by is_space d).
Qed.

Lemma canonical_email_strip v e :
  head_ok is_space v = true → canonical_email idna_nonascii v = Ok e →
  canonical_email idna_nonascii (strip e) = Ok (strip e) ∧ strip e ≠ "".
Proof.
  intros Hv. unfold canonical_email at 1.
  destruct (rpartition "@" v) as [[local dom]|] eqn:Hp; [|done].
  apply rpartition_Some in Hp as [-> _].
  destruct (canonical_domain dom) as [d|] eqn:Hd; [|done]. simpl. intros [= <-].
  pose proof (canonical_domain_strip _ _ Hd) as (Hsd & Hne & Hh & Hc).
  apply canonical_domain_idem in Hd as [Hlow _]; [|done].
  pose proof (canonical_domain_idem _ Hst _ _ Hsd) as [Hlows _].
  assert (∀ l t, lower t = t → lower (l +:+ String "@" t) = lower l +:+ String "@" t) as Hfix.
  { intros l t Ht. rewrite lower_app. f_equal. unfold lower in *. simpl. by rewrite Ht. }
  rewrite Hfix, strip_app; try done.
  - unfold canonical_email. rewrite rpartition_app by (by apply domain_chars_no).
    rewrite Hsd. simpl. rewrite Hfix, lower_idem by done. split; [done|]. by destruct (lower local).
  - destruct local as [|a l]; [done|]. simpl in *. by rewrite is_space_lower.
Qed.
End strip_canonical.

Lemma canonical_hash_strip t n v c :
  hash_length t = Ok n → canonical_hash t v = Ok c → strip c = c.
Proof.
  intros Hn H. apply (canonical_hash_spec _ _ _ n) in H as (_ & _ & Hh); [|done].
  by apply lower_hex_fixed.
Qed.

Lemma lower_not_empty s : s ≠ "" → lower s ≠ "".
Proof. by destruct s. Qed.

Lemma lower_strip s : strip (lower (strip s)) = lower (strip s).
Proof.
  apply strip_id; unfold lower.
  - rewrite map_str_head by apply is_space_lower. apply strip_head.
  - rewrite map_str_last by apply is_space_lower. apply strip_last.
Qed.

(** A non-empty value without outer blanks goes straight to the type's form. *)
Lemma canonicalize_stripped idna t v :
  strip v ≠ "" → canonicalize idna t v = canonicalize idna t (strip v).
Proof. intros H. unfold canonicalize, strip. by rewrite strip_idem. Qed.

(** A canonical value is its own canonical form.  For every type but URL,
    canonicalizing the value that is stored (the canonical value without outer
    blanks) succeeds and changes nothing. *)
Lemma canonicalize_fixed idna (Hst : idna_stable idna) t v c :
  t ≠ URL → canonicalize idna t v = Ok c →
  strip c ≠ "" ∧ canonicalize idna t (strip c) = Ok (strip c).
Proof.
  intros Ht H. unfold canonicalize in H.
  destruct (String.eqb_spec (strip v) "") as [|Hraw]; [done|].
  assert (∀ c', strip c = c' → c' ≠ "" → strip c' = c' →
    (match t with
     | IPV4 => n ← IPv4Address c'; Ok (str_ipv4 n)
     | IPV6 => a ← IPv6Address c'; Ok (str_ipv6 a)
     | DOMAIN => canonical_domain idna c' | URL => canonical_url c'
     | SHA256 | SHA1 | MD5 => canonical_hash t c' | EMAIL => canonical_email idna c'
     | FILE_NAME | MUTEX | REGISTRY_KEY | YARA_RULE => Ok (lower c') end) = Ok c' →
    strip c ≠ "" ∧ canonicalize idna t (strip c) = Ok (strip c)) as Hgoal.
  { intros c' -> Hne Hs Hc. split; [done|]. unfold canonicalize. rewrite Hs.
    by rewrite (proj2 (String.eqb_neq c' "") Hne). }
  destruct t; try done.
  - destruct (IPv4Address (strip v)) as [n|] eqn:E; [|done]. injection H as <-.
    destruct (IPv4Address_canonical _ _ E) as [Hn _]. rewrite Hn in *.
    apply (Hgoal (strip v)); unfold strip; rewrite ?strip_idem; try done.
    fold (strip v). rewrite E. simpl. by rewrite Hn.
  - destruct (IPv6Address (strip v)) as [a|] eqn:E; [|done]. injection H as <-.
    apply IPv6Address_str in E as E'.
    pose proof (IPv6Address_strip _ _ (strip_last _ _) E) as Hs.
    apply (Hgoal (str_ipv6 a)); [done| |done|by rewrite E'].
    intros E0. by rewrite E0 in E'.
  - destruct (canonical_domain_strip _ Hst _ _ H) as (Hd & Hne & _).
    apply (Hgoal (strip c)); [done..|apply strip_idem|done].
  - destruct (canonical_hash_idem SHA256 64 _ _ eq_refl ltac:(lia) H) as [Hc Hne].
    apply (Hgoal c); try done; by eapply (canonical_hash_strip SHA256).
  - destruct (canonical_hash_idem SHA1 40 _ _ eq_refl ltac:(lia) H) as [Hc Hne].
    apply (Hgoal c); try done; by eapply (canonical_hash_strip SHA1).
  - destruct (canonical_hash_idem MD5 32 _ _ eq_refl ltac:(lia) H) as [Hc Hne].
    apply (Hgoal c); try done; by eapply (canonical_hash_strip MD5).
  - apply canonical_email_strip in H as [He Hne]; [|done|apply strip_head].
    apply (Hgoal (strip c)); [done..|apply strip_idem|done].
  - injection H as <-. apply (Hgoal (lower (strip v))); rewrite ?lower_strip, ?lower_idem;
      auto using lower_not_empty.
  - injection H as <-. apply (Hgoal (lower (strip v))); rewrite ?lower_strip, ?lower_idem;
      auto using lower_not_empty.
  - injection H as <-. apply (Hgoal (lower (strip v))); rewrite ?lower_strip, ?lower_idem;
      auto using lower_not_empty.
  - injection H as <-. apply (Hgoal (lower (strip v))); rewrite ?lower_strip, ?lower_idem;
      auto using lower_not_empty.
Qed.

(** A codec that knows one name. *)
Definition sample_idna (s : string) : res string :=
  if String.eqb s ("b" +:+ String (chr 252) "cher.de") then Ok "xn--bcher-kva.de"
  else raise UnicodeError s.

Lemma sample_idna_stable : idna_stable sample_idna.
Proof.
  intros s d _. unfold sample_idna. destruct (String.eqb _ _); [|done].
  intros [= <-] _. by vm_compute.
Qed.
