(* ===== verification/Models.v ===== *)
(** [core/models.py]: the records that flow through the pipeline.

    Instants are microseconds since the epoch, UUIDs are their 128-bit integers.
    A default factory that reads the clock takes the instant as an argument. *)

From S2P Require Import Prelude Errors PyStr PyStrFacts PyDict PyVal Uuid Enums Hashing HashingFacts.

Definition SCHEMA_VERSION : string := "1".

(** ** Records *)

Record RawPayload := MkRawPayload {
  body : list Byte.byte;
  content_type : string;
  headers : list (string * string);
  fetched_at : Z;
  etag : option string;
  last_modified : option string;
  source_url : option string
}.

Record RunContext := MkRunContext {
  run_id : N;
  source_id : string;
  started_at : Z;
  correlation_id : string;
  watermark : pydict;
  raw_uri : option string;
  extras : pydict
}.

Record Indicator := MkIndicator {
  ind_id : N;
  ind_type : IndicatorType;
  ind_value : string;
  pattern : option string;
  confidence : Z;
  severity : Severity;
  tlp : TLP;
  tags : list string;
  first_seen_by_us : Z;
  last_seen_by_us : Z;
  valid_from : option Z;
  valid_until : option Z;
  schema_version : string
}.

Record Observation := MkObservation {
  obs_indicator_id : N;
  obs_source_id : string;
  feed_run_id : N;
  observed_at : Z;
  obs_tlp : TLP;
  obs_confidence : Z;
  obs_raw : pydict;
  obs_schema_version : string
}.

Record RunResult := MkRunResult {
  res_run_id : N;
  res_source_id : string;
  state : RunState;
  res_started_at : Z;
  finished_at : Z;
  fetched_bytes : Z;
  records_in : Z;
  records_out : Z;
  parse_errors : Z;
  dropped_by_enricher : Z;
  dropped_by_dedup : Z;
  error : option string;
  res_watermark : pydict;
  res_raw_uri : option string
}.

(** [RunResult(...)] with the counters left at their defaults, as both of its
    constructions in the code leave them. *)
Definition MkRunResult_default (ctx : RunContext) (st : RunState) (started finished : Z)
    (err : option string) : RunResult :=
  MkRunResult (run_id ctx) (source_id ctx) st started finished 0 0 0 0 0 0 err
    (watermark ctx) (raw_uri ctx).

(** [ctx.raw_uri = uri] and [ctx.watermark[k] = v]. *)
Definition with_raw_uri (ctx : RunContext) (uri : option string) : RunContext :=
  MkRunContext (run_id ctx) (source_id ctx) (started_at ctx) (correlation_id ctx)
    (watermark ctx) uri (extras ctx).
Definition set_watermark (ctx : RunContext) (k : string) (v : pyval) : RunContext :=
  MkRunContext (run_id ctx) (source_id ctx) (started_at ctx) (correlation_id ctx)
    (dset (watermark ctx) k v) (raw_uri ctx) (extras ctx).

(** ** Validation *)

(** [Field(ge=0, le=100)]. *)
Definition check_confidence (c : Z) : res unit :=
  if (0 <=? c)%Z && (c <=? 100)%Z then Ok tt
  else raise ValidationError "confidence out of range".

(** The keyword arguments of [Indicator.build] besides type and value. *)
Record fields := MkFields {
  f_pattern : option string;
  f_confidence : Z;
  f_severity : Severity;
  f_tlp : TLP;
  f_tags : list string;
  f_valid_from : option Z;
  f_valid_until : option Z
}.

Definition default_fields : fields := MkFields None 50 INFO AMBER [] None None.

(** The validated constructor: the value is stripped, the confidence checked;
    [now] holds the two instants the default factories read. *)
Definition new_Indicator (now : Z * Z) (id : N) (t : IndicatorType) (v : string) (fs : fields)
    : res Indicator :=
  _ ← check_confidence (f_confidence fs);
  Ok (MkIndicator id t (strip v) (f_pattern fs) (f_confidence fs) (f_severity fs) (f_tlp fs)
        (f_tags fs) now.1 now.2 (f_valid_from fs) (f_valid_until fs) SCHEMA_VERSION).

Definition new_Observation (now : Z) (ctx : RunContext) (ind : Indicator) (raw : pydict)
    : res Observation :=
  _ ← check_confidence (confidence ind);
  Ok (MkObservation (ind_id ind) (source_id ctx) (run_id ctx) now (tlp ind) (confidence ind)
        raw SCHEMA_VERSION).

(** [Indicator.build]: the identifier canonicalizes the canonical value again. *)
Definition build (idna : string → res string) (now : Z * Z) (t : IndicatorType) (v : string)
    (fs : fields) : res Indicator :=
  canonical ← canonicalize idna t v;
  id ← indicator_uuid idna t canonical;
  new_Indicator now id t canonical fs.

(** The name a built indicator's identifier is derived from. *)
Definition ind_name (r : res Indicator) : option string :=
  match r with Ok i => Some (uuid_name (ind_type i) (ind_value i)) | Raise _ => None end.

(** ** What an indicator guarantees *)

(** The validity of an indicator as it enters the pipeline. *)
Definition wf_indicator (i : Indicator) : Prop :=
  strip (ind_value i) = ind_value i ∧ (0 <= confidence i <= 100)%Z.

Lemma check_confidence_Ok c : check_confidence c = Ok tt ↔ (0 <= c <= 100)%Z.
Proof.
  unfold check_confidence. destruct (Z.leb_spec 0 c), (Z.leb_spec c 100); simpl; split; try lia;
    by (done || (intros; lia)).
Qed.

Lemma new_Indicator_Ok now id t v fs i :
  new_Indicator now id t v fs = Ok i →
  wf_indicator i ∧ ind_id i = id ∧ ind_type i = t ∧ ind_value i = strip v.
Proof.
  unfold new_Indicator. destruct (check_confidence _) as [[]|] eqn:E; [|done].
  intros [= <-]. apply check_confidence_Ok in E. repeat split; simpl; try done; try lia.
  apply strip_idem.
Qed.

Lemma build_Ok idna now t v fs i :
  build idna now t v fs = Ok i →
  ∃ c, canonicalize idna t v = Ok c ∧ indicator_uuid idna t c = Ok (ind_id i) ∧
       wf_indicator i ∧ ind_type i = t ∧ ind_value i = strip c.
Proof.
  unfold build. rewrite bind_Ok. intros (c & Hc & H). apply bind_Ok in H as (id & Hid & H).
  apply new_Indicator_Ok in H as (Hwf & <- & Ht & Hv). eauto 10.
Qed.

(** The stored type and value determine the identifier. *)
Lemma build_key idna now t v fs i :
  idna_stable idna → t ≠ URL → build idna now t v fs = Ok i →
  ind_type i = t ∧
  canonicalize idna t (ind_value i) = Ok (ind_value i) ∧
  ind_id i = uuid5 CTI_NS (value t +:+ ":" +:+ ind_value i) ∧
  (0 <= confidence i <= 100)%Z.
Proof.
  intros Hst Ht (c & Hc & Hid & [Hs Hconf] & Hty & Hv)%build_Ok.
  destruct (canonicalize_fixed _ Hst _ _ _ Ht Hc) as [Hne Hfix].
  unfold indicator_uuid in Hid. rewrite canonicalize_stripped, Hfix in Hid by done.
  apply Ok_inj in Hid. rewrite Hv. split; [exact Hty|]. split; [exact Hfix|].
  split; [symmetry; exact Hid|exact Hconf].
Qed.

(** The other keyword arguments arrive unchanged. *)
Lemma build_fields idna now t v fs i :
  build idna now t v fs = Ok i →
  confidence i = f_confidence fs ∧ severity i = f_severity fs ∧ tlp i = f_tlp fs ∧
  tags i = f_tags fs.
Proof.
  unfold build, new_Indicator. intros (c & _ & (id & _ & H)%bind_Ok)%bind_Ok.
  apply bind_Ok in H as ([] & _ & [= <-]). done.
Qed.

(** The names hashed for two indicators agree only if their types and values do. *)
Lemma uuid_name_inj t1 t2 v1 v2 :
  uuid_name t1 v1 = uuid_name t2 v2 → t1 = t2 ∧ v1 = v2.
Proof.
  unfold uuid_name. destruct t1, t2; simpl; intros H; (discriminate H || by injection H as ->).
Qed.

(** C8: the identifier is the authoritative deduplication key of (type, value).
    For every type but URL, an indicator that [build] returns stores a value
    that is its own canonical form, its identifier is the version-5 UUID of a
    name made of exactly the stored type and value, and the names of two
    indicators coincide exactly when their types and values do. *)
Theorem build_identity idna now now' t t' v v' fs fs' i j :
  idna_stable idna → t ≠ URL → t' ≠ URL →
  build idna now t v fs = Ok i → build idna now' t' v' fs' = Ok j →
  canonicalize idna t (ind_value i) = Ok (ind_value i) ∧
  ind_id i = uuid5 CTI_NS (uuid_name (ind_type i) (ind_value i)) ∧
  ind_id j = uuid5 CTI_NS (uuid_name (ind_type j) (ind_value j)) ∧
  (uuid_name (ind_type i) (ind_value i) = uuid_name (ind_type j) (ind_value j) ↔
   ind_type i = ind_type j ∧ ind_value i = ind_value j).
Proof.
  intros Hst Ht Ht' (Hty & Hc & Hi & _)%build_key (Hty' & _ & Hj & _)%build_key; [|done..].
  subst t t'. split; [exact Hc|]. split; [exact Hi|]. split; [exact Hj|].
  split; [apply uuid_name_inj|]. by intros [-> ->].
Qed.

Lemma build_identity_witness :
  ∃ i j, build sample_idna (7, 8)%Z EMAIL ("Bob@B" +:+ String (chr 220) "cher[.]DE.") default_fields = Ok i ∧
       build sample_idna (9, 9)%Z EMAIL "bob@xn--bcher-kva.de" default_fields = Ok j ∧
       ind_id i = ind_id j.
Proof.
  set (v := "Bob@B" +:+ String (chr 220) "cher[.]DE.").
  assert (is_ok (build sample_idna (7, 8)%Z EMAIL v default_fields) = true) as Hok
    by (vm_compute; reflexivity).
  assert (is_ok (build sample_idna (9, 9)%Z EMAIL "bob@xn--bcher-kva.de" default_fields) = true)
    as Hok' by (vm_compute; reflexivity).
  assert (ind_name (build sample_idna (7, 8)%Z EMAIL v default_fields)
          = ind_name (build sample_idna (9, 9)%Z EMAIL "bob@xn--bcher-kva.de" default_fields)) as Hn
    by (vm_compute; reflexivity).
  destruct (build sample_idna (7, 8)%Z EMAIL v default_fields) as [i|e] eqn:E; [|discriminate].
  destruct (build sample_idna (9, 9)%Z EMAIL "bob@xn--bcher-kva.de" default_fields)
    as [j|e] eqn:E'; [|discriminate].
  exists i, j. split; [reflexivity|]. split; [reflexivity|].
  destruct (build_identity sample_idna (7, 8)%Z (9, 9)%Z EMAIL EMAIL v "bob@xn--bcher-kva.de"
              default_fields default_fields i j sample_idna_stable
              ltac:(discriminate) ltac:(discriminate) E E') as (_ & Hi & Hj & _).
  simpl in Hn. injection Hn as Hn. rewrite Hi, Hj. f_equal. exact Hn.
Defined.

(** The identity does not hold for URLs.  Removing the defanging brackets
    once leaves text that a second pass changes, and the identifier is derived
    from the second pass while the first is stored: two inputs give indicators
    with one identifier and different values. *)
Theorem build_url_collision idna now :
  ∃ i j, build idna now URL "http://x/[[.]]" default_fields = Ok i ∧
         build idna now URL "http://x/." default_fields = Ok j ∧
         ind_id i = ind_id j ∧ ind_value i ≠ ind_value j ∧
         ind_id i ≠ uuid5 CTI_NS (value URL +:+ ":" +:+ ind_value i).
Proof.
  do 2 eexists. split; [vm_compute; reflexivity|]. split; [vm_compute; reflexivity|].
  simpl. split; [reflexivity|]. split; [discriminate|]. vm_compute. discriminate.
Qed.
