(* ===== verification/Effects.v ===== *)
(** The effects of a pipeline stage.

    A stage is code that, between two waits on its input queue, produces a
    finite script of effects in order and then continues or raises.  The script
    is the trace of a writer monad over the result type of [Errors]; a handler
    ([try ... except]) keeps the effects made before the exception. *)

From S2P Require Import Prelude Errors PyDict PyVal Enums Models.

(** ** Messages and effects *)

Abbreviation record := pydict.
Abbreviation pair := (Indicator * Observation)%type.

(** What travels on the six queues of the pipeline. *)
Inductive msg :=
  | MPayload (p : RawPayload)
  | MRecord (r : record)
  | MIndicator (i : Indicator) (raw : record)
  | MPair (p : pair).

(** The counters of [obs/metrics.py] that the stages increment. *)
Inductive metric :=
  | FETCH_BYTES
  | RECORDS_IN (stage : string)
  | RECORDS_OUT (publisher : string)
  | PARSE_ERRORS
  | DROPPED (reason : string).

Inductive effect :=
  | Put (m : msg)                              (** [await out.put(m)] *)
  | Inc (c : metric) (n : Z)                   (** [c.labels(source, ...).inc(n)] *)
  | Archived (uri : string)                    (** [archive.put] returned [uri] *)
  | SetCtx (ctx : RunContext)                  (** the shared context changed *)
  | BloomAdd (id : N)                          (** [bloom.add(str(id))] *)
  | Published (publisher : string) (batch : list pair).
                                               (** [publisher.publish(batch)] returned *)

(** ** The monad of stage bodies *)

Definition W (A : Type) : Type := list effect * res A.

#[export] Instance W_ret : MRet W := λ A a, ([], Ok a).
#[export] Instance W_bind : MBind W := λ A B f m,
  match m with
  | (es, Ok a) => let '(es', r) := f a in (es ++ es', r)
  | (es, Raise e) => (es, Raise e)
  end.

Definition tell (e : effect) : W unit := ([e], Ok tt).
Definition put (m : msg) : W unit := tell (Put m).
Definition inc (c : metric) (n : Z) : W unit := tell (Inc c n).
Definition lift {A} (r : res A) : W A := ([], r).
Definition throw {A} (e : exn) : W A := ([], Raise e).

(** [try: m except classes: h]. *)
Definition catch {A} (m : W A) (classes : list exn_class) (h : exn → W A) : W A :=
  match m with
  | (es, Raise e) =>
      if existsb (isinstance e) classes
      then let '(es', r) := h e in (es ++ es', r)
      else (es, Raise e)
  | _ => m
  end.

(** [for x in l: f(x)]. *)
Fixpoint for_each {A} (l : list A) (f : A → W unit) : W unit :=
  match l with
  | [] => mret tt
  | x :: l => _ ← f x; for_each l f
  end.

(** ** Stages *)

(** A stage with an input: what it does with an item and, once the input is
    exhausted, at the end; [st] holds its local variables. *)
Record stage (St : Type) := MkStage {
  st_init : St;
  st_item : St → msg → W St;
  st_end : St → W unit
}.
Arguments MkStage {St}.
Arguments st_init {St}.
Arguments st_item {St}.
Arguments st_end {St}.

(** [async for item in inq: ...] over a given input, then the code after it. *)
Fixpoint run_items {St} (s : stage St) (st : St) (l : list msg) : W St :=
  match l with
  | [] => mret st
  | m :: l => st ← st_item s st m; run_items s st l
  end.

Definition run_stage {St} (s : stage St) (l : list msg) : W unit :=
  st ← run_items s (st_init s) l; st_end s st.

(** ** Reading a trace *)

Definition puts (es : list effect) : list msg :=
  omap (λ e, match e with Put m => Some m | _ => None end) es.

Definition published (publisher : string) (es : list effect) : list (list pair) :=
  omap (λ e, match e with
             | Published p b => if String.eqb p publisher then Some b else None
             | _ => None end) es.

#[export] Instance metric_eq_dec : EqDecision metric.
Proof. solve_decision. Defined.

(** The total a counter was incremented by. *)
Fixpoint total (c : metric) (es : list effect) : Z :=
  match es with
  | [] => 0
  | Inc c' n :: es => (if decide (c' = c) then n else 0) + total c es
  | _ :: es => total c es
  end.

(** ** Laws *)

Lemma W_bind_ret_l {A B} (a : A) (f : A → W B) : mret a ≫= f = f a.
Proof. unfold mbind, mret, W_bind, W_ret. by destruct (f a). Qed.

Lemma W_bind_assoc {A B C} (m : W A) (f : A → W B) (g : B → W C) :
  (m ≫= f) ≫= g = m ≫= (λ a, f a ≫= g).
Proof.
  unfold mbind, W_bind. destruct m as [es [a|e]]; [|done].
  destruct (f a) as [es1 [b|e]]; [|done]. destruct (g b) as [es2 r]. by rewrite app_assoc.
Qed.

Lemma W_bind_Ok {A B} (m : W A) (f : A → W B) es b :
  m ≫= f = (es, Ok b) ↔
  ∃ es1 a es2, m = (es1, Ok a) ∧ f a = (es2, Ok b) ∧ es = es1 ++ es2.
Proof.
  unfold mbind, W_bind. destruct m as [es1 [a|e]].
  - destruct (f a) as [es2 r] eqn:E. split.
    + intros [= <- ->]. by exists es1, a, es2.
    + intros (? & ? & ? & [= <- <-] & E' & ->). rewrite E in E'. by injection E' as -> ->.
  - split; [done|]. by intros (? & ? & ? & ? & _).
Qed.

Lemma run_items_app {St} (s : stage St) st l k :
  run_items s st (l ++ k) = run_items s st l ≫= (λ st, run_items s st k).
Proof.
  revert st. induction l as [|m l IH]; intros st; cbn [app run_items].
  - symmetry. apply (W_bind_ret_l st).
  - rewrite W_bind_assoc. unfold mbind, W_bind.
    destruct (st_item s st m) as [es [st'|e]]; [|done]. by rewrite IH.
Qed.

Lemma puts_app es1 es2 : puts (es1 ++ es2) = puts es1 ++ puts es2.
Proof. apply omap_app. Qed.
Lemma published_app p es1 es2 : published p (es1 ++ es2) = published p es1 ++ published p es2.
Proof. apply omap_app. Qed.
Lemma total_app c es1 es2 : total c (es1 ++ es2) = (total c es1 + total c es2)%Z.
Proof. induction es1 as [|[] es1 IH]; simpl; rewrite ?IH; lia. Qed.

Lemma total_inc_eq c n es : total c (Inc c n :: es) = (n + total c es)%Z.
Proof. cbn [total]. by rewrite decide_True. Qed.
Lemma total_inc_ne c c' n es : c' ≠ c → total c (Inc c' n :: es) = total c es.
Proof. intros. cbn [total]. by rewrite decide_False. Qed.
Lemma total_published c p b es : total c (Published p b :: es) = total c es.
Proof. done. Qed.
Lemma published_eq p b es : published p (Published p b :: es) = b :: published p es.
Proof. unfold published. simpl. by rewrite String.eqb_refl. Qed.
Lemma published_ne p q b es : q ≠ p → published p (Published q b :: es) = published p es.
Proof. intros Hq%String.eqb_neq. unfold published. simpl. by rewrite Hq. Qed.
Lemma published_inc p c n es : published p (Inc c n :: es) = published p es.
Proof. done. Qed.

Lemma for_each_pure {A} (l : list A) (f : A → effect) :
  for_each l (λ x, tell (f x)) = (f <$> l, Ok tt).
Proof. induction l as [|x l IH]; [done|]. simpl. by rewrite IH. Qed.

#[export] Hint Rewrite @W_bind_ret_l @W_bind_assoc puts_app published_app total_app : cti_rw.
