(* ===== verification/Normalize.v ===== *)
(** [core/stages/normalize.py]: record dictionaries to indicator candidates. *)

From S2P Require Import Prelude Errors PyStr PyDict PyVal Enums Hashing HashingFacts Models.
From S2P Require Import Effects IpAddr UrlParse.

(** ** Configuration *)

Record NormalizeConfig := MkNormalizeConfig {
  indicator_type : option IndicatorType;
  type_field : option string;
  value_field : string;
  confidence_default : Z;
  confidence_field : option string;
  severity_default : Severity;
  tlp_default : TLP;
  static_tags : list string;
  tags_field : option string;
  valid_from_field : option string;
  valid_until_field : option string;
  skip_on_error : bool;
  extra_field_map : list (string * string)
}.

Definition default_NormalizeConfig : NormalizeConfig :=
  MkNormalizeConfig None None "value" 50 None INFO AMBER [] None None None true [].

(** ** One record *)

(** [_coerce_type]. *)
Definition coerce_type (raw : string) : res IndicatorType :=
  try_except (of_value (lower raw)) [ValueError]
    (λ _, raise PermanentError ("unknown indicator type: " +:+ repr_str raw)).

(** [field and field in record]: the value of an optional field. *)
Definition optional_field (field : option string) (record : pydict) : option pyval :=
  match field with
  | Some f => if String.eqb f "" then None else dget record f
  | None => None
  end.

(** The type of the record; [Ok None] when the record carries none. *)
Definition record_type (record : pydict) (cfg : NormalizeConfig) : res (option IndicatorType) :=
  match type_field cfg with
  | Some f =>
      let type_raw := default PyNone (dget record f) in
      if negb (truthy type_raw) then Ok None
      else t ← coerce_type (py_str type_raw); Ok (Some t)
  | None =>
      match indicator_type cfg with
      | Some t => Ok (Some t)
      | None => raise PermanentError "normalize: indicator_type or type_field must be set"
      end
  end.

Definition record_confidence (record : pydict) (cfg : NormalizeConfig) : res Z :=
  match optional_field (confidence_field cfg) record with
  | Some v => try_except (py_int v) [TypeError; ValueError] (λ _, Ok (confidence_default cfg))
  | None => Ok (confidence_default cfg)
  end.

Definition record_tags (record : pydict) (cfg : NormalizeConfig) : list string :=
  static_tags cfg ++
  match optional_field (tags_field cfg) record with
  | Some (PyList l) => map py_str l
  | Some (PyStr s) => filter (λ t, t ≠ "") (map strip (split "," s))
  | _ => []
  end.

Section normalize.
Context (idna_nonascii : string → res string).

(** [_record_to_indicator]. *)
Definition record_to_indicator (now : Z * Z) (record : pydict) (cfg : NormalizeConfig)
    : res (option Indicator) :=
  ot ← record_type record cfg;
  match ot with
  | None => Ok None
  | Some ind_type =>
      match dget record (value_field cfg) with
      | None | Some PyNone | Some (PyStr "") => Ok None
      | Some v =>
          confidence ← record_confidence record cfg;
          i ← build idna_nonascii now ind_type (py_str v)
                (MkFields None confidence (severity_default cfg) (tlp_default cfg)
                   (fromkeys (record_tags record cfg)) None None);
          Ok (Some i)
      end
  end.

(** ** The stage *)

(** [clock n] holds the instants read while the [n]-th record is built. *)
Context (clock : nat → Z * Z) (cfg : NormalizeConfig).

Definition normalize_item (n : nat) (m : msg) : W nat :=
  match m with
  | MRecord record =>
      ind ← catch (lift (record_to_indicator (clock n) record cfg))
              [ValueError; PermanentError]
              (λ e, _ ← inc PARSE_ERRORS 1;
                    if skip_on_error cfg then mret None else throw e);
      _ ← match ind with
          | None => mret tt
          | Some i => put (MIndicator i record)
          end;
      mret (S n)
  | _ => throw (Exn TypeError "not a record")
  end.

Definition run_normalize : stage nat := MkStage 0 normalize_item (λ _, mret tt).
End normalize.
