(* ===== verification/NormalizeFacts.v ===== *)
(** What the normalize stage guarantees: the indicators it emits, and that with
    [skip_on_error] a bad record costs that record only. *)

From S2P Require Import Prelude Errors PyStr PyDict PyVal IpAddr UrlParse Enums Hashing.
From S2P Require Import HashingFacts Uuid Models Effects Normalize.

(** ** The exceptions of the canonicalizers *)

Abbreviation value_errors := [ValueError].

Lemma of_value_raises {A} `{StrEnum A} s : raises_only (of_value (A:=A) s) value_errors.
Proof. unfold of_value. raises. Qed.

Lemma parse_octet_raises s : raises_only (parse_octet s) value_errors.
Proof. unfold parse_octet, address_error. raises. Qed.

Lemma IPv4Address_raises s : raises_only (IPv4Address s) value_errors.
Proof. unfold IPv4Address, address_error. raises; apply parse_octet_raises. Qed.

Lemma parse_hextet_raises s : raises_only (parse_hextet s) value_errors.
Proof. unfold parse_hextet, address_error. raises. Qed.

Lemma IPv6Address_raises s : raises_only (IPv6Address s) value_errors.
Proof.
  unfold IPv6Address, split_scope_id, ipv6_int_from_string, expand_v4_suffix, ipv6_of_parts,
    address_error.
  raises; eauto using IPv4Address_raises, parse_hextet_raises.
Qed.

Lemma ip_address_raises s : raises_only (ip_address s) value_errors.
Proof. unfold ip_address. raises. Qed.

Lemma check_bracketed_host_raises h : raises_only (check_bracketed_host h) value_errors.
Proof.
  unfold check_bracketed_host. raises.
  match goal with H : ip_address _ = Raise _ |- _ => apply ip_address_raises in H as Hr end.
  by intros e' [= <-].
Qed.

Lemma urlparse_raises s : raises_only (urlparse s) value_errors.
Proof.
  unfold urlparse, urlsplit, check_netloc, check_bracketed_netloc. raises;
    eauto using check_bracketed_host_raises.
Qed.

Section raises.
Context (idna : string → res string) (Hidna : ∀ s, raises_only (idna s) [UnicodeError]).

Lemma canonical_domain_raises v : raises_only (canonical_domain idna v) value_errors.
Proof.
  unfold canonical_domain. apply raises_only_bind; [|intros d _; raises].
  - apply raises_only_try; [|intros e; raises]. intros e He. left.
    assert (raises_only (encode_idna idna (rstrip_by (λ c, bool_decide (c = "."%char))
      (lower (refang v)))) [UnicodeError]) as H by (unfold encode_idna; raises).
    by apply H.
  - clear. induction (split "." d) as [|l ls IH]; simpl; raises.
Qed.

Lemma canonicalize_raises t v : raises_only (canonicalize idna t v) value_errors.
Proof.
  unfold canonicalize, canonical_url, canonical_hash, canonical_email, hash_length.
  raises; eauto using IPv4Address_raises, IPv6Address_raises, urlparse_raises,
    canonical_domain_raises.
Qed.

Lemma build_raises now t v fs : raises_only (build idna now t v fs) value_errors.
Proof.
  unfold build, indicator_uuid, new_Indicator, check_confidence.
  raises; eauto using canonicalize_raises.
Qed.
End raises.

Lemma int_of_str_raises s : raises_only (int_of_str s) value_errors.
Proof. unfold int_of_str. raises. Qed.

(** [int] raises [OverflowError] on an infinite float and on nothing else. *)
Definition is_infinite (v : pyval) : bool :=
  match v with
  | PyFloat f => match f_trunc f with Some _ => false | None => negb (f_is_nan f) end
  | _ => false
  end.

Lemma py_int_raises v :
  is_infinite v = false → raises_only (py_int v) [TypeError; ValueError].
Proof.
  intros H. destruct v as [| | |f|t| |]; simpl in *; try by raises.
  intros e He%int_of_str_raises. simpl in *. by destruct (isinstance e TypeError).
Qed.

(** ** One record *)

(** The confidence a record carries, if any, is not an infinite float. *)
Definition finite_confidence (cfg : NormalizeConfig) (r : pydict) : Prop :=
  ∀ v, optional_field (confidence_field cfg) r = Some v → is_infinite v = false.

Section one_record.
Context (idna : string → res string) (cfg : NormalizeConfig).

Abbreviation skipped_errors := [ValueError; PermanentError].

Lemma raises_only_weaken {A} (m : res A) cs ds :
  raises_only m cs → (∀ e, existsb (isinstance e) cs = true → existsb (isinstance e) ds = true) →
  raises_only m ds.
Proof. intros H Hw e He. by apply Hw, H. Qed.

Lemma value_errors_skipped {A} (m : res A) :
  raises_only m value_errors → raises_only m skipped_errors.
Proof.
  intros H. eapply raises_only_weaken; [done|]. intros e. simpl.
  by destruct (isinstance e ValueError).
Qed.

Lemma record_type_raises r : raises_only (record_type r cfg) skipped_errors.
Proof.
  unfold record_type, coerce_type. raises.
  apply raises_only_try; [|intros e; raises]. intros e He. left. by apply of_value_raises in He.
Qed.

Lemma record_confidence_finite r :
  finite_confidence cfg r → ∃ c, record_confidence r cfg = Ok c.
Proof.
  unfold finite_confidence, record_confidence. intros H.
  destruct (optional_field _ r) as [v|]; [|eauto]. specialize (H v eq_refl).
  pose proof (py_int_raises v H) as Hr. unfold try_except.
  destruct (py_int v) as [n|e]; [eauto|]. rewrite (Hr e eq_refl). eauto.
Qed.

Lemma record_to_indicator_raises now r :
  (∀ s, raises_only (idna s) [UnicodeError]) → finite_confidence cfg r →
  raises_only (record_to_indicator idna now r cfg) skipped_errors.
Proof.
  intros Hidna Hf. unfold record_to_indicator.
  apply raises_only_bind; [apply record_type_raises|]. intros [t|] _; [|done].
  destruct (record_confidence_finite _ Hf) as [c Hc]. rewrite Hc.
  assert (∀ v, raises_only (i ← build idna now t v
    (MkFields None c (severity_default cfg) (tlp_default cfg) (fromkeys (record_tags r cfg)) None
       None); Ok (Some i)) skipped_errors) as Hb.
  { intros v. apply raises_only_bind; [|done]. by apply value_errors_skipped, build_raises. }
  simpl. repeat case_match; try apply raises_only_Ok; apply Hb.
Qed.

(** What one record becomes: the value of its value field under its type, with
    the configured severity and TLP and the distinct tags. *)
Lemma record_to_indicator_Some now r i :
  record_to_indicator idna now r cfg = Ok (Some i) →
  ∃ t v c, record_type r cfg = Ok (Some t) ∧ dget r (value_field cfg) = Some v ∧
    v ≠ PyNone ∧ v ≠ PyStr "" ∧ record_confidence r cfg = Ok c ∧
    build idna now t (py_str v)
      (MkFields None c (severity_default cfg) (tlp_default cfg)
         (fromkeys (record_tags r cfg)) None None) = Ok i.
Proof.
  unfold record_to_indicator. rewrite bind_Ok. intros (ot & Ht & H).
  destruct ot as [t|]; [|done]. destruct (dget r (value_field cfg)) as [v|] eqn:Hv; [|done].
  assert (v ≠ PyNone ∧ v ≠ PyStr "" ∧
    (c ← record_confidence r cfg;
     i ← build idna now t (py_str v)
           (MkFields None c (severity_default cfg) (tlp_default cfg)
              (fromkeys (record_tags r cfg)) None None); Ok (Some i)) = Ok (Some i))
    as (H1 & H2 & (c & Hc & Hb)%bind_Ok).
  { destruct v as [| | | |[]| |]; try done. }
  apply bind_Ok in Hb as (i' & Hb & [= ->]). exists t, v, c. done.
Qed.

Lemma fromkeys_prefix l k : NoDup l → l `prefix_of` fromkeys (l ++ k).
Proof.
  intros Hl. unfold fromkeys. rewrite fold_left_app.
  fold (fromkeys l). rewrite fromkeys_id by done.
  assert (∀ acc, acc `prefix_of` fold_left fromkeys_step k acc) as H; [|apply H].
  clear. induction k as [|x k IH]; intros acc; simpl; [done|].
  etrans; [|apply IH]. unfold fromkeys_step. case_decide; [done|]. by eexists.
Qed.
End one_record.

(** C10: what an indicator is that a record normalizes to.  Its type is the record's
    (or the configured) type; its value is the canonical form under that type of
    the text in the value field, and its identifier is derived from that type and
    from the canonical form of that value; its confidence is the one of the record
    and between 0 and 100, its TLP and severity are the configured ones, and its
    tags are those of the configuration and of the record, each once.  For every
    type but URL the value is its own canonical form, and so the identifier is
    derived from exactly the type and the value (for URL it need not be).  The
    static tags come first, provided they are distinct. *)
Theorem normalized_indicator idna now r cfg i :
  record_to_indicator idna now r cfg = Ok (Some i) →
  record_type r cfg = Ok (Some (ind_type i)) ∧
  (∃ v c c', dget r (value_field cfg) = Some v ∧ v ≠ PyNone ∧ v ≠ PyStr "" ∧
     canonicalize idna (ind_type i) (py_str v) = Ok c ∧ ind_value i = strip c ∧
     canonicalize idna (ind_type i) c = Ok c' ∧ ind_id i = uuid5 CTI_NS (uuid_name (ind_type i) c')) ∧
  (idna_stable idna → ind_type i ≠ URL →
     canonicalize idna (ind_type i) (ind_value i) = Ok (ind_value i) ∧
     ind_id i = uuid5 CTI_NS (value (ind_type i) +:+ ":" +:+ ind_value i)) ∧
  record_confidence r cfg = Ok (confidence i) ∧ (0 <= confidence i <= 100)%Z ∧
  tlp i = tlp_default cfg ∧ severity i = severity_default cfg ∧
  NoDup (tags i) ∧ (∀ t, t ∈ tags i ↔ t ∈ record_tags r cfg) ∧
  (NoDup (static_tags cfg) → static_tags cfg `prefix_of` tags i).
Proof.
  intros H. apply record_to_indicator_Some in H as (t & v & c & Ht & Hv & Hn & He & Hc & Hb).
  destruct (build_fields _ _ _ _ _ _ Hb) as (Hcf & Hs & Htlp & Htg).
  pose proof Hb as (k & Hk & Hid & [_ Hconf] & Hty & Hval)%build_Ok.
  unfold indicator_uuid in Hid. apply bind_Ok in Hid as (k' & Hk' & Hid%Ok_inj).
  rewrite Hty, Hs, Htlp, Htg. cbn [f_severity f_tlp f_tags f_confidence] in *. split; [done|].
  split; [exists v, k, k'; by split_and!|]. split.
  { intros Hst Hu. by destruct (build_key _ _ _ _ _ _ Hst Hu Hb) as (_ & Hcan & Hid' & _). }
  rewrite Hcf in Hconf |- *. split; [done|]. split; [done|]. split; [done|]. split; [done|].
  split; [apply fromkeys_NoDup|]. split; [intros x; apply fromkeys_elem|]. by apply fromkeys_prefix.
Qed.

(** ** The stage *)

Section stage.
Context (idna : string → res string) (clock : nat → Z * Z) (cfg : NormalizeConfig).

(** What the [n]-th record of the input becomes. *)
Definition normalized (n : nat) (r : pydict) : res (option Indicator) :=
  record_to_indicator idna (clock n) r cfg.

Definition emitted (n : nat) (r : pydict) : option msg :=
  match normalized n r with Ok (Some i) => Some (MIndicator i r) | _ => None end.

Definition rejected (n : nat) (r : pydict) : bool := negb (is_ok (normalized n r)).

Lemma normalize_item_ok n r :
  skip_on_error cfg = true → raises_only (normalized n r) [ValueError; PermanentError] →
  ∃ es, normalize_item idna clock cfg n (MRecord r) = (es, Ok (S n)) ∧
        puts es = option_list (emitted n r) ∧
        total PARSE_ERRORS es = if rejected n r then 1%Z else 0%Z.
Proof.
  intros Hskip Hr. unfold normalize_item. fold (normalized n r). rewrite Hskip.
  unfold emitted, rejected. destruct (normalized n r) as [[i|]|e] eqn:E; simpl.
  - by eexists.
  - by eexists.
  - specialize (Hr e eq_refl). simpl in Hr. rewrite Hr. by eexists.
Qed.

Lemma normalize_items_ok rs n :
  skip_on_error cfg = true →
  (∀ k r, r ∈ rs → raises_only (normalized k r) [ValueError; PermanentError]) →
  ∃ es, run_items (run_normalize idna clock cfg) n (MRecord <$> rs) = (es, Ok (n + length rs)) ∧
        puts es = omap id (imap (λ k, emitted (n + k)) rs) ∧
        total PARSE_ERRORS es
        = Z.of_nat (length (List.filter (λ b : bool, b) (imap (λ k, rejected (n + k)) rs))).
Proof.
  intros Hskip. revert n. induction rs as [|r rs IH]; intros n Hr.
  - exists []. by rewrite Nat.add_0_r.
  - destruct (normalize_item_ok n r) as (es1 & E1 & P1 & T1); [done|by apply Hr; left|].
    destruct (IH (S n)) as (es2 & E2 & P2 & T2); [by intros k x Hx; apply Hr; right|].
    exists (es1 ++ es2). cbn [fmap list_fmap run_items].
    change (st_item (run_normalize idna clock cfg) n (MRecord r))
      with (normalize_item idna clock cfg n (MRecord r)).
    rewrite E1. unfold mbind, W_bind. rewrite E2. simpl.
    rewrite Nat.add_succ_r, puts_app, total_app, P1, P2, T1, T2, Nat.add_0_r.
    assert (∀ {B} (f : nat → pydict → B),
              imap (λ k, f (S n + k)) rs = imap (λ k, f (n + S k)) rs) as Hshift.
    { intros B f. apply imap_ext. intros k x _. by rewrite Nat.add_succ_r. }
    rewrite !Hshift. split; [done|]. split.
    + by destruct (emitted n r).
    + destruct (rejected n r); simpl; rewrite ?Nat2Z.inj_succ, ?Z.add_1_l; done.
Qed.
End stage.

(** C11: with [skip_on_error] a bad record costs that record only.  For every
    input whose confidence fields hold no infinite float, the stage runs to the
    end, emits in order exactly the records that normalize, each paired with
    its record, and counts one parse error for every record that raises. *)
Theorem normalize_skips_bad_records idna clock cfg rs :
  skip_on_error cfg = true → (∀ s, raises_only (idna s) [UnicodeError]) →
  Forall (finite_confidence cfg) rs →
  ∃ es, run_stage (run_normalize idna clock cfg) (MRecord <$> rs) = (es, Ok tt) ∧
        puts es = omap id (imap (emitted idna clock cfg) rs) ∧
        total PARSE_ERRORS es
        = Z.of_nat (length (List.filter (λ b : bool, b) (imap (rejected idna clock cfg) rs))).
Proof.
  intros Hskip Hidna Hf. rewrite Forall_forall in Hf.
  destruct (normalize_items_ok idna clock cfg rs 0) as (es & E & HP & HT); [done| |].
  { intros k r Hr. apply record_to_indicator_raises; auto. }
  exists es. unfold run_stage. change (st_init (run_normalize idna clock cfg)) with 0.
  rewrite E. unfold mbind, W_bind. simpl. by rewrite app_nil_r.
Qed.

(** ** Samples *)

Definition sample_clock (n : nat) : Z * Z := (Z.of_nat n, Z.of_nat n).

Definition sample_cfg : NormalizeConfig :=
  MkNormalizeConfig None (Some "kind") "value" 50 (Some "conf") INFO AMBER ["feed"] (Some "tags")
    None None true [].

Definition sample_records : list pydict :=
  [[("kind", PyStr "IPv4"); ("value", PyStr "10.0.0.1"); ("conf", PyStr "80");
    ("tags", PyStr "a, feed,,b")];
   [("kind", PyStr "ipv4"); ("value", PyStr "10.0.0.256")];
   [("kind", PyStr "unknown"); ("value", PyStr "x")];
   [("value", PyStr "10.0.0.2")];
   [("kind", PyStr "md5"); ("value", PyStr "D41D8CD98F00B204E9800998ECF8427E"); ("conf", PyStr "x")]].

Lemma normalized_indicator_witness :
  ∃ r i, record_to_indicator no_idna (0, 0)%Z r sample_cfg = Ok (Some i) ∧ NoDup (tags i) ∧
         tags i = ["feed"; "a"; "b"].
Proof.
  set (r := [("kind", PyStr "IPv4"); ("value", PyStr "10.0.0.1"); ("conf", PyStr "80");
             ("tags", PyStr "a, feed,,b")]).
  assert (match record_to_indicator no_idna (0, 0)%Z r sample_cfg with
          | Ok (Some i) => Some (tags i) | _ => None end = Some ["feed"; "a"; "b"]) as H
    by (vm_compute; reflexivity).
  destruct (record_to_indicator no_idna (0, 0)%Z r sample_cfg) as [[i|]|e] eqn:E;
    [|discriminate|discriminate].
  exists r, i. split; [exact E|]. split; [|injection H as H; exact H].
  apply (normalized_indicator no_idna (0, 0)%Z r sample_cfg i). exact E.
Defined.

Lemma normalize_skips_bad_records_witness :
  ∃ es, run_stage (run_normalize no_idna sample_clock sample_cfg) (MRecord <$> sample_records)
        = (es, Ok tt) ∧ length (puts es) = 2 ∧ total PARSE_ERRORS es = 2%Z.
Proof.
  destruct (normalize_skips_bad_records no_idna sample_clock sample_cfg sample_records)
    as (es & E & HP & HT).
  - reflexivity.
  - intros s e [= <-]. reflexivity.
  - unfold sample_records. repeat (apply Forall_cons_2; [intros v Hv; vm_compute in Hv; by simplify_eq|]). apply Forall_nil_2.
  - exists es. split; [exact E|]. rewrite HP, HT. split; vm_compute; reflexivity.
Defined.

(** An infinite confidence escapes [skip_on_error]: [int] of an infinite
    float raises [OverflowError], which neither the conversion nor the stage
    catches, so one such record (JSON [1e999]) ends the stage, whatever comes
    after it. *)
Theorem normalize_overflow_escapes idna clock f rs :
  f_trunc f = None → f_is_nan f = false →
  ∃ e, run_stage (run_normalize idna clock sample_cfg)
         (MRecord [("kind", PyStr "ipv4"); ("value", PyStr "10.0.0.1"); ("conf", PyFloat f)] :: rs)
       = ([], Raise e) ∧ cls e = OverflowError.
Proof.
  intros Hf Hn. unfold run_stage. simpl run_items. unfold normalize_item, record_to_indicator.
  assert (record_confidence
            [("kind", PyStr "ipv4"); ("value", PyStr "10.0.0.1"); ("conf", PyFloat f)] sample_cfg
          = raise OverflowError "cannot convert float infinity to integer") as E.
  { unfold record_confidence. simpl. unfold try_except, py_int. by rewrite Hf, Hn. }
  simpl. rewrite E. by eexists.
Qed.

Lemma normalize_overflow_escapes_witness :
  ∃ e, run_stage (run_normalize no_idna sample_clock sample_cfg)
         [MRecord [("kind", PyStr "ipv4"); ("value", PyStr "10.0.0.1");
                   ("conf", PyFloat (PyFloatV "inf" None false false))]]
       = ([], Raise e) ∧ cls e = OverflowError.
Proof.
  apply (normalize_overflow_escapes no_idna sample_clock (PyFloatV "inf" None false false) []);
    reflexivity.
Defined.
