(* ===== verification/Stages.v ===== *)
(** The stages of [core/stages/]: fetch, parse, enrich, dedup, persist, publish
    (normalize is in [Normalize]), over the plugin interfaces of
    [core/interfaces.py]. *)

From S2P Require Import Prelude Errors PyDict PyVal Enums Uuid Models Effects.

(** ** Plugins: the abstract classes of [core/interfaces.py]

    A plugin is what the stages observe of it.  An asynchronous generator is
    the tree of its suspensions: it yields a payload and waits to be resumed
    with the context, which both sides mutate, or it ends or raises.  A call
    that depends on the outside world takes the number of the call. *)

Inductive generator :=
  | GYield (p : RawPayload) (ctx : RunContext) (k : RunContext → generator)
  | GReturn (ctx : RunContext)
  | GRaise (ctx : RunContext) (e : exn).

Record Connector := MkConnector { fetch : RunContext → generator }.

(** The records a parser yields for a payload, and how it ends. *)
Record Parser := MkParser { parse : RawPayload → RunContext → list record * res unit }.

(** [SyncParser.parse]: [list(self.parse_sync(...))] runs first, so a parser
    that raises yields nothing. *)
Definition SyncParser_parse (parse_sync : RawPayload → RunContext → res (list record))
    (p : RawPayload) (ctx : RunContext) : list record * res unit :=
  match parse_sync p ctx with
  | Ok records => (records, Ok tt)
  | Raise e => ([], Raise e)
  end.

Record Enricher := MkEnricher { enrich : Indicator → RunContext → res (option Indicator) }.

Record Publisher := MkPublisher {
  pub_name : string;
  publish : nat → list pair → RunContext → res unit
}.

Record RawArchive := MkRawArchive { archive_put : RunContext → RawPayload → res string }.

(** ** Fetch *)

Fixpoint fetch_loop (archive : option RawArchive) (g : generator) : W RunContext :=
  match g with
  | GYield payload ctx k =>
      _ ← tell (SetCtx ctx);
      _ ← inc FETCH_BYTES (Z.of_nat (length (body payload)));
      _ ← inc (RECORDS_IN "fetch") 1;
      ctx ← match archive with
            | None => mret ctx
            | Some a =>
                uri ← lift (archive_put a ctx payload);
                _ ← tell (Archived uri);
                _ ← tell (SetCtx (with_raw_uri ctx (Some uri)));
                mret (with_raw_uri ctx (Some uri))
            end;
      _ ← put (MPayload payload);
      fetch_loop archive (k ctx)
  | GReturn ctx => _ ← tell (SetCtx ctx); mret ctx
  | GRaise ctx e => _ ← tell (SetCtx ctx); throw e
  end.

Definition run_fetch (connector : Connector) (archive : option RawArchive) (ctx : RunContext)
    : W RunContext :=
  fetch_loop archive (fetch connector ctx).

(** An item that is not of the queue's type does not unpack. *)
Definition wrong_type {A} : W A := throw (Exn TypeError "unexpected item").

(** ** Parse *)

Definition parse_item (parser : Parser) (ctx : RunContext) (m : msg) : W unit :=
  match m with
  | MPayload payload =>
      catch (let '(records, r) := parse parser payload ctx in
             _ ← for_each records (λ rec, put (MRecord rec)); lift r)
        [PermanentError]
        (λ e, _ ← inc PARSE_ERRORS 1; throw e)
  | _ => wrong_type
  end.

Definition run_parse (parser : Parser) (ctx : RunContext) : stage unit :=
  MkStage tt (λ _, parse_item parser ctx) mret.

(** ** Enrich *)

(** The loop over the enrichers: it stops at the first that drops. *)
Fixpoint enrich_chain (enrichers : list Enricher) (ctx : RunContext) (current : Indicator)
    : res (option Indicator) :=
  match enrichers with
  | [] => Ok (Some current)
  | e :: es =>
      r ← enrich e current ctx;
      match r with
      | Some i => enrich_chain es ctx i
      | None => Ok None
      end
  end.

Definition enrich_item (enrichers : list Enricher) (ctx : RunContext) (m : msg) : W unit :=
  match m with
  | MIndicator indicator raw =>
      current ← lift (enrich_chain enrichers ctx indicator);
      match current with
      | None => inc (DROPPED "enricher") 1
      | Some i => put (MIndicator i raw)
      end
  | _ => wrong_type
  end.

Definition run_enrich (enrichers : list Enricher) (ctx : RunContext) : stage unit :=
  MkStage tt (λ _, enrich_item enrichers ctx) mret.

(** ** Dedup *)

(** [redis.execute_command(command, key, id)]. *)
Record BloomCache := MkBloomCache {
  bloom_redis : option (string → string → string → res pyval);
  bloom_key : string
}.

Definition bloom_add (b : BloomCache) (ind_id : string) : res unit :=
  match bloom_redis b with
  | None => Ok tt
  | Some execute_command =>
      try_except (_ ← execute_command "BF.ADD" (bloom_key b) ind_id; Ok tt) [PyException]
        (λ _, Ok tt)
  end.

Definition bloom_exists (b : BloomCache) (ind_id : string) : res bool :=
  match bloom_redis b with
  | None => Ok false
  | Some execute_command =>
      try_except (r ← execute_command "BF.EXISTS" (bloom_key b) ind_id; Ok (truthy r))
        [PyException] (λ _, Ok false)
  end.

Definition dedup_item (bloom : option BloomCache) (m : msg) : W unit :=
  match m with
  | MIndicator indicator raw =>
      _ ← match bloom with
          | Some b => _ ← lift (bloom_add b (str_uuid (ind_id indicator)));
                      tell (BloomAdd (ind_id indicator))
          | None => mret tt
          end;
      put (MIndicator indicator raw)
  | _ => wrong_type
  end.

Definition run_dedup (bloom : option BloomCache) : stage unit :=
  MkStage tt (λ _, dedup_item bloom) mret.

(** ** Persist *)

Section persist.
Context (publisher : Publisher) (ctx : RunContext) (batch_size : Z) (clock : nat → Z).

(** The local variables: the calls made, the items read, and [batch]. *)
Record persist_state := PersistState { p_calls : nat; p_items : nat; p_batch : list pair }.

Definition persist_flush (st : persist_state) : W persist_state :=
  match p_batch st with
  | [] => mret st
  | batch =>
      _ ← lift (publish publisher (p_calls st) batch ctx);
      _ ← tell (Published "postgres" batch);
      _ ← inc (RECORDS_OUT "postgres") (Z.of_nat (length batch));
      _ ← for_each batch (λ p, put (MPair p));
      mret (PersistState (S (p_calls st)) (p_items st) [])
  end.

Definition persist_item (st : persist_state) (m : msg) : W persist_state :=
  match m with
  | MIndicator indicator raw =>
      obs ← lift (new_Observation (clock (p_items st)) ctx indicator raw);
      let st := PersistState (p_calls st) (S (p_items st)) (p_batch st ++ [(indicator, obs)]) in
      if (batch_size <=? Z.of_nat (length (p_batch st)))%Z then persist_flush st else mret st
  | _ => wrong_type
  end.

Definition persist_end (st : persist_state) : W unit := _ ← persist_flush st; mret tt.

Definition run_persist : stage persist_state :=
  MkStage (PersistState 0 0 []) persist_item persist_end.
End persist.

(** ** Publish *)

Section publish.
Context (publishers : list Publisher) (ctx : RunContext) (batch_size : Z).

(** The calls made and [batches]: a dictionary keyed by publisher name. *)
Record publish_state := PublishState { b_calls : nat; batches : list (string * list pair) }.

Definition batch_of (st : publish_state) (name : string) : list pair :=
  default [] (dget (batches st) name).

Definition publish_flush (st : publish_state) (publisher : Publisher) : W publish_state :=
  let name := pub_name publisher in
  match batch_of st name with
  | [] => mret st
  | batch =>
      _ ← catch
            (_ ← lift (publish publisher (b_calls st) batch ctx);
             _ ← tell (Published name batch);
             inc (RECORDS_OUT name) (Z.of_nat (length batch)))
            [TLPViolation]
            (λ _, inc (DROPPED ("tlp:" +:+ name)) (Z.of_nat (length batch)));
      mret (PublishState (S (b_calls st)) (dset (batches st) name []))
  end.

Definition publish_append (st : publish_state) (p : pair) (publisher : Publisher)
    : W publish_state :=
  let name := pub_name publisher in
  let batch := batch_of st name ++ [p] in
  let st := PublishState (b_calls st) (dset (batches st) name batch) in
  if (batch_size <=? Z.of_nat (length batch))%Z then publish_flush st publisher else mret st.

(** [for publisher in publishers: ...], threading the local variables. *)
Fixpoint fold_publishers (f : publish_state → Publisher → W publish_state)
    (ps : list Publisher) (st : publish_state) : W publish_state :=
  match ps with
  | [] => mret st
  | p :: ps => st ← f st p; fold_publishers f ps st
  end.

Definition publish_item (st : publish_state) (m : msg) : W publish_state :=
  match publishers, m with
  | [], _ => mret st
  | _, MPair p => fold_publishers (λ st, publish_append st p) publishers st
  | _, _ => wrong_type
  end.

Definition publish_end (st : publish_state) : W unit :=
  _ ← fold_publishers publish_flush publishers st; mret tt.

Definition run_publish : stage publish_state :=
  MkStage (PublishState 0 (dict (map (λ p, (pub_name p, [])) publishers)))
    publish_item publish_end.
End publish.
