(* ===== verification/PersistFacts.v ===== *)
(** The persist stage is the durability fence of the pipeline: what leaves it
    has been accepted by the canonical publisher. *)

From S2P Require Import Prelude Errors PyDict PyVal Enums Models Effects Stages.

(** ** The trace of the stage is a sequence of flushes *)

Definition flush_trace (b : list pair) : list effect :=
  Published "postgres" b :: Inc (RECORDS_OUT "postgres") (Z.of_nat (length b)) ::
  ((λ p, Put (MPair p)) <$> b).

Lemma published_puts p (b : list pair) : published p ((λ q, Put (MPair q)) <$> b) = [].
Proof. by induction b. Qed.
Lemma puts_puts (b : list pair) : puts ((λ q, Put (MPair q)) <$> b) = MPair <$> b.
Proof. induction b as [|x b IH]; [done|]. simpl. by f_equal. Qed.
Lemma total_puts c (b : list pair) : total c ((λ q, Put (MPair q)) <$> b) = 0%Z.
Proof. by induction b. Qed.

Lemma published_flush b : published "postgres" (flush_trace b) = [b].
Proof. unfold flush_trace. simpl. by rewrite published_puts. Qed.
Lemma puts_flush b : puts (flush_trace b) = MPair <$> b.
Proof. apply puts_puts. Qed.
Lemma total_flush b : total (RECORDS_OUT "postgres") (flush_trace b) = Z.of_nat (length b).
Proof. unfold flush_trace. cbn [total]. rewrite decide_True, total_puts by done. lia. Qed.

Definition flushes (bs : list (list pair)) : list effect := bs ≫= flush_trace.

Lemma published_flushes bs : published "postgres" (flushes bs) = bs.
Proof.
  induction bs as [|b bs IH]; [done|]. unfold flushes. cbn [mbind list_bind].
  rewrite published_app, published_flush. by f_equal.
Qed.

Lemma puts_flushes bs : puts (flushes bs) = MPair <$> concat bs.
Proof.
  induction bs as [|b bs IH]; [done|]. unfold flushes. cbn [mbind list_bind concat].
  rewrite puts_app, puts_flush, fmap_app. by f_equal.
Qed.

Lemma total_flushes bs :
  total (RECORDS_OUT "postgres") (flushes bs) = Z.of_nat (length (concat bs)).
Proof.
  induction bs as [|b bs IH]; [done|]. unfold flushes. cbn [mbind list_bind concat].
  rewrite total_app, total_flush, length_app. unfold flushes in IH. rewrite IH. lia.
Qed.

(** A pair is put only after the batch that holds it was published. *)
Lemma flushes_fence bs es1 p es2 :
  flushes bs = es1 ++ Put (MPair p) :: es2 → p ∈ concat (published "postgres" es1).
Proof.
  revert es1. induction bs as [|b bs IH]; intros es1 H; [by destruct es1|].
  unfold flushes in H. cbn [mbind list_bind] in H. fold (flushes bs) in H.
  destruct (decide (length es1 < length (flush_trace b))) as [Hlt|Hge].
  - assert (take (length es1) (flush_trace b) = es1) as Hes.
    { apply (f_equal (take (length es1))) in H.
      rewrite take_app_le, take_app_length in H by lia. done. }
    assert (flush_trace b !! length es1 = Some (Put (MPair p))) as Hp.
    { rewrite <- (lookup_app_l _ (flushes bs)), H by done. by apply list_lookup_middle. }
    destruct es1 as [|e1 [|e2 es1]]; [done..|]. simpl in Hp, Hes.
    injection Hes as <- <- Hes. simpl. apply elem_of_app. left.
    rewrite list_lookup_fmap in Hp. destruct (b !! length es1) eqn:E; [|done].
    injection Hp as ->. by eapply list_elem_of_lookup_2.
  - assert (es1 = flush_trace b ++ drop (length (flush_trace b)) es1) as Hes.
    { apply (f_equal (take (length (flush_trace b)))) in H.
      rewrite take_app_length, take_app_le in H by lia. rewrite H at 1. by rewrite take_drop. }
    rewrite Hes in H. rewrite <- app_assoc in H. apply app_inv_head in H.
    rewrite Hes, published_app, concat_app. apply elem_of_app. right. by eapply IH.
Qed.

(** ** The stage *)

Section persist_facts.
Context (publisher : Publisher) (ctx : RunContext) (batch_size : Z) (clock : nat → Z).
Abbreviation run_persist := (run_persist publisher ctx batch_size clock).

(** The pairs the stage forms: an observation for each indicator, up to the
    first item that is not a valid indicator. *)
Fixpoint pairs_of (n : nat) (l : list msg) : list pair :=
  match l with
  | MIndicator i raw :: l =>
      match new_Observation (clock n) ctx i raw with
      | Ok obs => (i, obs) :: pairs_of (S n) l
      | Raise _ => []
      end
  | _ => []
  end.

Definition limit : nat := Z.to_nat (Z.max 1 batch_size).

Definition batch_ok (b : list pair) : Prop := b ≠ [] ∧ length b <= limit.

(** The calls from number [k] on, one for each batch, returned. *)
Definition accepted_from (k : nat) (bs : list (list pair)) : Prop :=
  ∀ j b, bs !! j = Some b → publish publisher (k + j) b ctx = Ok tt.

Lemma accepted_from_nil k : accepted_from k [].
Proof. by intros j b. Qed.

Lemma accepted_from_app k bs1 bs2 :
  accepted_from k bs1 → accepted_from (k + length bs1) bs2 → accepted_from k (bs1 ++ bs2).
Proof.
  intros H1 H2 j b [Hj|[Hle Hj]]%lookup_app_Some; [by apply H1|].
  specialize (H2 _ _ Hj). by replace (k + length bs1 + (j - length bs1)) with (k + j) in H2 by lia.
Qed.

Lemma persist_flush_trace st es r :
  length (p_batch st) <= limit → persist_flush publisher ctx st = (es, r) →
  ∃ bs, es = flushes bs ∧ Forall batch_ok bs ∧ accepted_from (p_calls st) bs ∧
        match r with
        | Ok st' => concat bs = p_batch st ∧ p_batch st' = [] ∧ p_items st' = p_items st ∧
                    p_calls st' = p_calls st + length bs
        | Raise _ => bs = []
        end.
Proof.
  intros Hlen. unfold persist_flush. destruct (p_batch st) as [|p b] eqn:Hb.
  - intros [= <- <-]. exists []. rewrite Hb. simpl. auto 7 using accepted_from_nil, plus_n_O.
  - destruct (publish publisher (p_calls st) (p :: b) ctx) as [[]|e] eqn:Hp.
    + unfold put. rewrite for_each_pure. intros [= <- <-]. exists [p :: b].
      split; [done|]. split; [|split].
      * apply Forall_singleton. split; [done|]. exact Hlen.
      * intros [|j] b'; [|done]. intros [= <-]. by rewrite Nat.add_0_r.
      * simpl. rewrite app_nil_r. split_and!; [done..|lia].
    + intros [= <- <-]. exists []. auto using accepted_from_nil.
Qed.

Lemma persist_items_trace l : ∀ st es r,
  length (p_batch st) < limit → run_items run_persist st l = (es, r) →
  ∃ bs, es = flushes bs ∧ Forall batch_ok bs ∧ accepted_from (p_calls st) bs ∧
        match r with
        | Ok st' => concat bs ++ p_batch st' = p_batch st ++ pairs_of (p_items st) l ∧
                    length (p_batch st') < limit ∧ p_calls st' = p_calls st + length bs
        | Raise _ => concat bs `prefix_of` p_batch st ++ pairs_of (p_items st) l
        end.
Proof.
  induction l as [|m l IH]; intros st es r Hlen H; cbn [run_items] in H.
  { injection H as <- <-. exists []. rewrite app_nil_r. simpl. auto 7 using accepted_from_nil, plus_n_O. }
  change (st_item run_persist st m)
    with (persist_item publisher ctx batch_size clock st m) in H.
  destruct m as [pl|rec|i raw|pr]; try (cbn in H; injection H as <- <-; exists []; auto using prefix_nil, accepted_from_nil).
  cbn [persist_item] in H. cbn [pairs_of].
  destruct (new_Observation (clock (p_items st)) ctx i raw) as [obs|e];
    [|cbn in H; injection H as <- <-; exists []; auto using prefix_nil, accepted_from_nil].
  simpl in H. set (st1 := PersistState _ _ _) in H.
  assert (length (p_batch st1) <= limit) as Hlen1 by (simpl; rewrite length_app; simpl; lia).
  destruct (Z.leb_spec batch_size (Z.of_nat (length (p_batch st ++ [(i, obs)])))) as [Hle|Hlt].
  - destruct (persist_flush publisher ctx st1) as [es1 r1] eqn:Hf.
    apply persist_flush_trace in Hf as (bs1 & -> & Hok1 & Hacc1 & Hr1); [|done].
    destruct r1 as [st2|e].
    + destruct Hr1 as (Hc1 & Hb2 & Hi2 & Hk2). unfold mbind, W_bind in H.
      destruct (run_items run_persist st2 l) as [es2 r2] eqn:E2. injection H as <- <-.
      assert (0 < limit) as Hpos by (unfold limit; lia).
      apply IH in E2 as (bs2 & -> & Hok2 & Hacc2 & Hr2); [|by rewrite Hb2].
      exists (bs1 ++ bs2). unfold flushes. rewrite bind_app.
      split; [done|]. split; [by apply Forall_app|].
      split; [apply accepted_from_app; [done|by rewrite Hk2 in Hacc2]|].
      rewrite concat_app, Hc1, Hi2 in *.
      rewrite Hb2 in Hr2. simpl in *. destruct r2 as [st3|e3].
      * destruct Hr2 as (Hr2 & ? & ?). split; [by rewrite <- !app_assoc, Hr2|].
        split; [done|]. rewrite length_app. lia.
      * rewrite <- app_assoc. by apply prefix_app, (prefix_app [(i, obs)]).
    + subst bs1. injection H as <- <-. exists []. simpl. auto using prefix_nil, accepted_from_nil.
  - unfold mbind, W_bind, mret, W_ret in H.
    destruct (run_items run_persist st1 l) as [es2 r2] eqn:E2. injection H as <- <-.
    apply IH in E2 as (bs2 & -> & Hok2 & Hacc2 & Hr2); [|unfold limit; simpl; lia].
    exists bs2. split; [done|]. split; [done|]. split; [done|]. simpl in Hr2. by rewrite <- app_assoc in Hr2.
Qed.

Lemma persist_trace l es r :
  run_stage run_persist l = (es, r) →
  ∃ bs, es = flushes bs ∧ Forall batch_ok bs ∧ accepted_from 0 bs ∧ concat bs `prefix_of` pairs_of 0 l ∧
        (r = Ok tt → concat bs = pairs_of 0 l).
Proof.
  unfold run_stage. assert (0 < limit) as Hpos by (unfold limit; lia).
  destruct (run_items run_persist (st_init run_persist) l) as [es1 r1] eqn:E1.
  apply persist_items_trace in E1 as (bs1 & -> & Hok1 & Hacc1 & Hr1); [|done]. simpl in Hr1, Hacc1.
  destruct r1 as [st|e]; [|intros [= <- <-]; by exists bs1].
  destruct Hr1 as (Hc & Hlen & Hk). unfold mbind, W_bind.
  change (st_end run_persist st) with (persist_end publisher ctx st). unfold persist_end.
  destruct (persist_flush publisher ctx st) as [es2 r2] eqn:E2.
  apply persist_flush_trace in E2 as (bs2 & -> & Hok2 & Hacc2 & Hr2); [|lia]. rewrite Hk in Hacc2. simpl in Hacc2.
  unfold mbind, W_bind. destruct r2 as [st2|e].
  - intros [= <- <-]. destruct Hr2 as (Hc2 & _). exists (bs1 ++ bs2).
    unfold flushes. rewrite app_nil_r, bind_app. split; [done|].
    split; [by apply Forall_app|]. split; [by apply accepted_from_app|]. rewrite concat_app, Hc2. by rewrite Hc.
  - intros [= <- <-]. subst bs2. exists bs1. rewrite app_nil_r. split; [done|]. split; [done|]. split; [done|].
    split; [|done]. rewrite <- Hc. by eexists.
Qed.
(** A flush that returns has published the batch, if there is one. *)
Lemma persist_flush_once st es st' :
  persist_flush publisher ctx st = (es, Ok st') →
  p_batch st' = [] ∧ published "postgres" es = match p_batch st with [] => [] | b => [b] end.
Proof.
  unfold persist_flush. destruct (p_batch st) as [|p b] eqn:E; [by intros [= <- <-]|].
  destruct (publish publisher (p_calls st) (p :: b) ctx) as [[]|e]; [|done].
  unfold put. rewrite for_each_pure. intros [= <- <-]. split; [done|].
  simpl. by rewrite app_nil_r, published_puts.
Qed.

(** Before the end of the input a batch is flushed as soon as it is full, and
    only then. *)
Lemma persist_items_full l : ∀ st es st',
  length (p_batch st) < limit → run_items run_persist st l = (es, Ok st') →
  Forall (λ b, length b = limit) (published "postgres" es).
Proof.
  assert (0 < limit) as Hpos by (unfold limit; lia).
  induction l as [|m l IH]; intros st es st' Hlen H; cbn [run_items] in H; [by injection H as <- _|].
  apply W_bind_Ok in H as (es1 & st2 & es2 & H1 & H2 & ->).
  change (persist_item publisher ctx batch_size clock st m = (es1, Ok st2)) in H1.
  destruct m as [pl|rec|i raw|pr]; try discriminate H1. cbn [persist_item] in H1.
  apply W_bind_Ok in H1 as (es0 & obs & es3 & [= <- _] & H1 & ->). cbn [app].
  set (st1 := PersistState (p_calls st) (S (p_items st)) (p_batch st ++ [(i, obs)])) in H1.
  assert (length (p_batch st1) = S (length (p_batch st))) as Hb by (simpl; rewrite length_app; simpl; lia).
  cbn zeta in H1. destruct (Z.leb_spec batch_size (Z.of_nat (length (p_batch st1)))) as [Hle|Hlt].
  - apply persist_flush_once in H1 as [Hn Hp]. rewrite published_app, Hp. apply Forall_app.
    split; [|eapply IH; [by rewrite Hn|exact H2]].
    destruct (p_batch st1); [done|]. apply Forall_singleton. unfold limit in *. lia.
  - injection H1 as <- <-. eapply IH; [|exact H2]. unfold limit. lia.
Qed.

(** When the stage ends normally, every batch but perhaps the last is full. *)
Lemma persist_batches l es :
  run_stage run_persist l = (es, Ok tt) →
  ∃ full last, published "postgres" es = full ++ last ∧
    Forall (λ b, length b = limit) full ∧ length last <= 1.
Proof.
  unfold run_stage. intros (es1 & st & es2 & H1 & H2 & ->)%W_bind_Ok.
  change (persist_end publisher ctx st = (es2, Ok tt)) in H2. unfold persist_end in H2.
  apply W_bind_Ok in H2 as (es3 & st' & es4 & [_ H3]%persist_flush_once & [= <-] & ->).
  exists (published "postgres" es1), (published "postgres" es3). rewrite app_nil_r, published_app.
  split; [done|]. split; [|rewrite H3; destruct (p_batch st); simpl; lia].
  eapply persist_items_full; [|exact H1]. simpl. unfold limit. lia.
Qed.
End persist_facts.

(** The place of the elements in batches of the same size. *)
Lemma batches_lookup {A} n (full last : list (list A)) i x :
  n ≠ 0 → Forall (λ b, length b = n) full → length last <= 1 → Forall (λ b, length b <= n) last →
  concat (full ++ last) !! i = Some x →
  ∃ b, (full ++ last) !! (i / n) = Some b ∧ b !! (i mod n) = Some x.
Proof.
  intros Hn Hfull Hlen Hlast. revert i. induction Hfull as [|b full Hb _ IH]; intros i; simpl.
  - destruct last as [|b [|? ?]]; [done| |simpl in Hlen; lia]. simpl. rewrite app_nil_r. intros Hi.
    rewrite Forall_singleton in Hlast. cbn beta in Hlast. pose proof (lookup_lt_Some _ _ _ Hi).
    rewrite Nat.div_small, Nat.mod_small by lia. by exists b.
  - intros [Hi|[Hle Hi]]%lookup_app_Some.
    + pose proof (lookup_lt_Some _ _ _ Hi). rewrite Nat.div_small, Nat.mod_small by lia. by exists b.
    + apply IH in Hi as (b' & H1 & H2). exists b'.
      rewrite Hb in Hle, H1, H2. replace i with (i - n + 1 * n) by lia.
      rewrite Nat.div_add, Nat.Div0.mod_add, Nat.add_1_r by done. by split.
Qed.

(** So when the stage ends normally, the pair at place [i] is in the batch [i / limit]. *)
Lemma persist_batches_lookup publisher ctx batch_size clock l es i x :
  run_stage (run_persist publisher ctx batch_size clock) l = (es, Ok tt) →
  pairs_of ctx clock 0 l !! i = Some x →
  ∃ b, published "postgres" es !! (i / limit batch_size) = Some b ∧ b !! (i mod limit batch_size) = Some x.
Proof.
  intros H Hx. pose proof (persist_batches _ _ _ _ _ _ H) as (full & last & Hp & Hfull & Hlast).
  apply persist_trace in H as (bs & -> & Hok & _ & _ & Heq). rewrite published_flushes in Hp |- *. subst bs.
  rewrite <- Heq in Hx by done. apply batches_lookup; [unfold limit; lia|done|done| |done].
  apply Forall_app in Hok as [_ Hok]. eapply Forall_impl; [exact Hok|]. by intros b [_ Hb].
Qed.

(** C9: the durability fence.  Whatever the publisher and the input do, the
    persist stage puts a pair on the queue to the publish stage only after a
    batch that contains it was accepted by the canonical publisher; what is put
    is exactly what was published, in the order of the input; no batch is empty
    or larger than the batch size; and when the stage ends normally every
    indicator of the input was published. *)
Theorem persist_fence publisher ctx batch_size clock l es r :
  run_stage (run_persist publisher ctx batch_size clock) l = (es, r) →
  (∀ es1 p es2, es = es1 ++ Put (MPair p) :: es2 → p ∈ concat (published "postgres" es1)) ∧
  puts es = MPair <$> concat (published "postgres" es) ∧
  total (RECORDS_OUT "postgres") es = Z.of_nat (length (concat (published "postgres" es))) ∧
  Forall (λ b, b ≠ [] ∧ (Z.of_nat (length b) <= Z.max 1 batch_size)%Z) (published "postgres" es) ∧
  concat (published "postgres" es) `prefix_of` pairs_of ctx clock 0 l ∧
  (r = Ok tt → concat (published "postgres" es) = pairs_of ctx clock 0 l).
Proof.
  intros (bs & -> & Hok & _ & Hpre & Heq)%persist_trace. rewrite published_flushes.
  split; [apply flushes_fence|]. split; [apply puts_flushes|]. split; [apply total_flushes|].
  split; [|done]. eapply Forall_impl; [done|]. intros b [? Hb]. split; [done|].
  unfold limit in Hb. lia.
Qed.
