(* ===== verification/PublishFacts.v ===== *)
(** The publish stage: every downstream publisher is offered every pair. *)

From S2P Require Import Prelude Errors PyStr PyDict PyVal Enums Models Effects Stages.

(** ** What one publisher sees of a trace *)

(** The batches offered to a publisher, each with whether it was accepted or
    dropped for its TLP. *)
Abbreviation offers := (list (bool * list pair)%type).

Definition accepted (os : offers) : list (list pair) :=
  omap (λ o : bool * list pair, if o.1 then Some o.2 else None) os.
Definition refused (os : offers) : list (list pair) :=
  omap (λ o : bool * list pair, if o.1 then None else Some o.2) os.
Definition offered (os : offers) : list pair := concat (snd <$> os).

Definition tlp_reason (name : string) : metric := DROPPED ("tlp:" +:+ name).

(** The trace [es] makes exactly the offers [os] to the publisher [name]. *)
Definition makes_offers (name : string) (os : offers) (es : list effect) : Prop :=
  published name es = accepted os ∧
  total (RECORDS_OUT name) es = Z.of_nat (length (concat (accepted os))) ∧
  total (tlp_reason name) es = Z.of_nat (length (concat (refused os))).

Lemma makes_offers_app name os1 os2 es1 es2 :
  makes_offers name os1 es1 → makes_offers name os2 es2 →
  makes_offers name (os1 ++ os2) (es1 ++ es2).
Proof.
  intros (P1 & R1 & D1) (P2 & R2 & D2). unfold makes_offers, accepted, refused in *.
  rewrite published_app, !total_app, !omap_app, !concat_app, !length_app, P1, P2, R1, R2, D1, D2.
  split; [done|]. lia.
Qed.

Lemma makes_offers_nil name : makes_offers name [] [].
Proof. done. Qed.

Lemma accepted_cons d b os : accepted ((d, b) :: os) = if d then b :: accepted os else accepted os.
Proof. by destruct d. Qed.
Lemma refused_cons d b os : refused ((d, b) :: os) = if d then refused os else b :: refused os.
Proof. by destruct d. Qed.
Lemma offered_cons d b os : offered ((d, b) :: os) = b ++ offered os.
Proof. done. Qed.

Lemma offered_length os :
  length (concat (accepted os)) + length (concat (refused os)) = length (offered os).
Proof.
  induction os as [|[d b] os IH]; [done|]. rewrite accepted_cons, refused_cons, offered_cons.
  destruct d; cbn [concat]; rewrite !length_app; lia.
Qed.

Lemma offered_accepted os : concat (accepted os) `sublist_of` offered os.
Proof.
  induction os as [|[d b] os IH]; [done|]. rewrite accepted_cons, offered_cons. destruct d.
  - by apply sublist_app.
  - by apply sublist_inserts_l.
Qed.

Lemma refused_nil os : refused os = [] → concat (accepted os) = offered os.
Proof.
  induction os as [|[d b] os IH]; [done|]. rewrite refused_cons, accepted_cons, offered_cons.
  destruct d; [|done]. intros H. simpl. by rewrite IH.
Qed.

Section publish_facts.
Context (publishers : list Publisher) (ctx : RunContext) (batch_size : Z).
Context (p : Publisher) (Hnames : NoDup (pub_name <$> publishers)) (Hp : p ∈ publishers).
Abbreviation nm := (pub_name p).

(** [p] never refuses a batch for its TLP. *)
Definition never_refuses : Prop :=
  ∀ n b e, publish p n b ctx = Raise e → isinstance e TLPViolation = false.

(** Between two states, [p] was offered what its batch lost and was appended
    the pairs [xs]. *)
Definition offers_step (st : publish_state) (es : list effect) (st' : publish_state)
    (xs : list pair) : Prop :=
  ∃ os, makes_offers nm os es ∧ offered os ++ batch_of st' nm = batch_of st nm ++ xs ∧
        (never_refuses → refused os = []).

Lemma offers_step_refl st : offers_step st [] st [].
Proof. exists []. split; [done|]. by rewrite app_nil_r. Qed.

Lemma offers_step_trans st1 es1 st2 es2 st3 xs1 xs2 :
  offers_step st1 es1 st2 xs1 → offers_step st2 es2 st3 xs2 →
  offers_step st1 (es1 ++ es2) st3 (xs1 ++ xs2).
Proof.
  intros (os1 & M1 & O1 & N1) (os2 & M2 & O2 & N2). exists (os1 ++ os2).
  split; [by apply makes_offers_app|]. split.
  - unfold offered in *. rewrite fmap_app, concat_app, <- app_assoc, O2, app_assoc, O1.
    by rewrite app_assoc.
  - intros H. unfold refused in *. by rewrite omap_app, N1, N2.
Qed.

Lemma batch_of_dset st n name b name' :
  batch_of (PublishState n (dset (batches st) name b)) name'
  = if decide (name = name') then b else batch_of st name'.
Proof. unfold batch_of. simpl. rewrite dget_dset. by case_decide. Qed.

Lemma same_name q : q ∈ publishers → pub_name q = nm → q = p.
Proof.
  clear ctx batch_size. intros Hq E. revert Hnames Hp Hq. induction publishers as [|x l IH]; [set_solver|].
  intros [Hx Hl]%NoDup_cons [->|Hpl]%elem_of_cons [->|Hql]%elem_of_cons; [done| | |by apply IH].
  - destruct Hx. rewrite <- E. by apply list_elem_of_fmap_2.
  - destruct Hx. rewrite E. by apply list_elem_of_fmap_2.
Qed.

(** A publisher with another name leaves no trace for [p]. *)
Lemma offers_other q n b es :
  pub_name q ≠ nm →
  catch (_ ← lift (publish q n b ctx);
         _ ← tell (Published (pub_name q) b);
         inc (RECORDS_OUT (pub_name q)) (Z.of_nat (length b)))
    [TLPViolation] (λ _, inc (DROPPED ("tlp:" +:+ pub_name q)) (Z.of_nat (length b)))
  = (es, Ok tt) → makes_offers nm [] es.
Proof.
  intros Hne. destruct (publish q n b ctx) as [[]|e]; simpl.
  - intros [= <-]. unfold makes_offers. simpl app.
    rewrite published_ne, published_inc, !total_published, !total_inc_ne by congruence. done.
  - rewrite orb_false_r. destruct (isinstance e TLPViolation); [|done].
    intros [= <-]. unfold makes_offers, tlp_reason. simpl app.
    rewrite published_inc, total_inc_ne, total_inc_ne by naive_solver. done.
Qed.

Lemma flush_step st q es st' :
  q ∈ publishers → publish_flush ctx st q = (es, Ok st') →
  offers_step st es st' [] ∧ (q = p → batch_of st' nm = []).
Proof.
  intros Hq. unfold publish_flush. destruct (batch_of st (pub_name q)) as [|x b] eqn:Hb.
  { intros [= <- <-]. split; [apply offers_step_refl|]. by intros ->. }
  rewrite W_bind_Ok. intros (es1 & [] & es2 & H & [= <- <-] & ->). rewrite app_nil_r.
  destruct (decide (pub_name q = nm)) as [E|Hne].
  - apply same_name in E as ->; [|done]. split; [|intros _; by rewrite batch_of_dset, decide_True].
    destruct (publish p (b_calls st) (x :: b) ctx) as [[]|e] eqn:Hpub; simpl in H.
    + injection H as <-. exists [(true, x :: b)].
      unfold makes_offers. rewrite batch_of_dset, decide_True, Hb by done. simpl app.
      rewrite published_eq, published_inc, !total_published, total_inc_eq, total_inc_ne by done.
      unfold offered. simpl. rewrite !app_nil_r. split; [|done]. split; [done|]. lia.
    + rewrite orb_false_r in H. destruct (isinstance e TLPViolation) eqn:Ht; [|done].
      injection H as <-. exists [(false, x :: b)].
      unfold makes_offers, tlp_reason. rewrite batch_of_dset, decide_True, Hb by done.
      simpl app. rewrite published_inc, total_inc_eq, total_inc_ne by done.
      unfold offered. simpl. rewrite !app_nil_r. split; [split; [done|]; lia|]. split; [done|]. intros Hn. by apply Hn in Hpub; rewrite Ht in Hpub.
  - split; [|by intros ->]. exists []. split; [by eapply offers_other|].
    split; [|done]. by rewrite batch_of_dset, decide_False, app_nil_r.
Qed.

Lemma append_step st x q es st' :
  q ∈ publishers → publish_append ctx batch_size st x q = (es, Ok st') →
  offers_step st es st' (if decide (pub_name q = nm) then [x] else []).
Proof.
  intros Hq H. set (st1 := PublishState (b_calls st)
    (dset (batches st) (pub_name q) (batch_of st (pub_name q) ++ [x]))).
  assert (offers_step st [] st1 (if decide (pub_name q = nm) then [x] else [])) as Happ.
  { exists []. split; [done|]. split; [|done]. unfold st1. rewrite batch_of_dset. simpl.
    case_decide as E; [by rewrite E|by rewrite app_nil_r]. }
  unfold publish_append in H. fold st1 in H. destruct (_ <=? _)%Z.
  - apply flush_step in H as [H _]; [|done].
    rewrite <- (app_nil_r (if decide _ then _ else _)). by eapply (offers_step_trans _ []).
  - by injection H as <- <-.
Qed.

(** Over all publishers, [p] takes part once. *)
Lemma fold_append_step ps x : ∀ st es st',
  NoDup (pub_name <$> ps) → (∀ q, q ∈ ps → q ∈ publishers) →
  fold_publishers (λ st, publish_append ctx batch_size st x) ps st = (es, Ok st') →
  offers_step st es st' (if decide (nm ∈ pub_name <$> ps) then [x] else []).
Proof.
  induction ps as [|q ps IH]; intros st es st' Hnd Hin H.
  - injection H as <- <-. apply offers_step_refl.
  - cbn [fold_publishers] in H. apply W_bind_Ok in H as (es1 & st1 & es2 & H1 & H2 & ->).
    apply append_step in H1; [|by apply Hin; left].
    cbn [fmap list_fmap] in Hnd. apply NoDup_cons in Hnd as [Hq Hnd].
    apply IH in H2; [|done|by intros; apply Hin; right].
    pose proof (offers_step_trans _ _ _ _ _ _ _ H1 H2) as H.
    destruct (decide (pub_name q = nm)) as [E|E].
    + rewrite E in Hq. rewrite (decide_False (P:=nm ∈ pub_name <$> ps)) in H by done.
      rewrite decide_True by (rewrite fmap_cons, E; by left). exact H.
    + destruct (decide (nm ∈ pub_name <$> ps)).
      * rewrite decide_True by (rewrite fmap_cons; by right). exact H.
      * rewrite decide_False by (rewrite fmap_cons, not_elem_of_cons; auto). exact H.
Qed.

Lemma fold_flush_step ps : ∀ st es st',
  (∀ q, q ∈ ps → q ∈ publishers) →
  fold_publishers (publish_flush ctx) ps st = (es, Ok st') →
  offers_step st es st' [] ∧ (p ∈ ps ∨ batch_of st nm = [] → batch_of st' nm = []).
Proof.
  induction ps as [|q ps IH]; intros st es st' Hin H.
  - injection H as <- <-. split; [apply offers_step_refl|]. intros [?|?]; [set_solver|done].
  - cbn [fold_publishers] in H. apply W_bind_Ok in H as (es1 & st1 & es2 & H1 & H2 & ->).
    apply flush_step in H1 as [H1 Hb1]; [|by apply Hin; left].
    apply IH in H2 as [H2 Hb2]; [|by intros; apply Hin; right].
    split; [by apply (offers_step_trans _ _ _ _ _ [] [] H1 H2)|].
    intros [[->|H]%elem_of_cons|H]; apply Hb2; [right; by apply Hb1|by left|right].
    destruct H1 as (os & _ & E & _). rewrite H in E. by apply app_eq_nil in E as [_ ?].
Qed.

Lemma publish_items_step xs : ∀ st es st',
  run_items (run_publish publishers ctx batch_size) st (MPair <$> xs) = (es, Ok st') →
  offers_step st es st' xs.
Proof.
  induction xs as [|x xs IH]; intros st es st' H.
  - injection H as <- <-. apply offers_step_refl.
  - cbn [fmap list_fmap run_items] in H. apply W_bind_Ok in H as (es1 & st1 & es2 & H1 & H2 & ->).
    apply IH in H2. apply (offers_step_trans st es1 st1 es2 st' [x] xs); [|done].
    change (st_item (run_publish publishers ctx batch_size) st (MPair x))
      with (publish_item publishers ctx batch_size st (MPair x)) in H1.
    assert (publish_item publishers ctx batch_size st (MPair x)
            = fold_publishers (λ st, publish_append ctx batch_size st x) publishers st) as E
      by (clear - Hp; unfold publish_item; destruct publishers; [set_solver|done]).
    rewrite E in H1. apply fold_append_step in H1; [|done..].
    rewrite decide_True in H1; [done|]. by apply list_elem_of_fmap_2.
Qed.

Lemma publish_run_offers xs es :
  run_stage (run_publish publishers ctx batch_size) (MPair <$> xs) = (es, Ok tt) →
  ∃ os, makes_offers nm os es ∧ offered os = xs ∧ (never_refuses → refused os = []).
Proof.
  unfold run_stage. intros (es1 & st1 & es2 & H1 & H2 & ->)%W_bind_Ok.
  apply publish_items_step in H1.
  change (st_end (run_publish publishers ctx batch_size) st1)
    with (publish_end publishers ctx st1) in H2.
  unfold publish_end in H2. apply W_bind_Ok in H2 as (es3 & st2 & es4 & H3 & [= <-] & ->).
  rewrite app_nil_r. apply fold_flush_step in H3 as [H3 Hb]; [|done].
  pose proof (offers_step_trans _ _ _ _ _ _ _ H1 H3) as (os & M & O & N).
  exists os. split; [done|]. split; [|done].
  rewrite Hb, !app_nil_r in O by (by left). rewrite O.
  assert (batch_of (st_init (run_publish publishers ctx batch_size)) nm = []) as ->; [|done].
  unfold batch_of. simpl. clear. unfold dict, dupdate.
  assert (∀ d, (default [] (dget d nm) : list pair) = [] →
    default [] (dget (fold_left (λ d kv, dset d kv.1 kv.2)
      (map (λ q, (pub_name q, [])) publishers) d) nm) = ([] : list pair)) as H; [|by apply H].
  induction publishers as [|q ps IH]; intros d Hd; [done|]. simpl. apply IH.
  rewrite dget_dset. by case_decide.
Qed.
End publish_facts.

(** What the publish stage did for the publisher [p], given the pairs [xs]. *)
Definition fanned_out (ctx : RunContext) (p : Publisher) (xs : list pair) (es : list effect) : Prop :=
  concat (published (pub_name p) es) `sublist_of` xs ∧
  (total (RECORDS_OUT (pub_name p)) es + total (DROPPED ("tlp:" +:+ pub_name p)) es
   = Z.of_nat (length xs))%Z ∧
  (never_refuses ctx p → concat (published (pub_name p) es) = xs).

Lemma publish_fanned_out publishers ctx batch_size p xs es :
  NoDup (pub_name <$> publishers) → p ∈ publishers →
  run_stage (run_publish publishers ctx batch_size) (MPair <$> xs) = (es, Ok tt) →
  fanned_out ctx p xs es.
Proof.
  intros Hnd Hp H.
  destruct (publish_run_offers publishers ctx batch_size p Hnd Hp xs es H)
    as (os & (P & R & D) & <- & N).
  unfold fanned_out. fold (tlp_reason (pub_name p)). rewrite P, R, D. split; [apply offered_accepted|].
  pose proof (offered_length os) as Hl. split; [lia|]. intros Hn. specialize (N Hn).
  by rewrite refused_nil.
Qed.

(** C12: every downstream publisher is offered every pair.  When the publishers
    have distinct names and the publish stage ends normally, each publisher was
    offered every pair of the input exactly once and in order: the batches it
    accepted hold a subsequence of the input, the counters of accepted and of
    TLP-dropped records add up to the size of the input, and a publisher that
    never refuses for TLP accepted exactly the input. *)
Theorem publish_fanout publishers ctx batch_size p xs es :
  NoDup (pub_name <$> publishers) → p ∈ publishers →
  run_stage (run_publish publishers ctx batch_size) (MPair <$> xs) = (es, Ok tt) →
  concat (published (pub_name p) es) `sublist_of` xs ∧
  (total (RECORDS_OUT (pub_name p)) es + total (DROPPED ("tlp:" +:+ pub_name p)) es
   = Z.of_nat (length xs))%Z ∧
  (never_refuses ctx p → concat (published (pub_name p) es) = xs).
Proof. apply publish_fanned_out. Qed.

(** Publishers that share a name share a batch.  With two publishers of one
    name and a batch size of two, a run that publishes one pair offers it twice
    to the second publisher and never to the first. *)
Theorem publish_duplicate_names n f g ctx x :
  let p := MkPublisher n f in let q := MkPublisher n g in
  run_stage (run_publish [p; q] ctx 2) [MPair x]
  = match g 0 [x; x] ctx with
    | Ok tt => ([Published n [x; x]; Inc (RECORDS_OUT n) 2], Ok tt)
    | Raise e => if isinstance e TLPViolation then ([Inc (DROPPED ("tlp:" +:+ n)) 2], Ok tt)
                 else ([], Raise e)
    end.
Proof.
  intros p q. unfold run_stage, run_publish, publish_item, publish_end, publish_append,
    publish_flush, batch_of, dict, dupdate.
  unfold mbind, W_bind, mret, W_ret. simpl. repeat (rewrite String.eqb_refl; simpl).
  destruct (g 0 [x; x] ctx) as [[]|e]; simpl; rewrite ?orb_false_r;
    [|destruct (isinstance e TLPViolation)]; simpl;
    repeat (rewrite String.eqb_refl; simpl); done.
Qed.
