(* ===== verification/StageFacts.v ===== *)
(** The fetch, parse, enrich and dedup stages, and concrete runs of the
    persist and publish stages. *)

From S2P Require Import Prelude Errors PyStr PyDict PyVal Uuid Enums Models Effects Stages.
From S2P Require Import PersistFacts PublishFacts.

(** ** Fetch: archive first *)

(** Every payload put on the queue was archived just before, under the context
    the archive saw, and the context carries its address from then on. *)
Inductive fetch_trace (a : RawArchive) : list effect → Prop :=
  | ft_end ctx : fetch_trace a [SetCtx ctx]
  | ft_stop ctx p : fetch_trace a
      [SetCtx ctx; Inc FETCH_BYTES (Z.of_nat (length (body p))); Inc (RECORDS_IN "fetch") 1]
  | ft_payload ctx p uri es :
      archive_put a ctx p = Ok uri → fetch_trace a es →
      fetch_trace a
        ([SetCtx ctx; Inc FETCH_BYTES (Z.of_nat (length (body p))); Inc (RECORDS_IN "fetch") 1;
          Archived uri; SetCtx (with_raw_uri ctx (Some uri)); Put (MPayload p)] ++ es).

Lemma fetch_loop_trace a g es r :
  fetch_loop (Some a) g = (es, r) → fetch_trace a es.
Proof.
  revert es r. induction g as [p ctx k IH|ctx|ctx e]; intros es r; simpl.
  - destruct (archive_put a ctx p) as [uri|e] eqn:E; simpl.
    + destruct (fetch_loop (Some a) (k (with_raw_uri ctx (Some uri)))) as [es' r'] eqn:Ek.
      intros [= <- <-]. by eapply (ft_payload a ctx p uri es'), IH.
    + intros [= <- <-]. apply ft_stop.
  - intros [= <- <-]. constructor.
  - intros [= <- <-]. constructor.
Qed.

(** ** Parse *)

(** A synchronous parser that raises contributes no record of the payload. *)
Lemma parse_sync_all_or_nothing parse_sync ctx p e :
  parse_sync p ctx = Raise e →
  run_stage (run_parse (MkParser (SyncParser_parse parse_sync)) ctx) [MPayload p]
  = (if isinstance e PermanentError then [Inc PARSE_ERRORS 1] else [], Raise e).
Proof.
  intros E. unfold run_stage, run_parse, SyncParser_parse. simpl. rewrite E. simpl.
  rewrite orb_false_r. by destruct (isinstance e PermanentError).
Qed.

(** ** Dedup: advisory only *)

(** The Bloom filter is advisory.  Whatever the filter answers, and even if
    every command to it fails, the dedup stage forwards every indicator it
    receives, in order, and runs to the end. *)
Theorem dedup_forwards_everything bloom xs :
  (∀ b execute_command, bloom = Some b → bloom_redis b = Some execute_command →
     ∀ c k i, raises_only (execute_command c k i) [PyException]) →
  ∃ es, run_stage (run_dedup bloom) ((λ x, MIndicator x.1 x.2) <$> xs) = (es, Ok tt) ∧
        puts es = (λ x, MIndicator x.1 x.2) <$> xs.
Proof.
  intros Hb. assert (∀ b i, bloom = Some b → bloom_add b i = Ok tt) as Hadd.
  { intros b i Eb. unfold bloom_add. destruct (bloom_redis b) as [ex|] eqn:Er; [|done].
    pose proof (Hb b ex Eb Er "BF.ADD" (bloom_key b) i) as H. unfold try_except.
    destruct (ex "BF.ADD" (bloom_key b) i) as [v|e]; [done|]. cbn [mbind res_bind].
    by rewrite (H e eq_refl). }
  unfold run_stage. cut (∃ es, run_items (run_dedup bloom) tt
    ((λ x, MIndicator x.1 x.2) <$> xs) = (es, Ok tt) ∧
    puts es = (λ x, MIndicator x.1 x.2) <$> xs).
  { intros (es & E & P). exists es. change (st_init (run_dedup bloom)) with tt. rewrite E.
    unfold mbind, W_bind. simpl. by rewrite app_nil_r. }
  induction xs as [|[i raw] xs (es & E & P)]; [by exists []|].
  cbn [fmap list_fmap run_items].
  change (st_item (run_dedup bloom) tt (MIndicator (i, raw).1 (i, raw).2))
    with (dedup_item bloom (MIndicator i raw)).
  unfold dedup_item. destruct bloom as [b|].
  - rewrite (Hadd b) by done. unfold mbind, W_bind. simpl. rewrite E.
    eexists. split; [done|]. simpl. by rewrite P.
  - unfold mbind, W_bind. simpl. rewrite E. eexists. split; [done|]. simpl. by rewrite P.
Qed.

(** ** Enrich *)

(** What the chain makes of an item. *)
Definition enriched (enrichers : list Enricher) (ctx : RunContext) (x : Indicator * record)
    : option msg :=
  match enrich_chain enrichers ctx x.1 with
  | Ok (Some i) => Some (MIndicator i x.2)
  | _ => None
  end.

(** The enrich stage drops an indicator exactly when an enricher of the
    chain drops it.  When no enricher raises, the stage forwards in order what
    the chain returns, each with its record, and the drop counter and the
    forwarded indicators account for the whole input. *)
Theorem enrich_accounting enrichers ctx xs :
  (∀ x, x ∈ xs → is_ok (enrich_chain enrichers ctx x.1) = true) →
  ∃ es, run_stage (run_enrich enrichers ctx) ((λ x, MIndicator x.1 x.2) <$> xs) = (es, Ok tt) ∧
        puts es = omap (enriched enrichers ctx) xs ∧
        (Z.of_nat (length (puts es)) + total (DROPPED "enricher") es = Z.of_nat (length xs))%Z.
Proof.
  intros Hok. unfold run_stage. cut (∃ es, run_items (run_enrich enrichers ctx) tt
    ((λ x, MIndicator x.1 x.2) <$> xs) = (es, Ok tt) ∧
    puts es = omap (enriched enrichers ctx) xs ∧
    (Z.of_nat (length (puts es)) + total (DROPPED "enricher") es = Z.of_nat (length xs))%Z).
  { intros (es & E & P & T). exists es. change (st_init (run_enrich enrichers ctx)) with tt.
    rewrite E. unfold mbind, W_bind. simpl. by rewrite app_nil_r. }
  induction xs as [|[i raw] xs IH]; [by exists []|].
  destruct IH as (es & E & P & T); [by intros x Hx; apply Hok; right|].
  specialize (Hok (i, raw) ltac:(by left)). cbn [fmap list_fmap run_items].
  change (st_item (run_enrich enrichers ctx) tt (MIndicator (i, raw).1 (i, raw).2))
    with (enrich_item enrichers ctx (MIndicator i raw)).
  simpl fst in Hok. destruct (enrich_chain enrichers ctx i) as [[j|]|e] eqn:Ec; [| |done].
  - assert (enriched enrichers ctx (i, raw) = Some (MIndicator j raw)) as Hj
      by (unfold enriched; simpl; by rewrite Ec).
    assert (enrich_item enrichers ctx (MIndicator i raw) = ([Put (MIndicator j raw)], Ok tt)) as ->
      by (unfold enrich_item; by rewrite Ec).
    unfold mbind, W_bind. rewrite E. exists (Put (MIndicator j raw) :: es). split; [done|].
    cbn [omap list_omap]. rewrite Hj. change (puts (Put (MIndicator j raw) :: es))
      with (MIndicator j raw :: puts es). split; [by rewrite P|].
    change (total (DROPPED "enricher") (Put (MIndicator j raw) :: es))
      with (total (DROPPED "enricher") es). rewrite !length_cons. lia.
  - assert (enriched enrichers ctx (i, raw) = None) as Hj
      by (unfold enriched; simpl; by rewrite Ec).
    assert (enrich_item enrichers ctx (MIndicator i raw) = ([Inc (DROPPED "enricher") 1], Ok tt))
      as -> by (unfold enrich_item; by rewrite Ec).
    unfold mbind, W_bind. rewrite E. exists (Inc (DROPPED "enricher") 1 :: es).
    split; [done|]. cbn [omap list_omap]. rewrite Hj.
    change (puts (Inc (DROPPED "enricher") 1 :: es)) with (puts es). split; [by rewrite P|].
    rewrite total_inc_eq, length_cons. lia.
Qed.

(** The chain stops at the first enricher that drops. *)
Lemma enrich_chain_app es1 es2 ctx i :
  enrich_chain (es1 ++ es2) ctx i
  = (r ← enrich_chain es1 ctx i;
     match r with Some j => enrich_chain es2 ctx j | None => Ok None end).
Proof.
  revert i. induction es1 as [|e es1 IH]; intros i; [done|]. simpl.
  destruct (enrich e i ctx) as [[j|]|]; [apply IH|done|done].
Qed.

(** ** Concrete runs *)

Definition sample_ctx : RunContext := MkRunContext 1 "src" 0 "c" [] None [].

Definition sample_ind (n : Z) : Indicator :=
  MkIndicator (Z.to_N n) DOMAIN "example.com" None 50 INFO AMBER [] n n None None SCHEMA_VERSION.

(** A publisher that fails from its second call on. *)
Definition flaky : Publisher :=
  MkPublisher "postgres" (λ n _ _, if decide (n = 0) then Ok tt
                                   else raise TransientError "connection lost").

Definition sample_items : list msg := (λ n, MIndicator (sample_ind n) []) <$> [1; 2; 3; 4]%Z.

(** Four indicators in batches of two: the second batch is lost with the
    exception, the first is published and forwarded. *)
Lemma persist_fence_witness :
  ∃ es e, run_stage (run_persist flaky sample_ctx 2 Z.of_nat) sample_items = (es, Raise e) ∧
          length (puts es) = 2 ∧ puts es = MPair <$> concat (published "postgres" es).
Proof.
  destruct (run_stage (run_persist flaky sample_ctx 2 Z.of_nat) sample_items) as [es r] eqn:E.
  destruct (persist_fence flaky sample_ctx 2 Z.of_nat sample_items es r E) as (_ & HP & _).
  vm_compute in E. injection E as <- <-. eexists _, _. split; [reflexivity|].
  split; [reflexivity|exact HP].
Defined.

Definition sample_pairs : list pair := pairs_of sample_ctx Z.of_nat 0 sample_items.

Definition tlp_strict : Publisher :=
  MkPublisher "kafka" (λ n _ _, if decide (n = 1) then raise TLPViolation "red" else Ok tt).
Definition accept_all : Publisher := MkPublisher "webhook" (λ _ _ _, Ok tt).

Lemma publish_fanout_witness :
  ∃ es, run_stage (run_publish [accept_all; tlp_strict] sample_ctx 3) (MPair <$> sample_pairs)
        = (es, Ok tt) ∧
        concat (published "webhook" es) = sample_pairs ∧
        total (RECORDS_OUT "kafka") es = 1%Z ∧ total (DROPPED "tlp:kafka") es = 3%Z.
Proof.
  assert (NoDup (pub_name <$> [accept_all; tlp_strict])) as Hnd
    by (repeat constructor; set_solver).
  destruct (run_stage (run_publish [accept_all; tlp_strict] sample_ctx 3) (MPair <$> sample_pairs))
    as [es r] eqn:E.
  assert (r = Ok tt) as -> by (vm_compute in E; injection E as _ <-; reflexivity).
  destruct (publish_fanout [accept_all; tlp_strict] sample_ctx 3 accept_all sample_pairs es Hnd
              ltac:(left) E) as (_ & _ & Hall).
  exists es. split; [reflexivity|]. split; [apply Hall; intros n b e; discriminate|].
  vm_compute in E. injection E as <-. split; reflexivity.
Defined.

(** A filter whose server is down. *)
Definition bloom_down : BloomCache :=
  MkBloomCache (Some (λ _ _ _, raise OSError "connection refused")) "cti:bloom:run".

Lemma dedup_forwards_everything_witness :
  ∃ es, run_stage (run_dedup (Some bloom_down)) sample_items = (es, Ok tt) ∧ puts es = sample_items.
Proof.
  destruct (dedup_forwards_everything (Some bloom_down)
              ((λ n, (sample_ind n, [])) <$> [1; 2; 3; 4]%Z)) as (es & E & P).
  - intros b ex [= <-] [= <-] c k i e [= <-]. reflexivity.
  - exists es. split; [exact E|exact P].
Defined.

Definition drop_even : Enricher :=
  MkEnricher (λ i _, Ok (if N.even (ind_id i) then None else Some i)).

Lemma enrich_accounting_witness :
  ∃ es, run_stage (run_enrich [drop_even; drop_even] sample_ctx) sample_items = (es, Ok tt) ∧
        length (puts es) = 2 ∧ total (DROPPED "enricher") es = 2%Z.
Proof.
  destruct (enrich_accounting [drop_even; drop_even] sample_ctx
              ((λ n, (sample_ind n, [])) <$> [1; 2; 3; 4]%Z)) as (es & E & P & T).
  - intros x Hx. simpl. destruct (N.even (ind_id x.1)) eqn:Ev; [reflexivity|].
    simpl. rewrite Ev. reflexivity.
  - exists es. split; [exact E|]. rewrite P in T |- *. split; [reflexivity|].
    vm_compute (length _) in T. lia.
Defined.
