(* ===== verification/Queue.v ===== *)
(** [core/queue.py]: the bounded queue between two stages.

    The model is the state after each call of the underlying [asyncio.Queue]
    that does not have to wait; a call that has to wait is [None] and is made
    again when the task runs next. *)

From S2P Require Import Prelude Errors Effects.

Definition DEFAULT_MAXSIZE : Z := 1000.

(** [None] among the items is the sentinel; [q_depth] is the gauge. *)
Record StageQueue := MkStageQueue {
  q_name : string;
  q_maxsize : Z;
  q_items : list (option msg);
  q_closed : bool;
  q_depth : Z
}.

Definition new_StageQueue (name : string) (maxsize : Z) : StageQueue :=
  MkStageQueue name maxsize [] false 0.

Definition qsize (q : StageQueue) : Z := Z.of_nat (length (q_items q)).

(** [asyncio.Queue.full]: a size that is not positive is no bound. *)
Definition full (q : StageQueue) : bool := (0 <? q_maxsize q)%Z && (q_maxsize q <=? qsize q)%Z.

Definition record_depth (q : StageQueue) : StageQueue :=
  MkStageQueue (q_name q) (q_maxsize q) (q_items q) (q_closed q) (qsize q).

Definition with_items (q : StageQueue) (its : list (option msg)) : StageQueue :=
  MkStageQueue (q_name q) (q_maxsize q) its (q_closed q) (q_depth q).

(** [self._q.put(item)]. *)
Definition raw_put (item : option msg) (q : StageQueue) : option StageQueue :=
  if full q then None else Some (with_items q (q_items q ++ [item])).

(** [put(item)]. *)
Definition q_put (m : msg) (q : StageQueue) : option StageQueue :=
  record_depth <$> raw_put (Some m) q.

(** [close()] up to its wait: [None] when the queue is already closed. *)
Definition begin_close (q : StageQueue) : option StageQueue :=
  if q_closed q then None
  else Some (MkStageQueue (q_name q) (q_maxsize q) (q_items q) true (q_depth q)).

(** The wait of [close()]: the sentinel goes last, the gauge is not set. *)
Definition end_close (q : StageQueue) : option StageQueue := raw_put None q.

(** [get()], and so [__anext__]: a message, or [None] for the sentinel. *)
Definition q_get (q : StageQueue) : option (option msg * StageQueue) :=
  match q_items q with
  | [] => None
  | item :: its => Some (item, record_depth (with_items q its))
  end.

(** ** The queue is a bounded FIFO *)

(** The messages in the queue, oldest first. *)
Definition pending (q : StageQueue) : list msg := omap id (q_items q).

Definition bounded (q : StageQueue) : Prop := (0 < q_maxsize q → qsize q <= q_maxsize q)%Z.

Lemma pending_put m q q' : q_put m q = Some q' → pending q' = pending q ++ [m].
Proof.
  unfold q_put, raw_put. destruct (full q); [done|]. intros [= <-].
  unfold pending. simpl. by rewrite omap_app.
Qed.

Lemma pending_close q q' : end_close q = Some q' → pending q' = pending q.
Proof.
  unfold end_close, raw_put. destruct (full q); [done|]. intros [= <-].
  unfold pending. simpl. by rewrite omap_app, app_nil_r.
Qed.

Lemma pending_get item q q' :
  q_get q = Some (item, q') → pending q = option_list item ++ pending q'.
Proof.
  unfold q_get, pending. destruct (q_items q) as [|it its]; [done|]. intros [= <- <-].
  by destruct it.
Qed.

Lemma bounded_raw_put it q q' : raw_put it q = Some q' → bounded q → bounded q'.
Proof.
  unfold raw_put, full. destruct (_ && _) eqn:E; [done|]. intros [= <-] _ Hpos.
  unfold qsize in *. simpl in *. rewrite length_app. simpl.
  apply andb_false_iff in E as [E|E]; bool_to_prop; lia.
Qed.

Lemma bounded_record_depth q : bounded (record_depth q) ↔ bounded q.
Proof. done. Qed.

Lemma bounded_get item q q' : q_get q = Some (item, q') → bounded q → bounded q'.
Proof.
  unfold q_get. destruct (q_items q) as [|it its] eqn:E; [done|]. intros [= _ <-].
  unfold bounded, qsize. rewrite E. simpl. intros H Hpos. specialize (H Hpos). lia.
Qed.

Lemma full_nonempty q : full q = true → q_items q ≠ [].
Proof.
  unfold full, qsize. intros H E. bool_to_prop. rewrite E in *. simpl in *. lia.
Qed.

(** The gauge is the size of the queue after every [put] and every [get]. *)
Lemma depth_put m q q' : q_put m q = Some q' → q_depth q' = qsize q'.
Proof. unfold q_put, raw_put. destruct (full q); [done|]. by intros [= <-]. Qed.
Lemma depth_get item q q' : q_get q = Some (item, q') → q_depth q' = qsize q'.
Proof. unfold q_get. destruct (q_items q); [done|]. by intros [= _ <-]. Qed.
