(* ===== verification/Network.v ===== *)
(** The concurrent execution of a chain of stages: [core/pipeline.py] runs one
    task per stage in an [asyncio.TaskGroup], joined by [StageQueue]s.

    One step lets one task make one effect or one queue operation.  Tasks are
    interleaved arbitrarily, which includes every interleaving of the event
    loop (it switches only where a task really waits).  A cancellation is
    delivered when the cancelled task runs next. *)

From S2P Require Import Prelude Errors Effects Queue.

(** ** Processes: a stage as its reactions to what it has read *)

(** The effects of a reaction and the exception it ends with, if any. *)
Abbreviation script := (list effect * option exn)%type.

Record process := Process {
  on_item : list msg → msg → script;
  on_end : list msg → script
}.

Definition exn_of {A} (r : res A) : option exn :=
  match r with Ok _ => None | Raise e => Some e end.

Definition process_of {St} (s : stage St) : process :=
  Process
    (λ h m, match run_items s (st_init s) h with
            | (_, Ok st) => let '(es, r) := st_item s st m in (es, exn_of r)
            | _ => ([], None)
            end)
    (λ h, match run_items s (st_init s) h with
          | (_, Ok st) => let '(es, r) := st_end s st in (es, exn_of r)
          | _ => ([], None)
          end).

(** A process without an input: the fetch stage. *)
Definition source_of {A} (w : W A) : process :=
  Process (λ _ _, ([], None)) (λ _, (w.1, exn_of w.2)).

(** ** Tasks *)

Inductive outcome := Finished | Failed (e : exn) | Cancelled.

(** How a task ends whose body raised: with a [CancelledError], its own or one
    that was delivered to it, it counts as cancelled. *)
Definition outcome_of (e : exn) : outcome := if isinstance e CancelledError then Cancelled else Failed e.

(** What follows the effects of a script. *)
Inductive after := ANext | AEnd | ARaise (e : exn).

Inductive control :=
  | CGet                                   (** in [inq.get()] *)
  | CRun (es : list effect) (k : after)    (** [es] is still to be made *)
  | CClose (o : outcome)                   (** in the wait of [out.close()] *)
  | CDone (o : outcome).

Record task := Task {
  t_proc : process;
  t_finally : bool;      (** the close is in a [finally] *)
  t_hist : list msg;     (** the items read *)
  t_ctl : control;
  t_cancel : bool        (** a cancellation is to be delivered *)
}.

Record net := Net {
  tasks : list task;
  queues : list StageQueue;     (** queue [i] joins task [i] to task [S i] *)
  log : list (nat * effect);
  errors : list exn;
  aborting : bool
}.

Definition with_ctl (t : task) (c : control) : task :=
  Task (t_proc t) (t_finally t) (t_hist t) c (t_cancel t).
Definition with_cancel (t : task) (b : bool) : task :=
  Task (t_proc t) (t_finally t) (t_hist t) (t_ctl t) b.
Definition with_read (t : task) (m : msg) (c : control) : task :=
  Task (t_proc t) (t_finally t) (t_hist t ++ [m]) c (t_cancel t).

Definition is_done (t : task) : bool := match t_ctl t with CDone _ => true | _ => false end.

Definition set_task (i : nat) (t : task) (n : net) : net :=
  Net (<[i := t]> (tasks n)) (queues n) (log n) (errors n) (aborting n).
Definition set_queue (i : nat) (q : StageQueue) (n : net) : net :=
  Net (tasks n) (<[i := q]> (queues n)) (log n) (errors n) (aborting n).
Definition add_log (i : nat) (e : effect) (n : net) : net :=
  Net (tasks n) (queues n) (log n ++ [(i, e)]) (errors n) (aborting n).

(** ** The task group *)

(** [TaskGroup._abort]: cancel the tasks that are not done. *)
Definition abort (n : net) : net :=
  Net ((λ t, if is_done t then t else with_cancel t true) <$> tasks n)
    (queues n) (log n) (errors n) true.

(** [TaskGroup._on_task_done]: a task that was cancelled, be it by an error of its
    own, is no reason to abort. *)
Definition finish (i : nat) (t : task) (o : outcome) (n : net) : net :=
  let n := set_task i (with_ctl t (CDone o)) n in
  match o with
  | Failed e =>
      let n' := Net (tasks n) (queues n) (log n) (errors n ++ [e]) (aborting n) in
      if aborting n then n' else abort n'
  | _ => n
  end.

(** The call of [out.close()], if the task has an output. *)
Definition enter_close (i : nat) (t : task) (o : outcome) (n : net) : net :=
  match queues n !! i with
  | None => finish i t o n
  | Some q =>
      match begin_close q with
      | None => finish i t o n
      | Some q => set_task i (with_ctl t (CClose o)) (set_queue i q n)
      end
  end.

(** The body raised: the [finally] clause, if there is one, runs. *)
Definition unwind (i : nat) (t : task) (o : outcome) (n : net) : net :=
  if t_finally t then enter_close i t o n else finish i t o n.

Definition start (s : script) (k : after) : control :=
  CRun s.1 (match s.2 with None => k | Some e => ARaise e end).

(** The queue a task reads from. *)
Definition input (i : nat) (n : net) : option StageQueue :=
  match i with O => None | S j => queues n !! j end.

(** One step of task [i]; [None] when it waits or is done. *)
Definition exec (i : nat) (n : net) : option net :=
  t ← tasks n !! i;
  if t_cancel t then
    let t := with_cancel t false in
    match t_ctl t with
    | CDone _ => None
    | CClose _ => Some (finish i t Cancelled n)
    | _ => Some (unwind i t Cancelled n)
    end
  else
    match t_ctl t with
    | CDone _ => None
    | CGet =>
        q ← input i n;
        '(item, q) ← q_get q;
        let n := set_queue (pred i) q n in
        match item with
        | Some m => Some (set_task i (with_read t m (start (on_item (t_proc t) (t_hist t) m) ANext)) n)
        | None => Some (set_task i (with_ctl t (start (on_end (t_proc t) (t_hist t)) AEnd)) n)
        end
    | CRun (Put m :: es) k =>
        q ← queues n !! i;
        q ← q_put m q;
        Some (add_log i (Put m) (set_task i (with_ctl t (CRun es k)) (set_queue i q n)))
    | CRun (e :: es) k => Some (add_log i e (set_task i (with_ctl t (CRun es k)) n))
    | CRun [] ANext => Some (set_task i (with_ctl t CGet) n)
    | CRun [] AEnd => Some (enter_close i t Finished n)
    | CRun [] (ARaise e) => Some (unwind i t (outcome_of e) n)
    | CClose o =>
        q ← queues n !! i;
        q ← end_close q;
        Some (finish i t o (set_queue i q n))
    end.

Definition step (n n' : net) : Prop := ∃ i, exec i n = Some n'.

(** A schedule names the task that runs next; tasks that wait are passed over. *)
Fixpoint run_schedule (sched : list nat) (n : net) : net :=
  match sched with
  | [] => n
  | i :: sched => run_schedule sched (default n (exec i n))
  end.

(** No task can run. *)
Definition stuck (n : net) : Prop := ∀ i, exec i n = None.

Definition all_done (n : net) : Prop := Forall (λ t, is_done t = true) (tasks n).

(** ** Initial states *)

(** The first task runs its only script, the others wait for their input. *)
Definition initial (src : process) (ps : list process) (qs : list StageQueue) : net :=
  Net (Task src false [] (start (on_end src []) AEnd) false ::
       ((λ p, Task p true [] CGet false) <$> ps))
    qs [] [] false.

(** The effects that task [i] made. *)
Definition trace_of (i : nat) (l : list (nat * effect)) : list effect :=
  omap (λ x : nat * effect, if decide (x.1 = i) then Some x.2 else None) l.
Definition trace (i : nat) (n : net) : list effect := trace_of i (log n).
