(* ===== verification/NetworkFacts.v ===== *)
(** Safety of the concurrent execution: in every reachable state, failures and
    cancellations included, each task has made a prefix of the effects of its
    stage on what it has read, and what it has read is a prefix of what its
    producer has put. *)

From S2P Require Import Prelude Errors Effects Queue Network.

(** ** The effects of a process on an input *)

Fixpoint scripts_from (p : process) (pre h : list msg) : list effect :=
  match h with
  | [] => []
  | m :: h => (on_item p pre m).1 ++ scripts_from p (pre ++ [m]) h
  end.

Definition scripts (p : process) (h : list msg) : list effect := scripts_from p [] h.

(** All effects, the end of the input included. *)
Definition effects_of (p : process) (h : list msg) : list effect := scripts p h ++ (on_end p h).1.

Lemma scripts_from_app p pre h k :
  scripts_from p pre (h ++ k) = scripts_from p pre h ++ scripts_from p (pre ++ h) k.
Proof.
  revert pre. induction h as [|m h IH]; intros pre; simpl; [by rewrite app_nil_r|].
  by rewrite IH, <- !app_assoc.
Qed.

Lemma scripts_snoc p h m : scripts p (h ++ [m]) = scripts p h ++ (on_item p h m).1.
Proof. unfold scripts. rewrite scripts_from_app. simpl. by rewrite app_nil_r. Qed.

Lemma scripts_prefix p h l : h `prefix_of` l → scripts p h `prefix_of` scripts p l.
Proof. intros [k ->]. unfold scripts. rewrite scripts_from_app. by eexists. Qed.

(** For a stage these are the effects of running it on the input. *)
Lemma scripts_process_of {St} (s : stage St) h :
  scripts (process_of s) h = (run_items s (st_init s) h).1.
Proof.
  induction h as [|m h IH] using rev_ind; [done|].
  rewrite scripts_snoc, IH, run_items_app. cbn [process_of on_item].
  destruct (run_items s (st_init s) h) as [es [st|e]]; simpl.
  - destruct (st_item s st m) as [es' [st'|e]]; simpl; by rewrite ?app_nil_r.
  - by rewrite app_nil_r.
Qed.

Lemma effects_process_of {St} (s : stage St) h :
  effects_of (process_of s) h = (run_stage s h).1.
Proof.
  unfold effects_of, run_stage. rewrite scripts_process_of. cbn [process_of on_end].
  destruct (run_items s (st_init s) h) as [es [st|e]]; simpl; [|by rewrite app_nil_r].
  by destruct (st_end s st) as [es' r].
Qed.

Lemma effects_source_of {A} (w : W A) : effects_of (source_of w) [] = w.1.
Proof. done. Qed.

(** ** Traces *)

Lemma trace_of_snoc i l j e :
  trace_of i (l ++ [(j, e)]) = trace_of i l ++ (if decide (j = i) then [e] else []).
Proof. unfold trace_of. rewrite omap_app. simpl. by case_decide. Qed.

(** ** The invariant *)

(** The effects a task has made, against its control state. *)
Definition task_ok (p : process) (h : list msg) (c : control) (tr : list effect) : Prop :=
  match c with
  | CGet => tr = scripts p h
  | CRun es ANext => tr ++ es = scripts p h
  | CRun es AEnd => tr ++ es = effects_of p h
  | CRun es (ARaise e) => tr ++ es `prefix_of` effects_of p h
  | CClose o | CDone o => tr `prefix_of` effects_of p h ∧ (o = Finished → tr = effects_of p h)
  end.

Lemma task_ok_prefix p h c tr : task_ok p h c tr → tr `prefix_of` effects_of p h.
Proof.
  assert (∀ tr es : list effect, tr `prefix_of` tr ++ es) as Hp by (intros; by eexists).
  assert (scripts p h `prefix_of` effects_of p h) as Hs by (by eexists).
  destruct c as [|es [| |e]|o|o]; simpl.
  - by intros ->.
  - intros E. rewrite <- E in Hs. etrans; [apply Hp|done].
  - intros <-. apply Hp.
  - intros H. etrans; [apply Hp|done].
  - by intros [].
  - by intros [].
Qed.

Record wf (ps : list process) (n : net) : Prop := {
  wf_tasks : length (tasks n) = length ps;
  wf_queues : S (length (queues n)) = length ps;
  wf_task i t p : tasks n !! i = Some t → ps !! i = Some p →
    t_proc t = p ∧ task_ok p (t_hist t) (t_ctl t) (trace i n);
  wf_link i q t : queues n !! i = Some q → tasks n !! S i = Some t →
    puts (trace i n) = t_hist t ++ pending q;
  wf_bound i q : queues n !! i = Some q → bounded q
}.

Section wf.
Context (ps : list process).
Abbreviation wf := (wf ps).

Lemma wf_proc n i t : wf n → tasks n !! i = Some t → ∃ p, ps !! i = Some p ∧ t_proc t = p.
Proof.
  intros Hwf Ht. assert (i < length ps) as Hi.
  { rewrite <- (wf_tasks _ _ Hwf). by eapply lookup_lt_Some. }
  apply lookup_lt_is_Some in Hi as [p Hp]. exists p. split; [done|]. by destruct (wf_task _ _ Hwf i t p Ht Hp).
Qed.

(** Changing the control state of a task. *)
Lemma wf_set_ctl n i t t' :
  wf n → tasks n !! i = Some t → t_proc t' = t_proc t → t_hist t' = t_hist t →
  task_ok (t_proc t) (t_hist t) (t_ctl t') (trace i n) → wf (set_task i t' n).
Proof.
  intros Hwf Ht Hp Hh Hok. constructor; simpl.
  - rewrite length_insert. apply Hwf.
  - apply Hwf.
  - intros j u p Hu Hps. apply list_lookup_insert_Some in Hu as [(<- & <- & _)|[Hne Hu]];
      [|by apply (wf_task _ _ Hwf)].
    destruct (wf_task _ _ Hwf i t p Ht Hps) as [<- _]. rewrite Hh. split; [done|exact Hok].
  - intros j q u Hq Hu. apply list_lookup_insert_Some in Hu as [(E & <- & _)|[Hne Hu]];
      [|by apply (wf_link _ _ Hwf)].
    rewrite Hh. subst i. by apply (wf_link _ _ Hwf).
  - apply Hwf.
Qed.

(** Changing a queue without changing its messages. *)
Lemma wf_set_queue n i q q' :
  wf n → queues n !! i = Some q → pending q' = pending q → bounded q' → wf (set_queue i q' n).
Proof.
  intros Hwf Hq Hp Hb. constructor; simpl; [apply Hwf|rewrite length_insert; apply Hwf|apply Hwf| |].
  - intros j r t Hr Ht. apply list_lookup_insert_Some in Hr as [(<- & <- & _)|[Hne Hr]];
      [|by apply (wf_link _ _ Hwf)].
    rewrite Hp. by apply (wf_link _ _ Hwf).
  - intros j r Hr. apply list_lookup_insert_Some in Hr as [(<- & <- & _)|[Hne Hr]];
      [done|by apply (wf_bound _ _ Hwf j)].
Qed.

Lemma wf_abort n : wf n → wf (abort n).
Proof.
  intros Hwf. constructor; simpl; [rewrite length_fmap; apply Hwf|apply Hwf| | |apply Hwf].
  - intros i t p Ht Hp. rewrite list_lookup_fmap in Ht.
    destruct (tasks n !! i) as [t0|] eqn:E; [|done]. injection Ht as <-.
    destruct (wf_task _ _ Hwf i t0 p E Hp). by destruct (is_done t0).
  - intros i q t Hq Ht. rewrite list_lookup_fmap in Ht.
    destruct (tasks n !! S i) as [t0|] eqn:E; [|done]. injection Ht as <-.
    pose proof (wf_link _ _ Hwf i q t0 Hq E). by destruct (is_done t0).
Qed.

Lemma wf_errors n es b :
  wf n → wf (Net (tasks n) (queues n) (log n) es b).
Proof. intros [H1 H2 H3 H4 H5]. by constructor. Qed.

Lemma wf_finish n i t t0 o :
  wf n → tasks n !! i = Some t0 → t_proc t = t_proc t0 → t_hist t = t_hist t0 →
  task_ok (t_proc t0) (t_hist t0) (CDone o) (trace i n) → wf (finish i t o n).
Proof.
  intros Hwf Ht Hp Hh Hok. unfold finish.
  assert (wf (set_task i (with_ctl t (CDone o)) n)) as H by by eapply wf_set_ctl.
  destruct o; try done. case_match; [by apply wf_errors|].
  by apply wf_abort, wf_errors.
Qed.

Lemma wf_enter_close n i t t0 o :
  wf n → tasks n !! i = Some t0 → t_proc t = t_proc t0 → t_hist t = t_hist t0 →
  task_ok (t_proc t0) (t_hist t0) (CDone o) (trace i n) → wf (enter_close i t o n).
Proof.
  intros Hwf Ht Hp Hh Hok. unfold enter_close.
  destruct (queues n !! i) as [q|] eqn:Hq; [|by eapply wf_finish].
  unfold begin_close. destruct (q_closed q); [by eapply wf_finish|].
  eapply wf_set_ctl; [|done|done|done|done]. eapply wf_set_queue; [done|done|done|].
  by eapply wf_bound in Hq.
Qed.

Lemma wf_unwind n i t t0 o :
  wf n → tasks n !! i = Some t0 → t_proc t = t_proc t0 → t_hist t = t_hist t0 →
  task_ok (t_proc t0) (t_hist t0) (CDone o) (trace i n) → wf (unwind i t o n).
Proof.
  intros. unfold unwind. case_match; [by eapply wf_enter_close|by eapply wf_finish].
Qed.

(** Making an effect that is not a put. *)
Lemma wf_effect n i t e es k :
  wf n → tasks n !! i = Some t → t_ctl t = CRun (e :: es) k → puts [e] = [] →
  wf (add_log i e (set_task i (with_ctl t (CRun es k)) n)).
Proof.
  intros Hwf Ht Hc He. constructor; simpl; [rewrite length_insert; apply Hwf|apply Hwf| | |apply Hwf];
    unfold trace; simpl.
  - intros j u p Hu Hp. rewrite trace_of_snoc.
    apply list_lookup_insert_Some in Hu as [(-> & <- & _)|[Hne Hu]].
    + destruct (wf_task _ _ Hwf j t p Ht Hp) as [<- Hok]. split; [done|].
      rewrite decide_True by done. rewrite Hc in Hok. simpl in *.
      destruct k; by rewrite <- app_assoc.
    + rewrite decide_False, app_nil_r by done. by apply (wf_task _ _ Hwf).
  - intros j q u Hq Hu. rewrite trace_of_snoc, puts_app.
    assert (puts (if decide (i = j) then [e] else []) = []) as -> by (by case_decide).
    rewrite app_nil_r. apply list_lookup_insert_Some in Hu as [(E & <- & _)|[Hne Hu]].
    + subst i. by eapply (wf_link _ _ Hwf j q t).
    + by apply (wf_link _ _ Hwf).
Qed.

(** Putting a message on the output queue. *)
Lemma wf_put n i t m es k q q' :
  wf n → tasks n !! i = Some t → t_ctl t = CRun (Put m :: es) k →
  queues n !! i = Some q → q_put m q = Some q' →
  wf (add_log i (Put m) (set_task i (with_ctl t (CRun es k)) (set_queue i q' n))).
Proof.
  intros Hwf Ht Hc Hq Hput.
  constructor; simpl; [rewrite length_insert; apply Hwf|rewrite length_insert; apply Hwf| | |];
    unfold trace; simpl.
  - intros j u p Hu Hp. rewrite trace_of_snoc.
    apply list_lookup_insert_Some in Hu as [(-> & <- & _)|[Hne Hu]].
    + destruct (wf_task _ _ Hwf j t p Ht Hp) as [<- Hok]. split; [done|].
      rewrite decide_True by done. rewrite Hc in Hok. simpl in *.
      destruct k; by rewrite <- app_assoc.
    + rewrite decide_False, app_nil_r by done. by apply (wf_task _ _ Hwf).
  - intros j r u Hr Hu. rewrite trace_of_snoc, puts_app.
    assert (∃ u0, tasks n !! S j = Some u0 ∧ t_hist u0 = t_hist u) as (u0 & Hu0 & <-).
    { apply list_lookup_insert_Some in Hu as [(-> & <- & _)|[Hne Hu]]; eauto. }
    apply list_lookup_insert_Some in Hr as [(-> & <- & _)|[Hne Hr]].
    + rewrite decide_True by done. rewrite (pending_put _ _ _ Hput), app_assoc. simpl.
      f_equal. by apply (wf_link _ _ Hwf).
    + rewrite decide_False, app_nil_r by done. by apply (wf_link _ _ Hwf).
  - intros j r Hr. apply list_lookup_insert_Some in Hr as [(<- & <- & _)|[Hne Hr]];
      [|by apply (wf_bound _ _ Hwf j)].
    unfold q_put in Hput. destruct (raw_put (Some m) q) as [q0|] eqn:E; [|done].
    injection Hput as <-. apply bounded_record_depth. eapply bounded_raw_put; [done|].
    by eapply wf_bound.
Qed.

(** Reading from the input queue. *)
Lemma wf_read n i t t' item q q' :
  wf n → tasks n !! S i = Some t → queues n !! i = Some q → q_get q = Some (item, q') →
  t_proc t' = t_proc t → t_hist t' = t_hist t ++ option_list item →
  task_ok (t_proc t) (t_hist t') (t_ctl t') (trace (S i) n) →
  wf (set_task (S i) t' (set_queue i q' n)).
Proof.
  intros Hwf Ht Hq Hget Hp Hh Hok.
  constructor; simpl; [rewrite length_insert; apply Hwf|rewrite length_insert; apply Hwf| | |];
    unfold trace; simpl.
  - intros j u p Hu Hps. apply list_lookup_insert_Some in Hu as [(<- & <- & _)|[Hne Hu]];
      [|by apply (wf_task _ _ Hwf)].
    destruct (wf_task _ _ Hwf (S i) t p Ht Hps) as [<- _]. split; [done|exact Hok].
  - intros j r u Hr Hu. apply list_lookup_insert_Some in Hr as [(<- & <- & _)|[Hne Hr]].
    + apply list_lookup_insert_Some in Hu as [(_ & <- & _)|[Hne Hu]]; [|done].
      rewrite Hh, <- app_assoc, <- (pending_get _ _ _ Hget). by apply (wf_link _ _ Hwf).
    + apply list_lookup_insert_Some in Hu as [(E & <- & _)|[_ Hu]]; [congruence|].
      by apply (wf_link _ _ Hwf).
  - intros j r Hr. apply list_lookup_insert_Some in Hr as [(<- & <- & _)|[Hne Hr]];
      [|by apply (wf_bound _ _ Hwf j)].
    eapply bounded_get; [done|]. by eapply wf_bound.
Qed.

Lemma task_ok_start_item p h m tr :
  tr = scripts p h → task_ok p (h ++ [m]) (start (on_item p h m) ANext) tr.
Proof.
  intros ->. unfold start. destruct (on_item p h m).2; simpl;
    rewrite <- scripts_snoc; [|done]. unfold effects_of. by eexists.
Qed.

Lemma task_ok_start_end p h tr :
  tr = scripts p h → task_ok p h (start (on_end p h) AEnd) tr.
Proof. intros ->. unfold start, effects_of. by destruct (on_end p h).2; simpl. Qed.

Lemma outcome_of_raised e : outcome_of e ≠ Finished.
Proof. unfold outcome_of. by destruct (isinstance e CancelledError). Qed.

Lemma task_ok_weaken p h c tr o :
  o ≠ Finished → task_ok p h c tr → task_ok p h (CDone o) tr.
Proof. intros Ho H. split; [by eapply task_ok_prefix|done]. Qed.

(** Every step preserves the invariant. *)
Lemma wf_exec i n n' : wf n → exec i n = Some n' → wf n'.
Proof.
  intros Hwf H. unfold exec in H. destruct (tasks n !! i) as [t|] eqn:Ht; [|done]. simpl in H.
  destruct (wf_proc _ _ _ Hwf Ht) as (p & Hp & Hpt).
  destruct (wf_task _ _ Hwf i t p Ht Hp) as [_ Hok]. rewrite <- Hpt in Hok.
  destruct (t_cancel t).
  { destruct (t_ctl t) eqn:Hc; [| | |done]; injection H as <-.
    - eapply wf_unwind; try done. by eapply task_ok_weaken.
    - eapply wf_unwind; try done. by eapply task_ok_weaken.
    - apply (wf_finish n i (with_cancel t false) t Cancelled); try done.
      by eapply task_ok_weaken. }
  destruct (t_ctl t) as [|es k|o|o] eqn:Hc.
  - destruct i as [|i]; [done|]. simpl in H.
    destruct (queues n !! i) as [q|] eqn:Hq; [|done]. simpl in H.
    destruct (q_get q) as [[item q']|] eqn:Hget; [|done]. simpl in H.
    destruct item as [m|]; injection H as <-.
    + eapply (wf_read n i t); try done. simpl. rewrite <- Hpt in *. by apply task_ok_start_item.
    + eapply (wf_read n i t); try done; simpl; [by rewrite app_nil_r|]. by apply task_ok_start_end.
  - destruct es as [|e es].
    + simpl in Hok. destruct k as [| |e]; injection H as <-; rewrite app_nil_r in Hok.
      * by eapply wf_set_ctl.
      * eapply wf_enter_close; try done; (split; [by rewrite Hok|done]).
      * eapply wf_unwind; try done. split; [done|]. by intros ?%outcome_of_raised.
    + destruct e; try (injection H as <-; by eapply wf_effect).
      destruct (queues n !! i) as [q|] eqn:Hq; [|done]. simpl in H.
      destruct (q_put m q) as [q'|] eqn:Hput; [|done]. injection H as <-. by eapply wf_put.
  - destruct (queues n !! i) as [q|] eqn:Hq; [|done]. simpl in H.
    destruct (end_close q) as [q'|] eqn:He; [|done]. injection H as <-.
    eapply wf_finish; [eapply wf_set_queue; [done|done|by eapply pending_close|]|done..].
    eapply bounded_raw_put; [done|]. by eapply wf_bound.
  - done.
Qed.
End wf.

(** ** Reachable states *)

(** The states an execution can pass through. *)
Definition reachable (n n' : net) : Prop := rtc step n n'.

Lemma wf_reachable ps n n' : wf ps n → reachable n n' → wf ps n'.
Proof. intros Hwf. induction 1 as [|x y z [i H] _ IH]; [done|]. apply IH. by eapply wf_exec. Qed.

Lemma run_schedule_reachable sched n : reachable n (run_schedule sched n).
Proof.
  revert n. induction sched as [|i sched IH]; intros n; [apply rtc_refl|]. simpl.
  destruct (exec i n) as [n'|] eqn:E; [|apply IH]. simpl. eapply rtc_l; [by exists i|apply IH].
Qed.

(** Fresh queues. *)
Definition fresh (q : StageQueue) : Prop := q_items q = [] ∧ q_closed q = false.

Lemma wf_initial src ps qs :
  length qs = length ps → Forall fresh qs → wf (src :: ps) (initial src ps qs).
Proof.
  intros Hlen Hq. rewrite Forall_lookup in Hq. constructor; simpl.
  - by rewrite length_fmap.
  - by rewrite Hlen.
  - intros [|i] t p; simpl.
    + intros [= <-] [= <-]. split; [done|]. by apply (task_ok_start_end src [] []).
    + rewrite list_lookup_fmap. intros Ht Hp. rewrite Hp in Ht. simpl in Ht.
      by injection Ht as <-.
  - intros i q t Hqi Ht. destruct (Hq _ _ Hqi) as [Hi _]. unfold pending. rewrite Hi.
    rewrite list_lookup_fmap in Ht. destruct (ps !! i); [|done]. by injection Ht as <-.
  - intros i q Hqi Hpos. destruct (Hq _ _ Hqi) as [Hi _]. unfold qsize. rewrite Hi. simpl. lia.
Qed.
