(* ===== verification/Completion.v ===== *)
(** Completion of the concurrent execution: when no stage raises on its input,
    every interleaving ends, within a number of steps known in advance, in the
    state that running the stages one after another reaches.  Queues of any
    size are enough. *)

From S2P Require Import Prelude Errors Effects Queue Network NetworkFacts.

(** ** The sequential composition *)

(** The input of each process when the processes run one after another. *)
Fixpoint inputs (ps : list process) (l : list msg) : list (list msg) :=
  match ps with
  | [] => []
  | p :: ps => l :: inputs ps (puts (effects_of p l))
  end.

Lemma inputs_lookup_S ps l i p k k' :
  ps !! i = Some p → inputs ps l !! i = Some k → inputs ps l !! S i = Some k' →
  k' = puts (effects_of p k).
Proof.
  revert l i. induction ps as [|q ps IH]; intros l i; [done|].
  destruct i as [|i]; simpl.
  - intros [= ->] [= ->]. destruct ps; [done|]. simpl. by intros [= <-].
  - apply IH.
Qed.

Lemma length_inputs ps l : length (inputs ps l) = length ps.
Proof. revert l. induction ps as [|p ps IH]; intros l; simpl; [done|]. by rewrite IH. Qed.

(** No stage raises on its input, and the last one has no output. *)
Record healthy (ps : list process) : Prop := {
  healthy_item i p l h m : ps !! i = Some p → inputs ps [] !! i = Some l →
    h ++ [m] `prefix_of` l → (on_item p h m).2 = None;
  healthy_end i p l : ps !! i = Some p → inputs ps [] !! i = Some l → (on_end p l).2 = None;
  healthy_last i p l : S i = length ps → ps !! i = Some p → inputs ps [] !! i = Some l →
    puts (effects_of p l) = []
}.

(** ** The states of a healthy execution *)

Definition ended (c : control) : bool :=
  match c with CRun _ AEnd | CClose _ | CDone _ => true | _ => false end.

Definition fine (c : control) : Prop :=
  match c with
  | CGet | CRun _ ANext | CRun _ AEnd | CClose Finished | CDone Finished => True
  | _ => False
  end.

Definition closing (c : control) : bool :=
  match c with CClose _ | CDone _ => true | _ => false end.

Definition link_ok (q : StageQueue) (t t' : task) : Prop :=
  q_items q = (Some <$> pending q) ++
              (if is_done t && negb (ended (t_ctl t')) then [None] else []) ∧
  (ended (t_ctl t') = true → is_done t = true ∧ pending q = []) ∧
  q_closed q = closing (t_ctl t).

Record smooth (ps : list process) (n : net) : Prop := {
  sm_wf : wf ps n;
  sm_abort : aborting n = false;
  sm_errors : errors n = [];
  sm_task i t l : tasks n !! i = Some t → inputs ps [] !! i = Some l →
    t_cancel t = false ∧ fine (t_ctl t) ∧ (ended (t_ctl t) = true → t_hist t = l) ∧
    (i = 0 → ended (t_ctl t) = true);
  sm_link i q t t' : queues n !! i = Some q → tasks n !! i = Some t → tasks n !! S i = Some t' →
    link_ok q t t';
  sm_last i t : queues n !! i = None → tasks n !! i = Some t → t_ctl t ≠ CClose Finished
}.

Section healthy.
Context (ps : list process) (Hps : healthy ps).
Abbreviation smooth := (smooth ps).
Abbreviation input_of i := (inputs ps [] !! i).

Lemma smooth_lookup n i t :
  smooth n → tasks n !! i = Some t → ∃ p l, ps !! i = Some p ∧ t_proc t = p ∧ input_of i = Some l.
Proof.
  intros Hs Ht. destruct (wf_proc _ _ _ _ (sm_wf _ _ Hs) Ht) as (p & Hp & Hpt).
  assert (is_Some (input_of i)) as [l Hl].
  { apply lookup_lt_is_Some. rewrite length_inputs. by eapply lookup_lt_Some. }
  eauto.
Qed.

(** What a task has done is part of what its stage does on its whole input. *)
Lemma smooth_trace n i t p l :
  smooth n → tasks n !! i = Some t → ps !! i = Some p → input_of i = Some l →
  t_hist t `prefix_of` l → trace i n `prefix_of` effects_of p l.
Proof.
  intros Hs Ht Hp Hl Hh. destruct (wf_task _ _ (sm_wf _ _ Hs) i t p Ht Hp) as [_ Hok].
  destruct (sm_task _ _ Hs i t l Ht Hl) as (_ & Hf & He & _).
  destruct (ended (t_ctl t)) eqn:E.
  - rewrite <- (He eq_refl). by eapply task_ok_prefix.
  - assert (trace i n `prefix_of` scripts p (t_hist t)) as Htr.
    { destruct (t_ctl t) as [|es []| |]; simpl in *; try done; [by rewrite Hok|].
      rewrite <- Hok. by eexists. }
    etrans; [exact Htr|]. etrans; [by apply scripts_prefix|]. by eexists.
Qed.

(** What a task has read, and what waits for it, is part of its input. *)
Lemma smooth_read n i q t l :
  smooth n → queues n !! i = Some q → tasks n !! S i = Some t → input_of (S i) = Some l →
  t_hist t ++ pending q `prefix_of` l.
Proof.
  intros Hs. revert q t l. induction i as [|i IH]; intros q t l Hq Ht Hl;
    rewrite <- (wf_link _ _ (sm_wf _ _ Hs) _ q t Hq Ht).
  - assert (is_Some (tasks n !! 0)) as [t0 Ht0].
    { apply lookup_lt_is_Some. apply lookup_lt_Some in Ht. lia. }
    destruct (smooth_lookup _ _ _ Hs Ht0) as (p & l0 & Hp & Hpt & Hl0).
    rewrite (inputs_lookup_S _ _ _ _ _ _ Hp Hl0 Hl).
    destruct (sm_task _ _ Hs 0 t0 l0 Ht0 Hl0) as (_ & _ & He & H0).
    apply prefix_omap. eapply smooth_trace; try done. by rewrite (He (H0 eq_refl)).
  - assert (is_Some (tasks n !! S i)) as [t0 Ht0].
    { apply lookup_lt_is_Some. apply lookup_lt_Some in Ht. lia. }
    assert (is_Some (queues n !! i)) as [q0 Hq0].
    { apply lookup_lt_is_Some. apply lookup_lt_Some in Hq. lia. }
    destruct (smooth_lookup _ _ _ Hs Ht0) as (p & l0 & Hp & Hpt & Hl0).
    rewrite (inputs_lookup_S _ _ _ _ _ _ Hp Hl0 Hl).
    apply prefix_omap. eapply smooth_trace; try done.
    etrans; [|by eapply IH]. by eexists.
Qed.

(** A task whose producer is done and whose queue is empty has read it all. *)
Lemma smooth_complete n i q t t' l :
  smooth n → queues n !! i = Some q → tasks n !! i = Some t → tasks n !! S i = Some t' →
  input_of (S i) = Some l → is_done t = true → t_hist t' ++ pending q = l.
Proof.
  intros Hs Hq Ht Ht' Hl Hd. rewrite <- (wf_link _ _ (sm_wf _ _ Hs) _ q t' Hq Ht').
  destruct (smooth_lookup _ _ _ Hs Ht) as (p & l0 & Hp & Hpt & Hl0).
  rewrite (inputs_lookup_S _ _ _ _ _ _ Hp Hl0 Hl). f_equal.
  destruct (sm_task _ _ Hs i t l0 Ht Hl0) as (_ & Hf & He & _).
  destruct (wf_task _ _ (sm_wf _ _ Hs) i t p Ht Hp) as [_ Hok].
  unfold is_done in Hd. destruct (t_ctl t) as [| | |[]]; try done.
  simpl in *. rewrite <- He by done. by apply Hok.
Qed.

(** ** Preservation *)

(** A step changes one task and the queues next to it. *)
Lemma smooth_intro n n' i t t' :
  smooth n → wf ps n' → tasks n !! i = Some t → tasks n' = <[i:=t']> (tasks n) →
  aborting n' = false → errors n' = [] → length (queues n') = length (queues n) →
  (∀ l, input_of i = Some l → t_cancel t' = false ∧ fine (t_ctl t') ∧
     (ended (t_ctl t') = true → t_hist t' = l) ∧ (i = 0 → ended (t_ctl t') = true)) →
  (∀ j, j ≠ i → S j ≠ i → queues n' !! j = queues n !! j) →
  (∀ q u, queues n' !! i = Some q → tasks n !! S i = Some u → link_ok q t' u) →
  (∀ j q u, i = S j → queues n' !! j = Some q → tasks n !! j = Some u → link_ok q u t') →
  (queues n !! i = None → t_ctl t' ≠ CClose Finished) →
  smooth n'.
Proof.
  intros Hs Hwf Ht Htasks Hab Her Hlen Htask Hoth Hout Hin Hlast.
  assert (i < length (tasks n)) as Hi by by eapply lookup_lt_Some.
  constructor; [done..| | |]; rewrite Htasks.
  - intros j u l Hu Hl. apply list_lookup_insert_Some in Hu as [(<- & <- & _)|[Hne Hu]];
      [by apply Htask|by eapply sm_task].
  - intros j q u u' Hq Hu Hu'.
    apply list_lookup_insert_Some in Hu as [(<- & <- & _)|[Hne Hu]].
    + rewrite list_lookup_insert_ne in Hu' by lia. by apply Hout.
    + apply list_lookup_insert_Some in Hu' as [(-> & <- & _)|[Hne' Hu']]; [by eapply Hin|].
      rewrite Hoth in Hq by lia. by eapply sm_link.
  - intros j u Hq Hu.
    assert (queues n !! j = None) as Hq'.
    { apply lookup_ge_None. apply lookup_ge_None in Hq. lia. }
    apply list_lookup_insert_Some in Hu as [(<- & <- & _)|[Hne Hu]]; [by apply Hlast|].
    by eapply sm_last.
Qed.

Lemma link_ok_same q t t' u u' :
  link_ok q t t' → is_done u = is_done t → closing (t_ctl u) = closing (t_ctl t) →
  ended (t_ctl u') = ended (t_ctl t') → link_ok q u u'.
Proof. unfold link_ok. by intros H -> -> ->. Qed.

(** A step that leaves the queues alone. *)
Lemma smooth_local n n' i t t' :
  smooth n → wf ps n' → tasks n !! i = Some t → tasks n' = <[i:=t']> (tasks n) →
  queues n' = queues n → aborting n' = aborting n → errors n' = errors n →
  t_cancel t' = t_cancel t → t_hist t' = t_hist t → fine (t_ctl t') →
  ended (t_ctl t') = ended (t_ctl t) → closing (t_ctl t') = false → closing (t_ctl t) = false →
  smooth n'.
Proof.
  intros Hs Hwf Ht Htasks Hq Hab Her Hc Hh Hf He Hcl Hcl0.
  assert (is_done t' = is_done t) as Hd.
  { unfold is_done. by destruct (t_ctl t'), (t_ctl t). }
  eapply (smooth_intro n n' i t t'); rewrite ?Hq, ?Hab, ?Her; try done; try apply Hs.
  - intros l Hl. rewrite Hc, Hh, He. destruct (sm_task _ _ Hs i t l Ht Hl) as (? & _ & ? & ?). done.
  - intros q u Hqi Hu. eapply link_ok_same; [by eapply (sm_link _ _ Hs i q t u)|done| |done].
    by rewrite Hcl, Hcl0.
  - intros j q u -> Hqj Hu. eapply link_ok_same; [by eapply (sm_link _ _ Hs j q u t)|done..].
  - intros _ E. by rewrite E in Hcl.
Qed.

Lemma pending_app q it :
  pending (record_depth (with_items q (q_items q ++ [it]))) = pending q ++ option_list it.
Proof. unfold pending. simpl. rewrite omap_app. by destruct it. Qed.

(** The end of a task: the call of [close] and its wait. *)
Lemma smooth_enter_close n i t :
  smooth n → wf ps (enter_close i t Finished n) → tasks n !! i = Some t →
  t_ctl t = CRun [] AEnd → smooth (enter_close i t Finished n).
Proof.
  intros Hs Hwf Ht Hc. destruct (smooth_lookup _ _ _ Hs Ht) as (p & l & Hp & Hpt & Hl).
  destruct (sm_task _ _ Hs i t l Ht Hl) as (Hcan & _ & He & _). rewrite Hc in He.
  unfold enter_close in *. destruct (queues n !! i) as [q|] eqn:Hq.
  - assert (∀ u, tasks n !! S i = Some u → link_ok q t u) as Hlink by by intros; eapply sm_link.
    unfold begin_close in *. destruct (q_closed q) eqn:Hcl.
    { exfalso. assert (is_Some (tasks n !! S i)) as [u Hu].
      { apply lookup_lt_is_Some. apply lookup_lt_Some in Hq.
        rewrite (wf_tasks _ _ (sm_wf _ _ Hs)), <- (wf_queues _ _ (sm_wf _ _ Hs)). lia. }
      destruct (Hlink u Hu) as (_ & _ & H). rewrite Hc in H. simpl in H. congruence. }
    eapply (smooth_intro n _ i t); simpl; try done; try apply Hs.
    + by rewrite length_insert.
    + intros l' Hl'. rewrite Hl in Hl'. injection Hl' as <-. simpl. auto.
    + intros j H1 H2. by rewrite list_lookup_insert_ne.
    + intros q' u Hq' Hu. rewrite list_lookup_insert_eq in Hq' by by eapply lookup_lt_Some.
      injection Hq' as <-. destruct (Hlink u Hu) as (H1 & H2 & _).
      unfold is_done in *. rewrite Hc in *. by split.
    + intros j q' u -> Hq' Hu. rewrite list_lookup_insert_ne in Hq' by lia.
      eapply link_ok_same; [by eapply (sm_link _ _ Hs j q' u t)|done|done|]. by rewrite Hc.
    + by rewrite Hq.
  - eapply (smooth_intro n _ i t); simpl; try done; try apply Hs.
    + intros l' Hl'. rewrite Hl in Hl'. injection Hl' as <-. simpl. auto.
    + intros q' u Hq' _. by rewrite Hq in Hq'.
    + intros j q' u -> Hq' Hu.
      eapply link_ok_same; [by eapply (sm_link _ _ Hs j q' u t)|done|done|]. by rewrite Hc.
Qed.

Lemma smooth_end_close n i t q q' :
  smooth n → wf ps (finish i t Finished (set_queue i q' n)) → tasks n !! i = Some t →
  t_ctl t = CClose Finished → queues n !! i = Some q → end_close q = Some q' →
  smooth (finish i t Finished (set_queue i q' n)).
Proof.
  intros Hs Hwf Ht Hc Hq Hend. destruct (smooth_lookup _ _ _ Hs Ht) as (p & l & Hp & Hpt & Hl).
  destruct (sm_task _ _ Hs i t l Ht Hl) as (Hcan & _ & He & _). rewrite Hc in He.
  eapply (smooth_intro n _ i t); simpl; try done; try apply Hs.
  - by rewrite length_insert.
  - intros l' Hl'. rewrite Hl in Hl'. injection Hl' as <-. simpl. auto.
  - intros j H1 H2. by rewrite list_lookup_insert_ne.
  - intros r u Hr Hu. rewrite list_lookup_insert_eq in Hr by by eapply lookup_lt_Some.
    injection Hr as <-. destruct (sm_link _ _ Hs i q t u Hq Ht Hu) as (H1 & H2 & H3).
    rewrite Hc in H3. unfold is_done in H1, H2. rewrite Hc in H1, H2. simpl in H1.
    unfold end_close, raw_put in Hend. destruct (full q); [done|]. injection Hend as <-.
    assert (ended (t_ctl u) = false) as Eu.
    { destruct (ended (t_ctl u)); [|done]. by destruct (H2 eq_refl). }
    unfold link_ok. rewrite Eu. unfold pending. simpl. rewrite omap_app, app_nil_r.
    fold (pending q). rewrite app_nil_r in H1. split; [|by split]. by rewrite <- H1.
  - intros j r u -> Hr Hu. rewrite list_lookup_insert_ne in Hr by lia.
    eapply link_ok_same; [by eapply (sm_link _ _ Hs j r u t)|done|done|]. by rewrite Hc.
Qed.
Lemma pending_items_head q it q' c :
  q_items q = (Some <$> pending q) ++ c → q_get q = Some (it, q') →
  match it with
  | Some m => pending q = m :: pending q' ∧ q_items q' = (Some <$> pending q') ++ c
  | None => pending q = [] ∧ c = None :: q_items q'
  end.
Proof.
  intros Hi Hget. pose proof (pending_get _ _ _ Hget) as Hp. unfold q_get in Hget.
  destruct (q_items q) as [|x its] eqn:E; [done|]. injection Hget as <- <-.
  destruct x as [m|]; simpl in Hp.
  - split; [done|]. rewrite Hp in Hi. simpl in Hi |- *. by injection Hi.
  - destruct (pending q) as [|m ms] eqn:Epq; [|done]. simpl in Hi. split; [done|]. simpl.
    by rewrite <- Hi.
Qed.

(** Reading an item: a message is run, the sentinel ends the input. *)
Lemma smooth_read_item n i t q item q' n' :
  smooth n → tasks n !! S i = Some t → t_ctl t = CGet → queues n !! i = Some q →
  q_get q = Some (item, q') →
  n' = set_task (S i)
         (match item with
          | Some m => with_read t m (start (on_item (t_proc t) (t_hist t) m) ANext)
          | None => with_ctl t (start (on_end (t_proc t) (t_hist t)) AEnd)
          end) (set_queue i q' n) →
  wf ps n' → smooth n'.
Proof.
  intros Hs Ht Hc Hq Hget -> Hwf.
  destruct (smooth_lookup _ _ _ Hs Ht) as (p & l & Hp & Hpt & Hl).
  destruct (sm_task _ _ Hs (S i) t l Ht Hl) as (Hcan & _ & _ & _).
  assert (is_Some (tasks n !! i)) as [t0 Ht0].
  { apply lookup_lt_is_Some. apply lookup_lt_Some in Ht. lia. }
  destruct (sm_link _ _ Hs i q t0 t Hq Ht0 Ht) as (Hit & _ & Hcl).
  rewrite Hc in Hit. cbn [ended negb] in Hit. rewrite andb_true_r in Hit.
  pose proof (pending_items_head _ _ _ _ Hit Hget) as Hhd.
  pose proof (smooth_read n i q t l Hs Hq Ht Hl) as Hpre.
  assert (q_closed q' = q_closed q) as Hcl'.
  { unfold q_get in Hget. destruct (q_items q); [done|]. by injection Hget as _ <-. }
  set (t' := match item with Some m => _ | None => _ end) in *.
  assert (t_cancel t' = false ∧ fine (t_ctl t') ∧ (ended (t_ctl t') = true → t_hist t' = l) ∧
          closing (t_ctl t') = false ∧ is_done t' = false ∧
          ended (t_ctl t') = match item with Some _ => false | None => true end)
    as (Hcan' & Hf' & He' & Hclo' & Hd' & Een).
  { destruct item as [m|]; unfold t', start; simpl.
    - destruct Hhd as [Hpq _]. rewrite Hpq in Hpre. rewrite Hpt.
      rewrite (healthy_item _ Hps (S i) p l (t_hist t) m); try done.
      etrans; [|exact Hpre]. exists (pending q'). by rewrite <- app_assoc.
    - destruct Hhd as [Hpq Hd0]. destruct (is_done t0) eqn:Ed; [|done].
      pose proof (smooth_complete n i q t0 t l Hs Hq Ht0 Ht Hl Ed) as Hall.
      rewrite Hpq, app_nil_r in Hall. rewrite Hpt, Hall.
      by rewrite (healthy_end _ Hps (S i) p l). }
  eapply (smooth_intro n _ (S i) t t'); simpl; try done; try apply Hs.
  - by rewrite length_insert.
  - intros l' Hl'. rewrite Hl in Hl'. injection Hl' as <-. done.
  - intros j H1 H2. rewrite list_lookup_insert_ne; [done|lia].
  - intros r u Hr Hu. rewrite list_lookup_insert_ne in Hr by lia.
    eapply link_ok_same; [by eapply (sm_link _ _ Hs (S i) r t u)| | |done].
    + rewrite Hd'. unfold is_done. by rewrite Hc.
    + by rewrite Hclo', Hc.
  - intros j r u [= <-] Hr Hu. rewrite list_lookup_insert_eq in Hr by by eapply lookup_lt_Some.
    injection Hr as <-. rewrite Ht0 in Hu. injection Hu as <-.
    unfold link_ok. rewrite Een, Hcl', Hcl. destruct item as [m|].
    + destruct Hhd as [_ Hit']. rewrite andb_true_r. by split.
    + destruct Hhd as [Hpq Hd0]. destruct (is_done t0); [|done]. injection Hd0 as Hd0.
      pose proof (pending_get _ _ _ Hget) as Hpg. rewrite Hpq in Hpg. simpl in Hpg.
      rewrite <- Hpg, <- Hd0. done.
  - intros _ E. by rewrite E in Hclo'.
Qed.

Lemma smooth_put n i t m es k q q' n' :
  smooth n → tasks n !! i = Some t → t_ctl t = CRun (Put m :: es) k →
  queues n !! i = Some q → q_put m q = Some q' →
  n' = add_log i (Put m) (set_task i (with_ctl t (CRun es k)) (set_queue i q' n)) →
  wf ps n' → smooth n'.
Proof.
  intros Hs Ht Hc Hq Hput -> Hwf.
  destruct (smooth_lookup _ _ _ Hs Ht) as (p & l & Hp & Hpt & Hl).
  destruct (sm_task _ _ Hs i t l Ht Hl) as (Hcan & Hf & He & H0). rewrite Hc in *.
  eapply (smooth_intro n _ i t); simpl; try done; try apply Hs.
  - by rewrite length_insert.
  - intros l' Hl'. rewrite Hl in Hl'. injection Hl' as <-. by destruct k.
  - intros j H1 H2. rewrite list_lookup_insert_ne; [done|lia].
  - intros r u Hr Hu. rewrite list_lookup_insert_eq in Hr by by eapply lookup_lt_Some.
    injection Hr as <-. destruct (sm_link _ _ Hs i q t u Hq Ht Hu) as (H1 & H2 & H3).
    rewrite Hc in H3. unfold is_done in H1, H2. rewrite Hc in H1, H2. simpl in H1.
    unfold q_put, raw_put in Hput. destruct (full q); [done|]. injection Hput as <-.
    rewrite app_nil_r in H1. unfold link_ok. rewrite pending_app. simpl.
    rewrite fmap_app, app_nil_r, <- H1. split; [done|]. split; [|done].
    intros Eu. by destruct (H2 Eu).
  - intros j r u -> Hr Hu. rewrite list_lookup_insert_ne in Hr by lia.
    eapply link_ok_same; [by eapply (sm_link _ _ Hs j r u t)|done|done|]. rewrite Hc. by destruct k.
Qed.

Lemma smooth_exec i n n' : smooth n → exec i n = Some n' → smooth n'.
Proof.
  intros Hs H. pose proof (wf_exec _ _ _ _ (sm_wf _ _ Hs) H) as Hwf.
  unfold exec in H. destruct (tasks n !! i) as [t|] eqn:Ht; [|done]. simpl in H.
  destruct (smooth_lookup _ _ _ Hs Ht) as (p & l & Hp & Hpt & Hl).
  destruct (sm_task _ _ Hs i t l Ht Hl) as (Hcan & Hf & He & H0). rewrite Hcan in H.
  destruct (t_ctl t) as [|es k|o|o] eqn:Hc.
  - destruct i as [|i]; [done|]. simpl in H.
    destruct (queues n !! i) as [q|] eqn:Hq; [|done]. simpl in H.
    destruct (q_get q) as [[item q']|] eqn:Hget; [|done]. simpl in H.
    eapply (smooth_read_item n i t q item q' n'); try done. by destruct item; injection H as <-.
  - destruct es as [|e es].
    + destruct k; [| |done]; injection H as <-.
      * apply (smooth_local n _ i t (with_ctl t CGet)); simpl; rewrite ?Hc; done.
      * by eapply smooth_enter_close.
    + assert (puts [e] = [] → n' = add_log i e (set_task i (with_ctl t (CRun es k)) n) → smooth n')
        as Heff.
      { intros _ ->. apply (smooth_local n _ i t (with_ctl t (CRun es k))); simpl; rewrite ?Hc; try done; by destruct k. }
      destruct e; try (apply Heff; [done|by injection H]).
      destruct (queues n !! i) as [q|] eqn:Hq; [|done]. simpl in H.
      destruct (q_put m q) as [q'|] eqn:Hput; [|done]. injection H as <-.
      by eapply (smooth_put n i t m es k q q').
  - destruct (queues n !! i) as [q|] eqn:Hq; [|done]. simpl in H.
    destruct (end_close q) as [q'|] eqn:Hend; [|done]. injection H as <-.
    destruct o; try done. by eapply smooth_end_close.
  - done.
Qed.

Lemma smooth_reachable n n' : smooth n → reachable n n' → smooth n'.
Proof. intros Hs. induction 1 as [|x y z [i H] _ IH]; [done|]. apply IH. by eapply smooth_exec. Qed.

(** ** Progress *)

Lemma smooth_no_put n i t m es k :
  smooth n → tasks n !! i = Some t → queues n !! i = None → t_ctl t = CRun (Put m :: es) k → False.
Proof.
  intros Hs Ht Hq Hc. destruct (smooth_lookup _ _ _ Hs Ht) as (p & l & Hp & Hpt & Hl).
  destruct (sm_task _ _ Hs i t l Ht Hl) as (Hcan & Hf & He & H0).
  assert (S i = length ps) as Hi.
  { apply lookup_ge_None in Hq. pose proof (wf_queues _ _ (sm_wf _ _ Hs)).
    apply lookup_lt_Some in Hp. lia. }
  pose proof (healthy_last _ Hps i p l Hi Hp Hl) as Hno.
  destruct (wf_task _ _ (sm_wf _ _ Hs) i t p Ht Hp) as [_ Hok]. rewrite Hc in *.
  assert (t_hist t `prefix_of` l) as Hh.
  { destruct i as [|i]; [by rewrite (He (H0 eq_refl))|].
    assert (is_Some (queues n !! i)) as [q' Hq'].
    { apply lookup_lt_is_Some. pose proof (wf_queues _ _ (sm_wf _ _ Hs)). lia. }
    pose proof (smooth_read n i q' t l Hs Hq' Ht Hl) as Hr. etrans; [|exact Hr]. by eexists. }
  assert (trace i n ++ Put m :: es `prefix_of` effects_of p l) as [r Hr].
  { destruct k; simpl in *; [|by rewrite <- (He eq_refl), Hok|done].
    rewrite Hok. etrans; [by apply scripts_prefix|]. by eexists. }
  rewrite Hr, puts_app, puts_app in Hno. simpl in Hno.
  by apply app_eq_nil in Hno as [Hno _]; apply app_eq_nil in Hno as [_ Hno].
Qed.

(** A task that waits with room on its output waits for its input. *)
Lemma smooth_runs n i t :
  smooth n → stuck n → tasks n !! i = Some t →
  (∀ q, queues n !! i = Some q → full q = false) → is_done t = false →
  t_ctl t ≠ CGet → False.
Proof.
  intros Hs Hst Ht Hfull Hd Hne.
  destruct (smooth_lookup _ _ _ Hs Ht) as (p & l & Hp & Hpt & Hl).
  destruct (sm_task _ _ Hs i t l Ht Hl) as (Hcan & Hf & He & H0).
  specialize (Hst i). unfold exec in Hst. rewrite Ht in Hst. simpl in Hst. rewrite Hcan in Hst.
  destruct (t_ctl t) as [|es k|o|o] eqn:Hc; [done| | |unfold is_done in Hd; by rewrite Hc in Hd].
  - destruct es as [|e es]; [by destruct k|].
    destruct e; try done. destruct (queues n !! i) as [q|] eqn:Hq.
    + simpl in Hst. unfold q_put, raw_put in Hst. by rewrite (Hfull q eq_refl) in Hst.
    + by eapply smooth_no_put.
  - destruct o; try done. destruct (queues n !! i) as [q|] eqn:Hq.
    + simpl in Hst. unfold end_close, raw_put in Hst. by rewrite (Hfull q eq_refl) in Hst.
    + by eapply sm_last.
Qed.

(** A task that is not done can run unless its output queue is full, or some
    task before it can run. *)
Lemma smooth_progress n i t :
  smooth n → stuck n → tasks n !! i = Some t →
  (∀ q, queues n !! i = Some q → full q = false) → is_done t = true.
Proof.
  intros Hs Hst. revert t. induction i as [|i IH]; intros t Ht Hfull;
    destruct (smooth_lookup _ _ _ Hs Ht) as (p & l & Hp & Hpt & Hl);
    destruct (sm_task _ _ Hs _ t l Ht Hl) as (Hcan & Hf & He & H0).
  - destruct (is_done t) eqn:Hd; [done|]. exfalso.
    apply (smooth_runs n 0 t Hs Hst Ht Hfull Hd). specialize (H0 eq_refl).
    intros E. by rewrite E in H0.
  - destruct (is_done t) eqn:Hd; [done|]. exfalso.
    apply (smooth_runs n (S i) t Hs Hst Ht Hfull Hd). intros Hc.
    assert (is_Some (tasks n !! i)) as [t0 Ht0].
    { apply lookup_lt_is_Some. apply lookup_lt_Some in Ht. lia. }
    assert (is_Some (queues n !! i)) as [q Hq].
    { apply lookup_lt_is_Some. apply lookup_lt_Some in Ht.
      rewrite (wf_tasks _ _ (sm_wf _ _ Hs)), <- (wf_queues _ _ (sm_wf _ _ Hs)) in Ht. lia. }
    assert (q_items q = []) as Hempty.
    { specialize (Hst (S i)). unfold exec in Hst. rewrite Ht in Hst. simpl in Hst.
      rewrite Hcan, Hc in Hst. simpl in Hst. rewrite Hq in Hst. simpl in Hst.
      destruct (q_get q) as [[[m|] q']|] eqn:Hget; [done|done|].
      unfold q_get in Hget. by destruct (q_items q). }
    assert (is_done t0 = true) as Hd0.
    { apply (IH t0 Ht0). intros q0 Hq0. rewrite Hq in Hq0. injection Hq0 as <-.
      destruct (full q) eqn:Ef; [|done]. by apply full_nonempty in Ef. }
    destruct (sm_link _ _ Hs i q t0 t Hq Ht0 Ht) as (Hit & _).
    rewrite Hempty, Hd0, Hc in Hit. simpl in Hit. by destruct (pending q).
Qed.
(** ** Termination *)

Definition rank (c : control) : nat :=
  match c with
  | CGet => 3
  | CRun _ AEnd => 2
  | CRun _ _ => 4
  | CClose _ => 1
  | CDone _ => 0
  end.

(** The steps a task still has to make. *)
Definition weight (l : list msg) (t : task) (tr : list effect) : nat :=
  2 * (length l - length (t_hist t)) + (length (effects_of (t_proc t) l) - length tr)
  + rank (t_ctl t).

Definition weight_at (n : net) (i : nat) : nat :=
  match tasks n !! i, input_of i with
  | Some t, Some l => weight l t (trace i n)
  | _, _ => 0
  end.

Definition measure (n : net) : nat := sum_upto (length ps) (weight_at n).

Lemma smooth_hist n i t l :
  smooth n → tasks n !! i = Some t → input_of i = Some l → t_hist t `prefix_of` l.
Proof.
  intros Hs Ht Hl. destruct (sm_task _ _ Hs i t l Ht Hl) as (_ & _ & He & H0).
  destruct i as [|i]; [by rewrite (He (H0 eq_refl))|].
  assert (is_Some (queues n !! i)) as [q' Hq'].
  { apply lookup_lt_is_Some. apply lookup_lt_Some in Ht.
    rewrite (wf_tasks _ _ (sm_wf _ _ Hs)), <- (wf_queues _ _ (sm_wf _ _ Hs)) in Ht. lia. }
  pose proof (smooth_read n i q' t l Hs Hq' Ht Hl) as Hr. etrans; [|exact Hr]. by eexists.
Qed.

Lemma measure_lt n n' i t t' :
  smooth n → smooth n' → tasks n !! i = Some t → tasks n' = <[i:=t']> (tasks n) →
  (∀ j, j ≠ i → trace j n' = trace j n) → t_proc t' = t_proc t →
  (∀ l, fine (t_ctl t') → length (t_hist t') <= length l →
        length (trace i n') <= length (effects_of (t_proc t) l) →
        weight l t' (trace i n') < weight l t (trace i n)) →
  measure n' < measure n.
Proof.
  intros Hs Hs' Ht Htasks Htr Hproc Hw.
  destruct (smooth_lookup _ _ _ Hs Ht) as (p & l & Hp & Hpt & Hl).
  assert (tasks n' !! i = Some t') as Ht'.
  { rewrite Htasks. apply list_lookup_insert_eq. by eapply lookup_lt_Some. }
  unfold measure. apply (sum_upto_lt _ _ _ i); [by eapply lookup_lt_Some| |].
  - unfold weight_at. rewrite Ht, Ht', Hl.
    pose proof (smooth_hist n' i t' l Hs' Ht' Hl) as Hh.
    apply Hw; [by eapply (sm_task _ _ Hs' i t' l)|by apply prefix_length|].
    apply prefix_length. rewrite Hpt. by eapply smooth_trace.
  - intros j Hj. unfold weight_at.
    rewrite Htasks, list_lookup_insert_ne, Htr by done. done.
Qed.

Lemma trace_other n n' i e j : log n' = log n ++ [(i, e)] → j ≠ i → trace j n' = trace j n.
Proof. intros H Hj. unfold trace. by rewrite H, trace_of_snoc, decide_False, app_nil_r. Qed.
Lemma trace_same n n' i e : log n' = log n ++ [(i, e)] → trace i n' = trace i n ++ [e].
Proof. intros H. unfold trace. by rewrite H, trace_of_snoc, decide_True. Qed.

(** What a step does to its task. *)
Lemma exec_weight i n n' t :
  smooth n → tasks n !! i = Some t → exec i n = Some n' →
  ∃ t', tasks n' = <[i:=t']> (tasks n) ∧ t_proc t' = t_proc t ∧
    ((log n' = log n ∧
      (∀ l : list msg, fine (t_ctl t') → length (t_hist t') <= length l →
            2 * (length l - length (t_hist t')) + rank (t_ctl t')
            < 2 * (length l - length (t_hist t)) + rank (t_ctl t))) ∨
     (∃ e, log n' = log n ++ [(i, e)] ∧ t_hist t' = t_hist t ∧
           rank (t_ctl t') = rank (t_ctl t))).
Proof.
  intros Hs Ht H. destruct (smooth_lookup _ _ _ Hs Ht) as (p & l & Hp & Hpt & Hl).
  destruct (sm_task _ _ Hs i t l Ht Hl) as (Hcan & Hf & He & H0).
  unfold exec in H. rewrite Ht in H. simpl in H. rewrite Hcan in H.
  destruct (t_ctl t) as [|es k|o|o] eqn:Hc.
  - destruct i as [|i]; [done|]. simpl in H.
    destruct (queues n !! i) as [q|] eqn:Hq; [|done]. simpl in H.
    destruct (q_get q) as [[item q']|] eqn:Hget; [|done]. simpl in H.
    destruct item as [m|]; injection H as <-; eexists; (split; [done|]); (split; [done|]); left;
      (split; [done|]); unfold start; simpl; intros l' Hf' Hlen.
    + rewrite length_app in *. simpl in *. by destruct (on_item _ _ _).2; [done|lia].
    + by destruct (on_end _ _).2; [done|simpl; lia].
  - destruct es as [|e es].
    + destruct k; [| |done]; injection H as <-.
      * eexists. split; [done|]. split; [done|]. left. split; [done|]. simpl. lia.
      * unfold enter_close. destruct (queues n !! i) as [q|]; [destruct (begin_close q)|];
          eexists; (split; [done|]); (split; [done|]); left; (split; [done|]); simpl; lia.
    + destruct e; try (injection H as <-; eexists; (split; [done|]); (split; [done|]); right;
        eexists; (split; [done|]); by destruct k).
      destruct (queues n !! i) as [q|]; [|done]. simpl in H.
      destruct (q_put m q) as [q'|]; [|done]. injection H as <-.
      eexists. split; [done|]. split; [done|]. right. eexists. split; [done|]. by destruct k.
  - destruct (queues n !! i) as [q|]; [|done]. simpl in H.
    destruct (end_close q) as [q'|]; [|done]. injection H as <-. destruct o; try done.
    eexists. split; [done|]. split; [done|]. left. split; [done|]. simpl. lia.
  - done.
Qed.

Lemma smooth_measure i n n' : smooth n → exec i n = Some n' → measure n' < measure n.
Proof.
  intros Hs H. pose proof (smooth_exec i n n' Hs H) as Hs'.
  assert (∃ t, tasks n !! i = Some t) as [t Ht].
  { unfold exec in H. destruct (tasks n !! i); [eauto|done]. }
  destruct (exec_weight i n n' t Hs Ht H) as (t' & Htasks & Hproc & [[Hlog Hw]|(e & Hlog & Hh & Hr)]);
    eapply (measure_lt n n' i t t'); try done; unfold weight; rewrite ?Hproc.
  - intros j _. unfold trace. by rewrite Hlog.
  - intros l Hf Hlen _. unfold trace. rewrite Hlog. specialize (Hw l Hf Hlen). lia.
  - intros j Hj. by eapply trace_other.
  - intros l _ _ Htr. rewrite (trace_same _ _ _ _ Hlog), length_app, Hh, Hr in *. simpl in *. lia.
Qed.
(** ** Executions *)

Lemma smooth_nsteps k n n' : smooth n → nsteps step k n n' → k + measure n' <= measure n.
Proof.
  intros Hs H. revert Hs. induction H as [|k x y z [i Hi] _ IH]; intros Hs; [done|].
  pose proof (smooth_measure _ _ _ Hs Hi). specialize (IH (smooth_exec _ _ _ Hs Hi)). lia.
Qed.

(** A state in which no task can run is the final state. *)
Lemma smooth_stuck n :
  smooth n → stuck n →
  all_done n ∧ errors n = [] ∧
  ∀ i p l, ps !! i = Some p → input_of i = Some l → trace i n = effects_of p l.
Proof.
  intros Hs Hst. assert (∀ i t, tasks n !! i = Some t → is_done t = true) as Hdone.
  { intros i t Ht. remember (length ps - i) as d eqn:Hd. revert i t Ht Hd.
    induction d as [|d IH]; intros i t Ht Hd.
    - apply lookup_lt_Some in Ht. rewrite (wf_tasks _ _ (sm_wf _ _ Hs)) in Ht. lia.
    - eapply (smooth_progress n i t Hs Hst Ht). intros q Hq.
      assert (is_Some (tasks n !! S i)) as [u Hu].
      { apply lookup_lt_is_Some. apply lookup_lt_Some in Hq.
        rewrite (wf_tasks _ _ (sm_wf _ _ Hs)), <- (wf_queues _ _ (sm_wf _ _ Hs)). lia. }
      assert (is_done u = true) as Hdu by (eapply IH; [done|lia]).
      destruct (sm_link _ _ Hs i q t u Hq Ht Hu) as (Hit & He & _).
      unfold is_done in Hdu. destruct (t_ctl u); try done. destruct (He eq_refl) as [_ Hp].
      rewrite Hp in Hit. simpl in Hit. rewrite andb_false_r in Hit.
      destruct (full q) eqn:Ef; [|done]. by apply full_nonempty in Ef. }
  split; [|split; [apply Hs|]].
  - apply Forall_lookup. exact Hdone.
  - intros i p l Hp Hl. assert (is_Some (tasks n !! i)) as [t Ht].
    { apply lookup_lt_is_Some. rewrite (wf_tasks _ _ (sm_wf _ _ Hs)). by eapply lookup_lt_Some. }
    specialize (Hdone i t Ht). destruct (sm_task _ _ Hs i t l Ht Hl) as (_ & Hf & He & _).
    destruct (wf_task _ _ (sm_wf _ _ Hs) i t p Ht Hp) as [_ Hok]. unfold is_done in Hdone.
    destruct (t_ctl t) as [| | |[]]; try done. simpl in *. rewrite <- He by done. by apply Hok.
Qed.

(** From every state of a healthy execution some schedule reaches the end. *)
Lemma smooth_finishes n : smooth n → ∃ n', reachable n n' ∧ stuck n'.
Proof.
  intros Hs. remember (measure n) as k eqn:Hk. revert n Hs Hk.
  induction k as [k IH] using (well_founded_induction lt_wf). intros n Hs ->.
  destruct (decide (Forall (λ i, exec i n = None) (seq 0 (length (tasks n))))) as [Hall|Hex].
  - exists n. split; [apply rtc_refl|]. intros i. unfold exec at 1.
    destruct (tasks n !! i) as [t|] eqn:Ht; [|done].
    rewrite Forall_forall in Hall. specialize (Hall i). unfold exec in Hall. rewrite Ht in Hall.
    apply Hall. apply elem_of_seq. apply lookup_lt_Some in Ht. lia.
  - apply not_Forall_Exists in Hex; [|intros; apply _]. apply Exists_exists in Hex as (i & _ & Hi).
    destruct (exec i n) as [n1|] eqn:E; [|done].
    destruct (IH (measure n1) (smooth_measure _ _ _ Hs E) n1 (smooth_exec _ _ _ Hs E) eq_refl)
      as (n' & Hr & Hst).
    exists n'. split; [|done]. eapply rtc_l; [by exists i|done].
Qed.
End healthy.

Lemma smooth_initial src ps qs :
  healthy (src :: ps) → length qs = length ps → Forall fresh qs →
  smooth (src :: ps) (initial src ps qs).
Proof.
  intros Hps Hlen Hq. pose proof (wf_initial src ps qs Hlen Hq) as Hwf.
  rewrite Forall_lookup in Hq.
  assert (∀ l, inputs (src :: ps) [] !! 0 = Some l → (on_end src []).2 = None) as Hend.
  { intros l [= <-]. by apply (healthy_end _ Hps 0 src []). }
  specialize (Hend [] eq_refl). constructor; [done..| | |]; simpl.
  - intros [|i] t l; simpl.
    + intros [= <-] [= <-]. simpl. unfold start. by rewrite Hend.
    + rewrite list_lookup_fmap. intros Ht Hl. destruct (ps !! i); [|done]. injection Ht as <-. done.
  - intros i q t t' Hqi Ht Ht'. destruct (Hq _ _ Hqi) as [Hi Hc].
    rewrite list_lookup_fmap in Ht'. destruct (ps !! i) as [p'|]; [|done]. injection Ht' as <-.
    assert (is_done t = false ∧ closing (t_ctl t) = false) as [Hd Hcl].
    { destruct i as [|i]; simpl in Ht; [injection Ht as <-; simpl; unfold is_done, start; simpl;
        by rewrite ?Hend|]. rewrite list_lookup_fmap in Ht. destruct (ps !! i); [|done].
      by injection Ht as <-. }
    unfold link_ok, pending. by rewrite Hi, Hc, Hd, Hcl.
  - intros [|i] t _ Ht; simpl in Ht.
    + injection Ht as <-. simpl. unfold start. by rewrite Hend.
    + rewrite list_lookup_fmap in Ht. destruct (ps !! i); [|done]. by injection Ht as <-.
Qed.
