(* ===== verification/Pipeline.v ===== *)
(** [core/pipeline.py]: the seven stages of a run, composed by six queues, and
    the mapping of what they raise to the outcome of the run. *)

From S2P Require Import Prelude Errors PyStr PyDict PyVal Enums Hashing Models Effects Normalize.
From S2P Require Import Stages Queue Network.

(** ** The composition *)

Record PipelineSpec := MkPipelineSpec {
  connector : Connector;
  parser : Parser;
  enrichers : list Enricher;
  canonical_publisher : Publisher;
  extra_publishers : list Publisher;
  normalize : NormalizeConfig;
  archive : option RawArchive;
  bloom : option BloomCache;
  queue_maxsize : Z;
  batch_size : Z
}.

(** What the stages take from the process: the codec and the clock readings of
    the normalize and persist stages. *)
Record world := World {
  idna : string → res string;
  ind_clock : nat → Z * Z;
  obs_clock : nat → Z
}.

(** The stages read [source_id] and [run_id] of the shared context, which no
    stage changes. *)
Definition fetch_process (w : world) (spec : PipelineSpec) (ctx : RunContext) : process :=
  source_of (run_fetch (connector spec) (archive spec) ctx).

Definition stage_processes (w : world) (spec : PipelineSpec) (ctx : RunContext) : list process :=
  [process_of (run_parse (parser spec) ctx);
   process_of (run_normalize (idna w) (ind_clock w) (normalize spec));
   process_of (run_enrich (enrichers spec) ctx);
   process_of (run_dedup (bloom spec));
   process_of (run_persist (canonical_publisher spec) ctx (batch_size spec) (obs_clock w));
   process_of (run_publish (extra_publishers spec) ctx (batch_size spec))].

Definition pipeline_queues (spec : PipelineSpec) : list StageQueue :=
  (λ name, new_StageQueue name (queue_maxsize spec)) <$>
  ["fetch"; "parse"; "normalize"; "enrich"; "dedup"; "persist"].

(** The state in which the task group starts. *)
Definition pipeline_net (w : world) (spec : PipelineSpec) (ctx : RunContext) : net :=
  initial (fetch_process w spec ctx) (stage_processes w spec ctx) (pipeline_queues spec).

(** The positions of the stages. *)
Abbreviation FETCH := 0%nat.
Abbreviation PARSE := 1%nat.
Abbreviation NORMALIZE := 2%nat.
Abbreviation ENRICH := 3%nat.
Abbreviation DEDUP := 4%nat.
Abbreviation PERSIST := 5%nat.
Abbreviation PUBLISH := 6%nat.

(** ** The result of a run *)

(** A raised object: an exception, or a group as a task group raises it. *)
Inductive exc_tree := Leaf (e : exn) | Group (es : list exc_tree).

(** The context after the changes of the fetch stage. *)
Definition ctx_after (ctx : RunContext) (es : list effect) : RunContext :=
  fold_left (λ c e, match e with SetCtx c' => c' | _ => c end) es ctx.

(** The result of [Pipeline.run] once every task is done. *)
Definition pipeline_result (ctx : RunContext) (started finished : Z) (n : net)
    : RunResult + exc_tree :=
  match errors n with
  | [] => inl (MkRunResult_default (ctx_after ctx (omap (λ x : nat * effect,
                 if decide (x.1 = FETCH) then Some x.2 else None) (log n)))
               SUCCESS started finished None)
  | es => inr (Group (Leaf <$> es))
  end.

(** [_flatten]. *)
Fixpoint flatten (t : exc_tree) : list exn :=
  match t with
  | Leaf e => [e]
  | Group es => (fix go es := match es with [] => [] | t :: es => flatten t ++ go es end) es
  end.

(** [str(e)]. *)
Definition cti_messages (flat : list exn) : string :=
  join "; " (map Errors.msg (filter (λ e, isinstance e CTIError = true) flat)).

(** [run_with_outcome], after [Pipeline.run] returned or raised; [ctx] is the
    context at that moment. *)
Definition run_with_outcome (ctx : RunContext) (started finished : Z) (r : RunResult + exc_tree)
    : RunResult + exc_tree :=
  match r with
  | inl result => inl result
  | inr exc =>
      let flat := flatten exc in
      if existsb (λ e, isinstance e PermanentError) flat
      then inl (MkRunResult_default ctx FAILED started finished (Some (cti_messages flat)))
      else if existsb (λ e, isinstance e CTIError) flat
      then inl (MkRunResult_default ctx PARTIAL started finished (Some (cti_messages flat)))
      else inr exc
  end.
