(* ===== verification/PipelineFacts.v ===== *)
(** The theorems of the pipeline: completion, the durability fence across
    tasks, the deadlock after a failure, and the outcome of a run. *)

From S2P Require Import Prelude Errors PyStr PyDict PyVal Enums Hashing Models Effects Normalize.
From S2P Require Import Stages PersistFacts PublishFacts StageFacts Queue Network NetworkFacts.
From S2P Require Import Completion Pipeline.

(** ** Stages as processes *)

Lemma run_items_prefix {St} (s : stage St) h l es st :
  h `prefix_of` l → run_items s (st_init s) l = (es, Ok st) →
  ∃ es' st', run_items s (st_init s) h = (es', Ok st').
Proof.
  intros [k ->]. rewrite run_items_app. intros (es1 & st1 & es2 & H & _)%W_bind_Ok. eauto.
Qed.

Lemma process_of_healthy {St} (s : stage St) l es :
  run_stage s l = (es, Ok tt) →
  effects_of (process_of s) l = es ∧
  (∀ h m, h ++ [m] `prefix_of` l → (on_item (process_of s) h m).2 = None) ∧
  (on_end (process_of s) l).2 = None.
Proof.
  intros H. split; [by rewrite effects_process_of, H|]. unfold run_stage in H.
  apply W_bind_Ok in H as (es1 & st & es2 & H1 & H2 & ->). split.
  - intros h m Hpre. destruct (run_items_prefix s _ _ _ _ Hpre H1) as (es' & st' & H').
    rewrite run_items_app in H'. apply W_bind_Ok in H' as (e1 & st1 & e2 & H3 & H4 & ->).
    simpl in H4 |- *. rewrite H3. apply W_bind_Ok in H4 as (e3 & st2 & e4 & H5 & _).
    by rewrite H5.
  - simpl. by rewrite H1, H2.
Qed.

(** The publish stage puts nothing. *)
Lemma publish_flush_no_puts ctx st p : puts (publish_flush ctx st p).1 = [].
Proof.
  unfold publish_flush. destruct (batch_of st (pub_name p)); [done|].
  destruct (publish p _ _ _) as [[]|e]; [done|]. simpl. by destruct (_ || _).
Qed.

Lemma W_bind_no_puts {A B} (m : W A) (f : A → W B) :
  puts m.1 = [] → (∀ a, puts (f a).1 = []) → puts (m ≫= f).1 = [].
Proof.
  destruct m as [es [a|e]]; simpl; [|done]. intros H1 H2. specialize (H2 a).
  destruct (f a) as [es' r]. simpl in *. by rewrite puts_app, H1, H2.
Qed.

Lemma fold_publishers_no_puts f ps st :
  (∀ st p, puts (f st p).1 = []) → puts (fold_publishers f ps st).1 = [].
Proof.
  intros Hf. revert st. induction ps as [|p ps IH]; intros st; [done|].
  by apply W_bind_no_puts.
Qed.

Lemma publish_no_puts ps ctx bs l : puts (run_stage (run_publish ps ctx bs) l).1 = [].
Proof.
  unfold run_stage. apply W_bind_no_puts.
  - generalize (st_init (run_publish ps ctx bs)). induction l as [|m l IH]; intros st; [done|].
    apply W_bind_no_puts; [|done]. simpl. unfold publish_item.
    destruct ps as [|p ps]; [done|]. destruct m; try done.
    apply fold_publishers_no_puts. intros st' q. unfold publish_append.
    destruct (_ <=? _)%Z; [apply publish_flush_no_puts|done].
  - intros st. simpl. unfold publish_end. apply W_bind_no_puts; [|done].
    apply fold_publishers_no_puts, publish_flush_no_puts.
Qed.

(** ** The specification: the stages one after another *)

Section pipeline.
Context (w : world) (spec : PipelineSpec) (ctx : RunContext).

(** The traces of the seven stages when each runs to its end on the output of
    the one before, [None] as soon as one raises. *)
Definition after_stage {St} (s : stage St) (traces : option (list (list effect)))
    : option (list (list effect)) :=
  traces ← traces;
  match run_stage s (puts (default [] (last traces))) with
  | (es, Ok _) => Some (traces ++ [es])
  | _ => None
  end.

Definition sequential_run : option (list (list effect)) :=
  after_stage (run_publish (extra_publishers spec) ctx (batch_size spec))
  (after_stage (run_persist (canonical_publisher spec) ctx (batch_size spec) (obs_clock w))
  (after_stage (run_dedup (bloom spec))
  (after_stage (run_enrich (enrichers spec) ctx)
  (after_stage (run_normalize (idna w) (ind_clock w) (normalize spec))
  (after_stage (run_parse (parser spec) ctx)
    (match run_fetch (connector spec) (archive spec) ctx with
     | (es, Ok _) => Some [es]
     | _ => None
     end)))))).

Abbreviation procs := (fetch_process w spec ctx :: stage_processes w spec ctx).

Lemma pipeline_queues_fresh : Forall fresh (pipeline_queues spec).
Proof. by repeat constructor. Qed.

(** A chain of processes run one after another. *)
Definition chain_ok (p : process) (l : list msg) (es : list effect) : Prop :=
  effects_of p l = es ∧ (∀ h m, h ++ [m] `prefix_of` l → (on_item p h m).2 = None) ∧
  (on_end p l).2 = None.

Inductive chain : list process → list msg → list (list effect) → Prop :=
  | chain_nil l : chain [] l []
  | chain_cons p ps l es traces :
      chain_ok p l es → chain ps (puts es) traces → chain (p :: ps) l (es :: traces).

Lemma chain_lookup ps l traces :
  chain ps l traces →
  ∀ i p k, ps !! i = Some p → inputs ps l !! i = Some k →
    ∃ es, traces !! i = Some es ∧ chain_ok p k es.
Proof.
  induction 1 as [|p ps l es traces Hok Hch IH]; intros i q k Hq Hk; [done|].
  destruct i as [|i]; simpl in *.
  - injection Hq as <-. injection Hk as <-. by exists es.
  - destruct Hok as (<- & _). by apply IH.
Qed.

Lemma chain_trace ps traces (f : nat → list effect) i es :
  chain ps [] traces → (∀ i p l, ps !! i = Some p → inputs ps [] !! i = Some l →
    f i = effects_of p l) → traces !! i = Some es → f i = es.
Proof.
  intros Hc Hf Hi. assert (length traces = length ps) as Hlen.
  { clear -Hc. induction Hc; simpl; congruence. }
  assert (is_Some (ps !! i)) as [p Hp].
  { apply lookup_lt_is_Some. rewrite <- Hlen. by eapply lookup_lt_Some. }
  assert (is_Some (inputs ps [] !! i)) as [l Hl].
  { apply lookup_lt_is_Some. rewrite length_inputs. by eapply lookup_lt_Some. }
  destruct (chain_lookup _ _ _ Hc i p l Hp Hl) as (es' & Hi' & <- & _).
  rewrite Hi in Hi'. injection Hi' as ->. by apply Hf.
Qed.

Lemma chain_stage {St} (s : stage St) traces t :
  after_stage s traces = Some t →
  ∃ t0 es, traces = Some t0 ∧ t = t0 ++ [es] ∧
           chain_ok (process_of s) (puts (default [] (last t0))) es.
Proof.
  unfold after_stage. destruct traces as [t0|]; [|done]. simpl.
  destruct (run_stage s (puts (default [] (last t0)))) as [es [[]|e]] eqn:E; [|done].
  intros [= <-]. exists t0, es. split; [done|]. split; [done|]. by apply process_of_healthy.
Qed.

Lemma sequential_chain traces : sequential_run = Some traces → chain procs [] traces.
Proof.
  unfold sequential_run. intros H.
  apply chain_stage in H as (t5 & e6 & H & -> & C6). apply chain_stage in H as (t4 & e5 & H & -> & C5).
  apply chain_stage in H as (t3 & e4 & H & -> & C4). apply chain_stage in H as (t2 & e3 & H & -> & C3).
  apply chain_stage in H as (t1 & e2 & H & -> & C2). apply chain_stage in H as (t0 & e1 & H & -> & C1).
  destruct (run_fetch _ _ _) as [e0 [r|e]] eqn:E0; [|done]. injection H as <-.
  rewrite !last_snoc in *. simpl in *.
  assert (chain_ok (fetch_process w spec ctx) [] e0) as C0.
  { unfold fetch_process. split; [by rewrite effects_source_of, E0|]. split.
    - intros h m Hpre. done.
    - simpl. by rewrite E0. }
  repeat (constructor; [done|]). apply chain_nil.
Qed.

Lemma sequential_healthy traces : sequential_run = Some traces → healthy procs.
Proof.
  intros Hseq. pose proof (sequential_chain _ Hseq) as Hc. constructor.
  - intros i p l h m Hp Hl Hpre. destruct (chain_lookup _ _ _ Hc i p l Hp Hl) as (es & _ & _ & H & _).
    by apply H.
  - intros i p l Hp Hl. by destruct (chain_lookup _ _ _ Hc i p l Hp Hl) as (es & _ & _ & _ & H).
  - intros i p l Hi Hp _. simpl in Hi. do 6 (destruct i as [|i]; [simpl in Hi; lia|]).
    destruct i as [|i]; [|simpl in Hi; lia]. simpl in Hp. injection Hp as <-.
    rewrite effects_process_of. apply publish_no_puts.
Qed.

(** The number of steps of a run, known before it starts. *)
Definition step_bound : nat := measure procs (pipeline_net w spec ctx).
End pipeline.

Lemma sequential_smooth w spec ctx traces n :
  sequential_run w spec ctx = Some traces → reachable (pipeline_net w spec ctx) n →
  smooth (fetch_process w spec ctx :: stage_processes w spec ctx) n.
Proof.
  intros Hseq. pose proof (sequential_healthy _ _ _ _ Hseq) as Hh. apply (smooth_reachable _ Hh).
  apply smooth_initial; [done|done|apply pipeline_queues_fresh].
Qed.

(** Then no task is cancelled. *)
Lemma sequential_uncancelled w spec ctx traces n i t :
  sequential_run w spec ctx = Some traces → reachable (pipeline_net w spec ctx) n →
  tasks n !! i = Some t → t_ctl t ≠ CDone Cancelled.
Proof.
  intros Hseq Hr Ht Hc. pose proof (sequential_smooth _ _ _ _ _ Hseq Hr) as Hs.
  destruct (smooth_lookup _ _ _ _ Hs Ht) as (p & l & _ & _ & Hl).
  destruct (sm_task _ _ Hs i t l Ht Hl) as (_ & Hf & _). by rewrite Hc in Hf.
Qed.

Lemma pipeline_refines_lemma w spec ctx traces :
  sequential_run w spec ctx = Some traces →
  (∀ k n, nsteps step k (pipeline_net w spec ctx) n → k <= step_bound w spec ctx) ∧
  (∀ n, reachable (pipeline_net w spec ctx) n → ∃ n', reachable n n' ∧ stuck n') ∧
  (∀ n, reachable (pipeline_net w spec ctx) n → stuck n →
     all_done n ∧ errors n = [] ∧
     ∀ i es, traces !! i = Some es → trace i n = es).
Proof.
  intros Hseq. pose proof (sequential_healthy _ _ _ _ Hseq) as Hh.
  pose proof (sequential_chain _ _ _ _ Hseq) as Hc.
  pose proof (sequential_smooth w spec ctx traces _ Hseq (rtc_refl _ _)) as Hs.
  split; [|split].
  - intros k n Hk. pose proof (smooth_nsteps _ Hh _ _ _ Hs Hk). unfold step_bound. lia.
  - intros n Hr. eapply smooth_finishes; [done|]. by eapply smooth_reachable.
  - intros n Hr Hst. pose proof (sequential_smooth w spec ctx traces n Hseq Hr) as Hn.
    destruct (smooth_stuck _ Hh n Hn Hst) as (Hd & He & Htr). split; [done|]. split; [done|].
    intros i es Hi. exact (chain_trace _ _ (λ i, trace i n) i es Hc Htr Hi).
Qed.

(** C1: the concurrent pipeline refines the sequential composition of its
    stages.  When no stage raises if the seven stages run one after another,
    then for every queue bound: every interleaving ends within a number of
    steps known in advance, from every state it passes through the end can be
    reached, and a state in which no task can run has every task done, no
    error, and for each stage exactly the effects, in order, of the sequential
    run. *)
Theorem pipeline_refines_sequential w spec ctx traces :
  sequential_run w spec ctx = Some traces →
  (∀ k n, nsteps step k (pipeline_net w spec ctx) n → k <= step_bound w spec ctx) ∧
  (∀ n, reachable (pipeline_net w spec ctx) n → ∃ n', reachable n n' ∧ stuck n') ∧
  (∀ n, reachable (pipeline_net w spec ctx) n → stuck n →
     all_done n ∧ errors n = [] ∧
     ∀ i es, traces !! i = Some es → trace i n = es).
Proof. apply pipeline_refines_lemma. Qed.

(** ** The durability fence across tasks *)

(** The publish stage publishes only pairs it has read. *)
Definition only_from (l : list msg) (m : W publish_state) : Prop :=
  (∀ q b p, Published q b ∈ m.1 → p ∈ b → MPair p ∈ l) ∧
  (∀ st name p, m.2 = Ok st → p ∈ batch_of st name → MPair p ∈ l).

Definition holds_from (l : list msg) (st : publish_state) : Prop :=
  ∀ name p, p ∈ batch_of st name → MPair p ∈ l.

Lemma only_from_ret l st : holds_from l st → only_from l (mret st).
Proof. intros H. split; [by intros q b p ?%elem_of_nil|]. intros st' name p [= <-]. apply H. Qed.

Lemma only_from_bind l m f :
  only_from l m → (∀ st, holds_from l st → only_from l (f st)) → only_from l (m ≫= f).
Proof.
  intros [H1 H2] Hf. destruct m as [es [st|e]]; [|done].
  destruct (Hf st) as [H3 H4]; [intros name p; by apply H2|].
  unfold mbind, W_bind. destruct (f st) as [es' r]. split; [|done].
  intros q b p [Hin|Hin]%elem_of_app; [by eapply H1|by eapply H3].
Qed.

Lemma holds_from_dset l st n name b :
  holds_from l st → (∀ p, p ∈ b → MPair p ∈ l) →
  holds_from l (PublishState n (dset (batches st) name b)).
Proof. intros H Hb name' p. rewrite batch_of_dset. case_decide; [apply Hb|apply H]. Qed.

Lemma publish_flush_only l ctx st p : holds_from l st → only_from l (publish_flush ctx st p).
Proof.
  intros H. unfold publish_flush. destruct (batch_of st (pub_name p)) as [|x b] eqn:Hb;
    [by apply only_from_ret|].
  assert (∀ y, y ∈ x :: b → MPair y ∈ l) as Hxb by (intros y; rewrite <- Hb; apply H).
  assert (holds_from l (PublishState (S (b_calls st)) (dset (batches st) (pub_name p) [])))
    as Hst by (apply holds_from_dset; [done|by intros y ?%elem_of_nil]).
  destruct (publish p _ _ _) as [[]|e]; simpl.
  - split; simpl; [|intros st' name y [= <-]; apply Hst].
    intros q b' y Hin Hy. rewrite !elem_of_cons, elem_of_nil in Hin.
    destruct Hin as [[= -> ->]|[|[]]]; [by apply Hxb|done].
  - rewrite orb_false_r. destruct (isinstance e TLPViolation); split; simpl; try done.
    + intros q b' y Hin. by rewrite !elem_of_cons, elem_of_nil in Hin; destruct Hin as [|[]].
    + intros st' name y [= <-]. apply Hst.
    + by intros q b' y ?%elem_of_nil.
Qed.

Lemma fold_publishers_only l f ps st :
  (∀ st p, holds_from l st → only_from l (f st p)) → holds_from l st →
  only_from l (fold_publishers f ps st).
Proof.
  intros Hf. revert st. induction ps as [|p ps IH]; intros st H; [by apply only_from_ret|].
  apply only_from_bind; [by apply Hf|]. intros st' H'. by apply IH.
Qed.

Lemma publish_item_only l ps ctx bs st m :
  m ∈ l → holds_from l st → only_from l (publish_item ps ctx bs st m).
Proof.
  intros Hm H. unfold publish_item. destruct ps as [|q ps]; [by apply only_from_ret|].
  destruct m as [| | |x]; try (split; [by intros ??? ?%elem_of_nil|done]).
  apply fold_publishers_only; [|done]. intros st' p H'. unfold publish_append.
  assert (holds_from l (PublishState (b_calls st')
    (dset (batches st') (pub_name p) (batch_of st' (pub_name p) ++ [x])))) as Hst.
  { apply holds_from_dset; [done|].
    intros y [Hy| ->%list_elem_of_singleton]%elem_of_app; [by eapply H'|done]. }
  destruct (_ <=? _)%Z; [by apply publish_flush_only|by apply only_from_ret].
Qed.

Lemma publish_run_only ps ctx bs l q b p :
  Published q b ∈ (run_stage (run_publish ps ctx bs) l).1 → p ∈ b → MPair p ∈ l.
Proof.
  assert (∀ k st, (∀ m, m ∈ k → m ∈ l) → holds_from l st →
            only_from l (run_items (run_publish ps ctx bs) st k)) as Hitems.
  { induction k as [|m k IH]; intros st Hk H; [by apply only_from_ret|].
    apply only_from_bind; [apply publish_item_only; [by apply Hk; left|done]|].
    intros st' H'. apply IH; [by intros; apply Hk; right|done]. }
  assert (holds_from l (st_init (run_publish ps ctx bs))) as H0.
  { intros name x Hx. exfalso. unfold batch_of in Hx. simpl in Hx.
    assert (∀ d, (∀ nm y, y ∉ (default [] (dget d nm) : list pair)) →
      ∀ nm y, y ∉ (default [] (dget (dupdate d (map (λ p, (pub_name p, [])) ps)) nm)
                   : list pair)) as Hd.
    { clear. unfold dupdate. induction ps as [|p ps IH]; intros d Hd; [done|]. simpl.
      apply IH. intros nm y. rewrite dget_dset. case_decide; [simpl; set_solver|apply Hd]. }
    eapply (Hd []); [|exact Hx]. simpl. set_solver. }
  specialize (Hitems l _ ltac:(done) H0). unfold run_stage.
  destruct (run_items _ _ _) as [es [st|e]]; [|intros; by eapply (proj1 Hitems)].
  unfold mbind, W_bind. change (st_end (run_publish ps ctx bs) st) with (publish_end ps ctx st).
  assert (holds_from l st) as Hst by (intros name y; by apply (proj2 Hitems)).
  destruct (fold_publishers_only l (publish_flush ctx) ps st (publish_flush_only l ctx) Hst)
    as [Hf _].
  unfold publish_end. destruct (fold_publishers _ _ _) as [es' [st'|e]]; simpl in *;
    rewrite ?app_nil_r; intros [Hin|Hin]%elem_of_app Hp; eauto; by eapply (proj1 Hitems).
Qed.

Lemma exec_log i n n' :
  exec i n = Some n' → log n' = log n ∨ ∃ e, log n' = log n ++ [(i, e)].
Proof.
  assert (∀ t o n, log (finish i t o n) = log n) as Hfin.
  { intros t o m. unfold finish. destruct o; try done. by destruct (aborting _). }
  assert (∀ t o n, log (enter_close i t o n) = log n) as Hent.
  { intros t o m. unfold enter_close. destruct (queues m !! i) as [q|]; [|apply Hfin].
    destruct (begin_close q); [done|apply Hfin]. }
  assert (∀ t o n, log (unwind i t o n) = log n) as Hunw.
  { intros t o m. unfold unwind. destruct (t_finally t); [apply Hent|apply Hfin]. }
  unfold exec. destruct (tasks n !! i) as [t|]; [|done]. simpl.
  destruct (t_cancel t).
  { destruct (t_ctl t) as [| |o|]; [| | |done]; intros [= <-]; left;
      [apply Hunw|apply Hunw|apply (Hfin _ Cancelled)]. }
  destruct (t_ctl t) as [|[|e es] k|o|o]; [| | | |done].
  - destruct (input i n) as [q|]; [|done]. simpl. destruct (q_get q) as [[[m|] q']|]; [..|done];
      intros [= <-]; by left.
  - destruct k; intros [= <-]; left; [done|apply Hent|apply Hunw].
  - destruct e; try (intros [= <-]; right; by eexists).
    destruct (queues n !! i) as [q|]; [|done]. simpl. destruct (q_put m q); [|done].
    intros [= <-]. right. by eexists.
  - destruct (queues n !! i) as [q|]; [|done]. simpl. destruct (end_close q); [|done].
    intros [= <-]. left. by rewrite Hfin.
Qed.

Section fence.
Context (w : world) (spec : PipelineSpec) (ctx : RunContext).
Abbreviation procs := (fetch_process w spec ctx :: stage_processes w spec ctx).

Lemma pipeline_wf n : reachable (pipeline_net w spec ctx) n → wf procs n.
Proof. apply wf_reachable, wf_initial; [done|apply pipeline_queues_fresh]. Qed.

(** What the publish stage has read was published before. *)
Lemma read_published n t p :
  wf procs n → tasks n !! PUBLISH = Some t → MPair p ∈ t_hist t →
  p ∈ concat (published "postgres" (trace PERSIST n)).
Proof.
  intros Hwf Ht Hp. assert (∃ q, queues n !! PERSIST = Some q) as [q Hq].
  { apply lookup_lt_is_Some. pose proof (wf_queues _ _ Hwf). simpl in *. lia. }
  assert (∃ t5, tasks n !! PERSIST = Some t5) as [t5 Ht5].
  { apply lookup_lt_is_Some. pose proof (wf_tasks _ _ Hwf). simpl in *. lia. }
  pose proof (wf_link _ _ Hwf PERSIST q t Hq Ht) as Hl.
  destruct (wf_task _ _ Hwf PERSIST t5 _ Ht5 eq_refl) as [_ Hok].
  apply task_ok_prefix in Hok. rewrite effects_process_of in Hok. destruct Hok as [r Hr].
  assert (MPair p ∈ puts (trace PERSIST n)) as Hput by (rewrite Hl; apply elem_of_app; by left).
  apply list_elem_of_omap in Hput as (e & He & Hpe). destruct e; try done. injection Hpe as ->.
  apply list_elem_of_split in He as (e1 & e2 & He). rewrite He, published_app, concat_app.
  apply elem_of_app. left.
  destruct (run_stage (run_persist (canonical_publisher spec) ctx (batch_size spec) (obs_clock w))
              (t_hist t5)) as [es r'] eqn:E.
  simpl in Hr. apply persist_trace in E as (bs & -> & _).
  eapply (flushes_fence bs). rewrite Hr, He, <- app_assoc. done.
Qed.

Lemma last_publish n l q b p :
  wf procs n → log n = l ++ [(PUBLISH, Published q b)] → p ∈ b →
  p ∈ concat (published "postgres" (trace_of PERSIST l)).
Proof.
  intros Hwf Hlog Hp. assert (∃ t, tasks n !! PUBLISH = Some t) as [t Ht].
  { apply lookup_lt_is_Some. pose proof (wf_tasks _ _ Hwf). simpl in *. lia. }
  destruct (wf_task _ _ Hwf PUBLISH t _ Ht eq_refl) as [_ Hok].
  apply task_ok_prefix in Hok. rewrite effects_process_of in Hok. destruct Hok as [r Hr].
  assert (Published q b ∈ trace PUBLISH n) as Hin.
  { unfold trace. rewrite Hlog, trace_of_snoc, decide_True by done.
    apply elem_of_app. right. by left. }
  pose proof (publish_run_only (extra_publishers spec) ctx (batch_size spec) (t_hist t) q b p)
    as Honly.
  rewrite Hr in Honly. specialize (Honly ltac:(apply elem_of_app; by left) Hp).
  pose proof (read_published n t p Hwf Ht Honly) as H. unfold trace in H.
  by rewrite Hlog, trace_of_snoc, decide_False, app_nil_r in H.
Qed.
End fence.

(** C5: durability before fan-out, across the tasks and under failures.  In
    every execution of the pipeline, whatever its plugins return or raise and
    however its tasks are interleaved and cancelled, every pair of a batch that
    a downstream publisher accepts had been accepted by the canonical publisher
    earlier in the execution. *)
Theorem durability_fence w spec ctx n :
  reachable (pipeline_net w spec ctx) n →
  ∀ l1 q b l2, log n = l1 ++ (PUBLISH, Published q b) :: l2 →
  ∀ p, p ∈ b → p ∈ concat (published "postgres" (trace_of PERSIST l1)).
Proof.
  revert n. apply (rtc_ind_r (λ n, ∀ l1 q b l2, log n = l1 ++ (PUBLISH, Published q b) :: l2 →
    ∀ p, p ∈ b → p ∈ concat (published "postgres" (trace_of PERSIST l1)))).
  { intros l1 q b l2 Hl. by destruct l1. }
  intros n n' Hr [i Hi] IH l1 q b l2 Hl p Hp. destruct (exec_log i n n' Hi) as [Heq|[e Heq]].
  - rewrite Heq in Hl. by eapply IH.
  - assert (reachable (pipeline_net w spec ctx) n') as Hr' by (eapply rtc_r; [done|by exists i]).
    apply pipeline_wf in Hr'. destruct l2 as [|x l2 _] using rev_ind.
    + by eapply last_publish.
    + rewrite Heq in Hl. rewrite app_comm_cons, app_assoc in Hl.
      apply app_inj_tail in Hl as [Hl _]. by eapply IH.
Qed.
