(* ===== verification/Converse.v ===== *)
(** The converse of the refinement of [PipelineFacts]: an execution of the pipeline
    in which every task returned did what running the stages one after another does.

    Here no assumption is made on the stages; that all returned shows that none
    raised on what it read, and the sentinels that each stage read everything its
    producer had put.  The absence of errors alone does not show it: the group takes
    no notice of a stage that raises a [CancelledError] itself. *)

From S2P Require Import Prelude Errors PyStr PyDict PyVal Enums Hashing Models Effects Normalize.
From S2P Require Import Stages Queue Network NetworkFacts Completion Pipeline PipelineFacts.

(** ** States without an error and without a cancelled task *)

(** No task ended with a [CancelledError]. *)
Definition uncancelled (n : net) : Prop := ∀ i t, tasks n !! i = Some t → t_ctl t ≠ CDone Cancelled.

Definition clean (n : net) : Prop := errors n = [] ∧ uncancelled n.

(** No reaction to the items of [h] raised. *)
Definition items_ok (p : process) (h : list msg) : Prop :=
  ∀ k m, k ++ [m] `prefix_of` h → (on_item p k m).2 = None.

(** Where a task can be while no task has failed. *)
Definition quiet (p : process) (h : list msg) (c : control) : Prop :=
  match c with
  | CGet | CRun _ ANext => items_ok p h
  | CRun _ AEnd | CClose Finished | CDone Finished => items_ok p h ∧ (on_end p h).2 = None
  | CRun _ (ARaise _) | CClose (Failed _) | CClose Cancelled => True
  | CDone _ => False
  end.

(** The task has read the sentinel and did not raise. *)
Definition at_end (c : control) : bool :=
  match c with CRun _ AEnd | CClose Finished | CDone Finished => true | _ => false end.

Definition calm_link (q : StageQueue) (t t' : task) : Prop :=
  (q_items q = Some <$> pending q ∨ (q_items q = (Some <$> pending q) ++ [None] ∧ is_done t = true)) ∧
  (at_end (t_ctl t') = true → is_done t = true ∧ pending q = []).

Record calm (ps : list process) (n : net) : Prop := {
  cm_wf : wf ps n;
  cm_abort : aborting n = false;
  cm_task i t : tasks n !! i = Some t →
    t_cancel t = false ∧ quiet (t_proc t) (t_hist t) (t_ctl t) ∧ (i = 0 → t_hist t = []);
  cm_link i q t t' : queues n !! i = Some q → tasks n !! i = Some t → tasks n !! S i = Some t' →
    calm_link q t t'
}.

Lemma items_ok_snoc p h m : items_ok p h → (on_item p h m).2 = None → items_ok p (h ++ [m]).
Proof.
  intros H Hm k x [r Hr]. destruct r as [|y r _] using rev_ind.
  - rewrite app_nil_r in Hr. apply app_inj_tail in Hr as [-> ->]. done.
  - rewrite app_assoc in Hr. apply app_inj_tail in Hr as [-> _]. apply H. by eexists.
Qed.

(** A link is kept by a producer that is done at least when it was before, a
    consumer at its end at most when it was before, and the same messages. *)
Lemma calm_link_mono q q' t t' u u' :
  calm_link q t t' → q_items q' = q_items q → (is_done t = true → is_done u = true) →
  (at_end (t_ctl u') = true → at_end (t_ctl t') = true) → calm_link q' u u'.
Proof.
  unfold calm_link, pending. intros [H1 H2] -> Hd He. split.
  - destruct H1 as [|[]]; [by left|right; eauto].
  - intros E. destruct (H2 (He E)). eauto.
Qed.

(** The head of a queue: a message, or a sentinel that is the last item. *)
Lemma calm_link_get q t t' item q' :
  calm_link q t t' → q_get q = Some (item, q') →
  (q_items q' = Some <$> pending q' ∨ (q_items q' = (Some <$> pending q') ++ [None] ∧ is_done t = true)) ∧
  (item = None → is_done t = true ∧ pending q' = []).
Proof.
  unfold calm_link, q_get. intros [H1 _]. unfold pending in *.
  destruct (q_items q) as [|x its] eqn:E; [done|]. intros [= <- <-]. simpl.
  destruct x as [m|].
  - change (omap id (Some m :: its)) with (m :: omap id its) in H1. split; [|done].
    destruct H1 as [[= H]|[[= H] Hd]]; [by left|by right].
  - change (omap id (None :: its)) with (omap id its) in H1.
    destruct (omap id its) as [|m l]; [|destruct H1 as [H1|[H1 _]]; discriminate].
    destruct H1 as [H1|[[= ->] Hd]]; [discriminate|]. split; [by left|done].
Qed.

Section calm.
Context (ps : list process).
Abbreviation calm := (calm ps).

(** A step changes one task and the queues next to it. *)
Lemma calm_intro n n' i t t' :
  calm n → wf ps n' → tasks n !! i = Some t → tasks n' = <[i:=t']> (tasks n) → aborting n' = false →
  (t_cancel t' = false ∧ quiet (t_proc t') (t_hist t') (t_ctl t') ∧ (i = 0 → t_hist t' = [])) →
  (∀ j, j ≠ i → S j ≠ i → queues n' !! j = queues n !! j) →
  (∀ q u, queues n' !! i = Some q → tasks n !! S i = Some u → calm_link q t' u) →
  (∀ j q u, i = S j → queues n' !! j = Some q → tasks n !! j = Some u → calm_link q u t') →
  calm n'.
Proof.
  intros Hc Hwf Ht Htasks Hab Htask Hoth Hout Hin. constructor; [done..| |]; rewrite Htasks.
  - intros j u Hu. apply list_lookup_insert_Some in Hu as [(<- & <- & _)|[Hne Hu]]; [done|by apply (cm_task _ _ Hc)].
  - intros j q u u' Hq Hu Hu'. apply list_lookup_insert_Some in Hu as [(<- & <- & _)|[Hne Hu]].
    + rewrite list_lookup_insert_ne in Hu' by lia. by apply Hout.
    + apply list_lookup_insert_Some in Hu' as [(-> & <- & _)|[Hne' Hu']]; [by eapply Hin|].
      rewrite Hoth in Hq by lia. by eapply (cm_link _ _ Hc).
Qed.

(** A step of a task that is neither done nor at its end before or after, and
    leaves the queues alone. *)
Lemma calm_local n n' i t t' :
  calm n → wf ps n' → tasks n !! i = Some t → tasks n' = <[i:=t']> (tasks n) →
  queues n' = queues n → aborting n' = aborting n →
  t_cancel t' = false → t_hist t' = t_hist t → quiet (t_proc t') (t_hist t') (t_ctl t') →
  (is_done t = true → is_done t' = true) → (at_end (t_ctl t') = true → at_end (t_ctl t) = true) → calm n'.
Proof.
  intros Hc Hwf Ht Htasks Hq Hab Hcan Hh Hqu Hd He.
  apply (calm_intro n n' i t t' Hc Hwf Ht Htasks); rewrite ?Hq, ?Hab; [apply (cm_abort _ _ Hc)| |done| |].
  - split; [done|]. split; [done|]. rewrite Hh. by apply (cm_task _ _ Hc i t).
  - intros q u Hqi Hu. eapply calm_link_mono; [by eapply (cm_link _ _ Hc i q t u)|done..].
  - intros j q u -> Hqj Hu. eapply calm_link_mono; [by eapply (cm_link _ _ Hc j q u t)|done..].
Qed.

(** The end of a task that did not fail. *)
Lemma calm_finish n i t t0 :
  calm n → wf ps (finish i t Finished n) → tasks n !! i = Some t0 → t_proc t = t_proc t0 →
  t_hist t = t_hist t0 → t_cancel t = false → at_end (t_ctl t0) = true → quiet (t_proc t) (t_hist t) (CDone Finished) →
  calm (finish i t Finished n).
Proof.
  intros Hc Hwf Ht Hp Hh Hcan He Hq. eapply (calm_local n _ i t0 (with_ctl t (CDone Finished))); done.
Qed.

Lemma finish_unclean i t o n : o ≠ Finished → is_Some (tasks n !! i) → ¬ clean (finish i t o n).
Proof.
  intros Ho Hi [He Hc]. unfold finish in *. destruct o as [|e|]; [done| |].
  - destruct (aborting _); simpl in He; by destruct (errors n).
  - apply lookup_lt_is_Some in Hi. eapply (Hc i); [simpl; by apply list_lookup_insert_eq|done].
Qed.

Lemma enter_close_unclean i t o n :
  o ≠ Finished → is_Some (tasks n !! i) → clean (enter_close i t o n) →
  ∃ q q', queues n !! i = Some q ∧ begin_close q = Some q' ∧
    enter_close i t o n = set_task i (with_ctl t (CClose o)) (set_queue i q' n).
Proof.
  intros Ho Hi. unfold enter_close. destruct (queues n !! i) as [q|]; [|by intros ?%finish_unclean].
  destruct (begin_close q) as [q'|] eqn:E; [|by intros ?%finish_unclean]. intros _. by exists q, q'.
Qed.

(** Entering the wait of [close]. *)
Lemma calm_close n i t q q' o :
  calm n → tasks n !! i = Some t → queues n !! i = Some q → begin_close q = Some q' →
  is_done t = false → (o = Finished → at_end (t_ctl t) = true) → quiet (t_proc t) (t_hist t) (CClose o) →
  wf ps (set_task i (with_ctl t (CClose o)) (set_queue i q' n)) →
  calm (set_task i (with_ctl t (CClose o)) (set_queue i q' n)).
Proof.
  intros Hc Ht Hq Hb Hd Ho Hqu Hwf. destruct (cm_task _ _ Hc i t Ht) as (Hcan & _ & H0).
  assert (q_items q' = q_items q) as Hits.
  { unfold begin_close in Hb. destruct (q_closed q); [done|]. by injection Hb as <-. }
  apply (calm_intro n _ i t (with_ctl t (CClose o)) Hc Hwf Ht); simpl; [done|apply (cm_abort _ _ Hc)|done| | |].
  - intros j Hj _. by rewrite list_lookup_insert_ne.
  - intros q0 u Hq0 Hu. rewrite list_lookup_insert_eq in Hq0 by by eapply lookup_lt_Some. injection Hq0 as <-.
    eapply calm_link_mono; [by eapply (cm_link _ _ Hc i q t u)|done| |done]. by rewrite Hd.
  - intros j q0 u -> Hq0 Hu. rewrite list_lookup_insert_ne in Hq0 by lia.
    eapply calm_link_mono; [by eapply (cm_link _ _ Hc j q0 u t)|done|done|]. simpl. by destruct o; auto.
Qed.

(** Reading from the input. *)
Lemma calm_read n i t t' q q' item :
  calm n → tasks n !! S i = Some t → queues n !! i = Some q → q_get q = Some (item, q') →
  t_cancel t' = false → quiet (t_proc t') (t_hist t') (t_ctl t') → is_done t = false →
  (at_end (t_ctl t') = true → item = None) →
  wf ps (set_task (S i) t' (set_queue i q' n)) → calm (set_task (S i) t' (set_queue i q' n)).
Proof.
  intros Hc Ht Hq Hget Hcan Hqu Hd He Hwf.
  apply (calm_intro n _ (S i) t t' Hc Hwf Ht); simpl; [done|apply (cm_abort _ _ Hc)|done| | |].
  - intros j Hj Hj'. rewrite list_lookup_insert_ne by lia. done.
  - intros q0 u Hq0 Hu. rewrite list_lookup_insert_ne in Hq0 by lia.
    destruct (cm_link _ _ Hc (S i) q0 t u Hq0 Ht Hu) as [H1 H2]. rewrite Hd in *. split.
    + left. by destruct H1 as [|[]].
    + intros E. by destruct (H2 E).
  - intros j q0 u [= <-] Hq0 Hu. rewrite list_lookup_insert_eq in Hq0 by by eapply lookup_lt_Some.
    injection Hq0 as <-. destruct (calm_link_get q u t item q') as [H1 H2]; [by apply (cm_link _ _ Hc i)|done|].
    split; [done|]. intros E. by apply H2, He.
Qed.

(** Making an effect: only a task that is not done makes one. *)
Lemma calm_effect n i t e es k :
  calm n → tasks n !! i = Some t → t_ctl t = CRun (e :: es) k →
  wf ps (add_log i e (set_task i (with_ctl t (CRun es k)) n)) →
  calm (add_log i e (set_task i (with_ctl t (CRun es k)) n)).
Proof.
  intros Hc Ht Hctl Hwf. destruct (cm_task _ _ Hc i t Ht) as (Hcan & Hqu & _). rewrite Hctl in Hqu.
  apply (calm_local n _ i t (with_ctl t (CRun es k)) Hc Hwf Ht); try done; simpl.
  - unfold is_done. by rewrite Hctl.
  - rewrite Hctl. by destruct k.
Qed.

Lemma calm_put n i t m es k q q' :
  calm n → tasks n !! i = Some t → t_ctl t = CRun (Put m :: es) k →
  queues n !! i = Some q → q_put m q = Some q' →
  wf ps (add_log i (Put m) (set_task i (with_ctl t (CRun es k)) (set_queue i q' n))) →
  calm (add_log i (Put m) (set_task i (with_ctl t (CRun es k)) (set_queue i q' n))).
Proof.
  intros Hc Ht Hctl Hq Hput Hwf. destruct (cm_task _ _ Hc i t Ht) as (Hcan & Hqu & H0).
  assert (is_done t = false) as Hd by (unfold is_done; by rewrite Hctl).
  assert (q_items q' = q_items q ++ [Some m]) as Hits.
  { unfold q_put, raw_put in Hput. destruct (full q); [done|]. by injection Hput as <-. }
  apply (calm_intro n _ i t (with_ctl t (CRun es k)) Hc Hwf Ht); simpl; [done|apply (cm_abort _ _ Hc)| | | |].
  - split; [done|]. split; [|done]. rewrite Hctl in Hqu. by destruct k.
  - intros j Hj _. by rewrite list_lookup_insert_ne.
  - intros q0 u Hq0 Hu. rewrite list_lookup_insert_eq in Hq0 by by eapply lookup_lt_Some. injection Hq0 as <-.
    destruct (cm_link _ _ Hc i q t u Hq Ht Hu) as [H1 H2]. rewrite Hd in *. split.
    + left. destruct H1 as [H1|[]]; [|done]. unfold pending in *. rewrite Hits, omap_app, fmap_app, <- H1. done.
    + intros E. by destruct (H2 E).
  - intros j q0 u -> Hq0 Hu. rewrite list_lookup_insert_ne in Hq0 by lia.
    eapply calm_link_mono; [by eapply (cm_link _ _ Hc j q0 u t)|done|done|]. simpl. rewrite Hctl. by destruct k.
Qed.

(** The sentinel is put, and the task is done. *)
Lemma calm_sentinel n i t q q' :
  calm n → tasks n !! i = Some t → t_ctl t = CClose Finished → queues n !! i = Some q →
  end_close q = Some q' → wf ps (finish i t Finished (set_queue i q' n)) →
  calm (finish i t Finished (set_queue i q' n)).
Proof.
  intros Hc Ht Hctl Hq Hend Hwf. destruct (cm_task _ _ Hc i t Ht) as (Hcan & Hqu & H0).
  assert (is_done t = false) as Hd by (unfold is_done; by rewrite Hctl).
  assert (q_items q' = q_items q ++ [None]) as Hits.
  { unfold end_close, raw_put in Hend. destruct (full q); [done|]. by injection Hend as <-. }
  apply (calm_intro n _ i t (with_ctl t (CDone Finished)) Hc Hwf Ht); simpl; [done|apply (cm_abort _ _ Hc)| | | |].
  - split; [done|]. split; [|done]. by rewrite Hctl in Hqu.
  - intros j Hj _. by rewrite list_lookup_insert_ne.
  - intros q0 u Hq0 Hu. rewrite list_lookup_insert_eq in Hq0 by by eapply lookup_lt_Some. injection Hq0 as <-.
    destruct (cm_link _ _ Hc i q t u Hq Ht Hu) as [H1 H2]. rewrite Hd in *.
    assert (pending q' = pending q) as Hp by (unfold pending; rewrite Hits, omap_app; simpl; by rewrite app_nil_r).
    split.
    + right. split; [|done]. destruct H1 as [H1|[]]; [|done]. by rewrite Hits, Hp, H1 at 1.
    + intros E. by destruct (H2 E).
  - intros j q0 u -> Hq0 Hu. rewrite list_lookup_insert_ne in Hq0 by lia.
    eapply calm_link_mono; [by eapply (cm_link _ _ Hc j q0 u t)|done|done|]. simpl. by rewrite Hctl.
Qed.

(** As long as no task has failed or was cancelled, every step keeps the invariant. *)
Lemma calm_exec i n n' : calm n → exec i n = Some n' → clean n' → calm n'.
Proof.
  intros Hc H He'. pose proof (wf_exec ps i n n' (cm_wf _ _ Hc) H) as Hwf.
  unfold exec in H. destruct (tasks n !! i) as [t|] eqn:Ht; [|done]. simpl in H.
  destruct (cm_task _ _ Hc i t Ht) as (Hcan & Hqu & H0). rewrite Hcan in H.
  destruct (t_ctl t) as [|es k|o|o] eqn:Hctl; [| | |done].
  - destruct i as [|i]; [done|]. simpl in H.
    destruct (queues n !! i) as [q|] eqn:Hq; [|done]. simpl in H.
    destruct (q_get q) as [[item q']|] eqn:Hget; [|done]. simpl in H.
    assert (is_done t = false) as Hd by (unfold is_done; by rewrite Hctl).
    destruct item as [m|]; injection H as <-; eapply calm_read; try done; simpl.
    + unfold start. destruct (on_item _ _ _).2 eqn:E; [done|]. by apply items_ok_snoc.
    + unfold start. by destruct (on_item _ _ _).2.
    + unfold start. destruct (on_end _ _).2 eqn:E; done.
  - destruct es as [|e es].
    + destruct k as [| |e]; injection H as <-.
      * apply (calm_local n _ i t (with_ctl t CGet)); try done. unfold is_done. by rewrite Hctl.
      * unfold enter_close in *. destruct (queues n !! i) as [q|] eqn:Hq.
        2:{ apply (calm_finish n i t t); try done. by rewrite Hctl. }
        destruct (begin_close q) as [q'|] eqn:Hb.
        2:{ apply (calm_finish n i t t); try done. by rewrite Hctl. }
        apply (calm_close n i t q q'); try done; [unfold is_done|]; by rewrite Hctl.
      * assert (is_Some (tasks n !! i)) as Hi by by eexists.
        unfold unwind in *. destruct (t_finally t);
          [|by apply (finish_unclean _ _ _ _ (outcome_of_raised e) Hi) in He'].
        destruct (enter_close_unclean i t _ n (outcome_of_raised e) Hi He') as (q & q' & Hq & Hb & E). rewrite E in *.
        apply (calm_close n i t q q'); try done; [unfold is_done; by rewrite Hctl| |].
        -- by intros ?%outcome_of_raised.
        -- unfold outcome_of. by destruct (isinstance e CancelledError).
    + destruct e; try (injection H as <-; by eapply calm_effect).
      destruct (queues n !! i) as [q|] eqn:Hq; [|done]. simpl in H.
      destruct (q_put m q) as [q'|] eqn:Hput; [|done]. injection H as <-. by eapply calm_put.
  - destruct (queues n !! i) as [q|] eqn:Hq; [|done]. simpl in H.
    destruct (end_close q) as [q'|] eqn:Hend; [|done]. injection H as <-.
    assert (is_Some (tasks (set_queue i q' n) !! i)) as Hi by by eexists.
    destruct o as [|e|]; [by eapply calm_sentinel|by apply finish_unclean in He'..].
Qed.
End calm.

(** ** Executions *)

Lemma exec_errors i n n' : exec i n = Some n' → errors n `prefix_of` errors n'.
Proof.
  assert (∀ t o n, errors n `prefix_of` errors (finish i t o n)) as Hfin.
  { intros t o m. unfold finish. destruct o; [done| |done]. case_match; simpl; by eexists. }
  assert (∀ t o n, errors n `prefix_of` errors (enter_close i t o n)) as Hent.
  { intros t o m. unfold enter_close. destruct (queues m !! i) as [q|]; [|apply Hfin].
    destruct (begin_close q); [done|apply Hfin]. }
  assert (∀ t o n, errors n `prefix_of` errors (unwind i t o n)) as Hunw.
  { intros t o m. unfold unwind. destruct (t_finally t); [apply Hent|apply Hfin]. }
  unfold exec. destruct (tasks n !! i) as [t|]; [|done]. simpl.
  destruct (t_cancel t).
  { destruct (t_ctl t) as [| |o|]; [| | |done]; intros [= <-];
      [apply Hunw|apply Hunw|apply (Hfin _ Cancelled)]. }
  destruct (t_ctl t) as [|[|e es] k|o|o]; [| | | |done].
  - destruct (input i n) as [q|]; [|done]. simpl. destruct (q_get q) as [[[m|] q']|]; [..|done];
      by intros [= <-].
  - destruct k; intros [= <-]; [done|apply Hent|apply Hunw].
  - destruct e; try (by intros [= <-]).
    destruct (queues n !! i) as [q|]; [|done]. simpl. destruct (q_put m q); [|done]. by intros [= <-].
  - destruct (queues n !! i) as [q|]; [|done]. simpl. destruct (end_close q) as [q'|]; [|done].
    intros [= <-]. exact (Hfin t o (set_queue i q' n)).
Qed.

(** A task that is done stays as it is. *)
Section done.
Context (i j : nat) (t : task) (o : outcome) (Hne : i ≠ j) (Hc : t_ctl t = CDone o).

Definition kept (n : net) : Prop := ∃ t', tasks n !! j = Some t' ∧ t_ctl t' = CDone o.

Lemma kept_set u n : tasks n !! j = Some t → kept (set_task i u n).
Proof. intros Hn. exists t. split; [|done]. simpl. by rewrite list_lookup_insert_ne. Qed.

Lemma kept_finish u o' n : tasks n !! j = Some t → kept (finish i u o' n).
Proof.
  intros Hn. unfold finish. pose proof (kept_set (with_ctl u (CDone o')) n Hn) as (t' & Ht' & Hc').
  destruct o'; [by exists t'| |by exists t']. case_match; [by exists t'|].
  unfold kept. simpl in *. rewrite list_lookup_fmap, Ht'. eexists. split; [reflexivity|]. by destruct (is_done t').
Qed.

Lemma kept_enter_close u o' n : tasks n !! j = Some t → kept (enter_close i u o' n).
Proof.
  intros Hn. unfold enter_close. destruct (queues n !! i) as [q|]; [|by apply kept_finish].
  destruct (begin_close q); [|by apply kept_finish]. exact (kept_set _ (set_queue i s n) Hn).
Qed.

Lemma kept_unwind u o' n : tasks n !! j = Some t → kept (unwind i u o' n).
Proof. intros Hn. unfold unwind. destruct (t_finally u); [by apply kept_enter_close|by apply kept_finish]. Qed.
End done.

Lemma exec_done i n n' j t o :
  exec i n = Some n' → tasks n !! j = Some t → t_ctl t = CDone o → kept j o n'.
Proof.
  intros H Ht Hc. assert (i ≠ j) as Hne.
  { intros ->. unfold exec in H. rewrite Ht in H. simpl in H. rewrite Hc in H. by destruct (t_cancel t). }
  pose proof (λ u, kept_set i j t o Hne Hc u n Ht) as Hset. pose proof (λ u o', kept_finish i j t o Hne Hc u o' n Ht) as Hfin.
  pose proof (λ u o', kept_enter_close i j t o Hne Hc u o' n Ht) as Hent.
  pose proof (λ u o', kept_unwind i j t o Hne Hc u o' n Ht) as Hunw.
  unfold exec in H. destruct (tasks n !! i) as [u|]; [|done]. simpl in H. destruct (t_cancel u).
  { destruct (t_ctl u) as [| |o'|]; [| | |done]; injection H as <-; [apply Hunw|apply Hunw|apply (Hfin _ Cancelled)]. }
  destruct (t_ctl u) as [|[|e es] k|o'|o']; [| | | |done].
  - destruct (input i n) as [q|]; [|done]. simpl in H. destruct (q_get q) as [[[m|] q']|]; [..|done];
      injection H as <-; apply Hset.
  - destruct k; injection H as <-; [apply Hset|apply Hent|apply Hunw].
  - destruct e; try (injection H as <-; apply Hset).
    destruct (queues n !! i) as [q|]; [|done]. simpl in H. destruct (q_put m q); [|done].
    injection H as <-. apply Hset.
  - destruct (queues n !! i) as [q|]; [|done]. simpl in H. destruct (end_close q) as [q'|]; [|done].
    injection H as <-. exact (kept_finish i j t o Hne Hc u o' (set_queue i q' n) Ht).
Qed.

Lemma clean_before i n n' : exec i n = Some n' → clean n' → clean n.
Proof.
  intros Hi [He Hc]. split.
  - apply exec_errors in Hi. rewrite He in Hi. by apply prefix_nil_inv in Hi.
  - intros j t Ht Hd. destruct (exec_done _ _ _ _ _ _ Hi Ht Hd) as (t' & Ht' & Hd'). by apply (Hc j t').
Qed.

Lemma calm_reachable ps n n' : reachable n n' → calm ps n → clean n' → calm ps n'.
Proof.
  intros Hr Hc. revert n' Hr. apply (rtc_ind_r (λ n', clean n' → calm ps n')); [done|].
  intros n1 n2 _ [i Hi] IH He. eapply calm_exec; [apply IH; by eapply clean_before|done|done].
Qed.

Lemma calm_initial src ps qs :
  length qs = length ps → Forall fresh qs → calm (src :: ps) (initial src ps qs).
Proof.
  intros Hlen Hq. constructor; [by apply wf_initial|done| |]; simpl.
  - assert (∀ p, items_ok p []) as Hnil by (intros p k m H; by apply prefix_nil_inv in H; destruct k).
    intros [|i] t; simpl; [intros [= <-]|rewrite list_lookup_fmap; intros (p & Hp & ->)%fmap_Some].
    + split; [done|]. split; [|done]. simpl. unfold start. destruct (on_end src []).2 eqn:E; [done|]. done.
    + split; [done|]. split; [apply Hnil|done].
  - intros i q t t' Hqi _ Ht'. rewrite Forall_lookup in Hq. destruct (Hq _ _ Hqi) as [Hi _].
    rewrite list_lookup_fmap in Ht'. destruct (ps !! i); [|done]. injection Ht' as <-.
    unfold calm_link, pending. rewrite Hi. split; [by left|done].
Qed.

(** What a finished task did, and what it read. *)
Lemma calm_done ps n i t p :
  calm ps n → all_done n → tasks n !! i = Some t → ps !! i = Some p →
  t_proc t = p ∧ at_end (t_ctl t) = true ∧ items_ok p (t_hist t) ∧ (on_end p (t_hist t)).2 = None ∧
  trace i n = effects_of p (t_hist t).
Proof.
  intros Hc Hd Ht Hp. destruct (wf_task _ _ (cm_wf _ _ Hc) i t p Ht Hp) as [<- Hok].
  destruct (cm_task _ _ Hc i t Ht) as (_ & Hqu & _).
  unfold all_done in Hd. rewrite Forall_lookup in Hd. specialize (Hd i t Ht). unfold is_done in Hd.
  destruct (t_ctl t) as [| | |[]]; try done. destruct Hqu, Hok as [_ Hok]. split; [done|]. by auto.
Qed.

Lemma calm_hist ps n i t t' :
  calm ps n → all_done n → tasks n !! i = Some t → tasks n !! S i = Some t' → t_hist t' = puts (trace i n).
Proof.
  intros Hc Hd Ht Ht'. destruct (wf_proc _ _ _ _ (cm_wf _ _ Hc) Ht') as (p & Hp & _).
  assert (is_Some (queues n !! i)) as [q Hq].
  { apply lookup_lt_is_Some. pose proof (wf_queues _ _ (cm_wf _ _ Hc)). apply lookup_lt_Some in Hp. lia. }
  destruct (calm_done ps n (S i) t' p Hc Hd Ht' Hp) as (_ & He & _).
  destruct (cm_link _ _ Hc i q t t' Hq Ht Ht') as [_ Hl]. destruct (Hl He) as [_ Hp0].
  rewrite (wf_link _ _ (cm_wf _ _ Hc) i q t' Hq Ht'), Hp0. by rewrite app_nil_r.
Qed.

(** A stage whose reactions did not raise ran to its end. *)
Lemma quiet_items {St} (s : stage St) h :
  items_ok (process_of s) h → ∃ es st, run_items s (st_init s) h = (es, Ok st).
Proof.
  induction h as [|m h IH] using rev_ind; intros Hok; [by exists [], (st_init s)|].
  destruct IH as (es & st & E). { intros k x [r Hr]. apply Hok. exists (r ++ [m]). by rewrite Hr, <- app_assoc. }
  specialize (Hok h m ltac:(done)). simpl in Hok. rewrite E in Hok. rewrite run_items_app, E.
  unfold mbind, W_bind. cbn [run_items]. unfold mbind, W_bind, mret, W_ret.
  destruct (st_item s st m) as [es' [st'|e]]; [|done]. by eexists _, _.
Qed.

Lemma quiet_stage {St} (s : stage St) h :
  items_ok (process_of s) h → (on_end (process_of s) h).2 = None →
  run_stage s h = (effects_of (process_of s) h, Ok tt).
Proof.
  intros Hok Hend. rewrite effects_process_of. destruct (quiet_items s h Hok) as (es & st & E).
  simpl in Hend. unfold run_stage in *. rewrite E in *. unfold mbind, W_bind.
  destruct (st_end s st) as [es' [[]|e]]; done.
Qed.

Section pipeline.
Context (w : world) (spec : PipelineSpec) (ctx : RunContext).
Abbreviation procs := (fetch_process w spec ctx :: stage_processes w spec ctx).

Lemma after_stage_done {St} (s : stage St) n i t t' t0 :
  calm procs n → all_done n → tasks n !! i = Some t → tasks n !! S i = Some t' →
  procs !! S i = Some (process_of s) →
  after_stage s (Some (t0 ++ [trace i n])) = Some ((t0 ++ [trace i n]) ++ [trace (S i) n]).
Proof.
  intros Hc Hd Ht Ht' Hp. unfold after_stage. cbn [mbind option_bind]. rewrite last_snoc. change (default [] (Some (trace i n))) with (trace i n).
  destruct (calm_done procs n (S i) t' _ Hc Hd Ht' Hp) as (_ & _ & Hok & Hend & Htr).
  rewrite <- (calm_hist procs n i t t' Hc Hd Ht Ht'). by rewrite (quiet_stage s _ Hok Hend), Htr.
Qed.

Lemma calm_sequential n : calm procs n → all_done n →
  sequential_run w spec ctx = Some ((λ i, trace i n) <$> seq 0 7).
Proof.
  intros Hc Hd.
  assert (∀ i, i < 7 → ∃ t, tasks n !! i = Some t) as Htasks.
  { intros i Hi. apply lookup_lt_is_Some. rewrite (wf_tasks _ _ (cm_wf _ _ Hc)). simpl. lia. }
  destruct (Htasks 0 ltac:(lia)) as [t0 H0], (Htasks 1 ltac:(lia)) as [t1 H1], (Htasks 2 ltac:(lia)) as [t2 H2],
    (Htasks 3 ltac:(lia)) as [t3 H3], (Htasks 4 ltac:(lia)) as [t4 H4], (Htasks 5 ltac:(lia)) as [t5 H5],
    (Htasks 6 ltac:(lia)) as [t6 H6].
  destruct (calm_done procs n 0 t0 _ Hc Hd H0 eq_refl) as (_ & _ & _ & Hend & Htr).
  destruct (cm_task _ _ Hc 0 t0 H0) as (_ & _ & Hh). rewrite (Hh eq_refl) in Hend, Htr.
  unfold fetch_process in Htr. rewrite effects_source_of in Htr.
  unfold sequential_run. simpl in Hend.
  destruct (run_fetch _ _ _) as [es [c|e]]; [|done]. simpl in Htr. subst es.
  change (Some [trace 0 n]) with (Some ([] ++ [trace 0 n])).
  rewrite (after_stage_done _ n 0 t0 t1 [] Hc Hd H0 H1 eq_refl).
  rewrite (after_stage_done _ n 1 t1 t2 _ Hc Hd H1 H2 eq_refl).
  rewrite (after_stage_done _ n 2 t2 t3 _ Hc Hd H2 H3 eq_refl).
  rewrite (after_stage_done _ n 3 t3 t4 _ Hc Hd H3 H4 eq_refl).
  rewrite (after_stage_done _ n 4 t4 t5 _ Hc Hd H4 H5 eq_refl).
  rewrite (after_stage_done _ n 5 t5 t6 _ Hc Hd H5 H6 eq_refl). done.
Qed.

(** An execution without an error and without a cancelled stage is the sequential
    run. *)
Lemma success_sequential_lemma n :
  reachable (pipeline_net w spec ctx) n → all_done n → clean n →
  sequential_run w spec ctx = Some ((λ i, trace i n) <$> seq 0 7).
Proof.
  intros Hr Hd He. apply calm_sequential; [|done].
  eapply calm_reachable; [exact Hr| |exact He]. apply calm_initial; [done|]. apply pipeline_queues_fresh.
Qed.
End pipeline.

Lemma done_stuck n : all_done n → stuck n.
Proof.
  intros Hd i. unfold exec. destruct (tasks n !! i) as [t|] eqn:Ht; [|done]. simpl.
  unfold all_done in Hd. rewrite Forall_lookup in Hd. specialize (Hd i t Ht). unfold is_done in Hd.
  destruct (t_ctl t) eqn:E; try done. destruct (t_cancel t); by rewrite ?E.
Qed.

(** ** Stages that do not cancel themselves *)

(** No reaction of the stage raises a [CancelledError]. *)
Definition steady_proc (p : process) : Prop :=
  (∀ h m e, (on_item p h m).2 = Some e → isinstance e CancelledError = false) ∧
  (∀ h e, (on_end p h).2 = Some e → isinstance e CancelledError = false).

Definition steady_task (t : task) : Prop :=
  t_cancel t = false ∧ steady_proc (t_proc t) ∧
  match t_ctl t with
  | CRun _ (ARaise e) => isinstance e CancelledError = false
  | CClose Cancelled | CDone Cancelled => False
  | _ => True
  end.

Lemma steady_start p s k : (∀ e, s.2 = Some e → isinstance e CancelledError = false) → (∀ e, k ≠ ARaise e) →
  t_cancel p = false → steady_proc (t_proc p) → t_ctl p = start s k → steady_task p.
Proof.
  intros Hs Hk Hc Hp Hctl. split; [done|]. split; [done|]. rewrite Hctl. unfold start.
  destruct s.2 as [e|]; [by apply Hs|]. destruct k; [done..|]. by destruct (Hk e).
Qed.

Section steady.
Context (n : net) (Hn : Forall steady_task (tasks n)).

Lemma steady_set i t m : tasks m = tasks n → steady_task t → Forall steady_task (tasks (set_task i t m)).
Proof. intros Hm Ht. simpl. rewrite Hm. by apply Forall_insert. Qed.

Lemma steady_finish i t o m :
  tasks m = tasks n → t_cancel t = false → steady_proc (t_proc t) → o ≠ Cancelled →
  errors (finish i t o m) = [] → Forall steady_task (tasks (finish i t o m)).
Proof.
  intros Hm Hc Hp Ho He. unfold finish in *. destruct o as [|e|]; [by apply steady_set| |done].
  exfalso. destruct (aborting _); simpl in He; by destruct (errors m).
Qed.

Lemma steady_enter_close i t o :
  t_cancel t = false → steady_proc (t_proc t) → o ≠ Cancelled →
  errors (enter_close i t o n) = [] → Forall steady_task (tasks (enter_close i t o n)).
Proof.
  intros Hc Hp Ho. unfold enter_close. destruct (queues n !! i) as [q|]; [|by apply steady_finish].
  destruct (begin_close q); [|by apply steady_finish]. intros _. apply steady_set; [done|]. by destruct o.
Qed.

Lemma steady_unwind i t o :
  t_cancel t = false → steady_proc (t_proc t) → o ≠ Cancelled →
  errors (unwind i t o n) = [] → Forall steady_task (tasks (unwind i t o n)).
Proof. unfold unwind. destruct (t_finally t); [apply steady_enter_close|by apply steady_finish]. Qed.

Lemma steady_exec i n' : exec i n = Some n' → errors n' = [] → Forall steady_task (tasks n').
Proof.
  intros H He. unfold exec in H. destruct (tasks n !! i) as [t|] eqn:Ht; [|done]. simpl in H.
  pose proof Hn as Ha. rewrite Forall_lookup in Ha. destruct (Ha i t Ht) as (Hc & Hp & Hctl). rewrite Hc in H.
  destruct (t_ctl t) as [|[|e es] k|o|o] eqn:E; [| | | |done].
  - destruct (input i n) as [q|]; [|done]. simpl in H. destruct (q_get q) as [[[m|] q']|]; [..|done];
      injection H as <-; (apply steady_set; [done|]).
    + eapply (steady_start _ (on_item (t_proc t) (t_hist t) m) ANext); try done. intros e. apply Hp.
    + eapply (steady_start _ (on_end (t_proc t) (t_hist t)) AEnd); try done. intros e. apply Hp.
  - destruct k as [| |e]; injection H as <-.
    + by apply steady_set.
    + by apply steady_enter_close.
    + apply steady_unwind; try done. unfold outcome_of. by rewrite Hctl.
  - assert (∀ m, steady_task (with_ctl t (CRun es k))) as Hnext by (intros m; by destruct k).
    destruct e; try (injection H as <-; simpl; by apply Forall_insert).
    destruct (queues n !! i) as [q|]; [|done]. simpl in H. destruct (q_put m q); [|done].
    injection H as <-. simpl. by apply Forall_insert.
  - destruct (queues n !! i) as [q|]; [|done]. simpl in H. destruct (end_close q) as [q'|]; [|done].
    injection H as <-. apply steady_finish; try done. by intros ->.
Qed.
End steady.

Lemma steady_reachable n n' :
  reachable n n' → Forall steady_task (tasks n) → errors n' = [] → Forall steady_task (tasks n').
Proof.
  intros Hr Hn. revert n' Hr. apply (rtc_ind_r (λ n', errors n' = [] → Forall steady_task (tasks n'))); [done|].
  intros n1 n2 _ [i Hi] IH He. eapply steady_exec; [apply IH|exact Hi|done].
  apply exec_errors in Hi. rewrite He in Hi. by apply prefix_nil_inv in Hi.
Qed.

(** The stages of a pipeline do not cancel themselves. *)
Definition steady (w : world) (spec : PipelineSpec) (ctx : RunContext) : Prop :=
  Forall steady_proc (fetch_process w spec ctx :: stage_processes w spec ctx).

Lemma steady_clean w spec ctx n :
  steady w spec ctx → reachable (pipeline_net w spec ctx) n → errors n = [] → clean n.
Proof.
  intros Hs Hr He. split; [done|]. intros i t Ht Hc.
  assert (Forall steady_task (tasks n)) as Hn; [|rewrite Forall_lookup in Hn; destruct (Hn i t Ht) as (_ & _ & Hctl);
    by rewrite Hc in Hctl].
  eapply steady_reachable; [exact Hr| |done]. unfold steady in Hs. apply Forall_cons in Hs as [H0 Hs].
  unfold pipeline_net, initial. cbn [tasks]. constructor.
  - eapply (steady_start _ (on_end (fetch_process w spec ctx) []) AEnd); try done. intros e. apply H0.
  - apply Forall_fmap. by eapply Forall_impl; [exact Hs|].
Qed.

(** C4: a run succeeds exactly when its stages do.  An execution of the
    pipeline in which every task is done ended without an error and without a
    cancelled task if and only if the seven stages, run one after another on the
    same input, all return; then the effects of each task are those of its stage
    in that run.  So a run that is recorded as a success skipped nothing, as long
    as no stage raises a [CancelledError] of its own, which the group would not
    notice: each stage has read all that the one before it put, however the tasks
    were interleaved and for every queue bound. *)
Theorem success_is_sequential w spec ctx n :
  reachable (pipeline_net w spec ctx) n → all_done n →
  (clean n ↔ is_Some (sequential_run w spec ctx)) ∧
  (clean n → sequential_run w spec ctx = Some ((λ i, trace i n) <$> seq 0 7)) ∧
  (steady w spec ctx → errors n = [] ↔ is_Some (sequential_run w spec ctx)).
Proof.
  intros Hr Hd. assert (is_Some (sequential_run w spec ctx) → clean n) as Hback.
  { intros [traces Hs]. destruct (pipeline_refines_lemma w spec ctx traces Hs) as (_ & _ & Hst).
    destruct (Hst n Hr (done_stuck n Hd)) as (_ & He & _). split; [done|]. intros i t. by eapply sequential_uncancelled. }
  split; [split; [|done]|split; [by apply success_sequential_lemma|]].
  - intros He. rewrite (success_sequential_lemma w spec ctx n Hr Hd He). by eexists.
  - intros Hs. split; [|by intros []%Hback]. intros He.
    rewrite (success_sequential_lemma w spec ctx n Hr Hd (steady_clean _ _ _ _ Hs Hr He)). by eexists.
Qed.
