(* ===== verification/PipelineRuns.v ===== *)
(** The outcome of a run, and concrete executions of the pipeline: a complete
    one, and one that a failure leaves waiting for ever. *)

From S2P Require Import Prelude Errors PyStr PyDict PyVal Enums Hashing HashingFacts Models Effects.
From S2P Require Import Normalize Stages PersistFacts PublishFacts StageFacts Queue Network.
From S2P Require Import NetworkFacts Completion Pipeline PipelineFacts Converse.

(** ** Outcomes *)

Lemma flatten_group es : flatten (Group es) = es ≫= flatten.
Proof. induction es as [|t es IH]; [done|]. simpl in *. by rewrite IH. Qed.

Lemma flatten_leaves es : flatten (Group (Leaf <$> es)) = es.
Proof.
  rewrite flatten_group. induction es as [|e es IH]; [done|].
  cbn [fmap list_fmap mbind list_bind flatten app]. f_equal. exact IH.
Qed.

(** C13: the outcome of a run.  When every task is done, the run succeeds
    exactly if no task failed; it is FAILED exactly if some task failed with a
    permanent error, PARTIAL exactly if some task failed with another error of
    the framework and none with a permanent one; and it raises exactly if all
    failures are foreign to the framework.  So no framework error ever leaves
    [run_with_outcome].  The counters of a result are zero in every case. *)
Theorem run_outcome ctx ctx' started finished n :
  match run_with_outcome ctx' started finished (pipeline_result ctx started finished n) with
  | inl r =>
      (state r = SUCCESS ↔ errors n = []) ∧
      (state r = FAILED ↔ ∃ e, e ∈ errors n ∧ isinstance e PermanentError = true) ∧
      (state r = PARTIAL ↔ (∃ e, e ∈ errors n ∧ isinstance e CTIError = true) ∧
                           ∀ e, e ∈ errors n → isinstance e PermanentError = false) ∧
      (records_in r, records_out r, fetched_bytes r, parse_errors r) = (0, 0, 0, 0)%Z
  | inr exc =>
      errors n ≠ [] ∧ ∀ e, e ∈ errors n → isinstance e CTIError = false
  end.
Proof.
  unfold pipeline_result. destruct (errors n) as [|e0 es] eqn:E.
  { simpl. repeat split; try done; [by intros (? & ?%elem_of_nil & _)|
      by intros [(? & ?%elem_of_nil & _) _]]. }
  unfold run_with_outcome. rewrite flatten_leaves.
  destruct (existsb (λ e, isinstance e PermanentError) (e0 :: es)) eqn:Ep.
  { apply existsb_true_exists in Ep. simpl. repeat split; try done.
    intros [_ H]. destruct Ep as (e & He & Hp). by rewrite H in Hp. }
  pose proof (proj1 (existsb_false_forall _ _) Ep) as Hnp.
  destruct (existsb (λ e, isinstance e CTIError) (e0 :: es)) eqn:Ec.
  { apply existsb_true_exists in Ec. simpl. repeat split; try done.
    intros (e & He & Hp). by rewrite Hnp in Hp. }
  split; [done|]. by apply existsb_false_forall.
Qed.

(** ** A pipeline of pure plugins *)

Definition one_payload (body : list Byte.byte) : RawPayload :=
  MkRawPayload body "text/plain" [] 0 (Some "v1") None None.

Definition sample_connector : Connector :=
  MkConnector (λ ctx, GYield (one_payload []) (set_watermark ctx "etag" (PyStr "v1")) GReturn).

Definition yields (records : list record) : Parser := MkParser (λ _ _, (records, Ok tt)).

Definition sample_world : world := World no_idna (λ n, (0, 0)%Z) (λ n, 0%Z).

Definition ipv4_config : NormalizeConfig :=
  MkNormalizeConfig (Some IPV4) None "value" 50 None INFO AMBER [] None None None true [].

Definition sample_spec : PipelineSpec :=
  MkPipelineSpec sample_connector
    (yields [[("value", PyStr "10.0.0.1")]; [("value", PyStr "bad")]; [("value", PyStr "10.0.0.2")]])
    [drop_even] (MkPublisher "postgres" (λ _ _ _, Ok tt)) [accept_all] ipv4_config None
    (Some bloom_down) 1 2.

(** The sequential run of this pipeline completes; so does every interleaving,
    with queues of one place. *)
Lemma pipeline_refines_sequential_witness :
  ∃ traces, sequential_run sample_world sample_spec sample_ctx = Some traces ∧
    ∃ n, reachable (pipeline_net sample_world sample_spec sample_ctx) n ∧ all_done n ∧
         Some (trace PERSIST n) = traces !! PERSIST.
Proof.
  destruct (sequential_run sample_world sample_spec sample_ctx) as [traces|] eqn:E;
    [|vm_compute in E; discriminate E].
  exists traces. split; [reflexivity|].
  destruct (pipeline_refines_sequential sample_world sample_spec sample_ctx traces E)
    as (_ & Hend & Hfin).
  destruct (Hend _ (rtc_refl _ _)) as (n & Hr & Hst). exists n. split; [exact Hr|].
  destruct (Hfin n Hr Hst) as (Hd & _ & Htr). split; [exact Hd|].
  vm_compute in E. injection E as <-. simpl. f_equal. by apply Htr.
Defined.

(** Each task in turn, [k] times. *)
Definition round_robin (k : nat) : list nat := concat (replicate k (seq 0 7)).

(** Whether every task is done, as a test. *)
Definition done_b (n : net) : bool :=
  forallb (λ t, match t_ctl t with CDone _ => true | _ => false end) (tasks n).

Lemma done_b_all_done n : done_b n = true → all_done n.
Proof.
  unfold done_b. rewrite forallb_true_forall. intros H. apply Forall_forall. intros t Ht.
  specialize (H t Ht). unfold is_done. by destruct (t_ctl t).
Qed.

(** Whether no task ended cancelled, as a test. *)
Definition uncancelled_b (n : net) : bool :=
  forallb (λ t, match t_ctl t with CDone Cancelled => false | _ => true end) (tasks n).

Lemma uncancelled_b_true n : uncancelled_b n = true → uncancelled n.
Proof.
  unfold uncancelled_b. rewrite forallb_true_forall. intros H i t Ht Hc.
  specialize (H t (list_elem_of_lookup_2 _ _ _ Ht)). by rewrite Hc in H.
Qed.

Lemma success_is_sequential_witness :
  let n := run_schedule (round_robin 60) (pipeline_net sample_world sample_spec sample_ctx) in
  all_done n ∧ sequential_run sample_world sample_spec sample_ctx = Some ((λ i, trace i n) <$> seq 0 7).
Proof.
  intros n. assert (all_done n) as Hd by (apply done_b_all_done; vm_compute; reflexivity). split; [exact Hd|].
  destruct (success_is_sequential sample_world sample_spec sample_ctx n) as (Hiff & Htr & _).
  - apply run_schedule_reachable.
  - exact Hd.
  - apply Htr, Hiff. destruct (sequential_run sample_world sample_spec sample_ctx) eqn:E;
      [by eexists|vm_compute in E; discriminate E].
Defined.

Definition is_webhook (x : nat * effect) : bool :=
  match x with
  | (i, Published q _) => Nat.eqb i PUBLISH && String.eqb q "webhook"
  | _ => false
  end.

Lemma durability_fence_witness :
  ∃ n l1 b l2, reachable (pipeline_net sample_world sample_spec sample_ctx) n ∧
    log n = l1 ++ (PUBLISH, Published "webhook" b) :: l2 ∧
    ∀ p, p ∈ b → p ∈ concat (published "postgres" (trace_of PERSIST l1)).
Proof.
  set (n := run_schedule (round_robin 60) (pipeline_net sample_world sample_spec sample_ctx)).
  assert (reachable (pipeline_net sample_world sample_spec sample_ctx) n) as Hr
    by apply run_schedule_reachable.
  assert (∃ l1 b l2, log n = l1 ++ (PUBLISH, Published "webhook" b) :: l2) as (l1 & b & l2 & Hl).
  { assert (existsb is_webhook (log n) = true) as Hf by (vm_compute; reflexivity).
    apply existsb_true_exists in Hf as ([i e] & Hin & Hf).
    apply list_elem_of_split in Hin as (l1 & l2 & Hl). exists l1.
    destruct e as [| | | | |q b]; try discriminate Hf. exists b, l2. rewrite Hl.
    apply andb_true_iff in Hf as [Hi Hq]. apply Nat.eqb_eq in Hi. apply String.eqb_eq in Hq.
    subst i q. reflexivity. }
  exists n, l1, b, l2. split; [exact Hr|]. split; [exact Hl|].
  exact (durability_fence sample_world sample_spec sample_ctx n Hr l1 "webhook" b l2 Hl).
Defined.

(** ** A stage that cancels itself *)

(** A parser that raises a [CancelledError] of its own, as code does in which a
    cancelled future is awaited. *)
Definition own_cancel : exn := Exn CancelledError "".

Definition quitting_spec : PipelineSpec :=
  MkPipelineSpec sample_connector (MkParser (λ _ _, ([[("value", PyStr "10.0.0.1")]], Raise own_cancel)))
    [] (MkPublisher "postgres" (λ _ _ _, Ok tt)) [] ipv4_config None None DEFAULT_MAXSIZE 500.

(** The task group takes no notice of it, and the run is a SUCCESS, although the
    payload was not parsed to its end. *)
Theorem cancellation_hides_loss :
  let n := run_schedule (round_robin 60) (pipeline_net sample_world quitting_spec sample_ctx) in
  reachable (pipeline_net sample_world quitting_spec sample_ctx) n ∧ all_done n ∧
  (∃ p, (parse (parser quitting_spec) p sample_ctx).2 = Raise own_cancel ∧ puts (trace FETCH n) = [MPayload p]) ∧
  option_map t_ctl (tasks n !! PARSE) = Some (CDone Cancelled) ∧
  ∀ t0 t1, match pipeline_result sample_ctx t0 t1 n with inl r => state r = SUCCESS | inr _ => False end.
Proof.
  intros n. assert (errors n = []) as He by (vm_compute; reflexivity).
  split; [apply run_schedule_reachable|]. split; [apply done_b_all_done; vm_compute; reflexivity|].
  split; [exists (one_payload []); split; [reflexivity|vm_compute; reflexivity]|]. split; [vm_compute; reflexivity|].
  intros t0 t1. unfold pipeline_result. by rewrite He.
Qed.

(** ** Waiting for ever after a failure *)

(** A configuration without a type: every record raises a permanent error, and
    [skip_on_error] is off. *)
Definition strict_config : NormalizeConfig :=
  MkNormalizeConfig None None "value" 50 None INFO AMBER [] None None None false [].

Definition no_type_error : exn :=
  Exn PermanentError "normalize: indicator_type or type_field must be set".

(** A payload of 1002 records and queues of the default size. *)
Definition jam_spec : PipelineSpec :=
  MkPipelineSpec sample_connector (yields (replicate 1002 [("value", PyStr "10.0.0.1")]))
    [] (MkPublisher "postgres" (λ _ _ _, Ok tt)) [] strict_config None None DEFAULT_MAXSIZE 500.

(** The fetch stage finishes; the parse stage puts its first record, which the
    normalize stage takes, and then fills its queue while the normalize stage
    raises; then every task runs as far as it can. *)
Definition jam_schedule : list nat :=
  replicate 10 FETCH ++ replicate 2 PARSE ++ [NORMALIZE] ++ replicate 1001 PARSE ++
  replicate 5 NORMALIZE ++ round_robin 5.

Definition jammed : net := run_schedule jam_schedule (pipeline_net sample_world jam_spec sample_ctx).

(** The state is described by what can be computed of it. *)
Lemma jam_shape n e :
  length (tasks n) = 7 → errors n = [e] →
  forallb (λ i, match exec i n with None => true | Some _ => false end) (seq 0 7) = true →
  option_map (λ t, (t_ctl t, t_cancel t)) (tasks n !! PARSE) = Some (CClose Cancelled, false) →
  option_map t_ctl (tasks n !! NORMALIZE) = Some (CDone (Failed e)) →
  errors n = [e] ∧ stuck n ∧ ¬ all_done n ∧
  (∃ t, tasks n !! PARSE = Some t ∧ t_ctl t = CClose Cancelled ∧ t_cancel t = false) ∧
  (∃ t, tasks n !! NORMALIZE = Some t ∧ t_ctl t = CDone (Failed e)).
Proof.
  intros Hlen He Hst Hp Hn. split; [done|]. split.
  { intros i. destruct (decide (i < 7)) as [Hi|Hi].
    - rewrite forallb_true_forall in Hst. specialize (Hst i).
      assert (i ∈ seq 0 7) as Hin by (apply elem_of_seq; lia). specialize (Hst Hin).
      by destruct (exec i n).
    - unfold exec. rewrite (proj2 (lookup_ge_None (tasks n) i)); [done|lia]. }
  destruct (tasks n !! PARSE) as [t|] eqn:Ht; [|done]. injection Hp as Hc Hcan.
  destruct (tasks n !! NORMALIZE) as [u|] eqn:Hu; [|done]. injection Hn as Hn.
  split; [|split; eauto]. intros H. apply (Forall_lookup_1 _ _ _ _ H) in Ht.
  unfold is_done in Ht. by rewrite Hc in Ht.
Qed.

(** C7: a failure can leave the pipeline waiting for ever.  With queues of the
    default size and a payload of 1002 records, an execution reaches a state in
    which the normalize stage has failed with a permanent error and every other
    stage has been cancelled, but the parse stage is inside its [finally]
    clause, waiting to put the sentinel on a full queue that nobody reads: no
    task can run, one is not done, and so the task group never returns the
    failed outcome. *)
Theorem failure_deadlock :
  reachable (pipeline_net sample_world jam_spec sample_ctx) jammed ∧
  errors jammed = [no_type_error] ∧ stuck jammed ∧ ¬ all_done jammed ∧
  (∃ t, tasks jammed !! PARSE = Some t ∧ t_ctl t = CClose Cancelled ∧ t_cancel t = false) ∧
  (∃ t, tasks jammed !! NORMALIZE = Some t ∧ t_ctl t = CDone (Failed no_type_error)).
Proof.
  split; [apply run_schedule_reachable|].
  apply jam_shape; vm_compute; reflexivity.
Qed.
