(* ===== verification/Steady.v ===== *)
(** Pipelines whose stages do not cancel themselves: that no plugin raises a
    [CancelledError] of its own is enough, since no stage of the code does. *)

From S2P Require Import Prelude Errors PyStr PyDict PyVal Enums Hashing Models Effects Normalize.
From S2P Require Import NormalizeFacts Stages StageFacts Queue Network NetworkFacts Pipeline PipelineFacts Converse.
From S2P Require Import PipelineRuns.

(** ** Results that are no [CancelledError] *)

Definition orderly {A} (r : res A) : Prop := ∀ e, r = Raise e → isinstance e CancelledError = false.

Lemma ordinary_class c : issubclass c PyException = true → issubclass c CancelledError = false.
Proof. by destruct c. Qed.

Lemma orderly_exception {A} (r : res A) : raises_only r [PyException] → orderly r.
Proof. intros H e He. apply H in He. simpl in He. rewrite orb_false_r in He. by apply ordinary_class. Qed.

Lemma orderly_Ok {A} (a : A) : orderly (Ok a).
Proof. done. Qed.
Lemma orderly_raise {A} c m : issubclass c CancelledError = false → orderly (raise (A:=A) c m).
Proof. by intros H e [= <-]. Qed.
Lemma orderly_bind {A B} (m : res A) (f : A → res B) : orderly m → (∀ a, orderly (f a)) → orderly (m ≫= f).
Proof. intros Hm Hf. destruct m as [a|e]; [apply Hf|]. intros e' [= <-]. by apply Hm. Qed.
Lemma orderly_try {A} (m : res A) cs h : orderly m → (∀ e, orderly (h e)) → orderly (try_except m cs h).
Proof. intros Hm Hh. destruct m as [a|e]; [done|]. simpl. by destruct (existsb _ _). Qed.

(** The same for stage bodies, whatever they did before. *)
Abbreviation orderly_W m := (orderly (snd m)).

Lemma orderly_W_bind {A B} (m : W A) (f : A → W B) :
  orderly_W m → (∀ a, orderly_W (f a)) → orderly_W (m ≫= f).
Proof.
  intros Hm Hf. unfold mbind, W_bind. destruct m as [es [a|e]]; [|intros e' [= <-]; by apply Hm].
  pose proof (Hf a) as H. by destruct (f a).
Qed.

Lemma orderly_W_catch {A} (m : W A) cs h :
  orderly_W m → (∀ e, isinstance e CancelledError = false → orderly_W (h e)) → orderly_W (catch m cs h).
Proof.
  intros Hm Hh. destruct m as [es [a|e]]; [done|]. simpl. pose proof (Hh e (Hm e eq_refl)) as H.
  destruct (existsb _ _); [by destruct (h e)|]. intros e' [= <-]. by apply Hm.
Qed.

Lemma orderly_for_each {A} (l : list A) (f : A → W unit) : (∀ a, orderly_W (f a)) → orderly_W (for_each l f).
Proof. intros Hf. induction l as [|a l IH]; [done|]. by apply orderly_W_bind. Qed.

Lemma orderly_fold f ps st :
  (∀ st p, p ∈ ps → orderly_W (f st p)) → orderly_W (fold_publishers f ps st).
Proof.
  revert st. induction ps as [|p ps IH]; intros st Hf; [done|]. cbn [fold_publishers].
  apply orderly_W_bind; [apply Hf; by left|]. intros st'. apply IH. intros st0 q Hq. apply Hf. by right.
Qed.

#[local] Hint Resolve orderly_Ok : core.
#[local] Hint Extern 1 (orderly _) => (by apply orderly_raise) : core.

Ltac orderly_step :=
  match goal with
  | |- orderly_W (mbind _ _) => apply orderly_W_bind; [|intros ?]
  | |- orderly_W (catch _ _ _) => apply orderly_W_catch; [|intros ? ?]
  | |- orderly_W (for_each _ _) => apply orderly_for_each; intros ?
  | |- orderly_W (lift _) => cbn [snd lift]
  | |- orderly_W (tell _) => exact (orderly_Ok tt)
  | |- orderly_W (inc _ _) => exact (orderly_Ok tt)
  | |- orderly_W (put _) => exact (orderly_Ok tt)
  | |- orderly_W (mret _) => exact (orderly_Ok _)
  | |- orderly_W (wrong_type) => by apply orderly_raise
  | |- orderly_W (throw ?e) => intros ? [= <-]; done
  | |- orderly_W (if ?b then _ else _) => destruct b eqn:?
  | |- orderly_W (match ?x with _ => _ end) => destruct x eqn:?
  | |- orderly_W (let '_ := ?x in _) => destruct x eqn:?
  end.
Ltac orderly := repeat orderly_step; eauto.

Lemma steady_process {St} (s : stage St) :
  (∀ st m, orderly_W (st_item s st m)) → (∀ st, orderly_W (st_end s st)) → steady_proc (process_of s).
Proof.
  intros Hi He. split; simpl.
  - intros h m e. destruct (run_items s (st_init s) h) as [es [st|e0]]; [|done]. specialize (Hi st m).
    destruct (st_item s st m) as [es' [x|e']]; [done|]. intros [= <-]. by apply Hi.
  - intros h e. destruct (run_items s (st_init s) h) as [es [st|e0]]; [|done]. specialize (He st).
    destruct (st_end s st) as [es' [x|e']]; [done|]. intros [= <-]. by apply He.
Qed.

(** ** The stages over such plugins *)

Fixpoint orderly_generator (g : generator) : Prop :=
  match g with
  | GYield _ _ k => ∀ ctx, orderly_generator (k ctx)
  | GReturn _ => True
  | GRaise _ e => isinstance e CancelledError = false
  end.

(** No plugin raises a [CancelledError] of its own. *)
Record orderly_plugins (w : world) (spec : PipelineSpec) : Prop := {
  op_fetch ctx : orderly_generator (fetch (connector spec) ctx);
  op_archive a ctx p : archive spec = Some a → orderly (archive_put a ctx p);
  op_parse p ctx : orderly (parse (parser spec) p ctx).2;
  op_idna s : raises_only (idna w s) [UnicodeError];
  op_enrich e i ctx : e ∈ enrichers spec → orderly (enrich e i ctx);
  op_bloom b f x y z : bloom spec = Some b → bloom_redis b = Some f → orderly (f x y z);
  op_canonical k b ctx : orderly (publish (canonical_publisher spec) k b ctx);
  op_extra p k b ctx : p ∈ extra_publishers spec → orderly (publish p k b ctx)
}.

Lemma orderly_fetch_loop archive g :
  (∀ a ctx p, archive = Some a → orderly (archive_put a ctx p)) → orderly_generator g →
  orderly_W (fetch_loop archive g).
Proof.
  intros Ha. induction g as [p ctx k IH|ctx|ctx e]; intros Hg; cbn [fetch_loop]; [|orderly..].
  repeat (apply orderly_W_bind; [|intros ?]); [orderly..| |orderly|by apply IH].
  destruct archive as [x|]; orderly.
Qed.

Lemma py_int_orderly v : orderly (py_int v).
Proof.
  apply orderly_exception. destruct v as [| | |f|t| |]; simpl; raises.
  intros e He%int_of_str_raises. simpl in *. rewrite orb_false_r in *. by eapply issubclass_trans.
Qed.

Lemma record_orderly idna now r cfg :
  (∀ s, raises_only (idna s) [UnicodeError]) → orderly (record_to_indicator idna now r cfg).
Proof.
  intros Hi. unfold record_to_indicator. apply orderly_bind.
  { intros e He%record_type_raises. simpl in He. apply ordinary_class.
    rewrite orb_false_r in He. apply orb_true_iff in He as [He|He]; by eapply issubclass_trans. }
  intros [t|]; [|done].
  assert (∀ v, orderly (confidence ← record_confidence r cfg; i ← build idna now t v
    (MkFields None confidence (severity_default cfg) (tlp_default cfg) (fromkeys (record_tags r cfg)) None None);
    Ok (Some i))) as Hb.
  { intros v. apply orderly_bind.
    - unfold record_confidence. destruct (optional_field _ _); [|done]. apply orderly_try; [apply py_int_orderly|done].
    - intros c. apply orderly_bind; [|done]. apply orderly_exception. intros e He%build_raises; [|done].
      simpl in *. rewrite orb_false_r in *. by eapply issubclass_trans. }
  repeat case_match; try done; apply Hb.
Qed.

Lemma observation_orderly now ctx i raw : orderly (new_Observation now ctx i raw).
Proof. apply orderly_exception. unfold new_Observation, check_confidence. raises. Qed.

Section steady.
Context (w : world) (spec : PipelineSpec) (Hp : orderly_plugins w spec).

Lemma steady_fetch ctx : steady_proc (fetch_process w spec ctx).
Proof.
  split; [done|]. intros h e. simpl. unfold run_fetch.
  pose proof (orderly_fetch_loop (archive spec) (fetch (connector spec) ctx)) as H.
  destruct (fetch_loop _ _) as [es [x|e']]; [done|]. intros [= <-]. apply H; [|by apply (op_fetch _ _ Hp)|done].
  intros. by apply (op_archive _ _ Hp).
Qed.

Lemma parse_steady ctx : steady_proc (process_of (run_parse (parser spec) ctx)).
Proof.
  apply steady_process; [|done]. intros [] m. change (orderly_W (parse_item (parser spec) ctx m)).
  unfold parse_item. orderly. match goal with H : parse _ ?p _ = (_, ?r) |- orderly ?r =>
    pose proof (op_parse _ _ Hp p ctx) as Hr; by rewrite H in Hr end.
Qed.

Lemma normalize_steady : steady_proc (process_of (run_normalize (idna w) (ind_clock w) (normalize spec))).
Proof.
  apply steady_process; [|done]. intros n m. change (orderly_W (normalize_item (idna w) (ind_clock w) (normalize spec) n m)).
  unfold normalize_item. orderly. apply record_orderly, (op_idna _ _ Hp).
Qed.

Lemma enrich_steady ctx : steady_proc (process_of (run_enrich (enrichers spec) ctx)).
Proof.
  apply steady_process; [|done]. intros [] m. change (orderly_W (enrich_item (enrichers spec) ctx m)).
  unfold enrich_item. orderly. pose proof (op_enrich _ _ Hp) as He. revert He.
  match goal with |- _ → orderly (enrich_chain _ _ ?i) => generalize i end.
  induction (enrichers spec) as [|x l IH]; intros i' He; simpl; [done|].
  apply orderly_bind; [apply He; by left|]. intros [j|]; [|done]. apply IH. intros y k c Hy. apply He. by right.
Qed.

Lemma dedup_steady : steady_proc (process_of (run_dedup (bloom spec))).
Proof.
  apply steady_process; [|done]. intros [] m. change (orderly_W (dedup_item (bloom spec) m)).
  unfold dedup_item. orderly. unfold bloom_add. destruct (bloom_redis _) as [f|] eqn:E; [|done].
  apply orderly_try; [|done]. apply orderly_bind; [by eapply (op_bloom _ _ Hp)|done].
Qed.

Lemma persist_steady ctx :
  steady_proc (process_of (run_persist (canonical_publisher spec) ctx (batch_size spec) (obs_clock w))).
Proof.
  assert (∀ st, orderly_W (persist_flush (canonical_publisher spec) ctx st)) as Hf.
  { intros st. unfold persist_flush. orderly. apply (op_canonical _ _ Hp). }
  apply steady_process; intros st; [intros m|].
  - change (orderly_W (persist_item (canonical_publisher spec) ctx (batch_size spec) (obs_clock w) st m)).
    unfold persist_item. destruct m; try by apply orderly_raise.
    apply orderly_W_bind; [apply observation_orderly|]. intros obs. cbn zeta. orderly.
  - apply orderly_W_bind; [apply Hf|done].
Qed.

Lemma publish_steady ctx :
  steady_proc (process_of (run_publish (extra_publishers spec) ctx (batch_size spec))).
Proof.
  assert (∀ st p, p ∈ extra_publishers spec → orderly_W (publish_flush ctx st p)) as Hf.
  { intros st p Hin. unfold publish_flush. orderly. by apply (op_extra _ _ Hp). }
  apply steady_process; intros st; [intros m|].
  - change (orderly_W (publish_item (extra_publishers spec) ctx (batch_size spec) st m)).
    assert (∀ x, orderly_W (fold_publishers (λ st, publish_append ctx (batch_size spec) st x)
              (extra_publishers spec) st)) as Hx.
    { intros x. apply orderly_fold. intros st0 p Hin. unfold publish_append. cbn zeta. orderly. }
    unfold publish_item. destruct (extra_publishers spec) as [|p l]; [done|].
    destruct m; try by apply orderly_raise. apply Hx.
  - apply orderly_W_bind; [by apply orderly_fold|done].
Qed.

(** A pipeline of such plugins does not cancel itself. *)
Lemma orderly_steady ctx : steady w spec ctx.
Proof.
  unfold steady, stage_processes. repeat constructor; try apply steady_fetch; try apply parse_steady;
    try apply normalize_steady; try apply enrich_steady; try apply dedup_steady; try apply persist_steady;
    apply publish_steady.
Qed.

(** So all that ends in it without an error ends normally. *)
Theorem orderly_clean ctx n :
  reachable (pipeline_net w spec ctx) n → errors n = [] → clean n.
Proof. intros Hr He. exact (steady_clean w spec ctx n (orderly_steady ctx) Hr He). Qed.
End steady.

(** The sample pipeline is of this kind. *)
Lemma sample_orderly : orderly_plugins sample_world sample_spec.
Proof.
  split; simpl; try done.
  - by intros s e [= <-].
  - intros e i ctx H e' He. apply list_elem_of_singleton in H as ->. discriminate He.
  - by intros b f x y z [= <-] [= <-] e [= <-].
  - intros p k b ctx Hp. by apply list_elem_of_singleton in Hp as ->.
Qed.

Lemma orderly_clean_witness :
  clean (run_schedule (round_robin 60) (pipeline_net sample_world sample_spec sample_ctx)).
Proof.
  apply (orderly_clean sample_world sample_spec sample_orderly sample_ctx).
  - apply run_schedule_reachable.
  - vm_compute. reflexivity.
Defined.
