(* ===== verification/Breaker.v ===== *)
(** [manager/circuit_breaker.py]: the per-source circuit breaker.  Times are
    rational numbers of seconds; every operation runs under the breaker's lock,
    so operations are atomic and a history is a sequence of them. *)

From Stdlib Require Import QArith.
From S2P Require Import Prelude Errors PyDict Enums.

Inductive CircuitState := CLOSED | OPEN | HALF_OPEN.

#[export] Instance CircuitState_eq_dec : EqDecision CircuitState.
Proof. solve_decision. Defined.

Definition CircuitState_value (s : CircuitState) : string :=
  match s with CLOSED => "closed" | OPEN => "open" | HALF_OPEN => "half_open" end.

#[export] Program Instance CircuitState_enum : StrEnum CircuitState := {|
  members := [CLOSED; OPEN; HALF_OPEN]; value := CircuitState_value |}.
Solve Obligations with solve_enum.

Record CircuitPolicy := MkCircuitPolicy { failure_threshold : Z; recovery_seconds : Q }.

Definition default_CircuitPolicy : CircuitPolicy := MkCircuitPolicy 5 300.

Record CircuitBreaker := MkCircuitBreaker {
  cb_source_id : string;
  cb_policy : CircuitPolicy;
  cb_state : CircuitState;
  cb_failures : Z;
  cb_opened_at : Q;
  cb_metric : option Z          (** the gauge [CIRCUIT_STATE] of the source *)
}.

Definition new_CircuitBreaker (source_id : string) (policy : CircuitPolicy) : CircuitBreaker :=
  MkCircuitBreaker source_id policy CLOSED 0 0 None.

Definition metric_value (s : CircuitState) : Z :=
  match s with CLOSED => 0 | HALF_OPEN => 1 | OPEN => 2 end.

(** [_record_metric]. *)
Definition record_metric (b : CircuitBreaker) : CircuitBreaker :=
  MkCircuitBreaker (cb_source_id b) (cb_policy b) (cb_state b) (cb_failures b) (cb_opened_at b)
    (Some (metric_value (cb_state b))).

Definition with_state (b : CircuitBreaker) (s : CircuitState) : CircuitBreaker :=
  MkCircuitBreaker (cb_source_id b) (cb_policy b) s (cb_failures b) (cb_opened_at b) (cb_metric b).

(** [before()], at the monotonic time [now]. *)
Definition before (now : Q) (b : CircuitBreaker) : res unit * CircuitBreaker :=
  match cb_state b with
  | OPEN =>
      if Qle_bool (recovery_seconds (cb_policy b)) (now - cb_opened_at b)
      then (Ok tt, record_metric (with_state b HALF_OPEN))
      else (raise CircuitOpen ("circuit open for source " +:+ cb_source_id b), record_metric b)
  | _ => (Ok tt, record_metric b)
  end.

Definition on_success (b : CircuitBreaker) : CircuitBreaker :=
  record_metric (MkCircuitBreaker (cb_source_id b) (cb_policy b) CLOSED 0 (cb_opened_at b)
                   (cb_metric b)).

Definition on_failure (now : Q) (b : CircuitBreaker) : CircuitBreaker :=
  let failures := (cb_failures b + 1)%Z in
  record_metric
    (if bool_decide (cb_state b = HALF_OPEN) || (failure_threshold (cb_policy b) <=? failures)%Z
     then MkCircuitBreaker (cb_source_id b) (cb_policy b) OPEN failures now (cb_metric b)
     else MkCircuitBreaker (cb_source_id b) (cb_policy b) (cb_state b) failures (cb_opened_at b)
            (cb_metric b)).

(** ** The registry of breakers *)

Abbreviation breakers := (list (string * CircuitBreaker)).

(** [BreakerRegistry.get]: the policy of the first call stays. *)
Definition get_breaker (source_id : string) (policy : CircuitPolicy) (store : breakers)
    : CircuitBreaker * breakers :=
  match dget store source_id with
  | Some b => (b, store)
  | None =>
      let b := new_CircuitBreaker source_id policy in (b, dset store source_id b)
  end.

Lemma get_breaker_stable id p p' store b store' :
  get_breaker id p store = (b, store') → get_breaker id p' store' = (b, store').
Proof.
  unfold get_breaker. destruct (dget store id) as [b0|] eqn:E; intros [= <- <-].
  - by rewrite E.
  - by rewrite dget_dset_eq.
Qed.

(** ** Histories *)

(** The operations other than [before] are told the outcome of a run. *)
Inductive event := Before (now : Q) | Success | Failure (now : Q).

Definition apply_event (b : CircuitBreaker) (e : event) : CircuitBreaker :=
  match e with
  | Before now => (before now b).2
  | Success => on_success b
  | Failure now => on_failure now b
  end.

Definition run_events (b : CircuitBreaker) (h : list event) : CircuitBreaker :=
  fold_left apply_event h b.

(** ** The specification: what admission depends on *)

(** The failures since the last success, the instant of the last failure, and
    whether a call was admitted for a trial since then. *)
Record summary := Summary { consecutive : Z; last_failure : Q; trial : bool }.

Section spec.
Context (p : CircuitPolicy).

(** The number of consecutive failures that opens the breaker. *)
Definition limit : Z := Z.max 1 (failure_threshold p).

Definition recovered (s : summary) (now : Q) : bool :=
  Qle_bool (recovery_seconds p) (now - last_failure s).

Definition admits (s : summary) (now : Q) : bool :=
  (consecutive s <? limit)%Z || trial s || recovered s now.

Definition spec_event (s : summary) (e : event) : summary :=
  match e with
  | Before now =>
      Summary (consecutive s) (last_failure s)
        (trial s || ((limit <=? consecutive s)%Z && recovered s now))
  | Success => Summary 0 (last_failure s) false
  | Failure now => Summary (consecutive s + 1) now false
  end.

Definition summarize (h : list event) : summary := fold_left spec_event h (Summary 0 0 false).

(** The breaker represents the summary. *)
Definition represents (b : CircuitBreaker) (s : summary) : Prop :=
  cb_policy b = p ∧ cb_failures b = consecutive s ∧ (0 <= consecutive s)%Z ∧
  (trial s = true → limit <= consecutive s)%Z ∧
  (cb_state b = if (consecutive s <? limit)%Z then CLOSED
                else if trial s then HALF_OPEN else OPEN) ∧
  ((limit <= consecutive s)%Z → cb_opened_at b = last_failure s).

Lemma represents_event b s e :
  represents b s → represents (apply_event b e) (spec_event s e).
Proof.
  intros (Hp & Hf & H0 & Ht & Hst & Ho). destruct s as [c lf tr]. simpl in *.
  destruct e as [now| |now].
  - simpl. unfold before, recovered, represents. simpl. rewrite Hst, Hp.
    assert ((c <? limit)%Z = negb (limit <=? c)%Z) as Hneg by apply Z.ltb_antisym.
    destruct (Z.leb_spec limit c) as [Hle|Hlt]; rewrite Hneg in *; simpl in *.
    + rewrite (Ho Hle). destruct tr; simpl; [rewrite Hst; repeat split; try done; lia|].
      destruct (Qle_bool _ _); simpl; rewrite ?Hst; repeat split; try done; lia.
    + destruct tr; [by specialize (Ht eq_refl); lia|]. simpl. rewrite Hst.
      repeat split; try done; lia.
  - unfold represents, limit. simpl.
    destruct (Z.ltb_spec 0 (Z.max 1 (failure_threshold p))); [|lia].
    repeat split; try done; lia.
  - unfold represents, apply_event, on_failure, spec_event. rewrite Hp, Hf, Hst.
    cbn [consecutive last_failure trial].
    assert (bool_decide ((if (c <? limit)%Z then CLOSED else if tr then HALF_OPEN else OPEN)
                         = HALF_OPEN) || (failure_threshold p <=? c + 1)%Z
            = (limit <=? c + 1)%Z) as ->.
    { unfold limit in *.
      destruct (Z.ltb_spec c (Z.max 1 (failure_threshold p))),
        (Z.leb_spec (Z.max 1 (failure_threshold p)) (c + 1)),
        (Z.leb_spec (failure_threshold p) (c + 1)); try lia; try done.
      all: by rewrite orb_true_r. }
    destruct (Z.leb_spec limit (c + 1)), (Z.ltb_spec (c + 1) limit); try lia; simpl;
      repeat split; try done; try lia.
    by destruct (Z.ltb_spec c limit); [|lia].
Qed.

Lemma represents_history h b s :
  represents b s → represents (run_events b h) (fold_left spec_event h s).
Proof.
  revert b s. induction h as [|e h IH]; intros b s H; [done|]. simpl.
  by apply IH, represents_event.
Qed.

Lemma represents_new id : represents (new_CircuitBreaker id p) (Summary 0 0 false).
Proof.
  unfold represents, limit. simpl.
  destruct (Z.ltb_spec 0 (Z.max 1 (failure_threshold p))); [|lia].
  repeat split; try done; lia.
Qed.
End spec.

(** C14: what the breaker lets through.  After any sequence of operations a call
    is admitted exactly when fewer than the threshold of failures followed the
    last success (one at least), or the recovery time has passed since the last
    failure, or a trial call was already admitted since then; the breaker is
    closed exactly in the first case, and the gauge shows its state. *)
Theorem breaker_admission id policy h now :
  let b := run_events (new_CircuitBreaker id policy) h in
  let s := summarize policy h in
  is_ok (before now b).1 = admits policy s now ∧
  (cb_state b = CLOSED ↔ (consecutive s < Z.max 1 (failure_threshold policy))%Z) ∧
  cb_metric (before now b).2 = Some (metric_value (cb_state (before now b).2)).
Proof.
  intros b s. destruct (represents_history policy h _ _ (represents_new policy id))
    as (Hp & Hf & H0 & Ht & Hst & Ho). fold b in Hp, Hf, Hst, Ho. fold (summarize policy h) in *.
  fold s in Hf, H0, Ht, Hst, Ho. split; [|split].
  - unfold before, admits, recovered. rewrite Hst, Hp.
    destruct (Z.ltb_spec (consecutive s) (limit policy)); [done|].
    destruct (trial s); simpl; [done|]. rewrite Ho by done. by destruct (Qle_bool _ _).
  - rewrite Hst. fold (limit policy).
    destruct (Z.ltb_spec (consecutive s) (limit policy)); [done|]. split; [|lia].
    by destruct (trial s).
  - unfold before. destruct (cb_state b); [done| |done]. by destruct (Qle_bool _ _).
Qed.
