(* ===== verification/RateLimit.v ===== *)
(** [core/ratelimit.py]: per-key token buckets.  Times, rates and tokens are
    rational numbers; a call runs under the limiter's lock (in process) or as
    one script (in Redis), so calls are atomic.  The clock by which Redis lets keys
    expire is taken to be the one that the callers read. *)

From Stdlib Require Import QArith Qminmax Lqa.
From S2P Require Import Prelude Errors PyDict.

#[local] Open Scope Q_scope.
#[local] Open Scope list_scope.

Record Bucket := MkBucket { capacity : Q; b_rate : Q; tokens : Q; updated_at : Q }.

(** What the script keeps in the hash of a key, and when the key expires. *)
Record RedisHash := MkRedisHash { h_t : Q; h_u : Q; h_expires : Q }.

(** The seconds of [EXPIRE]. *)
Definition EXPIRY : Q := 3600.

(** [HMGET]: a key that has expired is gone. *)
Definition unexpired (now : Q) (h : RedisHash) : option RedisHash :=
  if Qle_bool (h_expires h) now then None else Some h.

Record TokenBucket := MkTokenBucket {
  rate : Q;
  burst : Q;
  with_redis : bool;
  prefix_ : string;
  local : list (string * Bucket);
  redis : list (string * RedisHash)
}.

(** [TokenBucket(...)]. *)
Definition new_TokenBucket (rate_per_sec : Q) (burst : option Q) (with_redis : bool)
    (prefix : string) : res TokenBucket :=
  if Qle_bool rate_per_sec 0 then raise ValueError "rate_per_sec must be > 0"
  else Ok (MkTokenBucket rate_per_sec
             (match burst with Some b => b | None => Qmax 1 rate_per_sec end)
             with_redis prefix [] []).

(** [_try_local], at the monotonic time [now]: the wait, zero when the tokens
    were taken. *)
Definition try_local (now : Q) (key : string) (cost : Q) (tb : TokenBucket) : Q * TokenBucket :=
  let b := default (MkBucket (burst tb) (rate tb) (burst tb) now) (dget (local tb) key) in
  let elapsed := Qmax 0 (now - updated_at b) in
  let t := Qmin (burst tb) (tokens b + elapsed * rate tb) in
  let store t := MkTokenBucket (rate tb) (burst tb) (with_redis tb) (prefix_ tb)
                   (dset (local tb) key (MkBucket (capacity b) (b_rate b) t now)) (redis tb) in
  if Qle_bool cost t then (0, store (t - cost)) else ((cost - t) / rate tb, store t).

(** The script [_LUA] on the hash of its key. *)
Definition lua_script (h : option RedisHash) (now rate cap cost : Q) : (bool * Q) * RedisHash :=
  let '(t, u) := match h with Some h => (h_t h, h_u h) | None => (cap, now) end in
  let delta := Qmax 0 (now - u) in
  let t := Qmin cap (t + delta * rate) in
  let '(allowed, t) := if Qle_bool cost t then (true, t - cost) else (false, t) in
  ((allowed, t), MkRedisHash t now (now + EXPIRY)).

(** [_try_redis], at the wall-clock time [now]. *)
Definition try_redis (now : Q) (key : string) (cost : Q) (tb : TokenBucket) : Q * TokenBucket :=
  let k := (prefix_ tb +:+ key)%string in
  let '((allowed, t), h) := lua_script (dget (redis tb) k ≫= unexpired now) now (rate tb) (burst tb) cost in
  let tb := MkTokenBucket (rate tb) (burst tb) (with_redis tb) (prefix_ tb) (local tb)
              (dset (redis tb) k h) in
  if allowed then (0, tb) else (Qmax 0 ((cost - t) / rate tb), tb).

(** [_try]. *)
Definition try_ (now : Q) (key : string) (cost : Q) (tb : TokenBucket) : Q * TokenBucket :=
  if with_redis tb then try_redis now key cost tb else try_local now key cost tb.

(** [acquire], called at [now]: it sleeps for the wait that an attempt returned;
    [late] says by how much each sleep oversleeps, and the answer is [None] when
    these are exhausted before the tokens were taken. *)
Fixpoint acquire (late : list Q) (now : Q) (key : string) (cost : Q) (tb : TokenBucket)
    : option (Q * TokenBucket) :=
  let '(wait, tb) := try_ now key cost tb in
  if Qle_bool wait 0 then Some (now, tb)
  else match late with
       | [] => None
       | over :: late => acquire late (now + wait + over) key cost tb
       end.

(** ** [HostRateLimiter] *)

Record HostRateLimiter := MkHostRateLimiter {
  default_bucket : TokenBucket;
  host_buckets : list (string * TokenBucket)
}.

Definition new_HostRateLimiter (default_rps : Q) (overrides : list (string * Q))
    (with_redis : bool) : res HostRateLimiter :=
  d ← new_TokenBucket default_rps None with_redis "cti:rl:default:";
  bs ← mapM_res (λ hr : string * Q,
         b ← new_TokenBucket hr.2 None with_redis ("cti:rl:" +:+ hr.1 +:+ ":"); Ok (hr.1, b))
         overrides;
  Ok (MkHostRateLimiter d (dict bs)).

(** One attempt of [acquire(host)]: the bucket of the host or the default one,
    under the host as key. *)
Definition host_try (now : Q) (host : string) (cost : Q) (l : HostRateLimiter)
    : Q * HostRateLimiter :=
  match dget (host_buckets l) host with
  | Some b => let '(w, b) := try_ now host cost b in
              (w, MkHostRateLimiter (default_bucket l) (dset (host_buckets l) host b))
  | None => let '(w, b) := try_ now host cost (default_bucket l) in
            (w, MkHostRateLimiter b (host_buckets l))
  end.

(** ** One bucket *)

(** The tokens and the instant that are stored for a key, wherever it is kept. *)
Definition stored (key : string) (tb : TokenBucket) : option (Q * Q) :=
  if with_redis tb
  then (λ h, (h_t h, h_u h)) <$> dget (redis tb) (prefix_ tb +:+ key)
  else (λ b, (tokens b, updated_at b)) <$> dget (local tb) key.

(** A key of Redis expires [EXPIRY] after the instant that is stored with it. *)
Definition expiring (key : string) (tb : TokenBucket) : Prop :=
  ∀ h, with_redis tb = true → dget (redis tb) (prefix_ tb +:+ key) = Some h → h_expires h = h_u h + EXPIRY.

(** The tokens there are at [now]: full for a new key and for one that expired,
    otherwise what was left and what has been refilled, up to the burst. *)
Definition avail (key : string) (now : Q) (tb : TokenBucket) : Q :=
  match stored key tb with
  | None => burst tb
  | Some (t, u) =>
      if with_redis tb && Qle_bool (u + EXPIRY) now then burst tb
      else Qmin (burst tb) (t + Qmax 0 (now - u) * rate tb)
  end.

Lemma Qle_bool_false x y : Qle_bool x y = false → y < x.
Proof. intros H. apply Qnot_le_lt. intros Hle%Qle_bool_iff. congruence. Qed.

Lemma Qle_bool_pos x : 0 < x → Qle_bool x 0 = false.
Proof. intros H. destruct (Qle_bool x 0) eqn:E; [|done]. apply Qle_bool_iff in E. lra. Qed.

Lemma Qle_bool_zero x : x == 0 → Qle_bool x 0 = true.
Proof. intros H. apply Qle_bool_iff. lra. Qed.

(** What an attempt does to the settings and to its own key. *)
Definition attempted (key : string) (now t : Q) (tb tb' : TokenBucket) : Prop :=
  rate tb' = rate tb ∧ burst tb' = burst tb ∧ with_redis tb' = with_redis tb ∧ prefix_ tb' = prefix_ tb ∧
  stored key tb' = Some (t, now) ∧ expiring key tb'.

Lemma try_local_spec now key cost tb w tb' :
  with_redis tb = false → 0 < rate tb → try_local now key cost tb = (w, tb') →
  ∃ t, t == avail key now tb ∧
    ((cost <= t ∧ w == 0 ∧ attempted key now (t - cost) tb tb') ∨
     (t < cost ∧ w == (cost - t) / rate tb ∧ attempted key now t tb tb')).
Proof.
  intros Hred Hr. unfold try_local. set (o := dget (local tb) key). set (b := default _ o).
  set (t := Qmin (burst tb) (tokens b + Qmax 0 (now - updated_at b) * rate tb)). intros H.
  exists t. split.
  { unfold avail, stored. rewrite Hred. cbn [andb]. fold o. subst t b. destruct o as [b|]; simpl; [reflexivity|].
    apply Q.min_l. rewrite Q.max_l by lra. lra. }
  assert (∀ x, attempted key now x tb
            (MkTokenBucket (rate tb) (burst tb) (with_redis tb) (prefix_ tb)
               (dset (local tb) key (MkBucket (capacity b) (b_rate b) x now)) (redis tb))) as Hatt.
  { intros x. unfold attempted, stored, expiring. cbn [with_redis local prefix_ rate burst redis]. rewrite Hred.
    rewrite dget_dset_eq. by repeat split. }
  destruct (Qle_bool cost t) eqn:Hc; injection H as <- <-.
  - left. apply Qle_bool_iff in Hc. by split_and!.
  - right. apply Qle_bool_false in Hc. by split_and!.
Qed.

Lemma try_redis_spec now key cost tb w tb' :
  with_redis tb = true → 0 < rate tb → expiring key tb → try_redis now key cost tb = (w, tb') →
  ∃ t, t == avail key now tb ∧
    ((cost <= t ∧ w == 0 ∧ attempted key now (t - cost) tb tb') ∨
     (t < cost ∧ w == (cost - t) / rate tb ∧ attempted key now t tb tb')).
Proof.
  intros Hred Hr Hexp. unfold try_redis, lua_script.
  set (k := (prefix_ tb +:+ key)%string). set (o := dget (redis tb) k ≫= unexpired now).
  set (tu := match o with Some h => (h_t h, h_u h) | None => (burst tb, now) end).
  destruct tu as [t0 u0] eqn:Etu. subst tu.
  set (t := Qmin (burst tb) (t0 + Qmax 0 (now - u0) * rate tb)). intros H.
  exists t. split.
  { unfold avail, stored. rewrite Hred. cbn [andb]. fold k. subst t o. unfold expiring in Hexp. fold k in Hexp.
    destruct (dget (redis tb) k) as [h|] eqn:Ek; simpl in *.
    - unfold unexpired in Etu. rewrite (Hexp h Hred eq_refl) in Etu.
      destruct (Qle_bool (h_u h + EXPIRY) now); injection Etu as <- <-; [|reflexivity].
      apply Q.min_l. rewrite Q.max_l by lra. lra.
    - injection Etu as <- <-. apply Q.min_l. rewrite Q.max_l by lra. lra. }
  assert (∀ x, attempted key now x tb
            (MkTokenBucket (rate tb) (burst tb) (with_redis tb) (prefix_ tb) (local tb)
               (dset (redis tb) k (MkRedisHash x now (now + EXPIRY))))) as Hatt.
  { intros x. unfold attempted, stored, expiring. cbn [with_redis local prefix_ rate burst redis]. rewrite Hred.
    fold k. rewrite dget_dset_eq. repeat split. by intros h _ [= <-]. }
  destruct (Qle_bool cost t) eqn:Hc; injection H as <- <-.
  - left. apply Qle_bool_iff in Hc. by split_and!.
  - right. apply Qle_bool_false in Hc. split; [done|]. split; [|apply Hatt].
    apply Q.max_r. apply Qle_shift_div_l; [done|]. lra.
Qed.

(** Both backends do the same: they take the cost from the tokens there are when
    these suffice, and otherwise tell how long the missing ones take. *)
Lemma try_spec now key cost tb w tb' :
  0 < rate tb → expiring key tb → try_ now key cost tb = (w, tb') →
  ∃ t, t == avail key now tb ∧
    ((cost <= t ∧ w == 0 ∧ attempted key now (t - cost) tb tb') ∨
     (t < cost ∧ w == (cost - t) / rate tb ∧ attempted key now t tb tb')).
Proof.
  intros Hr Hexp. unfold try_. destruct (with_redis tb) eqn:Hred.
  - by apply try_redis_spec.
  - by apply try_local_spec.
Qed.

(** The entry of a key is not affected by calls for another key. *)
Lemma try_other now key key' cost tb w tb' :
  key ≠ key' → try_ now key cost tb = (w, tb') →
  rate tb' = rate tb ∧ burst tb' = burst tb ∧ with_redis tb' = with_redis tb ∧ prefix_ tb' = prefix_ tb ∧
  stored key' tb' = stored key' tb ∧ (expiring key' tb → expiring key' tb').
Proof.
  intros Hne. unfold try_, stored, expiring. destruct (with_redis tb) eqn:Hred.
  - unfold try_redis. destruct (lua_script _ _ _ _ _) as [[al t] h].
    assert ((prefix_ tb +:+ key)%string ≠ (prefix_ tb +:+ key')%string) as Hk.
    { intros H. apply Hne. induction (prefix_ tb) as [|c s IH]; [done|]. injection H as H. auto. }
    destruct al; intros [= <- <-]; simpl; rewrite Hred, dget_dset_ne by done; by split_and!.
  - unfold try_local. destruct (Qle_bool _ _); intros [= <- <-]; simpl;
      rewrite Hred, dget_dset_ne by done; by split_and!.
Qed.

(** ** The level of a key over time *)

(** A key whose entry is within its bounds and not of the future. *)
Definition sound (key : string) (v : Q) (tb : TokenBucket) : Prop :=
  0 < rate tb ∧ 0 <= burst tb ∧ (with_redis tb = true → burst tb <= EXPIRY * rate tb) ∧ expiring key tb ∧
  ∀ t u, stored key tb = Some (t, u) → 0 <= t ∧ t <= burst tb ∧ u <= v.

Lemma sound_later key v v' tb : v <= v' → sound key v tb → sound key v' tb.
Proof.
  intros Hv (Hr & Hb & Hexp & Hx & Hs). split_and!; [done..|]. intros t u Htu.
  destruct (Hs t u Htu) as (H1 & H2 & H3). split_and!; [done..|]. lra.
Qed.

Lemma avail_bounds key v tb : sound key v tb → 0 <= avail key v tb ∧ avail key v tb <= burst tb.
Proof.
  intros (Hr & Hb & _ & _ & Hs). unfold avail. destruct (stored key tb) as [[t u]|]; [|by split; lra].
  destruct (Hs t u eq_refl) as (Ht0 & Ht1 & Hu). case_match; [by split; lra|].
  rewrite Q.max_r by lra. split; [|apply Q.le_min_l]. apply Q.min_glb; [done|].
  assert (0 <= (v - u) * rate tb) by (apply Qmult_le_0_compat; lra). lra.
Qed.

(** Between two instants a key gains at most the rate, expired or not. *)
Lemma avail_grows key v v' tb :
  sound key v tb → v <= v' → avail key v' tb <= avail key v tb + rate tb * (v' - v).
Proof.
  intros Hsound Hv. pose proof Hsound as (Hr & Hb & Hexp & _ & Hs). unfold avail.
  assert (0 <= rate tb * (v' - v)) as Hgain by (apply Qmult_le_0_compat; lra).
  destruct (stored key tb) as [[t u]|]; [|lra]. destruct (Hs t u eq_refl) as (Ht0 & Ht1 & Hu).
  assert (0 <= (v - u) * rate tb) as Hvu by (apply Qmult_le_0_compat; lra).
  assert (Qmin (burst tb) (t + Qmax 0 (v' - u) * rate tb) <= burst tb) as Hcap by apply Q.le_min_l.
  destruct (with_redis tb && Qle_bool (u + EXPIRY) v) eqn:E1.
  - destruct (with_redis tb && Qle_bool (u + EXPIRY) v'); lra.
  - rewrite (Q.max_r 0 (v - u)) by lra. rewrite (Q.max_r 0 (v' - u)) in Hcap by lra.
    destruct (with_redis tb && Qle_bool (u + EXPIRY) v') eqn:E2.
    + apply andb_true_iff in E2 as [Hred Hx%Qle_bool_iff]. specialize (Hexp Hred).
      assert (EXPIRY * rate tb <= (v' - u) * rate tb) by (apply Qmult_le_compat_r; lra).
      destruct (Q.min_spec (burst tb) (t + (v - u) * rate tb)) as [[_ ->]|[_ ->]]; lra.
    + rewrite (Q.max_r 0 (v' - u)) by lra.
      assert (Qmin (burst tb) (t + (v' - u) * rate tb) <= t + (v' - u) * rate tb) by apply Q.le_min_r.
      destruct (Q.min_spec (burst tb) (t + (v - u) * rate tb)) as [[_ ->]|[_ ->]]; lra.
Qed.

(** The level right after an attempt is what the attempt has stored. *)
Lemma avail_stored key v t tb :
  stored key tb = Some (t, v) → t <= burst tb → avail key v tb == t.
Proof.
  intros Hs Ht. unfold avail. rewrite Hs.
  assert (Qle_bool (v + EXPIRY) v = false) as ->.
  { destruct (Qle_bool (v + EXPIRY) v) eqn:E; [|done]. apply Qle_bool_iff in E. unfold EXPIRY in E. lra. }
  rewrite andb_false_r, Q.max_l by lra. rewrite Q.min_r by lra. lra.
Qed.

(** An attempt keeps every key sound, and leaves of its own what it did not take. *)
Lemma try_sound now k cost key tb w tb' :
  try_ now k cost tb = (w, tb') → sound key now tb → expiring k tb → 0 <= cost →
  sound key now tb' ∧ rate tb' = rate tb ∧ burst tb' = burst tb ∧ with_redis tb' = with_redis tb ∧
  avail key now tb' == avail key now tb - (if String.eqb k key && Qle_bool w 0 then cost else 0).
Proof.
  intros E Hs Hexp Hcost. pose proof Hs as (Hr & Hb & Hx & He & Hst). destruct (String.eqb_spec k key) as [->|Hne].
  - destruct (avail_bounds _ _ _ Hs) as [Ha0 Ha1]. cbn [andb].
    destruct (try_spec _ _ _ _ _ _ Hr He E) as (t & Ht & Hcase).
    assert (∀ x, attempted key now x tb tb' → 0 <= x → x <= burst tb →
              sound key now tb' ∧ rate tb' = rate tb ∧ burst tb' = burst tb ∧ with_redis tb' = with_redis tb ∧
              avail key now tb' == x) as Hatt.
    { intros x (H1 & H2 & H3 & H4 & H5 & H6) Hx0 Hx1. split_and!; [|done..|].
      - unfold sound. rewrite H1, H2, H3. split_and!; try done. rewrite H5. intros t' u' [= <- <-]. split_and!; lra.
      - apply avail_stored; [done|]. by rewrite H2. }
    destruct Hcase as [(Hle & Hw & Ha)|(Hlt & Hw & Ha)].
    + rewrite (Qle_bool_zero _ Hw). destruct (Hatt _ Ha) as (S1 & S2 & S3 & S4 & S5); [lra..|].
      split_and!; try done. lra.
    + assert (0 < w) as Hpos by (rewrite Hw; apply Qlt_shift_div_l; [done|lra]).
      rewrite (Qle_bool_pos _ Hpos). destruct (Hatt _ Ha) as (S1 & S2 & S3 & S4 & S5); [lra..|].
      split_and!; try done. lra.
  - destruct (try_other _ _ _ _ _ _ _ Hne E) as (H1 & H2 & H3 & H4 & H5 & H6).
    split_and!; [|done..|].
    + unfold sound. rewrite H1, H2, H3, H5. split_and!; auto.
    + unfold avail. rewrite H1, H2, H3, H5. cbn [andb]. lra.
Qed.

(** ** Conformance *)

Abbreviation call := (string * Q * Q)%type.

(** The tokens that calls for [key] take; each call is a key, the instant at
    which it runs, and its cost. *)
Fixpoint granted (key : string) (calls : list call) (tb : TokenBucket) : Q :=
  match calls with
  | [] => 0
  | (k, now, cost) :: calls =>
      let '(w, tb) := try_ now k cost tb in
      (if String.eqb k key && Qle_bool w 0 then cost else 0) + granted key calls tb
  end.

(** The limiter after the calls. *)
Fixpoint after_calls (calls : list call) (tb : TokenBucket) : TokenBucket :=
  match calls with
  | [] => tb
  | (k, now, cost) :: calls => after_calls calls (try_ now k cost tb).2
  end.

Fixpoint ordered (u : Q) (calls : list call) : Prop :=
  match calls with
  | [] => True
  | (_, now, cost) :: calls => u <= now ∧ 0 <= cost ∧ ordered now calls
  end.

Fixpoint last_instant (u : Q) (calls : list call) : Q :=
  match calls with [] => u | (_, now, _) :: calls => last_instant now calls end.

(** All keys are sound. *)
Definition healthy (v : Q) (tb : TokenBucket) : Prop := ∀ key, sound key v tb.

Lemma try_healthy now k cost tb w tb' :
  try_ now k cost tb = (w, tb') → healthy now tb → 0 <= cost → healthy now tb'.
Proof. intros E Hh Hc key. eapply (try_sound now k cost key tb w tb'); [done..|apply (Hh k)|done]. Qed.

Lemma healthy_later v v' tb : v <= v' → healthy v tb → healthy v' tb.
Proof. intros Hv Hh key. by eapply sound_later. Qed.

Lemma after_calls_healthy calls : ∀ v tb,
  healthy v tb → ordered v calls →
  healthy (last_instant v calls) (after_calls calls tb) ∧ rate (after_calls calls tb) = rate tb ∧
  burst (after_calls calls tb) = burst tb.
Proof.
  induction calls as [|[[k now] cost] calls IH]; intros v tb Hh; [done|]. simpl. intros (Hv & Hc & Hord).
  destruct (try_ now k cost tb) as [w tb'] eqn:E. simpl.
  assert (healthy now tb) as Hn by by eapply healthy_later.
  destruct (try_sound now k cost k tb w tb' E (Hn k)) as (_ & H1 & H2 & _); [apply (Hn k)|done|].
  destruct (IH now tb') as (I1 & I2 & I3); [by eapply try_healthy|done|]. split_and!; [done|congruence..].
Qed.

(** What the calls for a key take is bounded by the tokens there are at the
    beginning and those that come in meanwhile. *)
Lemma granted_bound key calls : ∀ v tb,
  healthy v tb → ordered v calls →
  granted key calls tb <= avail key v tb + rate tb * (last_instant v calls - v).
Proof.
  induction calls as [|[[k now] cost] calls IH]; intros v tb Hh; simpl.
  { intros _. destruct (avail_bounds _ _ _ (Hh key)). lra. }
  intros (Hv & Hc & Hord). destruct (try_ now k cost tb) as [w tb'] eqn:E.
  pose proof (avail_grows _ _ _ _ (Hh key) Hv) as Hgain.
  assert (healthy now tb) as Hn by by eapply healthy_later.
  destruct (try_sound now k cost key tb w tb' E (Hn key)) as (_ & H1 & _ & _ & Ha); [apply (Hn k)|done|].
  specialize (IH now tb' (try_healthy _ _ _ _ _ _ E Hn Hc) Hord). rewrite H1, Ha in IH. lra.
Qed.

Lemma new_healthy r b use_redis prefix tb v :
  new_TokenBucket r b use_redis prefix = Ok tb → 0 <= burst tb →
  (use_redis = true → burst tb <= EXPIRY * r) → healthy v tb ∧ rate tb = r.
Proof.
  unfold new_TokenBucket. destruct (Qle_bool r 0) eqn:Er; [done|]. apply Qle_bool_false in Er.
  intros [= <-] Hb Hx. split; [|done]. intros key. unfold sound, expiring, stored. simpl in *.
  split_and!; try done; destruct use_redis; done.
Qed.

(** C15: the rate limit.  Whatever calls a limiter has served, in process or in
    Redis, those for one key that run between two instants take together no more
    than the burst plus the rate times the time between them, however long the key
    was idle before and however they are interleaved with calls for other keys, if
    the clock does not go back and no cost is negative.  In Redis this asks for a
    burst that is refilled within the hour after which the script lets a key
    expire. *)
Theorem rate_conformance r b use_redis prefix tb key start earlier from calls :
  new_TokenBucket r b use_redis prefix = Ok tb → (0 <= burst tb) →
  (use_redis = true → burst tb <= EXPIRY * r) →
  ordered start earlier → last_instant start earlier <= from → ordered from calls →
  granted key calls (after_calls earlier tb) <= burst tb + r * (last_instant from calls - from).
Proof.
  intros Hnew Hb Hx He Hfrom Hc. destruct (new_healthy _ _ _ _ _ start Hnew Hb Hx) as [Hh <-].
  destruct (after_calls_healthy _ _ _ Hh He) as (Hl & Hr & Hbu).
  pose proof (healthy_later _ _ _ Hfrom Hl) as Hf. rewrite <- Hr, <- Hbu.
  pose proof (granted_bound key calls _ _ Hf Hc). destruct (avail_bounds _ _ _ (Hf key)). lra.
Qed.

(** An expired key is full.  A bucket in Redis that takes more than an hour to
    refill is full again after an hour in which it is not used: two calls take more
    than the burst and the rate allow. *)
Theorem expired_key_overdraws :
  ∃ tb, new_TokenBucket (1 # 7200) (Some 1) true "p:" = Ok tb ∧
    ¬ (granted "h" [("h", 0, 1); ("h", 3600, 1)] tb <= burst tb + (1 # 7200) * (3600 - 0)).
Proof.
  eexists. split; [reflexivity|]. intros H. apply Qle_bool_iff in H. vm_compute in H. discriminate H.
Qed.

(** ** Progress *)

(** An attempt that is refused succeeds from the instant it names on, and, as far
    as the key has not expired, not before. *)
Lemma retry_at now key cost tb w tb' now' :
  0 < rate tb → expiring key tb → cost <= burst tb → now <= now' →
  try_ now key cost tb = (w, tb') → 0 < w →
  (now + w <= now' → (try_ now' key cost tb').1 == 0) ∧
  (now' < now + w → (with_redis tb = true → now' < now + EXPIRY) → 0 < (try_ now' key cost tb').1).
Proof.
  intros Hr Hexp Hc Hnow E Hw. destruct (try_spec _ _ _ _ _ _ Hr Hexp E) as (t & Ht & [(_ & H0 & _)|(Hlt & Hwt & Ha)]);
    [lra|]. destruct Ha as (H1 & H2 & H3 & H4 & H5 & H6).
  assert (w * rate tb == cost - t) as Hwr by (rewrite Hwt; field; lra).
  destruct (try_ now' key cost tb') as [w' tb''] eqn:E'.
  assert (0 < rate tb') as Hr' by (by rewrite H1).
  destruct (try_spec _ _ _ _ _ _ Hr' H6 E') as (t' & Ht' & Hcase). cbn [fst].
  unfold avail in Ht'. rewrite H5, H1, H2, H3 in Ht'.
  assert (Qmax 0 (now' - now) == now' - now) as Hm by (apply Q.max_r; lra). split.
  - intros Hge. assert (cost <= t') as Hle.
    { rewrite Ht'. case_match; [done|]. rewrite Hm. apply Q.min_glb; [done|].
      assert (w * rate tb <= (now' - now) * rate tb) by (apply Qmult_le_compat_r; lra). lra. }
    destruct Hcase as [(_ & Hz & _)|(Hlt' & _)]; [done|lra].
  - intros Hearly Hx. assert (t' < cost) as Hlt'.
    { rewrite Ht'. assert (with_redis tb && Qle_bool (now + EXPIRY) now' = false) as ->.
      { destruct (with_redis tb); [|done]. cbn [andb]. destruct (Qle_bool (now + EXPIRY) now') eqn:Eb; [|done].
        apply Qle_bool_iff in Eb. specialize (Hx eq_refl). lra. }
      rewrite Hm. eapply Qle_lt_trans; [apply Q.le_min_r|].
      assert ((now' - now) * rate tb < w * rate tb) by (apply Qmult_lt_compat_r; lra). lra. }
    destruct Hcase as [(Hle & _)|(_ & Hw' & _)]; [lra|]. rewrite Hw'. apply Qlt_shift_div_l; [by rewrite H1|lra].
Qed.

Lemma acquire_excessive late : ∀ now key cost tb,
  healthy now tb → burst tb < cost → Forall (λ d, 0 <= d) late → acquire late now key cost tb = None.
Proof.
  induction late as [|over late IH]; intros now key cost tb Hh Hc Hl; simpl;
    destruct (try_ now key cost tb) as [w tb'] eqn:E; pose proof (Hh key) as Hs;
    destruct (avail_bounds _ _ _ Hs) as [Ha0 Ha1];
    destruct (try_spec _ _ _ _ _ _ (proj1 Hs) (proj1 (proj2 (proj2 (proj2 Hs)))) E)
      as (t & Ht & [(Hle & _)|(Hlt & Hw & _)]); try lra;
    (assert (0 < w) as Hpos by (rewrite Hw; apply Qlt_shift_div_l; [apply Hs|lra]));
    rewrite (Qle_bool_pos _ Hpos); [done|].
  apply Forall_cons in Hl as [Hover Hl].
  assert (0 <= cost) as Hcost by (destruct Hs as (_ & Hb & _); lra).
  destruct (try_sound now key cost key tb w tb' E Hs) as (_ & _ & Hb & _); [apply Hs|done|].
  apply IH; [|by rewrite Hb|done]. eapply healthy_later; [|by eapply try_healthy]. lra.
Qed.

(** C16: the progress of [acquire].  Take a limiter at any time, in a state as those
    that calls lead to ([after_calls_healthy]; in Redis with a burst that is refilled
    within an hour), a cost that does not exceed the burst, and nobody else who draws
    from the key.  If the first attempt is not granted, then the second is, which is
    made after exactly the wait that the first returned, or later; so [acquire]
    returns, after two attempts at most.  The wait is no longer than needed: any
    attempt before its end is refused.  A cost above the burst is never granted, so
    [acquire] never returns. *)
Theorem acquire_progress now key cost tb late :
  healthy now tb → 0 <= cost → Forall (λ d, 0 <= d) late →
  let wait := (try_ now key cost tb).1 in
  (cost <= burst tb →
     (wait <= 0 → ∃ tb', acquire late now key cost tb = Some (now, tb')) ∧
     (0 < wait → ∀ over, 0 <= over →
        (∃ tb', acquire (over :: late) now key cost tb = Some (now + wait + over, tb')) ∧
        (∀ early, now <= early → early < now + wait → 0 < (try_ early key cost (try_ now key cost tb).2).1))) ∧
  (burst tb < cost → acquire late now key cost tb = None).
Proof.
  intros Hh Hcost Hl wait. split; [|intros Hc; by apply acquire_excessive].
  intros Hc. pose proof (Hh key) as (Hr & Hb & Hx & He & Hs). subst wait.
  destruct (try_ now key cost tb) as [w tb'] eqn:E. cbn [fst snd]. split.
  - intros Hw. exists tb'. destruct late; simpl; rewrite E; by apply Qle_bool_iff in Hw as ->.
  - intros Hw over Hover. split.
    + simpl. rewrite E, (Qle_bool_pos _ Hw).
      destruct (retry_at now key cost tb w tb' (now + w + over) Hr He Hc ltac:(lra) E Hw) as [Hok _].
      specialize (Hok ltac:(lra)).
      destruct (try_ (now + w + over) key cost tb') as [w' tb''] eqn:E'. cbn [fst] in Hok. exists tb''.
      destruct late; simpl; by rewrite E', (Qle_bool_zero _ Hok).
    + intros early H1 H2. apply (retry_at now key cost tb w tb' early Hr He Hc H1 E Hw); [done|].
      intros Hred. specialize (Hx Hred). destruct (avail_bounds _ _ _ (Hh key)) as [Ha0 Ha1].
      destruct (try_spec _ _ _ _ _ _ Hr He E) as (t & Ht & [(_ & H0 & _)|(Hlt & Hwt & _)]); [lra|].
      assert (w * rate tb == cost - t) as Hwr by (rewrite Hwt; field; lra).
      assert (w * rate tb <= EXPIRY * rate tb) as Hle by lra. apply Qmult_le_r in Hle; [lra|done].
Qed.

Lemma rate_conformance_witness :
  ∃ tb, new_TokenBucket 2 (Some 3) true "p:" = Ok tb ∧
    granted "h" [("h", 100, 2); ("x", 100, 3); ("h", 201 # 2, 2); ("h", 101, 2)]
      (after_calls [("h", 0, 1)] tb) <= 3 + 2 * (101 - 100).
Proof.
  destruct (new_TokenBucket 2 (Some 3) true "p:") as [tb|e] eqn:E; [|discriminate E].
  exists tb. split; [reflexivity|].
  assert (burst tb == 3) as Hb by (injection E as <-; reflexivity).
  pose proof (rate_conformance 2 (Some 3) true "p:" tb "h" 0 [("h", 0, 1)] 100
    [("h", 100, 2); ("x", 100, 3); ("h", 201 # 2, 2); ("h", 101, 2)] E) as H.
  rewrite Hb in H. apply H; [lra|intros _; vm_compute; discriminate|..]; simpl; repeat split; lra.
Defined.

Lemma acquire_progress_witness :
  ∃ tb tb', new_TokenBucket 2 None false "p:" = Ok tb ∧
    acquire [1] 0 "h" 2 (after_calls [("h", 0, 1)] tb) = Some (0 + (1 # 2) + 1, tb').
Proof.
  destruct (new_TokenBucket 2 None false "p:") as [tb|e] eqn:E; [|discriminate E]. exists tb.
  destruct (new_healthy 2 None false "p:" tb 0 E) as [Hh _]; [injection E as <-; vm_compute; discriminate|done|].
  destruct (after_calls_healthy [("h", 0, 1)] 0 tb Hh) as (Hh' & _ & Hb); [simpl; repeat split; lra|].
  destruct (acquire_progress 0 "h" 2 (after_calls [("h", 0, 1)] tb) [] Hh') as [Hp _]; [lra|constructor|].
  injection E as <-. destruct Hp as [_ Hp]; [vm_compute; discriminate|].
  destruct (proj1 (Hp ltac:(vm_compute; reflexivity) 1 ltac:(lra))) as [tb' H]. exists tb'.
  split; [reflexivity|exact H].
Defined.
