(* ===== verification/Scanning.v ===== *)
(** Exact matches and scans: greedy character classes, literals, and the
    segments of a subject made of literal text and matches. *)

From S2P Require Import Prelude PyStr PyStrFacts Regex RegexFacts.

(** ** Exact matches of greedy classes *)

(** The character before a position that follows the text [w]. *)
Fixpoint last_char (b : option ascii) (w : string) : option ascii :=
  match w with "" => b | String c w => last_char (Some c) w end.

(** The next character is not in the class. *)
Definition stops (f : ascii → bool) (s : string) : bool :=
  match s with "" => true | String c _ => negb (f c) end.

(** A greedy repetition of a class takes all of the class, provided the rest of
    the pattern accepts what follows. *)
Lemma repeat_match_greedy f k s cs x : ∀ w n lo b,
  all_str f w = true → stops f s = true → String.length w <= n → lo <= String.length w →
  k (Pos (last_char b w) s) cs = Some x →
  repeat_match n lo (rmatch (RChar f)) k (Pos b (w +:+ s)) cs = Some x.
Proof.
  induction w as [|c w IH]; intros n lo b Hw Hs Hn Hlo Hk; simpl in *.
  - assert (lo = 0) as -> by lia. destruct n as [|n]; simpl; [done|].
    destruct s as [|a s]; simpl in *; [done|]. apply negb_true_iff in Hs. by rewrite Hs.
  - apply andb_true_iff in Hw as [Hc Hw]. destruct n as [|n]; [lia|]. simpl. rewrite Hc.
    unfold advance. simpl.
    destruct (Nat.eqb_spec (String.length (w +:+ s)) (S (String.length (w +:+ s)))); [lia|].
    pose proof (IH n (pred lo) (Some c) Hw Hs ltac:(lia) ltac:(lia) Hk) as E.
    unfold advance in E. simpl in E.
    by rewrite E.
Qed.

(** A literal text matches itself. *)
Lemma rmatch_RStr k t b s cs :
  rmatch (RStr t) k (Pos b (t +:+ s)) cs = k (Pos (last_char b t) s) cs.
Proof.
  revert b. induction t as [|c t IH]; intros b; simpl; [done|].
  rewrite bool_decide_eq_true_2 by done. apply IH.
Qed.

(** ** Scanning *)

Lemma scan_skip r t b s : scan r b (String.length t) (t +:+ s) = scan r (last_char b t) 0 s.
Proof. revert b. induction t as [|c t IH]; intros b; simpl; [done|]. apply IH. Qed.

Lemma scan_match r b c t s m :
  match_at r (Pos b (String c t +:+ s)) = Some m → m_text m = String c t →
  scan r b 0 (String c t +:+ s) = Matched m :: scan r (last_char b (String c t)) 0 s.
Proof.
  intros Hm Ht. cbn [String.append scan]. cbn [String.append] in Hm. rewrite Hm, Ht. simpl.
  f_equal. apply scan_skip.
Qed.

Lemma scan_literal r t b s :
  (∀ b' u v, t = u +:+ v → v ≠ "" → match_at r (Pos b' (v +:+ s)) = None) →
  scan r b 0 (t +:+ s)
  = (Copied <$> String.list_ascii_of_string t) ++ scan r (last_char b t) 0 s.
Proof.
  revert b. induction t as [|c t IH]; intros b H; [done|].
  pose proof (H b "" (String c t) eq_refl ltac:(done)) as Hn.
  cbn [String.append] in *. cbn [scan]. rewrite Hn. simpl. f_equal. apply IH.
  intros b' u v -> Hv. apply (H b' (String c u) v); done.
Qed.

Lemma take_str_app t s : take_str (String.length (t +:+ s) - String.length s) (t +:+ s) = t.
Proof.
  rewrite length_app_str. replace (String.length t + String.length s - String.length s)
    with (String.length t) by lia.
  induction t as [|c t IH]; simpl; [by destruct s|]. by rewrite IH.
Qed.

Lemma consumed_prefix b b' t s : consumed (Pos b (t +:+ s)) (Pos b' s) = t.
Proof. apply take_str_app. Qed.
