(* ===== verification/Secrets.v ===== *)
(** [config/secrets.py]: references to the environment and to files inside
    configuration text. *)

From S2P Require Import Prelude Errors PyStr PyStrFacts PyDict PyVal Regex RegexFacts Scanning.

(** What the process reads: [os.environ], and the file system. *)
Record host := Host {
  environ : list (string * string);
  is_file : string → bool;
  read_text : string → res string
}.

(** [\$\{(env|file):([^}]+)\}]. *)
Definition not_brace (c : ascii) : bool := negb (bool_decide (c = "}"%char)).
Definition REF_RE : regex :=
  RSeq (RStr "${") (RSeq (RGroup 1 (RAlt (RStr "env") (RStr "file")))
    (RSeq (RLit ":") (RSeq (RGroup 2 (RPlus (RChar not_brace))) (RLit "}")))).

Section secrets.
Context (h : host).

(** [repl] of [_resolve_str]; [group 1] can only be one of the two words, the
    last branch is the code's. *)
Definition repl (m : match_obj) : res string :=
  let kind := group m 1 in
  let target := group m 2 in
  if String.eqb kind "env" then Ok (default "" (dget (environ h) target))
  else if String.eqb kind "file" then
    if negb (is_file h target) then Ok ""
    else text ← read_text h target; Ok (strip text)
  else Ok (m_text m).

Definition resolve_segment (g : segment) : res string :=
  match g with Copied c => Ok (String c "") | Matched m => repl m end.

(** [_resolve_str]. *)
Definition resolve_str (v : string) : res string :=
  parts ← mapM_res resolve_segment (segments REF_RE v); Ok (join "" parts).

(** [resolve_secrets]: values are visited in the order of the document. *)
Fixpoint resolve_secrets (v : pyval) : res pyval :=
  match v with
  | PyStr s => t ← resolve_str s; Ok (PyStr t)
  | PyDict d =>
      d' ← (fix go (d : list (string * pyval)) : res (list (string * pyval)) :=
              match d with
              | [] => Ok []
              | (k, v) :: d => v' ← resolve_secrets v; d' ← go d; Ok ((k, v') :: d')
              end) d;
      Ok (PyDict d')
  | PyList l =>
      l' ← (fix go (l : list pyval) : res (list pyval) :=
              match l with
              | [] => Ok []
              | v :: l => v' ← resolve_secrets v; l' ← go l; Ok (v' :: l')
              end) l;
      Ok (PyList l')
  | _ => Ok v
  end.

(** ** Templates *)

(** Configuration text as its author means it. *)
Inductive chunk := Lit (s : string) | EnvRef (name : string) | FileRef (path : string).

Definition render_chunk (c : chunk) : string :=
  match c with
  | Lit s => s
  | EnvRef n => "${env:" +:+ n +:+ "}"
  | FileRef p => "${file:" +:+ p +:+ "}"
  end.

Definition well_formed_chunk (c : chunk) : Prop :=
  match c with
  | Lit s => contains_char "$" s = false
  | EnvRef n | FileRef n => n ≠ "" ∧ all_str not_brace n = true
  end.

(** What a chunk stands for: the value is taken verbatim. *)
Definition expand_chunk (c : chunk) : res string :=
  match c with
  | Lit s => Ok s
  | EnvRef n => Ok (default "" (dget (environ h) n))
  | FileRef p => if is_file h p then t ← read_text h p; Ok (strip t) else Ok ""
  end.

Fixpoint render (cs : list chunk) : string :=
  match cs with [] => "" | c :: cs => render_chunk c +:+ render cs end.

Fixpoint expand (cs : list chunk) : res string :=
  match cs with
  | [] => Ok ""
  | c :: cs => s ← expand_chunk c; t ← expand cs; Ok (s +:+ t)
  end.
End secrets.

(** ** The pattern *)

#[local] Arguments repeat_match : simpl never.
#[local] Arguments consumed : simpl never.

Definition is_kind (kind : string) : Prop := kind = "env" ∨ kind = "file".

Definition reference (kind target : string) : string := "${" +:+ kind +:+ ":" +:+ target +:+ "}".

Lemma match_reference kind n b s :
  is_kind kind → n ≠ "" → all_str not_brace n = true →
  ∃ m, match_at REF_RE (Pos b (reference kind n +:+ s)) = Some m ∧
       m_text m = reference kind n ∧ group m 1 = kind ∧ group m 2 = n.
Proof.
  intros Hkind Hn Hall.
  set (e := Pos (Some "}"%char) s).
  assert (rmatch REF_RE (λ q cs, Some (q, cs)) (Pos b (reference kind n +:+ s)) []
          = Some (e, [(2, n); (1, kind)])) as Hr.
  { assert (∀ b' cs, repeat_match (1 + S (String.length (n +:+ String "}" s))) 1
              (rmatch (RChar not_brace))
              (λ q cs', rmatch (RLit "}") (λ q' cs, Some (q', cs)) q
                 ((2, consumed (Pos b' (n +:+ String "}" s)) q) :: cs'))
              (Pos b' (n +:+ String "}" s)) cs = Some (e, (2, n) :: cs)) as Hrep.
    { intros b' cs. apply repeat_match_greedy; [done|done| | |].
      - rewrite length_app_str. simpl. lia.
      - destruct n; [done|]. simpl. lia.
      - simpl. by rewrite consumed_prefix. }
    unfold reference, advance in *. simpl in Hrep. unfold advance in Hrep.
    destruct Hkind as [-> | ->]; unfold REF_RE; simpl; rewrite <- app_str_assoc; simpl;
      unfold advance; rewrite Hrep; repeat f_equal;
      [apply (consumed_prefix _ _ "env")|apply (consumed_prefix _ _ "file")]. }
  unfold match_at. rewrite Hr. eexists. split; [done|]. simpl.
  split; [|done]. apply (consumed_prefix b (Some "}"%char) (reference kind n) s).
Qed.

(** Only a dollar sign begins a reference. *)
Lemma no_reference c b s : c ≠ "$"%char → match_at REF_RE (Pos b (String c s)) = None.
Proof.
  intros Hc. unfold match_at, REF_RE. simpl. by rewrite bool_decide_eq_false_2 by done.
Qed.

(** ** Resolution *)

Section resolve.
Context (h : host).

Definition resolve_from (b : option ascii) (v : string) : res string :=
  parts ← mapM_res (resolve_segment h) (scan REF_RE b 0 v); Ok (join "" parts).

#[local] Arguments join : simpl never.

Lemma join_nil_cons s l : join "" (s :: l) = s +:+ join "" l.
Proof. destruct l; unfold join; [by rewrite app_str_nil_r|done]. Qed.

Lemma resolve_literal t b s :
  contains_char "$" t = false →
  resolve_from b (t +:+ s) = r ← resolve_from (last_char b t) s; Ok (t +:+ r).
Proof.
  unfold resolve_from, contains_char. rewrite negb_false_iff. revert b.
  induction t as [|c t IH]; intros b; simpl.
  - intros _. by destruct (mapM_res _ _).
  - rewrite andb_true_iff, negb_true_iff, bool_decide_eq_false. intros [Hc Ht].
    rewrite (no_reference c) by done. simpl. specialize (IH (Some c) Ht).
    destruct (mapM_res _ (scan REF_RE (Some c) 0 (t +:+ s))) as [ps|e];
      destruct (mapM_res _ (scan REF_RE _ 0 s)) as [qs|e']; simplify_eq/=; [|done].
    rewrite join_nil_cons. simpl. congruence.
Qed.

Lemma resolve_reference kind n b s :
  is_kind kind → n ≠ "" → all_str not_brace n = true →
  resolve_from b (reference kind n +:+ s)
  = (r ← (if String.eqb kind "env" then Ok (default "" (dget (environ h) n))
          else if is_file h n then t ← read_text h n; Ok (strip t) else Ok "");
     r' ← resolve_from (Some "}"%char) s; Ok (r +:+ r')).
Proof.
  intros Hk Hn Hall.
  destruct (match_reference kind n b s Hk Hn Hall) as (m & Hm & Htext & H1 & H2).
  unfold resolve_from. unfold reference in *.
  change (scan REF_RE b 0 _)
    with (scan REF_RE b 0 (String "$" ("{" +:+ kind +:+ ":" +:+ n +:+ "}") +:+ s)).
  rewrite (scan_match _ _ _ _ _ m); [|exact Hm|exact Htext].
  assert (∀ b' t, last_char b' (t +:+ "}") = Some "}"%char) as Hl
    by (intros b' t; revert b'; induction t as [|a t IH]; intros b'; simpl; [done|apply IH]).
  change (last_char b _) with (last_char (Some "{"%char) (kind +:+ ":" +:+ n +:+ "}")).
  replace (last_char (Some "{"%char) (kind +:+ ":" +:+ n +:+ "}")) with (Some "}"%char)
    by (rewrite !app_str_assoc; by rewrite Hl).
  cbn [mapM_res resolve_segment]. unfold repl. rewrite H1, H2.
  assert (kind = "env" ∨ kind = "file") as [-> | ->] by exact Hk; simpl;
    [|destruct (is_file h n); simpl; [destruct (read_text h n); simpl; [|done]|]];
    (destruct (mapM_res _ _) as [ps|e]; simpl; [|done]; by rewrite ?join_nil_cons).
Qed.

Lemma resolve_render cs b : Forall well_formed_chunk cs → resolve_from b (render cs) = expand h cs.
Proof.
  intros Hcs. revert b. induction Hcs as [|c cs Hc _ IH]; intros b; [done|].
  destruct c as [t|n|p]; cbn [render render_chunk expand expand_chunk well_formed_chunk] in *.
  - rewrite resolve_literal by done. rewrite IH. by destruct (expand h cs).
  - destruct Hc as [Hn Hall].
    change ("${env:" +:+ n +:+ "}") with (reference "env" n).
    rewrite resolve_reference by (try done; by left). rewrite IH. by destruct (expand h cs).
  - destruct Hc as [Hn Hall].
    change ("${file:" +:+ p +:+ "}") with (reference "file" p).
    rewrite resolve_reference by (try done; by right). rewrite IH. simpl.
    destruct (is_file h p); simpl; [|by destruct (expand h cs)].
    destruct (read_text h p); simpl; [|done]. by destruct (expand h cs).
Qed.

(** References are replaced in one pass.  In text made of literal parts
    without a dollar sign and references to the environment or to files, every
    reference is replaced by the value it names, an unset variable or a missing
    file by nothing, and the rest is kept; what a variable or a file holds is
    taken verbatim and never expanded again, and the first file that cannot be
    read raises its error. *)
Theorem template_resolution cs :
  Forall well_formed_chunk cs → resolve_str h (render cs) = expand h cs.
Proof. intros. by apply resolve_render. Qed.
End resolve.

Definition sample_host : host :=
  Host [("USER", "cti"); ("NESTED", "${env:USER}")] (String.eqb "/run/secret")
    (λ _, Ok ("hunter2" +:+ String (chr 10) "")).

Lemma template_resolution_witness :
  resolve_str sample_host "http://${env:USER}:${file:/run/secret}@h/${env:NESTED}${env:UNSET}"
  = Ok "http://cti:hunter2@h/${env:USER}".
Proof.
  refine (template_resolution sample_host
    [Lit "http://"; EnvRef "USER"; Lit ":"; FileRef "/run/secret"; Lit "@h/"; EnvRef "NESTED";
     EnvRef "UNSET"] _).
  repeat constructor; done.
Defined.
