(* ===== verification/Registry.v ===== *)
(** [manager/registry.py]: the configuration of the sources and its loading. *)

From Stdlib Require Import QArith.
From S2P Require Import Prelude Errors PyStr PyStrFacts PyDict PyVal Regex Secrets Enums.
From S2P Require Import Normalize Breaker.
#[local] Open Scope string_scope.
#[local] Open Scope list_scope.

Record RetryPolicy := MkRetryPolicy {
  max_attempts : Z;
  initial_seconds : Q;
  max_seconds : Q;
  retry_jitter_seconds : Q
}.

Definition default_RetryPolicy : RetryPolicy := MkRetryPolicy 5 1 60 1.

Record SourceConfig := MkSourceConfig {
  sc_id : string;
  sc_name : option string;
  sc_plugin : string;
  sc_enabled : bool;
  sc_schedule : string;
  sc_jitter_seconds : Z;
  sc_rate_limit_rps : option Q;
  sc_max_parallelism : Z;
  sc_timeout_seconds : Z;
  sc_retry : RetryPolicy;
  sc_circuit : CircuitPolicy;
  sc_parser : string;
  sc_enrichers : list string;
  sc_publishers : list string;
  sc_params : pydict;
  sc_parser_params : pydict;
  sc_enricher_params : list (string * pydict);
  sc_publisher_params : list (string * pydict);
  sc_normalize : NormalizeConfig;
  sc_tlp : TLP;
  sc_severity_default : Severity;
  sc_confidence_default : Z;
  sc_tags : list string
}.

(** The three fields without a default; every other one at its default. *)
Definition default_SourceConfig (id plugin parser : string) : SourceConfig :=
  MkSourceConfig id None plugin true "0 */6 * * *" 60 None 1 60 default_RetryPolicy
    default_CircuitPolicy parser [] ["postgres"] [] [] [] [] default_NormalizeConfig
    AMBER INFO 50 [].

(** The validator [_slug]. *)
Definition slug (v : string) : res string :=
  if negb (isalnum (replace (replace v "_" "") "-" ""))
  then raise ValueError ("source id must be alnum/_/- only: " +:+ repr_str v)
  else Ok v.

(** ** Identifiers *)

Definition slug_char (c : ascii) : bool :=
  is_alnum_char c || bool_decide (c = "_"%char) || bool_decide (c = "-"%char).

(** An accepted identifier consists of letters, digits, [_] and [-]. *)
Lemma slug_chars v w : slug v = Ok w → w = v ∧ v ≠ "" ∧ all_str slug_char v = true.
Proof.
  unfold slug, isalnum. rewrite !replace_remove.
  destruct (negb (_ && _)) eqn:E; [done|]. intros [= <-]. bool_to_prop. split; [done|].
  rewrite !all_str_remove in *. split.
  - intros ->. done.
  - eapply all_str_impl; [|eassumption]. intros c. unfold slug_char. simpl.
    intros Hc. apply orb_true_iff in Hc as [Hc|Hc]; [by rewrite Hc, orb_true_r|].
    apply orb_true_iff in Hc as [-> | ->]; [by rewrite !orb_true_r|done].
Qed.

(** ** The registry *)

(** The registry's dictionary. *)
Abbreviation sources := (list (string * SourceConfig)).

Section load.
Context (safe_load : string → res pyval).                      (* the YAML reader *)
Context (model_validate : pyval → res (list SourceConfig)).    (* the model validation *)
Context (h : host).

(** The loop of [load]: the dictionary is changed as it goes. *)
Fixpoint load_sources (parsed : list SourceConfig) (seen : list string) (st : sources)
    : res unit * sources :=
  match parsed with
  | [] => (Ok tt, st)
  | source :: parsed =>
      if decide (sc_id source ∈ seen)
      then (raise ValueError ("duplicate source id: " +:+ sc_id source), st)
      else load_sources parsed (sc_id source :: seen) (dset st (sc_id source) source)
  end.

Definition load (text : res string) (st : sources) : res unit * sources :=
  match (t ← text; raw ← safe_load t;
         resolved ← resolve_secrets h (if truthy raw then raw else PyDict []);
         model_validate resolved) with
  | Ok parsed => load_sources parsed [] st
  | Raise e => (Raise e, st)
  end.

Definition all (st : sources) : list SourceConfig := dvalues st.

Definition get (source_id : string) (st : sources) : res SourceConfig :=
  match dget st source_id with
  | Some s => Ok s
  | None => raise KeyError ("unknown source: " +:+ source_id)
  end.

Definition enabled (st : sources) : list SourceConfig :=
  filter (λ s, sc_enabled s = true) (dvalues st).

(** ** Facts *)

Lemma load_sources_spec parsed : ∀ seen st,
  (∀ x, x ∈ seen ↔ x ∈ dkeys st) →
  if decide (NoDup (sc_id <$> parsed) ∧ Forall (λ x, sc_id x ∉ seen) parsed)
  then load_sources parsed seen st = (Ok tt, st ++ ((λ s, (sc_id s, s)) <$> parsed))
  else ∃ id st', load_sources parsed seen st = (raise ValueError ("duplicate source id: " +:+ id), st').
Proof.
  induction parsed as [|s parsed IH]; intros seen st Hseen.
  { rewrite decide_True by (split; constructor). simpl. by rewrite app_nil_r. }
  simpl. destruct (decide (sc_id s ∈ seen)) as [Hin|Hin].
  { rewrite decide_False; [eauto|]. by intros [_ [? _]%Forall_cons]. }
  assert (dset st (sc_id s) s = st ++ [(sc_id s, s)]) as Hset
    by (apply dset_new, dget_None; by rewrite <- Hseen).
  specialize (IH (sc_id s :: seen) (dset st (sc_id s) s)).
  rewrite Hset in IH |- *. rewrite <- app_assoc in IH. simpl in IH.
  destruct (decide (NoDup (sc_id <$> parsed) ∧ _)) as [[Hnd Hout]|Hno] in IH.
  - rewrite decide_True; [apply IH; intros x; unfold dkeys; rewrite map_app; set_solver|].
    rewrite Forall_forall in Hout. split.
    + apply NoDup_cons. split; [|done]. intros (x & Hx & Hxp)%list_elem_of_fmap.
      apply (Hout x Hxp). rewrite Hx. set_solver.
    + apply Forall_cons_2; [done|]. apply Forall_forall. intros x Hx. specialize (Hout x Hx). set_solver.
  - rewrite decide_False; [apply IH; intros x; unfold dkeys; rewrite map_app; set_solver|].
    intros [[Hs Hnd]%NoDup_cons [_ Hout]%Forall_cons]. apply Hno. split; [done|].
    rewrite Forall_forall in Hout |- *.
    intros x Hx [Heq|Hseen']%elem_of_cons; [|by apply (Hout x)].
    apply Hs. rewrite <- Heq. by apply list_elem_of_fmap_2.
Qed.

Lemma dkeys_sources (l : list SourceConfig) : dkeys ((λ s, (sc_id s, s)) <$> l) = sc_id <$> l.
Proof. unfold dkeys. induction l as [|s l IH]; [done|]. simpl. f_equal. apply IH. Qed.

Lemma dvalues_sources (l : list SourceConfig) : dvalues ((λ s, (sc_id s, s)) <$> l) = l.
Proof. unfold dvalues. induction l as [|s l IH]; [done|]. simpl. f_equal. apply IH. Qed.

(** Loading the sources.  A file whose validation yields [parsed] loads into
    an empty registry exactly if its identifiers are distinct; the registry then
    holds the sources in the order of the file, [get] answers each identifier
    with its source and every other one with [KeyError], [enabled] keeps the
    order, and every identifier consists of letters, digits, [_] and [-].
    Otherwise [load] raises [ValueError].  Model validation is relied on only to
    run the validator of the field. *)
Theorem registry_load text t raw resolved parsed :
  (∀ v l, model_validate v = Ok l → Forall (λ s, slug (sc_id s) = Ok (sc_id s)) l) →
  text = Ok t → safe_load t = Ok raw →
  resolve_secrets h (if truthy raw then raw else PyDict []) = Ok resolved →
  model_validate resolved = Ok parsed →
  if decide (NoDup (sc_id <$> parsed)) then
    ∃ st, load text [] = (Ok tt, st) ∧ all st = parsed ∧
          enabled st = filter (λ s, sc_enabled s = true) parsed ∧
          (∀ s, s ∈ parsed → get (sc_id s) st = Ok s) ∧
          (∀ id, id ∉ sc_id <$> parsed →
                 get id st = raise KeyError ("unknown source: " +:+ id)) ∧
          Forall (λ s, all_str slug_char (sc_id s) = true) (all st)
  else ∃ id st, load text [] = (raise ValueError ("duplicate source id: " +:+ id), st).
Proof.
  intros Hslug -> Hraw Hres Hval.
  assert (load (Ok t) [] = load_sources parsed [] []) as Hl.
  { unfold load. simpl. rewrite Hraw. simpl. rewrite Hres. simpl. by rewrite Hval. }
  pose proof (load_sources_spec parsed [] [] ltac:(set_solver)) as Hspec.
  destruct (decide (NoDup (sc_id <$> parsed))) as [Hnd|Hnd].
  - rewrite decide_True in Hspec by (split; [done|apply Forall_forall; set_solver]). simpl in Hspec.
    eexists. rewrite Hl. split; [exact Hspec|]. unfold all, enabled, get.
    rewrite dvalues_sources. split; [done|]. split; [done|]. split_and!.
    + intros s Hs. rewrite (dget_elem _ (sc_id s) s); [done|by rewrite dkeys_sources|].
      apply list_elem_of_fmap. by exists s.
    + intros id Hid. rewrite (proj2 (dget_None _ id)); [done|]. by rewrite dkeys_sources.
    + eapply Forall_impl; [by eapply Hslug|]. intros s Hs. by apply slug_chars in Hs as (_ & _ & Hs).
  - rewrite decide_False in Hspec by tauto. rewrite Hl. exact Hspec.
Qed.
End load.

(** A reader and a validation that know one document. *)
Definition two_sources (v : pyval) : res (list SourceConfig) :=
  let l := [default_SourceConfig "feed-a" "http_json" "json";
            default_SourceConfig "feed_b" "http_csv" "csv"] in
  match v with PyStr _ => Ok l | _ => raise ValidationError "sources" end.

Lemma registry_load_witness :
  ∃ st, load (λ _, Ok (PyStr "${env:FILE}")) two_sources sample_host (Ok "text") [] = (Ok tt, st) ∧
        sc_id <$> all st = ["feed-a"; "feed_b"].
Proof.
  destruct (registry_load (λ _, Ok (PyStr "${env:FILE}")) two_sources sample_host (Ok "text") "text"
              (PyStr "${env:FILE}") (PyStr "")
              [default_SourceConfig "feed-a" "http_json" "json";
               default_SourceConfig "feed_b" "http_csv" "csv"]) as (st & Hl & Ha & _).
  - intros v l H. unfold two_sources in H. destruct v; try discriminate.
    injection H as <-. repeat constructor.
  - reflexivity.
  - reflexivity.
  - vm_compute. reflexivity.
  - reflexivity.
  - exists st. split; [exact Hl|]. rewrite Ha. reflexivity.
Defined.
