(* ===== verification/Retry.v ===== *)
(** [manager/retry.py]: repeated attempts.  The loop itself is the library's
    [AsyncRetrying]; [Retrying] states what the code relies on, and
    [attempt_loop] is an implementation of it. *)

From Stdlib Require Import QArith.
From S2P Require Import Prelude Errors Registry Pipeline.
#[local] Open Scope string_scope.
#[local] Open Scope list_scope.
#[local] Open Scope Z_scope.

(** ** Raised objects *)

(** [isinstance(t, c)] of an exception or of a group: a group of exceptions is
    an [Exception], a group with another member only a [BaseException]. *)
Definition tree_isinstance (t : exc_tree) (c : exn_class) : bool :=
  match t with
  | Leaf e => isinstance e c
  | Group _ =>
      match c with
      | PyBaseException => true
      | PyException => forallb (λ e, isinstance e PyException) (flatten t)
      | _ => false
      end
  end.

(** ** The retry loop *)

(** The arguments of [AsyncRetrying] that decide its result; the waiting time
    between two attempts does not. *)
Record retry_args := MkRetryArgs { stop_after_attempt : Z; retry_if : exc_tree → bool }.

(** [retrying r k fn s]: the loop before attempt [k], for an attempt [fn] that
    changes a state.  With [reraise=True] the last exception itself is raised. *)
Class Retrying := {
  retrying : ∀ {S A : Type}, retry_args → Z → (S → (A + exc_tree) * S) → S → (A + exc_tree) * S;
  retrying_return : ∀ {S A} r k (fn : S → (A + exc_tree) * S) s a s',
    fn s = (inl a, s') → retrying r k fn s = (inl a, s');
  retrying_raise : ∀ {S A} r k (fn : S → (A + exc_tree) * S) s e s',
    fn s = (inr e, s') → (retry_if r e = false ∨ stop_after_attempt r <= k) →
    retrying r k fn s = (inr e, s');
  retrying_again : ∀ {S A} r k (fn : S → (A + exc_tree) * S) s e s',
    fn s = (inr e, s') → retry_if r e = true → k < stop_after_attempt r →
    retrying r k fn s = retrying r (k + 1) fn s'
}.

(** [with_retry(policy, fn)]; the handler of [RetryError] is never entered,
    since the loop reraises. *)
Definition with_retry `{Retrying} {S A} (policy : RetryPolicy) (fn : S → (A + exc_tree) * S) (s : S)
    : (A + exc_tree) * S :=
  retrying (MkRetryArgs (max_attempts policy)
              (λ e, tree_isinstance e TransientError || tree_isinstance e RateLimited)) 1 fn s.

(** ** An implementation *)

Fixpoint attempt_loop {S A} (fuel : nat) (r : retry_args) (k : Z) (fn : S → (A + exc_tree) * S)
    (s : S) : (A + exc_tree) * S :=
  match fn s with
  | (inl a, s') => (inl a, s')
  | (inr e, s') =>
      if negb (retry_if r e) || (stop_after_attempt r <=? k) then (inr e, s')
      else match fuel with
           | O => (inr e, s')
           | Datatypes.S fuel => attempt_loop fuel r (k + 1) fn s'
           end
  end.

#[export] Program Instance loop_retrying : Retrying := {|
  retrying S A r k fn s := attempt_loop (Z.to_nat (stop_after_attempt r - k)) r k fn s
|}.
Next Obligation. intros S A r k fn s a s' H. cbv beta. by destruct (Z.to_nat (stop_after_attempt r - k)); simpl; rewrite H. Qed.
Next Obligation.
  intros S A r k fn s e s' H Hstop.
  assert (negb (retry_if r e) || (stop_after_attempt r <=? k) = true) as Hb.
  { apply orb_true_iff. destruct Hstop as [-> | Hs]; [by left|right; lia]. }
  cbv beta. by destruct (Z.to_nat (stop_after_attempt r - k)); simpl; rewrite H, Hb.
Qed.
Next Obligation.
  intros S A r k fn s e s' H Hr Hk.
  cbv beta. assert (Z.to_nat (stop_after_attempt r - k)
          = Datatypes.S (Z.to_nat (stop_after_attempt r - (k + 1)))) as -> by lia.
  simpl. rewrite H, Hr. simpl. by destruct (Z.leb_spec (stop_after_attempt r) k); [lia|].
Qed.

(** ** Attempts *)

Section attempts.
Context `{Retrying}.

Definition retryable (e : exc_tree) : bool :=
  tree_isinstance e TransientError || tree_isinstance e RateLimited.

(** An attempt that is not retried is the only one. *)
Lemma with_retry_once {S A} policy (fn : S → (A + exc_tree) * S) s r s' :
  fn s = (r, s') → (∀ e, r = inr e → retryable e = false) → with_retry policy fn s = (r, s').
Proof.
  intros Hfn Hr. unfold with_retry. destruct r as [a|e].
  - by apply retrying_return.
  - apply retrying_raise; [done|]. left. by apply Hr.
Qed.

(** The outcomes of successive attempts, the state counting them. *)
Definition nth_attempt {A} (outcomes : nat → A + exc_tree) (n : nat) : (A + exc_tree) * nat :=
  (outcomes n, Datatypes.S n).

Lemma retrying_attempts {A} r (outcomes : nat → A + exc_tree) : ∀ m k n,
  m = Z.to_nat (stop_after_attempt r - k) →
  ∃ j, retrying r k (nth_attempt outcomes) n = (outcomes (n + j)%nat, Datatypes.S (n + j)) ∧
       (j <= m)%nat ∧
       (∀ i, (i < j)%nat → ∃ e, outcomes (n + i)%nat = inr e ∧ retry_if r e = true) ∧
       (j = m ∨ ∀ e, outcomes (n + j)%nat = inr e → retry_if r e = false).
Proof.
  induction m as [|m IH]; intros k n Hm.
  - exists 0%nat. rewrite Nat.add_0_r. split; [|split; [lia|split; [intros; lia|by left]]].
    destruct (outcomes n) as [a|e] eqn:E.
    + apply retrying_return. unfold nth_attempt. by rewrite E.
    + apply retrying_raise; [unfold nth_attempt; by rewrite E|]. right. lia.
  - destruct (outcomes n) as [a|e] eqn:E; [|destruct (retry_if r e) eqn:Er].
    + exists 0%nat. rewrite Nat.add_0_r, E. split; [apply retrying_return; unfold nth_attempt; by rewrite E|].
      split; [lia|]. split; [intros; lia|by right].
    + destruct (IH (k + 1) (Datatypes.S n)) as (j & Hj & Hle & Hbefore & Hlast); [lia|].
      exists (Datatypes.S j). rewrite <- Nat.add_succ_comm. split; [|split; [lia|split]].
      * rewrite <- Hj. apply (retrying_again r k _ n e); [unfold nth_attempt; by rewrite E|done|lia].
      * intros [|i] Hi; [rewrite Nat.add_0_r; eauto|].
        rewrite <- Nat.add_succ_comm. apply Hbefore. lia.
      * destruct Hlast as [->|Hlast]; [by left|by right].
    + exists 0%nat. rewrite Nat.add_0_r, E. split; [apply retrying_raise; [unfold nth_attempt; by rewrite E|by left]|].
      split; [lia|]. split; [intros; lia|]. right. by intros e' [= <-].
Qed.

(** Retrying.  [with_retry] makes between one and [max(1, max_attempts)]
    attempts and ends with the outcome of the last one; every attempt before the
    last failed with a transient error (a rate limit is one), and the last one
    either did not, or was the last allowed.  In particular a permanent error is
    never retried. *)
Theorem retry_attempts {A} policy (outcomes : nat → A + exc_tree) :
  ∃ n, with_retry policy (nth_attempt outcomes) 0%nat = (outcomes n, Datatypes.S n) ∧
       Z.of_nat (Datatypes.S n) <= Z.max 1 (max_attempts policy) ∧
       (∀ i, (i < n)%nat → ∃ e, outcomes i = inr e ∧ retryable e = true) ∧
       (Z.of_nat (Datatypes.S n) = Z.max 1 (max_attempts policy) ∨
        ∀ e, outcomes n = inr e → retryable e = false).
Proof.
  destruct (retrying_attempts (MkRetryArgs (max_attempts policy) retryable) outcomes
              (Z.to_nat (max_attempts policy - 1)) 1 0 eq_refl) as (j & Hj & Hle & Hb & Hl).
  exists j. split; [exact Hj|]. split; [lia|]. split; [exact Hb|].
  destruct Hl as [->|Hl]; [left; lia|by right].
Qed.
End attempts.
