(* ===== verification/Concurrency.v ===== *)
(** [manager/concurrency.py]: the semaphores of a worker, and the runs that
    hold them as [FeedRunner.execute] takes them: the global one first, then the
    one of the source. *)

From S2P Require Import Prelude Errors PyDict.
#[local] Open Scope Z_scope.

(** An [asyncio.Semaphore]: its initial and its current value. *)
Record Semaphore := MkSemaphore { sem_initial : Z; sem_value : Z }.

Definition new_Semaphore (v : Z) : res Semaphore :=
  if v <? 0 then raise ValueError "Semaphore initial value must be >= 0"
  else Ok (MkSemaphore v v).

(** [acquire] waits ([None]) unless the value is positive. *)
Definition sem_acquire (s : Semaphore) : option Semaphore :=
  if sem_value s <=? 0 then None else Some (MkSemaphore (sem_initial s) (sem_value s - 1)).
Definition sem_release (s : Semaphore) : Semaphore :=
  MkSemaphore (sem_initial s) (sem_value s + 1).

Abbreviation semaphores := (list (string * Semaphore)).

(** [PerSourceConcurrency.get]: created by the first call, with at least one
    permit. *)
Definition get_semaphore (source_id : string) (max_parallelism : Z) (sems : semaphores)
    : Semaphore * semaphores :=
  match dget sems source_id with
  | Some sem => (sem, sems)
  | None =>
      let n := Z.max 1 max_parallelism in
      let sem := MkSemaphore n n in
      (sem, dset sems source_id sem)
  end.

(** [GlobalConcurrency.__init__], [__aenter__] and [__aexit__]. *)
Definition new_GlobalConcurrency (max_concurrent : Z) : res Semaphore := new_Semaphore max_concurrent.
Definition global_enter : Semaphore → option Semaphore := sem_acquire.
Definition global_exit : Semaphore → Semaphore := sem_release.

(** ** Runs of a worker *)

(** Where a run is in [execute]: before [get]; waiting for the global permit;
    holding it and waiting for the source's; inside; and after. *)
Inductive phase := Created | Queued | HoldsGlobal | Inside | Left.

#[export] Instance phase_eq_dec : EqDecision phase.
Proof. solve_decision. Defined.

Record run := MkRun { r_source : string; r_parallelism : Z; r_phase : phase }.

Record worker := MkWorker { globals : Semaphore; per_source : semaphores; runs : list run }.

Definition with_phase (p : phase) (r : run) : run := MkRun (r_source r) (r_parallelism r) p.

(** The next step of run [i], or [None] when it waits or has left.  A run inside
    its permits can always end. *)
Definition advance (i : nat) (w : worker) : option worker :=
  r ← runs w !! i;
  let to p g s := MkWorker g s (<[i := with_phase p r]> (runs w)) in
  match r_phase r with
  | Created =>
      Some (to Queued (globals w) (get_semaphore (r_source r) (r_parallelism r) (per_source w)).2)
  | Queued => g ← global_enter (globals w); Some (to HoldsGlobal g (per_source w))
  | HoldsGlobal =>
      sem ← dget (per_source w) (r_source r); sem' ← sem_acquire sem;
      Some (to Inside (globals w) (dset (per_source w) (r_source r) sem'))
  | Inside =>
      sem ← dget (per_source w) (r_source r);
      Some (to Left (global_exit (globals w)) (dset (per_source w) (r_source r) (sem_release sem)))
  | Left => None
  end.

Definition wstep (w w' : worker) : Prop := ∃ i, advance i w = Some w'.
Definition wreachable : worker → worker → Prop := rtc wstep.

(** The state in which the runs arrive. *)
Definition arriving (g : Semaphore) (rs : list (string * Z)) : worker :=
  MkWorker g [] ((λ x, MkRun x.1 x.2 Created) <$> rs).

(** ** Counting *)

Section count.
Context {A : Type}.
Implicit Types (p : A → bool) (l : list A).

Fixpoint count p l : Z :=
  match l with [] => 0 | x :: l => (if p x then 1 else 0) + count p l end.

Lemma count_nonneg p l : 0 <= count p l.
Proof. induction l as [|x l IH]; simpl; [lia|]. destruct (p x); lia. Qed.

Lemma count_insert p l i x y :
  l !! i = Some x →
  count p (<[i := y]> l) = count p l - (if p x then 1 else 0) + (if p y then 1 else 0).
Proof.
  revert i. induction l as [|a l IH]; intros [|i] H; simplify_eq/=; [lia|].
  rewrite (IH i) by done. lia.
Qed.

Lemma count_lookup p l i x : l !! i = Some x → p x = true → 1 <= count p l.
Proof.
  revert i. induction l as [|a l IH]; intros [|i] H Hp; simplify_eq/=.
  - rewrite Hp. pose proof (count_nonneg p l). lia.
  - specialize (IH i H Hp). destruct (p a); lia.
Qed.

Lemma count_zero p l : count p l = 0 → ∀ i x, l !! i = Some x → p x = false.
Proof.
  intros H i x Hx. destruct (p x) eqn:E; [|done].
  pose proof (count_lookup p l i x Hx E). lia.
Qed.

Lemma count_positive p l : 0 < count p l → ∃ i x, l !! i = Some x ∧ p x = true.
Proof.
  induction l as [|a l IH]; simpl; [lia|]. destruct (p a) eqn:E.
  - intros _. by exists 0%nat, a.
  - intros H. destruct IH as (i & x & Hx & Hp); [lia|]. by exists (S i), x.
Qed.
End count.

(** ** The invariant *)

Definition holds_global (r : run) : bool :=
  match r_phase r with HoldsGlobal | Inside => true | _ => false end.
Definition inside (id : string) (r : run) : bool :=
  bool_decide (r_phase r = Inside) && String.eqb (r_source r) id.
Definition registered (r : run) : bool :=
  match r_phase r with Queued | HoldsGlobal | Inside => true | _ => false end.

#[local] Arguments inside id !r /.
#[local] Arguments holds_global !r /.
#[local] Arguments with_phase p !r /.

(** The permits held and the permits left add up, for every semaphore. *)
Record winv (w : worker) : Prop := {
  inv_global : sem_value (globals w) + count holds_global (runs w) = sem_initial (globals w);
  inv_global_nonneg : 0 <= sem_value (globals w);
  inv_source id sem : dget (per_source w) id = Some sem →
    sem_value sem + count (inside id) (runs w) = sem_initial sem ∧
    0 <= sem_value sem ∧ 1 <= sem_initial sem;
  inv_inside id : dget (per_source w) id = None → count (inside id) (runs w) = 0;
  inv_registered i r : runs w !! i = Some r → registered r = true →
    is_Some (dget (per_source w) (r_source r))
}.

Lemma inside_with_phase id p r :
  inside id (with_phase p r) = bool_decide (p = Inside) && String.eqb (r_source r) id.
Proof. done. Qed.

Lemma winv_arriving g rs : 0 <= sem_value g → sem_value g = sem_initial g → winv (arriving g rs).
Proof.
  intros Hg He. unfold arriving. split; simpl.
  - assert (count holds_global ((λ x, MkRun x.1 x.2 Created) <$> rs) = 0) as ->; [|lia].
    induction rs; [done|]. simpl. done.
  - done.
  - done.
  - intros id _. induction rs; [done|]. simpl. done.
  - intros i r H. apply list_lookup_fmap_Some in H as (x & -> & _). done.
Qed.

(** The registered sources stay registered. *)
Lemma registered_insert (sems sems' : semaphores) (rs : list run) i r :
  (∀ id, is_Some (dget sems id) → is_Some (dget sems' id)) →
  (registered r = true → is_Some (dget sems' (r_source r))) →
  (∀ j r, rs !! j = Some r → registered r = true → is_Some (dget sems (r_source r))) →
  ∀ j r', <[i := r]> rs !! j = Some r' → registered r' = true →
          is_Some (dget sems' (r_source r')).
Proof.
  intros Hmono Hnew Hold j r' Hj Hreg. apply list_lookup_insert_Some in Hj as [(-> & <- & _)|[_ Hj]].
  - by apply Hnew.
  - by apply Hmono, (Hold j).
Qed.

Lemma dset_mono (sems : semaphores) k v id : is_Some (dget sems id) → is_Some (dget (dset sems k v) id).
Proof. rewrite dget_dset. by case_decide. Qed.

Lemma get_semaphore_cases id n sems :
  (∃ sem, dget sems id = Some sem ∧ (get_semaphore id n sems).2 = sems) ∨
  (dget sems id = None ∧
   (get_semaphore id n sems).2 = dset sems id (MkSemaphore (Z.max 1 n) (Z.max 1 n))).
Proof. unfold get_semaphore. destruct (dget sems id); [left|right]; eauto. Qed.

(** Counting after run [i] has moved to a phase. *)
Lemma count_moved_in rs i r id :
  rs !! i = Some r →
  count (inside id) (<[i := with_phase Inside r]> rs)
  = count (inside id) rs - (if inside id r then 1 else 0) + (if String.eqb (r_source r) id then 1 else 0).
Proof. intros Hr. by rewrite (count_insert _ _ _ r). Qed.

Lemma count_moved_out rs i r p id :
  rs !! i = Some r → p ≠ Inside →
  count (inside id) (<[i := with_phase p r]> rs) = count (inside id) rs - (if inside id r then 1 else 0).
Proof.
  intros Hr Hp. rewrite (count_insert _ _ _ r) by done. rewrite inside_with_phase.
  rewrite bool_decide_eq_false_2 by done. simpl. lia.
Qed.

Lemma count_moved_global rs i r p :
  rs !! i = Some r →
  count holds_global (<[i := with_phase p r]> rs)
  = count holds_global rs - (if holds_global r then 1 else 0) + (if holds_global (with_phase p r) then 1 else 0).
Proof. intros Hr. by rewrite (count_insert _ _ _ r). Qed.

(** [get]: a semaphore that is created has all its permits. *)
Lemma winv_get w i src n :
  winv w → runs w !! i = Some (MkRun src n Created) →
  winv (MkWorker (globals w) (get_semaphore src n (per_source w)).2 (<[i := MkRun src n Queued]> (runs w))).
Proof.
  intros [Hg Hgn Hs Hin Hreg] Hr. change (MkRun src n Queued) with (with_phase Queued (MkRun src n Created)).
  destruct (get_semaphore_cases src n (per_source w)) as [(sem & Hsem & ->)|[Hsem ->]]; split; cbn [globals per_source runs]; try done.
  - rewrite (count_moved_global _ _ _ _ Hr). simpl. lia.
  - intros id sem0 Hid. rewrite (count_moved_out _ _ _ _ _ Hr) by done. destruct (Hs id sem0 Hid) as (? & ? & ?). simpl. lia.
  - intros id Hid. rewrite (count_moved_out _ _ _ _ _ Hr), (Hin id Hid) by done. done.
  - eapply registered_insert; [done| |done]. simpl. by rewrite Hsem.
  - rewrite (count_moved_global _ _ _ _ Hr). simpl. lia.
  - intros id sem0. rewrite dget_dset, (count_moved_out _ _ _ _ _ Hr) by done. case_decide as Hid.
    + intros [= <-]. subst id. rewrite (Hin _ Hsem). simpl. lia.
    + intros Hid'. destruct (Hs id sem0 Hid') as (? & ? & ?). simpl. lia.
  - intros id. rewrite dget_dset, (count_moved_out _ _ _ _ _ Hr) by done. case_decide; [done|].
    intros Hid. by rewrite (Hin id Hid).
  - eapply registered_insert; [apply dset_mono| |done]. simpl. by rewrite dget_dset_eq.
Qed.

Lemma winv_enter w i src n g :
  winv w → runs w !! i = Some (MkRun src n Queued) → global_enter (globals w) = Some g →
  winv (MkWorker g (per_source w) (<[i := MkRun src n HoldsGlobal]> (runs w))).
Proof.
  intros [Hg Hgn Hs Hin Hreg] Hr. change (MkRun src n HoldsGlobal) with (with_phase HoldsGlobal (MkRun src n Queued)).
  unfold global_enter, sem_acquire. destruct (Z.leb_spec (sem_value (globals w)) 0); [done|]. intros [= <-].
  split; cbn [globals per_source runs sem_value sem_initial]; try lia.
  - rewrite (count_moved_global _ _ _ _ Hr). simpl. lia.
  - intros id sem0 Hid. rewrite (count_moved_out _ _ _ _ _ Hr) by done. destruct (Hs id sem0 Hid) as (? & ? & ?). simpl. lia.
  - intros id Hid. by rewrite (count_moved_out _ _ _ _ _ Hr), (Hin id Hid).
  - eapply registered_insert; [done| |done]. intros _. by apply (Hreg i _ Hr).
Qed.

Lemma winv_acquire w i src n sem sem' :
  winv w → runs w !! i = Some (MkRun src n HoldsGlobal) → dget (per_source w) src = Some sem →
  sem_acquire sem = Some sem' →
  winv (MkWorker (globals w) (dset (per_source w) src sem') (<[i := MkRun src n Inside]> (runs w))).
Proof.
  intros [Hg Hgn Hs Hin Hreg] Hr Hsem. change (MkRun src n Inside) with (with_phase Inside (MkRun src n HoldsGlobal)).
  unfold sem_acquire. destruct (Z.leb_spec (sem_value sem) 0); [done|]. intros [= <-].
  destruct (Hs _ _ Hsem) as (Hv & Hv0 & Hi). split; cbn [globals per_source runs]; try lia.
  - rewrite (count_moved_global _ _ _ _ Hr). simpl. lia.
  - intros id sem0. rewrite dget_dset, (count_moved_in _ _ _ _ Hr). simpl. case_decide as Hid.
    + intros [= <-]. subst id. rewrite String.eqb_refl. simpl. lia.
    + intros Hid'. destruct (Hs id sem0 Hid') as (? & ? & ?). destruct (String.eqb_spec src id); [done|]. lia.
  - intros id. rewrite dget_dset, (count_moved_in _ _ _ _ Hr). simpl. case_decide as Hid; [done|]. intros Hid'.
    rewrite (Hin id Hid'). by destruct (String.eqb_spec src id).
  - eapply registered_insert; [apply dset_mono| |done]. simpl. by rewrite dget_dset_eq.
Qed.

Lemma winv_leave w i src n sem :
  winv w → runs w !! i = Some (MkRun src n Inside) → dget (per_source w) src = Some sem →
  winv (MkWorker (global_exit (globals w)) (dset (per_source w) src (sem_release sem)) (<[i := MkRun src n Left]> (runs w))).
Proof.
  intros [Hg Hgn Hs Hin Hreg] Hr Hsem. change (MkRun src n Left) with (with_phase Left (MkRun src n Inside)).
  destruct (Hs _ _ Hsem) as (Hv & Hv0 & Hi). split; cbn [globals per_source runs global_exit sem_release sem_value sem_initial]; try lia.
  - rewrite (count_moved_global _ _ _ _ Hr). simpl. lia.
  - intros id sem0. rewrite dget_dset, (count_moved_out _ _ _ _ _ Hr) by done. simpl. case_decide as Hid.
    + intros [= <-]. subst id. rewrite String.eqb_refl. simpl. lia.
    + intros Hid'. destruct (Hs id sem0 Hid') as (? & ? & ?). destruct (String.eqb_spec src id); [done|]. lia.
  - intros id. rewrite dget_dset, (count_moved_out _ _ _ _ _ Hr) by done. simpl. case_decide as Hid; [done|]. intros Hid'.
    rewrite (Hin id Hid'). by destruct (String.eqb_spec src id).
  - eapply registered_insert; [apply dset_mono|done|done].
Qed.

Lemma winv_step w w' : wstep w w' → winv w → winv w'.
Proof.
  intros [i Hadv] Hw. unfold advance in Hadv.
  destruct (runs w !! i) as [[src n ph]|] eqn:Hr; simpl in Hadv; [|done]. destruct ph; simplify_eq/=.
  - by apply winv_get.
  - destruct (global_enter (globals w)) as [g|] eqn:Eg; simplify_eq/=. by apply winv_enter.
  - destruct (dget (per_source w) src) as [sem|] eqn:Hsem; simpl in Hadv; [|done].
    destruct (sem_acquire sem) as [sem'|] eqn:Ea; simplify_eq/=. by eapply winv_acquire.
  - destruct (dget (per_source w) src) as [sem|] eqn:Hsem; simplify_eq/=. by eapply winv_leave.
Qed.

Lemma winv_reachable w w' : wreachable w w' → winv w → winv w'.
Proof. induction 1; eauto using winv_step. Qed.

(** ** Bounds and progress *)

(** Every semaphore keeps the initial value it was created with. *)
Definition initials (g : Z) (rs : list (string * Z)) (w : worker) : Prop :=
  sem_initial (globals w) = g ∧
  (∀ id sem, dget (per_source w) id = Some sem →
             ∃ m, (id, m) ∈ rs ∧ sem_initial sem = Z.max 1 m) ∧
  (∀ i r, runs w !! i = Some r → (r_source r, r_parallelism r) ∈ rs).

Lemma initials_step g rs w w' : wstep w w' → initials g rs w → initials g rs w'.
Proof.
  intros [i Hadv] (Hg & Hs & Hr). unfold advance in Hadv.
  destruct (runs w !! i) as [[src n ph]|] eqn:Hi; simpl in Hadv; [|done].
  assert (∀ p j r, <[i := MkRun src n p]> (runs w) !! j = Some r → (r_source r, r_parallelism r) ∈ rs)
    as Hruns.
  { intros p j r [(-> & <- & _)|[_ Hj]]%list_lookup_insert_Some; [by apply (Hr _ _ Hi)|by apply (Hr j)]. }
  assert (∀ sem' sem id, dget (dset (per_source w) src sem') id = Some sem →
            (∃ m, (src, m) ∈ rs ∧ sem_initial sem' = Z.max 1 m) →
            ∃ m, (id, m) ∈ rs ∧ sem_initial sem = Z.max 1 m) as Hset.
  { intros sem' sem id. rewrite dget_dset. case_decide as Hid; [|intros; by apply Hs].
    intros [= <-] (m & Hm & Hsem'). rewrite <- Hid. by exists m. }
  destruct ph; simplify_eq/=.
  - split; [done|]. split; [|apply Hruns]. intros id sem.
    destruct (get_semaphore_cases src n (per_source w)) as [(sem0 & Hsem0 & E)|[Hsem0 E]];
      simpl; rewrite E; [apply Hs|]. intros Hid. apply (Hset _ _ _ Hid). exists n.
    split; [by apply (Hr _ _ Hi)|done].
  - unfold global_enter, sem_acquire in Hadv. destruct (_ <=? 0)%Z; simplify_eq/=.
    split; [done|]. split; [done|apply Hruns].
  - destruct (dget (per_source w) src) as [sem|] eqn:Hsem; simpl in Hadv; [|done].
    unfold sem_acquire in Hadv. destruct (_ <=? 0)%Z; simplify_eq/=.
    split; [done|]. split; [|apply Hruns]. intros id sem0 Hid. apply (Hset _ _ _ Hid).
    exact (Hs src sem Hsem).
  - destruct (dget (per_source w) src) as [sem|] eqn:Hsem; simplify_eq/=.
    split; [done|]. split; [|apply Hruns]. intros id sem0 Hid. apply (Hset _ _ _ Hid).
    exact (Hs src sem Hsem).
Qed.

Lemma initials_reachable g rs w :
  wreachable (arriving g rs) w → initials (sem_initial g) rs w.
Proof.
  intros Hreach. assert (initials (sem_initial g) rs (arriving g rs)) as H0.
  { split; [done|]. split; [done|]. intros i r H. apply list_lookup_fmap_Some in H as (x & -> & Hx).
    simpl. apply list_elem_of_lookup_2 in Hx. by destruct x. }
  induction Hreach; eauto using initials_step.
Qed.

Definition is_inside (r : run) : bool := bool_decide (r_phase r = Inside).

Lemma count_mono {A} (p q : A → bool) l :
  (∀ x, p x = true → q x = true) → count p l <= count q l.
Proof.
  intros H. induction l as [|x l IH]; simpl; [lia|].
  destruct (p x) eqn:E; [rewrite (H x E); lia|]. destruct (q x); lia.
Qed.

Lemma new_Semaphore_Ok n g : new_Semaphore n = Ok g → g = MkSemaphore n n ∧ 0 <= n.
Proof.
  unfold new_Semaphore. destruct (Z.ltb_spec n 0); [done|]. by intros [= <-].
Qed.

(** C17: concurrency limits.  However the runs of a worker are interleaved, at
    most [global_concurrency] of them are inside the pipeline at once, and of
    one source at most [max(1, max_parallelism)], for the value of a run of that
    source. *)
Theorem concurrency_bounds n g rs w id :
  new_GlobalConcurrency n = Ok g → wreachable (arriving g rs) w →
  count is_inside (runs w) <= n ∧
  (count (inside id) (runs w) = 0 ∨
   ∃ m, (id, m) ∈ rs ∧ count (inside id) (runs w) <= Z.max 1 m).
Proof.
  intros [-> Hn]%new_Semaphore_Ok Hreach.
  destruct (initials_reachable _ _ _ Hreach) as (Hg & Hs & _).
  destruct (winv_reachable _ _ Hreach (winv_arriving (MkSemaphore n n) rs Hn eq_refl)) as [Hi Hv Hsrc Hin _].
  simpl in Hg. split.
  - pose proof (count_mono is_inside holds_global (runs w)) as Hm.
    rewrite Hg in Hi. enough (count is_inside (runs w) <= count holds_global (runs w)) by lia.
    apply Hm. by intros [src k []].
  - destruct (dget (per_source w) id) as [sem|] eqn:E; [right|left; by apply Hin].
    destruct (Hs id sem E) as (m & Hm & Hini). exists m. split; [done|].
    destruct (Hsrc id sem E) as (? & ? & ?). lia.
Qed.

(** Each run takes four steps. *)
Definition remaining (r : run) : nat :=
  match r_phase r with Created => 4 | Queued => 3 | HoldsGlobal => 2 | Inside => 1 | Left => 0 end.
Definition measure (w : worker) : nat := sum_list (remaining <$> runs w).

Lemma sum_list_insert (f : run → nat) l i x y :
  l !! i = Some x → (f y < f x)%nat →
  (sum_list (f <$> <[i := y]> l) < sum_list (f <$> l))%nat.
Proof.
  revert i. induction l as [|a l IH]; intros [|i] H Hlt; simplify_eq/=; [lia|].
  specialize (IH i H Hlt). lia.
Qed.

Lemma wstep_measure w w' : wstep w w' → (measure w' < measure w)%nat.
Proof.
  intros [i Hadv]. unfold advance in Hadv.
  destruct (runs w !! i) as [[src n ph]|] eqn:Hi; simpl in Hadv; [|done].
  assert (∀ p, (remaining (MkRun src n p) < remaining (MkRun src n ph))%nat →
            (sum_list (remaining <$> <[i := MkRun src n p]> (runs w)) < measure w)%nat) as Hlt
    by (intros p; by apply sum_list_insert).
  destruct ph; simplify_eq/=.
  - apply (Hlt Queued). unfold remaining. simpl. lia.
  - destruct (global_enter _); simplify_eq/=. apply (Hlt HoldsGlobal). unfold remaining. simpl. lia.
  - destruct (dget _ _) as [sem|]; simpl in Hadv; [|done].
    destruct (sem_acquire sem); simplify_eq/=. apply (Hlt Inside). unfold remaining. simpl. lia.
  - destruct (dget _ _) as [sem|]; simplify_eq/=. apply (Hlt Left). unfold remaining. simpl. lia.
Qed.

Definition all_left (w : worker) : Prop := ∀ i r, runs w !! i = Some r → r_phase r = Left.

Lemma waiting_left w :
  winv w → 1 <= sem_initial (globals w) → (∀ i, advance i w = None) → all_left w.
Proof.
  intros [Hg _ Hs _ Hreg] Hn Hno.
  assert (∀ i r, runs w !! i = Some r → r_phase r = Queued ∨ r_phase r = HoldsGlobal ∨ r_phase r = Left)
    as Hph.
  { intros i r Hr. specialize (Hno i). unfold advance in Hno. rewrite Hr in Hno. simpl in Hno.
    destruct (r_phase r) eqn:Hp; try done; [tauto..| |tauto].
    destruct (Hreg i r Hr) as [sem Hsem]; [unfold registered; by rewrite Hp|].
    by rewrite Hsem in Hno. }
  assert (∀ p, count p (runs w) = 0 ∨ ∃ i r, runs w !! i = Some r ∧ p r = true) as Hc.
  { intros p. destruct (decide (count p (runs w) = 0)); [by left|right].
    apply count_positive. pose proof (count_nonneg p (runs w)). lia. }
  assert (count holds_global (runs w) = 0) as Hzero.
  { destruct (Hc holds_global) as [?|(i & r & Hr & Hp)]; [done|]. exfalso.
    destruct (Hph i r Hr) as [E|[E|E]]; unfold holds_global in Hp; rewrite E in Hp; try done.
    destruct (Hreg i r Hr) as [sem Hsem]; [unfold registered; by rewrite E|].
    destruct (Hs _ _ Hsem) as (Hv & _ & Hi).
    destruct (Hc (inside (r_source r))) as [Hz|(j & r' & Hr' & Hin)].
    - specialize (Hno i). unfold advance in Hno. rewrite Hr in Hno. simpl in Hno.
      rewrite E, Hsem in Hno. simpl in Hno. unfold sem_acquire in Hno.
      destruct (Z.leb_spec (sem_value sem) 0); [lia|done].
    - unfold inside in Hin. bool_to_prop. apply bool_decide_eq_true in H.
      destruct (Hph j r' Hr') as [E'|[E'|E']]; congruence. }
  intros i r Hr. destruct (Hph i r Hr) as [E|[E|E]]; [| |done]; exfalso.
  - specialize (Hno i). unfold advance in Hno. rewrite Hr in Hno. simpl in Hno. rewrite E in Hno.
    unfold global_enter, sem_acquire in Hno.
    destruct (Z.leb_spec (sem_value (globals w)) 0); [lia|done].
  - pose proof (count_zero _ _ Hzero i r Hr) as Hf. unfold holds_global in Hf. by rewrite E in Hf.
Qed.

(** C18: no deadlock of the limits.  With a positive global limit, no
    interleaving of the runs is infinite, and one that cannot go on has let
    every run through; although a run takes two semaphores, the order in which
    it takes them excludes a cycle.  This is about the permits: that a run which has
    them ends is assumed. *)
Theorem concurrency_progress n g rs w :
  1 <= n → new_GlobalConcurrency n = Ok g → wreachable (arriving g rs) w →
  (∀ w', wstep w w' → (measure w' < measure w)%nat) ∧
  ((∀ i, advance i w = None) → all_left w).
Proof.
  intros Hn [-> Hn']%new_Semaphore_Ok Hreach. split; [apply wstep_measure|].
  apply waiting_left; [by eapply winv_reachable, (winv_arriving (MkSemaphore n n) rs Hn' eq_refl)|].
  destruct (initials_reachable _ _ _ Hreach) as (-> & _). done.
Qed.

(** ** Concrete interleavings *)

Fixpoint wschedule (order : list nat) (w : worker) : worker :=
  match order with
  | [] => w
  | i :: order => wschedule order (default w (advance i w))
  end.

Lemma wschedule_reachable order w : wreachable w (wschedule order w).
Proof.
  revert w. induction order as [|i order IH]; intros w; simpl; [apply rtc_refl|].
  destruct (advance i w) as [w'|] eqn:E; simpl; [|apply IH].
  eapply rtc_l; [by exists i|apply IH].
Qed.

(** Two runs of source [a], one of source [b], two global permits. *)
Definition crowd : worker := arriving (MkSemaphore 2 2) [("a", 1%Z); ("a", 1%Z); ("b", 1%Z)].
Definition crowded : worker := wschedule [0; 1; 2; 0; 1; 0]%nat crowd.

Lemma concurrency_bounds_witness :
  count is_inside (runs crowded) <= 2 ∧ count (inside "a") (runs crowded) = 1.
Proof.
  split; [|vm_compute; reflexivity].
  apply (concurrency_bounds 2 (MkSemaphore 2 2) [("a", 1%Z); ("a", 1%Z); ("b", 1%Z)] crowded "a").
  - reflexivity.
  - apply wschedule_reachable.
Defined.

Lemma concurrency_progress_witness :
  ∃ w, wreachable crowd w ∧ all_left w.
Proof.
  exists (wschedule [0; 1; 2; 0; 1; 2; 0; 0; 2; 1; 1; 2; 2]%nat crowd).
  split; [apply wschedule_reachable|].
  apply (concurrency_progress 2 (MkSemaphore 2 2) [("a", 1%Z); ("a", 1%Z); ("b", 1%Z)]).
  - lia.
  - reflexivity.
  - apply wschedule_reachable.
  - intros i. destruct i as [|[|[|i]]]; vm_compute; reflexivity.
Defined.

(** A waiting run holds a global permit.  A second run of a source that
    admits one at a time keeps the last global permit while it waits, so a run
    of an idle source cannot start although the worker runs below its limit. *)
Theorem waiting_run_holds_permit :
  wreachable crowd crowded ∧ count is_inside (runs crowded) < sem_initial (globals crowded) ∧
  advance 2 crowded = None ∧ count (inside "b") (runs crowded) = 0.
Proof. split; [apply wschedule_reachable|]. vm_compute. done. Qed.
