(* ===== verification/Rows.v ===== *)
(** [persistence/models.py] and [persistence/db.py]: the rows of the tables, and
    sessions over a database.

    The database and its driver are the interface [Database]: every operation
    may raise, and its laws say what it did when it does not.  [MemoryDb] is an
    implementation of the interface. *)

From S2P Require Import Prelude Errors PyDict PyVal.

(** ** Rows *)

Record SourceRow := MkSourceRow {
  src_id : string;
  src_name : option string;
  src_plugin : string;
  src_config_hash : string;
  src_enabled : bool;
  src_watermark : option pydict;
  src_last_etag : option string;
  src_last_modified : option string;
  src_last_seen_id : option string;
  src_created_at : Z;
  src_updated_at : Z
}.

Record FeedRunRow := MkFeedRunRow {
  run_row_id : N;
  run_source_id : string;
  run_state : string;
  run_started_at : Z;
  run_finished_at : option Z;
  run_fetched_bytes : Z;
  run_records_in : Z;
  run_records_out : Z;
  run_parse_errors : Z;
  run_dropped : Z;
  run_error : option string;
  run_watermark : option pydict;
  run_raw_uri : option string
}.

Record IndicatorRow := MkIndicatorRow {
  ir_id : N;
  ir_type : string;
  ir_value : string;
  ir_pattern : option string;
  ir_confidence : Z;
  ir_severity : string;
  ir_tlp : string;
  ir_tags : list string;
  ir_first_seen_by_us : Z;
  ir_last_seen_by_us : Z;
  ir_valid_from : option Z;
  ir_valid_until : option Z;
  ir_schema_version : string
}.

(** The values of an insert; the database numbers the row. *)
Record IndicatorObservationRow := MkObservationRow {
  or_indicator_id : N;
  or_source_id : string;
  or_feed_run_id : N;
  or_observed_at : Z;
  or_tlp : string;
  or_confidence : Z;
  or_raw : pydict;
  or_schema_version : string
}.

Record DeadLetterRow := MkDeadLetterRow {
  dl_id : Z;
  dl_feed_run_id : N;
  dl_source_id : string;
  dl_payload_sha : string;
  dl_error_class : string;
  dl_error_msg : string;
  dl_traceback : string;
  dl_reason : string;
  dl_created_at : Z;
  dl_replayed_at : option Z
}.

(** ** Tables *)

(** Rows by primary key; observations and dead letters in the order of their
    insertion. *)
Record db_tables := MkTables {
  t_sources : gmap string SourceRow;
  t_feed_runs : gmap N FeedRunRow;
  t_indicators : gmap N IndicatorRow;
  t_observations : list IndicatorObservationRow;
  t_dead_letters : list DeadLetterRow
}.

Definition with_sources (f : gmap string SourceRow → gmap string SourceRow) (t : db_tables) : db_tables :=
  MkTables (f (t_sources t)) (t_feed_runs t) (t_indicators t) (t_observations t) (t_dead_letters t).
Definition with_feed_runs (f : gmap N FeedRunRow → gmap N FeedRunRow) (t : db_tables) : db_tables :=
  MkTables (t_sources t) (f (t_feed_runs t)) (t_indicators t) (t_observations t) (t_dead_letters t).
Definition with_indicators (f : gmap N IndicatorRow → gmap N IndicatorRow) (t : db_tables) : db_tables :=
  MkTables (t_sources t) (t_feed_runs t) (f (t_indicators t)) (t_observations t) (t_dead_letters t).
Definition with_observations (f : list IndicatorObservationRow → list IndicatorObservationRow)
    (t : db_tables) : db_tables :=
  MkTables (t_sources t) (t_feed_runs t) (t_indicators t) (f (t_observations t)) (t_dead_letters t).
Definition with_dead_letters (f : list DeadLetterRow → list DeadLetterRow) (t : db_tables) : db_tables :=
  MkTables (t_sources t) (t_feed_runs t) (t_indicators t) (t_observations t) (f (t_dead_letters t)).

(** ** The interface of a database *)

(** A statement on one row or table, as the code issues them: reading a row by
    its key ([FOR UPDATE] or not), writing a changed row, inserting a new row,
    and replacing the tables by a computed content (the bulk statements). *)
Class Database (D : Type) := {
  tables : D → db_tables;
  read : ∀ {A}, (db_tables → A) → D → res A;
  write : (db_tables → res db_tables) → D → res D;
  db_commit : D → res D;
  read_Ok : ∀ {A} (f : db_tables → A) d a, read f d = Ok a → a = f (tables d);
  write_Ok : ∀ f d d', write f d = Ok d' → f (tables d) = Ok (tables d');
  commit_Ok : ∀ d d', db_commit d = Ok d' → tables d' = tables d
}.

(** A database in memory that can be unreachable. *)
Record MemoryDb := MkMemoryDb { mem_tables : db_tables; mem_up : bool }.

Definition mem_down {A} : res A := raise DatabaseError "connection refused".

#[export] Program Instance memory_database : Database MemoryDb := {|
  tables := mem_tables;
  read A f d := if mem_up d then Ok (f (mem_tables d)) else mem_down;
  write f d := if mem_up d then t ← f (mem_tables d); Ok (MkMemoryDb t true) else mem_down;
  db_commit d := if mem_up d then Ok d else mem_down
|}.
Next Obligation. intros A f [t []] a; simpl; [by intros [= <-]|done]. Qed.
Next Obligation.
  intros f [t []] d'; simpl; [|done]. destruct (f t) as [t'|e]; simpl; [|done]. by intros [= <-].
Qed.
Next Obligation. intros [t []] d'; simpl; [by intros [= <-]|done]. Qed.

(** ** Sessions *)

Section session.
Context {D : Type} `{!Database D}.

(** A session: what was committed, and what its transaction sees. *)
Record Session := MkSession { committed : D; working : D }.

(** Code that runs in a session. *)
Definition Sess (A : Type) : Type := Session → res A * Session.

#[global] Instance Sess_ret : MRet Sess := λ A a s, (Ok a, s).
#[global] Instance Sess_bind : MBind Sess := λ A B f m s,
  match m s with (Ok a, s) => f a s | (Raise e, s) => (Raise e, s) end.

Definition s_raise {A} (c : exn_class) (m : string) : Sess A := λ s, (raise c m, s).

(** A statement that reads, a statement that writes, [session.commit()]. *)
Definition s_read {A} (f : db_tables → A) : Sess A := λ s, (read f (working s), s).
Definition s_write (f : db_tables → res db_tables) : Sess unit := λ s,
  match write f (working s) with
  | Ok d => (Ok tt, MkSession (committed s) d)
  | Raise e => (Raise e, s)
  end.
Definition s_commit : Sess unit := λ s,
  match db_commit (working s) with
  | Ok d => (Ok tt, MkSession d d)
  | Raise e => (Raise e, s)
  end.

(** [async with db_session() as session]: a transaction that is not committed
    is rolled back when the session closes. *)
Definition db_session {A} (initialized : bool) (body : Sess A) (d : D) : res A * D :=
  if negb initialized then (raise RuntimeError "db engine not initialized", d)
  else let '(r, s) := body (MkSession d d) in (r, committed s).

(** ** Facts *)

Lemma s_bind_Ok {A B} (m : Sess A) (f : A → Sess B) s b s' :
  (m ≫= f) s = (Ok b, s') ↔ ∃ a s1, m s = (Ok a, s1) ∧ f a s1 = (Ok b, s').
Proof.
  unfold mbind, Sess_bind. destruct (m s) as [[a|e] s1]; naive_solver.
Qed.

Lemma s_read_Ok {A} (f : db_tables → A) s a s' :
  s_read f s = (Ok a, s') → a = f (tables (working s)) ∧ s' = s.
Proof. unfold s_read. intros [= H <-]. by apply read_Ok in H. Qed.

Lemma s_write_Ok f s s' u :
  s_write f s = (Ok u, s') →
  f (tables (working s)) = Ok (tables (working s')) ∧ committed s' = committed s.
Proof.
  unfold s_write. destruct (write f (working s)) as [d|] eqn:E; [|done].
  intros [= _ <-]. by apply write_Ok in E.
Qed.

Lemma s_commit_Ok s s' u :
  s_commit s = (Ok u, s') →
  tables (working s') = tables (working s) ∧ committed s' = working s'.
Proof.
  unfold s_commit. destruct (db_commit (working s)) as [d|] eqn:E; [|done].
  intros [= _ <-]. by apply commit_Ok in E.
Qed.

(** Code that commits nothing before it raises. *)
Definition keeps_committed {A} (m : Sess A) : Prop := ∀ s r s', m s = (r, s') → committed s' = committed s.

Lemma keeps_ret {A} (a : A) : keeps_committed (mret a).
Proof. by intros s r s' [= _ <-]. Qed.
Lemma keeps_raise {A} c m : keeps_committed (s_raise (A:=A) c m).
Proof. by intros s r s' [= _ <-]. Qed.
Lemma keeps_read {A} (f : db_tables → A) : keeps_committed (s_read f).
Proof. by intros s r s' [= _ <-]. Qed.
Lemma keeps_write f : keeps_committed (s_write f).
Proof. intros s r s'. unfold s_write. destruct (write f _); by intros [= _ <-]. Qed.
Lemma keeps_bind {A B} (m : Sess A) (f : A → Sess B) :
  keeps_committed m → (∀ a, keeps_committed (f a)) → keeps_committed (m ≫= f).
Proof.
  intros Hm Hf s r s'. unfold mbind, Sess_bind. destruct (m s) as [[a|e] s1] eqn:E.
  - intros H. apply Hf in H. by rewrite H, (Hm _ _ _ E).
  - intros [= _ <-]. by apply (Hm _ _ _ E).
Qed.

(** A transaction is all or nothing: it raises and leaves the database as it
    was, or it returns and the database is what it committed. *)
Lemma session_atomic {A} initialized (m : Sess A) d r d' :
  keeps_committed m →
  db_session initialized (a ← m; _ ← s_commit; mret a) d = (r, d') →
  match r with
  | Raise _ => d' = d
  | Ok a => initialized = true ∧
            ∃ s, m (MkSession d d) = (Ok a, s) ∧ tables d' = tables (working s)
  end.
Proof.
  intros Hm. unfold db_session. destruct initialized; simpl; [|by intros [= <- <-]].
  unfold mbind at 1, Sess_bind at 1. destruct (m (MkSession d d)) as [[a|e] s1] eqn:E.
  - unfold mbind, Sess_bind. destruct (s_commit s1) as [[u|e] s2] eqn:Ec; simpl; intros [= <- <-].
    + apply s_commit_Ok in Ec as [Ht ->]. split; [done|]. eauto.
    + unfold s_commit in Ec. destruct (db_commit _); [done|]. injection Ec as _ <-.
      by apply (Hm _ _ _ E).
  - intros [= <- <-]. by apply (Hm _ _ _ E).
Qed.
End session.

#[global] Arguments Session D : clear implicits.
#[global] Arguments Sess D : clear implicits.

#[export] Hint Resolve keeps_ret keeps_raise keeps_read keeps_write keeps_bind : cti.

(** Take a statement that returned apart into its parts. *)
Ltac session_inv H :=
  repeat first
    [ apply s_bind_Ok in H; let a := fresh "a" in let s := fresh "s" in let E := fresh "E" in
      let K := fresh "K" in
      destruct H as (a & s & E & K); simpl in E; rename K into H ].
