(* ===== verification/Engine.v ===== *)
(** [persistence/db.py]: the engine of a process, which sessions are made from.

    The two globals of the module are set and cleared together, so one value
    stands for both; closing the connections of an engine is the library's. *)

From S2P Require Import Prelude Errors Rows.

(** The arguments of [create_async_engine]. *)
Record engine := MkEngine { e_dsn : string; e_pool_size : Z; e_max_overflow : Z; e_pool_pre_ping : bool }.

(** [init_engine(dsn, pool_size=..., max_overflow=...)]; [create] may refuse
    the address, and then the globals stay as they were. *)
Definition init_engine (create : engine → res unit) (dsn : string) (pool_size max_overflow : option Z)
    (current : option engine) : res engine * option engine :=
  let e := MkEngine dsn (default 5 pool_size)%Z (default 10 max_overflow)%Z true in
  match create e with
  | Ok _ => (Ok e, Some e)
  | Raise x => (Raise x, current)
  end.

Definition get_engine (current : option engine) : res engine :=
  match current with
  | Some e => Ok e
  | None => raise RuntimeError "db engine not initialized; call init_engine() first"
  end.

(** [dispose()]: the globals are cleared once the engine has closed. *)
Definition dispose_engine (close : engine → res unit) (current : option engine) : res unit * option engine :=
  match current with
  | None => (Ok tt, None)
  | Some e => match close e with Ok _ => (Ok tt, None) | Raise x => (Raise x, Some e) end
  end.

(** A session of a process in that state. *)
Definition process_session {D} `{!Database D} {A} (current : option engine) (body : Sess D A) (d : D) : res A * D :=
  db_session (match current with Some _ => true | None => false end) body d.

(** Sessions exist exactly between the two calls.  Without an engine, and after
    [dispose] returned, a session raises [RuntimeError] and [get_engine] does too,
    whatever the body; after [init_engine] returned, both give what they are asked
    for; and an engine that fails to close is still there. *)
Theorem engine_lifecycle {D} `{!Database D} {A} create close dsn n m current (body : Sess D A) d :
  (∀ e current', init_engine create dsn n m current = (Ok e, current') →
     get_engine current' = Ok e ∧
     process_session current' body d = (let '(r, s) := body (MkSession d d) in (r, committed s))) ∧
  (∀ current', dispose_engine close current = (Ok tt, current') →
     process_session current' body d = (raise RuntimeError "db engine not initialized", d) ∧
     is_ok (get_engine current') = false) ∧
  (∀ x current', dispose_engine close current = (Raise x, current') → current' = current).
Proof.
  split_and!.
  - intros e current'. unfold init_engine. destruct (create _); [|done]. by intros [= <- <-].
  - intros current'. unfold dispose_engine. destruct current as [e|]; [destruct (close e); [|done]|]; by intros [= <-].
  - intros x current'. unfold dispose_engine. destruct current as [e|]; [destruct (close e); [done|]|done]. by intros [= _ <-].
Qed.
