(* ===== verification/State.v ===== *)
(** [manager/state.py] and [manager/deadletter.py]: the life of a feed run and
    the dead letters, as statements of a session. *)

From S2P Require Import Prelude Errors PyStr PyDict PyVal Enums Sha256 Rows.

Section state.
Context {D : Type} `{!Database D}.

(** ** Feed runs *)

Definition set_state (st : RunState) (r : FeedRunRow) : FeedRunRow :=
  MkFeedRunRow (run_row_id r) (run_source_id r) (value st) (run_started_at r) (run_finished_at r)
    (run_fetched_bytes r) (run_records_in r) (run_records_out r) (run_parse_errors r)
    (run_dropped r) (run_error r) (run_watermark r) (run_raw_uri r).

Definition set_watermark_of (w : option pydict) (r : SourceRow) : SourceRow :=
  MkSourceRow (src_id r) (src_name r) (src_plugin r) (src_config_hash r) (src_enabled r) w
    (src_last_etag r) (src_last_modified r) (src_last_seen_id r) (src_created_at r)
    (src_updated_at r).

(** The insert of a run: its key must be new and its source present. *)
Definition insert_run (row : FeedRunRow) (t : db_tables) : res db_tables :=
  match t_feed_runs t !! run_row_id row, t_sources t !! run_source_id row with
  | Some _, _ => raise DatabaseError "duplicate key value violates unique constraint"
  | None, None => raise DatabaseError "violates foreign key constraint"
  | None, Some _ => Ok (with_feed_runs (<[run_row_id row := row]>) t)
  end.

(** The update of a changed run and of a changed source. *)
Definition update_run (row : FeedRunRow) (t : db_tables) : res db_tables :=
  Ok (with_feed_runs (<[run_row_id row := row]>) t).
Definition update_source (row : SourceRow) (t : db_tables) : res db_tables :=
  Ok (with_sources (<[src_id row := row]>) t).

Definition get_source (source_id : string) : Sess D (option SourceRow) :=
  s_read (λ t, t_sources t !! source_id).
Definition get_run (run_id : N) : Sess D (option FeedRunRow) :=
  s_read (λ t, t_feed_runs t !! run_id).

(** The row that [open_run] constructs; the other columns get their defaults. *)
Definition pending_row (source_id : string) (run_id : N) (now : Z) : FeedRunRow :=
  MkFeedRunRow run_id source_id (value PENDING) now None 0 0 0 0 0 None (Some []) None.

Definition open_run (source_id : string) (run_id : N) (now : Z) : Sess D (FeedRunRow * pydict) :=
  source ← get_source source_id;
  match source with
  | None => s_raise WatermarkConflict ("source not registered: " +:+ source_id)
  | Some source =>
      let row := pending_row source_id run_id now in
      _ ← s_write (insert_run row);
      mret (row, default [] (src_watermark source))
  end.

Definition mark_running (row : FeedRunRow) : Sess D FeedRunRow :=
  let row := set_state RUNNING row in
  _ ← s_write (update_run row); mret row.

(** The keyword arguments of [finalize_run]. *)
Record final := MkFinal {
  fin_fetched_bytes : Z;
  fin_records_in : Z;
  fin_records_out : Z;
  fin_error : option string;
  fin_watermark : option pydict;
  fin_raw_uri : option string
}.

Definition finalized_row (row : FeedRunRow) (st : RunState) (now : Z) (k : final) : FeedRunRow :=
  MkFeedRunRow (run_row_id row) (run_source_id row) (value st) (run_started_at row) (Some now)
    (fin_fetched_bytes k) (fin_records_in k) (fin_records_out k) (run_parse_errors row)
    (run_dropped row) (fin_error k) (Some (default [] (fin_watermark k))) (fin_raw_uri k).

Definition finalize_run (row : FeedRunRow) (st : RunState) (now : Z) (k : final) : Sess D unit :=
  let row := finalized_row row st now k in
  _ ← s_write (update_run row);
  match fin_watermark k with
  | Some w =>
      if decide (st = SUCCESS) then
        source ← get_source (run_source_id row);
        match source with
        | Some source => s_write (update_source (set_watermark_of (Some w) source))
        | None => mret tt
        end
      else mret tt
  | None => mret tt
  end.

(** ** Dead letters *)

(** [type(error).__name__]. *)
Definition class_name (c : exn_class) : string :=
  match c with
  | CTIError => "CTIError" | TransientError => "TransientError" | RateLimited => "RateLimited"
  | PermanentError => "PermanentError" | CircuitOpen => "CircuitOpen"
  | PluginError => "PluginError" | PluginConfigError => "PluginConfigError"
  | PluginLoadError => "PluginLoadError" | EgressBlocked => "EgressBlocked"
  | TLPViolation => "TLPViolation" | WatermarkConflict => "WatermarkConflict"
  | PyException => "Exception" | PyBaseException => "BaseException"
  | CancelledError => "CancelledError" | ValueError => "ValueError" | TypeError => "TypeError"
  | KeyError => "KeyError" | IndexError => "IndexError" | ArithmeticError => "ArithmeticError"
  | OverflowError => "OverflowError" | LookupError => "LookupError"
  | RuntimeError => "RuntimeError" | AssertionError => "AssertionError" | OSError => "OSError"
  | UnicodeError => "UnicodeError" | JSONDecodeError => "JSONDecodeError"
  | ValidationError => "ValidationError" | AddressValueError => "AddressValueError"
  | NetmaskValueError => "NetmaskValueError" | CsvError => "Error"
  | DatabaseError => "DatabaseError" | HTTPError => "HTTPError"
  | TimeoutException => "TimeoutException" | AttributeError => "AttributeError"
  | ImportError => "ImportError" | InterpolationError => "InterpolationError"
  | Unauthorized => "_Unauthorized"
  end.

(** [record_dead_letter]; [format_exception] renders a traceback, and [id] is
    the number that the database gives the row. *)
Definition dead_letter (format_exception : exn → string) (id : Z) (feed_run_id : N) (source_id : string)
    (payload : option (list N)) (error : exn) (reason : string) (now : Z) : DeadLetterRow :=
  MkDeadLetterRow id feed_run_id source_id (sha256_hex (default [] payload)) (class_name (cls error))
    (take_str (Z.to_nat 1000) (Errors.msg error)) (take_str (Z.to_nat 8000) (format_exception error)) reason now None.

Definition record_dead_letter (format_exception : exn → string) (id : Z) (feed_run_id : N)
    (source_id : string) (payload : option (list N)) (error : exn) (reason : string) (now : Z)
    : Sess D DeadLetterRow :=
  let row := dead_letter format_exception id feed_run_id source_id payload error reason now in
  _ ← s_write (λ t, Ok (with_dead_letters (λ l, l ++ [row]) t)); mret row.

(** ** Facts *)

Lemma keeps_open_run source_id run_id now : keeps_committed (open_run source_id run_id now).
Proof.
  unfold open_run. apply keeps_bind; [apply keeps_read|]. intros [source|]; [|apply keeps_raise].
  apply keeps_bind; [apply keeps_write|]. intros. apply keeps_ret.
Qed.

Lemma keeps_mark_running row : keeps_committed (mark_running row).
Proof. unfold mark_running. apply keeps_bind; [apply keeps_write|]. intros. apply keeps_ret. Qed.

Lemma keeps_finalize_run row st now k : keeps_committed (finalize_run row st now k).
Proof.
  unfold finalize_run. apply keeps_bind; [apply keeps_write|]. intros _.
  destruct (fin_watermark k) as [w|]; [|apply keeps_ret].
  case_decide; [|apply keeps_ret]. apply keeps_bind; [apply keeps_read|].
  intros [source|]; [apply keeps_write|apply keeps_ret].
Qed.

Lemma keeps_record_dead_letter fe n i s p e r now : keeps_committed (record_dead_letter fe n i s p e r now).
Proof. unfold record_dead_letter. apply keeps_bind; [apply keeps_write|]. intros. apply keeps_ret. Qed.

Lemma open_run_Ok source_id run_id now s row w s' :
  open_run source_id run_id now s = (Ok (row, w), s') →
  ∃ source, t_sources (tables (working s)) !! source_id = Some source ∧
    row = pending_row source_id run_id now ∧ w = default [] (src_watermark source) ∧
    t_feed_runs (tables (working s)) !! run_id = None ∧
    tables (working s') = with_feed_runs (<[run_id := row]>) (tables (working s)).
Proof.
  intros H. unfold open_run in H. session_inv H. apply s_read_Ok in E as [-> ->].
  destruct (t_sources (tables (working s)) !! source_id) as [source|] eqn:Hsrc; [|done].
  session_inv H. apply s_write_Ok in E as [Hw _]. injection H as <- <- <-.
  unfold insert_run in Hw. simpl in Hw. rewrite Hsrc in Hw.
  destruct (t_feed_runs (tables (working s)) !! run_id) eqn:Hr; [done|]. injection Hw as Hw.
  exists source. split_and!; [done..|]. by rewrite <- Hw.
Qed.

Lemma mark_running_Ok row s row' s' :
  mark_running row s = (Ok row', s') →
  row' = set_state RUNNING row ∧
  tables (working s') = with_feed_runs (<[run_row_id row := row']>) (tables (working s)).
Proof.
  intros H. unfold mark_running in H. session_inv H. apply s_write_Ok in E as [Hw _].
  injection H as <- <-. injection Hw as Hw. by rewrite <- Hw.
Qed.

(** The watermark of the source moves on success only. *)
Lemma finalize_run_Ok row st now k s u s' :
  finalize_run row st now k s = (Ok u, s') →
  t_feed_runs (tables (working s')) = <[run_row_id row := finalized_row row st now k]>
                                        (t_feed_runs (tables (working s))) ∧
  t_sources (tables (working s'))
  = match fin_watermark k, t_sources (tables (working s)) !! run_source_id row with
    | Some w, Some source =>
        if decide (st = SUCCESS)
        then <[src_id source := set_watermark_of (Some w) source]> (t_sources (tables (working s)))
        else t_sources (tables (working s))
    | _, _ => t_sources (tables (working s))
    end ∧
  t_dead_letters (tables (working s')) = t_dead_letters (tables (working s)).
Proof.
  intros H. unfold finalize_run in H. session_inv H. apply s_write_Ok in E as [Hw _].
  injection Hw as Hw. symmetry in Hw.
  destruct (fin_watermark k) as [w|].
  - destruct (decide (st = SUCCESS)) as [Hst|Hst].
    + session_inv H. apply s_read_Ok in E as [-> ->]. rewrite Hw in H. simpl in H.
      destruct (t_sources (tables (working s)) !! run_source_id row) as [source|].
      * apply s_write_Ok in H as [Hw' _]. injection Hw' as Hw'. rewrite <- Hw', Hw. done.
      * injection H as _ <-. by rewrite Hw.
    + injection H as _ <-. rewrite Hw. split; [done|]. by case_match.
  - injection H as _ <-. rewrite Hw. done.
Qed.
End state.
