(* ===== verification/Builder.v ===== *)
(** [plugins/loader.py] and [plugins/builder.py]: plugins by name, and the
    pipeline of a source. *)

From Stdlib Require Import QArith.
From S2P Require Import Prelude Errors PyStr PyDict PyVal Enums Models Effects Normalize.
From S2P Require Import Stages Queue Network Pipeline Breaker Registry.
#[local] Open Scope string_scope.
#[local] Open Scope list_scope.

(** ** The loader *)

(** A plugin class: validating its parameters and constructing the plugin. *)
Definition plugin_class (A : Type) : Type := pydict → res A.

(** The entry points of a group, in the order the installation lists them:
    loading one imports its module, which may raise. *)
Definition group_of (A : Type) : Type := list (string * res (plugin_class A)).

Record entry_points := MkEntryPoints {
  ep_connectors : group_of Connector;
  ep_parsers : group_of Parser;
  ep_enrichers : group_of Enricher;
  ep_publishers : group_of Publisher
}.

Definition GROUP_CONNECTORS : string := "cti.connectors".
Definition GROUP_PARSERS : string := "cti.parsers".
Definition GROUP_ENRICHERS : string := "cti.enrichers".
Definition GROUP_PUBLISHERS : string := "cti.publishers".

(** [except Exception] around the import of a plugin. *)
Definition import_plugin {A} (ep : res (plugin_class A)) (text : string) : res (plugin_class A) :=
  try_except ep [PyException] (λ e, raise PluginLoadError (text +:+ ": " +:+ Errors.msg e)).

(** [load(group, name)]: the first entry point of that name. *)
Definition load {A} (eps : group_of A) (group name : string) : res (plugin_class A) :=
  match filter (λ ep : string * _, ep.1 = name) eps with
  | [] => raise PluginLoadError ("no plugin " +:+ repr_str name +:+ " in group " +:+ repr_str group)
  | ep :: _ => import_plugin ep.2 ("failed to load " +:+ group +:+ ":" +:+ name)
  end.

Definition instantiate {A} (eps : group_of A) (group name : string) (params : pydict) : res A :=
  cls ← load eps group name; cls params.

Section loader.
Context (eps : entry_points).

Definition load_connector := instantiate (ep_connectors eps) GROUP_CONNECTORS.
Definition load_parser := instantiate (ep_parsers eps) GROUP_PARSERS.
Definition load_enricher := instantiate (ep_enrichers eps) GROUP_ENRICHERS.
Definition load_publisher := instantiate (ep_publishers eps) GROUP_PUBLISHERS.

(** One group of [discover]: a dictionary by name, the last of a name stays. *)
Definition discover_group {A} (g : group_of A) (group : string)
    : res (list (string * plugin_class A)) :=
  l ← mapM_res (λ ep : string * res (plugin_class A),
        c ← import_plugin ep.2 ("failed to load entry point " +:+ group +:+ ":" +:+ ep.1);
        Ok (ep.1, c)) g;
  Ok (dict l).

Definition discover : res (list (string * list string)) :=
  cs ← discover_group (ep_connectors eps) GROUP_CONNECTORS;
  ps ← discover_group (ep_parsers eps) GROUP_PARSERS;
  es ← discover_group (ep_enrichers eps) GROUP_ENRICHERS;
  us ← discover_group (ep_publishers eps) GROUP_PUBLISHERS;
  Ok [(GROUP_CONNECTORS, dkeys cs); (GROUP_PARSERS, dkeys ps); (GROUP_ENRICHERS, dkeys es);
      (GROUP_PUBLISHERS, dkeys us)].

(** ** The builder *)

(** [source.<kind>_params.get(name, {})]. *)
Definition params_of (params : list (string * pydict)) (name : string) : pydict :=
  default [] (dget params name).

Definition publisher_names (source : SourceConfig) : list string :=
  let names := if decide (sc_publishers source = []) then ["postgres"] else sc_publishers source in
  if decide ("postgres" ∈ names) then names else "postgres" :: names.

(** The loop over the names: the first [postgres] is the canonical publisher. *)
Fixpoint load_publishers (params : list (string * pydict)) (names : list string)
    (canonical : option Publisher) (extras : list Publisher)
    : res (option Publisher * list Publisher) :=
  match names with
  | [] => Ok (canonical, extras)
  | name :: names =>
      instance ← load_publisher name (params_of params name);
      match canonical with
      | None => if String.eqb name "postgres"
                then load_publishers params names (Some instance) extras
                else load_publishers params names canonical (extras ++ [instance])
      | Some _ => load_publishers params names canonical (extras ++ [instance])
      end
  end.

(** [build_pipeline_spec(source, replay_from_uri=...)]. *)
Definition build_pipeline_spec (source : SourceConfig) (replay_from_uri : option string)
    : res PipelineSpec :=
  connector ← load_connector (sc_plugin source) (sc_params source);
  parser ← load_parser (sc_parser source) (sc_parser_params source);
  enrichers ← mapM_res (λ name, load_enricher name (params_of (sc_enricher_params source) name))
                (sc_enrichers source);
  pubs ← load_publishers (sc_publisher_params source) (publisher_names source) None [];
  match pubs.1 with
  | None => raise AssertionError ""
  | Some canonical =>
      Ok (MkPipelineSpec connector parser enrichers canonical pubs.2 (sc_normalize source)
            None None DEFAULT_MAXSIZE 500)
  end.

(** ** Facts *)

Lemma load_first {A} (eps0 : group_of A) group name c :
  load eps0 group name = Ok c → ∃ i, eps0 !! i = Some (name, Ok c).
Proof.
  unfold load, import_plugin. destruct (filter _ eps0) as [|[n ep] l] eqn:E; [done|].
  assert ((n, ep) ∈ filter (λ ep : string * _, ep.1 = name) eps0) as H by (rewrite E; set_solver).
  apply list_elem_of_filter in H as [Hn H]. simpl in *. subst n.
  destruct ep as [c'|e]; simpl; [intros [= ->]|].
  - by apply list_elem_of_lookup in H.
  - by rewrite orb_false_r; destruct (isinstance e PyException).
Qed.

(** The publishers loaded for a list of names. *)
Definition load_all (params : list (string * pydict)) : list string → res (list Publisher) :=
  mapM_res (λ name, load_publisher name (params_of params name)).

Lemma load_all_cons params n names :
  load_all params (n :: names)
  = (p ← load_publisher n (params_of params n); l ← load_all params names; Ok (p :: l)).
Proof. reflexivity. Qed.

Lemma load_publishers_rest params names p extras :
  load_publishers params names (Some p) extras
  = l ← load_all params names; Ok (Some p, extras ++ l).
Proof.
  revert extras. induction names as [|n names IH]; intros extras.
  { simpl. by rewrite app_nil_r. }
  rewrite load_all_cons. simpl. destruct (load_publisher n _) as [q|e]; simpl; [|done].
  rewrite IH. destruct (load_all params names) as [l|e]; simpl; [|done]. by rewrite <- app_assoc.
Qed.

Lemma load_publishers_split params before after extras :
  "postgres" ∉ before →
  load_publishers params (before ++ "postgres" :: after) None extras
  = (l ← load_all params before; p ← load_publisher "postgres" (params_of params "postgres");
     r ← load_all params after; Ok (Some p, extras ++ l ++ r)).
Proof.
  revert extras. induction before as [|n before IH]; intros extras Hn.
  - simpl. destruct (load_publisher "postgres" _) as [p|e]; simpl; [|done].
    by rewrite load_publishers_rest.
  - rewrite load_all_cons. simpl. destruct (load_publisher n _) as [q|e]; simpl; [|done].
    destruct (String.eqb_spec n "postgres") as [->|Hne]; [set_solver|].
    rewrite IH by set_solver. destruct (load_all params before) as [l|e]; simpl; [|done].
    destruct (load_publisher "postgres" _) as [p|e]; simpl; [|done].
    destruct (load_all params after) as [r|e]; simpl; [|done]. by rewrite <- app_assoc.
Qed.

(** The names split at the first [postgres], which is always there. *)
Lemma publisher_names_split source :
  ∃ before after, publisher_names source = before ++ "postgres" :: after ∧ "postgres" ∉ before.
Proof.
  assert ("postgres" ∈ publisher_names source) as H.
  { unfold publisher_names. case_decide; case_decide; set_solver. }
  by apply list_elem_of_split_l in H as (l1 & l2 & -> & Hl); eauto.
Qed.

(** The pipeline of a source.  The canonical publisher is the one named
    [postgres], loaded whether or not the source lists it; the others follow in
    the order of the source, each plugin with the parameters of its name, and a
    plugin that cannot be loaded fails the whole construction.  The assertion
    that there is a canonical publisher never fails.  Neither an archive nor a
    Bloom filter is ever attached, and [replay_from_uri] has no effect. *)
Theorem pipeline_of_source source uri :
  ∃ before after,
    publisher_names source = before ++ "postgres" :: after ∧ "postgres" ∉ before ∧
    before ++ "postgres" :: after
      = (if decide ("postgres" ∈ sc_publishers source) then sc_publishers source
         else "postgres" :: sc_publishers source) ∧
    build_pipeline_spec source uri
    = (connector ← load_connector (sc_plugin source) (sc_params source);
       parser ← load_parser (sc_parser source) (sc_parser_params source);
       enrichers ← mapM_res (λ name, load_enricher name (params_of (sc_enricher_params source) name))
                     (sc_enrichers source);
       l ← load_all (sc_publisher_params source) before;
       canonical ← load_publisher "postgres" (params_of (sc_publisher_params source) "postgres");
       r ← load_all (sc_publisher_params source) after;
       Ok (MkPipelineSpec connector parser enrichers canonical (l ++ r) (sc_normalize source)
             None None DEFAULT_MAXSIZE 500)).
Proof.
  destruct (publisher_names_split source) as (before & after & E & Hn).
  exists before, after. split; [done|]. split; [done|]. split.
  - rewrite <- E. unfold publisher_names.
    destruct (decide (sc_publishers source = [])) as [H0|H0]; [|reflexivity].
    rewrite H0. vm_compute. reflexivity.
  - unfold build_pipeline_spec. rewrite E, load_publishers_split by done.
    destruct (load_connector _ _); simpl; [|done]. destruct (load_parser _ _); simpl; [|done].
    destruct (mapM_res _ (sc_enrichers source)); simpl; [|done].
    destruct (load_all _ before); simpl; [|done]. destruct (load_publisher _ _); simpl; [|done].
    by destruct (load_all _ after).
Qed.

(** The same source with another policy for its data and its requests. *)
Definition with_policy (s : SourceConfig) (tlp : TLP) (sev : Severity) (conf : Z)
    (tags : list string) (rps : option Q) (timeout : Z) : SourceConfig :=
  MkSourceConfig (sc_id s) (sc_name s) (sc_plugin s) (sc_enabled s) (sc_schedule s)
    (sc_jitter_seconds s) rps (sc_max_parallelism s) timeout (sc_retry s) (sc_circuit s)
    (sc_parser s) (sc_enrichers s) (sc_publishers s) (sc_params s) (sc_parser_params s)
    (sc_enricher_params s) (sc_publisher_params s) (sc_normalize s) tlp sev conf tags.

(** The policy fields of a source have no effect.  Whatever [tlp],
    [severity_default], [confidence_default], [tags], [rate_limit_rps] and
    [timeout_seconds] a source sets, its pipeline is the same, and in it the TLP
    of an indicator is the one of the [normalize] section: a source declared RED
    is published as AMBER unless that section repeats it. *)
Theorem source_policy_ignored source tlp sev conf tags rps timeout uri :
  build_pipeline_spec (with_policy source tlp sev conf tags rps timeout) uri
  = build_pipeline_spec source uri ∧
  match build_pipeline_spec source uri with
  | Ok spec => tlp_default (normalize spec) = tlp_default (sc_normalize source) ∧
               archive spec = None
  | Raise _ => True
  end.
Proof.
  split; [reflexivity|]. unfold build_pipeline_spec.
  destruct (load_connector _ _); simpl; [|done]. destruct (load_parser _ _); simpl; [|done].
  destruct (mapM_res _ (sc_enrichers source)); simpl; [|done].
  destruct (load_publishers _ _ _ _) as [[[p|] ex]|e]; simpl; [|done|done]. done.
Qed.
End loader.
