(* ===== verification/Runner.v ===== *)
(** [manager/runner.py] and [manager/worker.py]: one feed run, end to end.

    [execute] is the whole method: the breaker, the permits, the pipeline with
    its retries, the three database sessions and the closing of the plugins.
    What [Pipeline.run] does is an argument, [pipeline_run]: it may change the
    context and the database (the canonical publisher, and other workers). *)

From Stdlib Require Import QArith.
From S2P Require Import Prelude Errors PyStr PyDict PyVal Enums Models Effects Normalize.
From S2P Require Import Stages Queue Network Pipeline Breaker Registry Retry Concurrency.
From S2P Require Import Rows State Builder.
#[local] Open Scope string_scope.
#[local] Open Scope list_scope.

(** The plugins that a run closes, in order. *)
Inductive plugin :=
  | PConnector (c : Connector) | PParser (p : Parser) | PPublisher (p : Publisher)
  | PEnricher (e : Enricher).

Definition plugins_of (spec : PipelineSpec) : list plugin :=
  [PConnector (connector spec); PParser (parser spec); PPublisher (canonical_publisher spec)]
  ++ (PEnricher <$> enrichers spec) ++ (PPublisher <$> extra_publishers spec).

Section runner.
Context {D : Type} `{!Database D} `{!Retrying}.
Context (initialized : bool).                           (* [init_engine] was called *)
Context (pipeline_run : PipelineSpec → RunContext → D → (RunResult + exc_tree) * (RunContext * D)).
Context (aclose : plugin → res unit).
Context (format_exception : exn → string).
Context (eps : entry_points).

(** The clock readings of a run: the monotonic ones of the breaker, and the
    ones of the rows and results. *)
Record clock := MkClock {
  at_before : Q; at_failure : Q;
  at_open : Z; at_context : Z; at_start : Z; at_finish : Z; at_final : Z; at_letter : Z;
  letter_id : Z               (** the number of a dead letter *)
}.

(** A [FeedRunner] with the database it works on and the plugins it closed. *)
Record runner := MkRunner {
  r_breakers : breakers;
  r_per_source : semaphores;
  r_globals : Semaphore;
  r_db : D;
  r_closed : list plugin
}.

(** The result of a call: what it returns or raises. *)
Abbreviation outcome := (RunState + exc_tree)%type.

(** [run_pipeline]: one attempt; the state is the context, shared by all
    attempts, and the database. *)
Definition run_pipeline (c : clock) (spec : PipelineSpec) (st : RunContext * D)
    : (RunResult + exc_tree) * (RunContext * D) :=
  let '(r, st') := pipeline_run spec st.1 st.2 in
  (run_with_outcome st'.1 (at_start c) (at_finish c) r, st').

(** The first session: [open_run], [mark_running] and the commit. *)
Definition open_session (c : clock) (source_id : string) (run_id : N) (d : D)
    : res (FeedRunRow * pydict) * D :=
  db_session initialized
    (x ← (rw ← open_run source_id run_id (at_open c);
          row ← mark_running rw.1; mret (row, rw.2));
     _ ← s_commit; mret x) d.

Definition new_context (c : clock) (run_id : N) (source_id : string) (correlation_id : string)
    (watermark : pydict) : RunContext :=
  MkRunContext run_id source_id (at_context c) correlation_id watermark None [].

Definition final_of (r : RunResult) : final :=
  MkFinal (fetched_bytes r) (records_in r) (records_out r) (error r) (Some (res_watermark r))
    (res_raw_uri r).

(** The second session: the row is read again and finalized. *)
Definition final_session (c : clock) (run_id : N) (r : RunResult) (d : D) : res unit * D :=
  db_session initialized
    (x ← (row ← get_run run_id;
          match row with
          | None => s_raise AssertionError ""
          | Some row => finalize_run row (state r) (at_final c) (final_of r)
          end);
     _ ← s_commit; mret x) d.

Definition letter_session (c : clock) (run_id : N) (source_id : string) (e : exn) (d : D)
    : res DeadLetterRow * D :=
  db_session initialized
    (x ← record_dead_letter format_exception (letter_id c) run_id source_id None e "permanent" (at_letter c);
     _ ← s_commit; mret x) d.

(** The body of the [try]: everything from the first session to the return. *)
Definition attempt (c : clock) (source : SourceConfig) (spec : PipelineSpec) (run_id : N)
    (correlation_id : string) (b : CircuitBreaker) (d : D) : outcome * CircuitBreaker * D :=
  match open_session c (sc_id source) run_id d with
  | (Raise e, d) => (inr (Leaf e), b, d)
  | (Ok (_, watermark), d) =>
      let ctx := new_context c run_id (sc_id source) correlation_id watermark in
      match with_retry (sc_retry source) (run_pipeline c spec) (ctx, d) with
      | (inr t, (_, d)) => (inr t, b, d)
      | (inl result, (_, d)) =>
          match final_session c run_id result d with
          | (Raise e, d) => (inr (Leaf e), b, d)
          | (Ok _, d) =>
              (inl (state result),
               if decide (state result = SUCCESS) then on_success b else on_failure (at_failure c) b,
               d)
          end
      end
  end.

(** The handlers: a permanent error is recorded as a dead letter, any other
    [Exception] is logged, and the run counts as failed. *)
Definition handlers (c : clock) (source_id : string) (run_id : N)
    (x : outcome * CircuitBreaker * D) : outcome * CircuitBreaker * D :=
  let '(o, b, d) := x in
  match o with
  | inl _ => x
  | inr t =>
      if tree_isinstance t PermanentError then
        let b := on_failure (at_failure c) b in
        match t with
        | Leaf e =>
            match letter_session c run_id source_id e d with
            | (Ok _, d) => (inl FAILED, b, d)
            | (Raise e, d) => (inr (Leaf e), b, d)
            end
        | Group _ => (inr t, b, d)        (* no group is a [PermanentError] *)
        end
      else if tree_isinstance t PyException then (inl FAILED, on_failure (at_failure c) b, d)
      else x
  end.

(** The [finally] clause: the plugins are closed in turn, an [Exception] of one
    is ignored and any other object ends the loop and replaces the outcome. *)
Fixpoint close_plugins (ps : list plugin) (o : outcome) : outcome * list plugin :=
  match ps with
  | [] => (o, [])
  | p :: ps =>
      match aclose p with
      | Raise e =>
          if isinstance e PyException
          then let '(o, closed) := close_plugins ps o in (o, p :: closed)
          else (inr (Leaf e), [p])
      | Ok _ => let '(o, closed) := close_plugins ps o in (o, p :: closed)
      end
  end.

(** Inside the permits. *)
Definition execute_inside (c : clock) (source : SourceConfig) (run_id : N)
    (correlation_id : string) (uri : option string) (b : CircuitBreaker) (d : D)
    : outcome * CircuitBreaker * D * list plugin :=
  match before (at_before c) b with
  | (Raise _, b) => (inl FAILED, b, d, [])           (* [except CircuitOpen] *)
  | (Ok _, b) =>
      match build_pipeline_spec eps source uri with
      | Raise e => (inr (Leaf e), b, d, [])
      | Ok spec =>
          let '(o, b, d) := handlers c (sc_id source) run_id
                              (attempt c source spec run_id correlation_id b d) in
          let '(o, closed) := close_plugins (plugins_of spec) o in
          (o, b, d, closed)
      end
  end.

(** [FeedRunner.execute]; [None] when it has to wait for a permit.  [run_id] is
    the one given or a fresh one. *)
Definition execute (c : clock) (source : SourceConfig) (run_id : N) (correlation_id : string)
    (uri : option string) (r : runner) : option (outcome * runner) :=
  let '(b, store) := get_breaker (sc_id source) (sc_circuit source) (r_breakers r) in
  let '(sem, sems) := get_semaphore (sc_id source) (sc_max_parallelism source) (r_per_source r) in
  g ← global_enter (r_globals r);
  sem ← sem_acquire sem;
  let '(o, b, d, closed) := execute_inside c source run_id correlation_id uri b (r_db r) in
  Some (o, MkRunner (dset store (sc_id source) b) (dset sems (sc_id source) (sem_release sem))
             (global_exit g) d (r_closed r ++ closed)).

(** [run_feed] of the worker: the returned text, or what it raises. *)
Definition run_feed (c : clock) (registry : sources) (source_id : string) (run_id : N)
    (correlation_id : string) (r : runner) : option ((string + exc_tree) * runner) :=
  match get source_id registry with
  | Raise e => Some (inr (Leaf e), r)
  | Ok cfg =>
      x ← execute c cfg run_id correlation_id None r;
      Some (match x.1 with inl st => inl (value st) | inr t => inr t end, x.2)
  end.
End runner.

#[global] Arguments runner D : clear implicits.
