(* ===== verification/RunnerFacts.v ===== *)
(** What a feed run does to the tables of the manager, for every behaviour of
    the pipeline and of the database. *)

From Stdlib Require Import QArith.
From S2P Require Import Prelude Errors PyStr PyDict PyVal Enums Models Effects Normalize.
From S2P Require Import Stages Queue Network Pipeline Breaker Registry Retry Concurrency.
From S2P Require Import Rows State Builder Runner.
#[local] Open Scope string_scope.
#[local] Open Scope list_scope.

(** The database raises no error of the framework of its own. *)
Class OrdinaryErrors D `{!Database D} := {
  read_raises {A} (f : db_tables → A) d e : read f d = Raise e → isinstance e PermanentError = false;
  write_raises f d e : write f d = Raise e →
    isinstance e PermanentError = false ∨ f (tables d) = Raise e;
  commit_raises d e : db_commit d = Raise e → isinstance e PermanentError = false
}.

#[export] Instance memory_errors : OrdinaryErrors MemoryDb.
Proof.
  split.
  - intros A f [t []] e; simpl; [done|]. by intros [= <-].
  - intros f [t []] e; simpl; [|by intros [= <-]; left].
    destruct (f t) eqn:E; simpl; [done|]. intros [= <-]. by right.
  - intros [t []] e; simpl; [done|]. by intros [= <-].
Qed.

Section ordinary.
Context {D : Type} `{!Database D} `{!OrdinaryErrors D}.

Definition ordinary {A} (m : Sess D A) : Prop :=
  ∀ s e s', m s = (Raise e, s') → isinstance e PermanentError = false.

Lemma ordinary_ret {A} (a : A) : ordinary (mret a).
Proof. done. Qed.
Lemma ordinary_raise {A} c m : issubclass c PermanentError = false → ordinary (s_raise (A:=A) c m).
Proof. by intros H s e s' [= <- _]. Qed.
Lemma ordinary_read {A} (f : db_tables → A) : ordinary (s_read f).
Proof. intros s e s' [= H _]. by apply read_raises in H. Qed.
Lemma ordinary_write f :
  (∀ t e, f t = Raise e → isinstance e PermanentError = false) → ordinary (s_write f).
Proof.
  intros Hf s e s'. unfold s_write. destruct (write f (working s)) eqn:E; [done|].
  intros [= <- _]. apply write_raises in E as [?|E]; [done|]. by apply Hf in E.
Qed.
Lemma ordinary_commit : ordinary s_commit.
Proof.
  intros s e s'. unfold s_commit. destruct (db_commit _) eqn:E; [done|].
  intros [= <- _]. by apply commit_raises in E.
Qed.
Lemma ordinary_bind {A B} (m : Sess D A) (f : A → Sess D B) :
  ordinary m → (∀ a, ordinary (f a)) → ordinary (m ≫= f).
Proof.
  intros Hm Hf s e s'. unfold mbind, Sess_bind. destruct (m s) as [[a|e'] s1] eqn:E.
  - apply Hf.
  - intros [= <- _]. by apply Hm in E.
Qed.

Lemma ordinary_open source_id run_id now : ordinary (open_run source_id run_id now).
Proof.
  unfold open_run. apply ordinary_bind; [apply ordinary_read|]. intros [source|].
  - apply ordinary_bind; [|intros; apply ordinary_ret]. apply ordinary_write.
    intros t e. unfold insert_run. destruct (_ !! run_row_id _); [by intros [= <-]|].
    destruct (_ !! run_source_id _); [done|]. by intros [= <-].
  - by apply ordinary_raise.
Qed.

Lemma ordinary_mark row : ordinary (mark_running row).
Proof.
  unfold mark_running. apply ordinary_bind; [by apply ordinary_write|]. intros. apply ordinary_ret.
Qed.

Lemma ordinary_finalize row st now k : ordinary (finalize_run row st now k).
Proof.
  unfold finalize_run. apply ordinary_bind; [by apply ordinary_write|]. intros _.
  destruct (fin_watermark k) as [w|]; [|apply ordinary_ret].
  case_decide; [|apply ordinary_ret]. apply ordinary_bind; [apply ordinary_read|].
  intros [source|]; [by apply ordinary_write|apply ordinary_ret].
Qed.

Lemma session_ordinary {A} initialized (m : Sess D A) d e d' :
  ordinary m → db_session initialized (a ← m; _ ← s_commit; mret a) d = (Raise e, d') →
  isinstance e PermanentError = false.
Proof.
  intros Hm. unfold db_session. destruct initialized; simpl; [|by intros [= <- _]].
  destruct ((a ← m; _ ← s_commit; mret a) (MkSession d d)) as [r s] eqn:E. intros [= -> _].
  revert E. apply ordinary_bind; [done|]. intros a. apply ordinary_bind; [apply ordinary_commit|].
  intros _. apply ordinary_ret.
Qed.
End ordinary.

(** ** Outcomes of the pipeline *)

Lemma isinstance_trans e c d : isinstance e c = true → issubclass c d = true → isinstance e d = true.
Proof. apply issubclass_trans. Qed.

Lemma isinstance_not e c d : isinstance e d = false → issubclass c d = true → isinstance e c = false.
Proof.
  intros Hd Hc. destruct (isinstance e c) eqn:E; [|done].
  by rewrite (isinstance_trans e c d E Hc) in Hd.
Qed.

(** What leaves [run_with_outcome] is foreign to the framework. *)
Lemma outcome_foreign ctx t0 t1 r t :
  run_with_outcome ctx t0 t1 r = inr t →
  ∀ c, issubclass c CTIError = true → tree_isinstance t c = false.
Proof.
  unfold run_with_outcome. destruct r as [res|exc]; [done|].
  destruct (existsb (λ e, isinstance e PermanentError) _) eqn:Ep; [done|].
  destruct (existsb (λ e, isinstance e CTIError) _) eqn:Ec; [done|]. intros [= <-] c Hc.
  destruct exc as [e|es].
  - simpl in *. rewrite orb_false_r in Ec. by eapply isinstance_not.
  - by destruct c.
Qed.

(** ** The endings of a run *)

(** The tables that the manager owns. *)
Record managed := MkManaged {
  m_sources : gmap string SourceRow;
  m_runs : gmap N FeedRunRow;
  m_letters : list DeadLetterRow
}.
Definition managed_of (t : db_tables) : managed :=
  MkManaged (t_sources t) (t_feed_runs t) (t_dead_letters t).

Section endings.
Context (c : clock) (source : SourceConfig) (run_id : N).
Context (result_of : RunResult → Prop).            (* the results the pipeline can have *)

Definition running_row : FeedRunRow := set_state RUNNING (pending_row (sc_id source) run_id (at_open c)).

Definition opened (m : managed) : managed :=
  MkManaged (m_sources m) (<[run_id := running_row]> (m_runs m)) (m_letters m).

(** The sources after a run with that result. *)
Definition advanced (result : RunResult) (m : gmap string SourceRow) : gmap string SourceRow :=
  match m !! sc_id source with
  | Some row => if decide (state result = SUCCESS)
                then <[src_id row := set_watermark_of (Some (res_watermark result)) row]> m else m
  | None => m
  end.

Definition finished (result : RunResult) (m : managed) : managed :=
  MkManaged (advanced result (m_sources m))
    (<[run_id := finalized_row running_row (state result) (at_final c) (final_of result)]> (m_runs m))
    (m_letters m).

(** The source has a row and the run is new. *)
Definition registered (m : managed) : Prop :=
  is_Some (m_sources m !! sc_id source) ∧ m_runs m !! run_id = None.

(** The abstract specification of a run: the ways it can end, each with its
    outcome, its breaker and its tables. *)
Inductive ending (b : CircuitBreaker) (m : managed) : RunState + exc_tree → CircuitBreaker → managed → Prop :=
  | Skipped :                                   (* the circuit is open *)
      before (at_before c) b = (raise CircuitOpen ("circuit open for source " +:+ cb_source_id b), record_metric b) →
      ending b m (inl FAILED) (record_metric b) m
  | NotBuilt b' e :                             (* a plugin cannot be loaded *)
      before (at_before c) b = (Ok tt, b') → ending b m (inr (Leaf e)) b' m
  | NotOpened b' :                              (* the run could not be recorded *)
      before (at_before c) b = (Ok tt, b') → ending b m (inl FAILED) (on_failure (at_failure c) b') m
  | LeftRunning b' :                            (* an exception after that *)
      before (at_before c) b = (Ok tt, b') → registered m →
      ending b m (inl FAILED) (on_failure (at_failure c) b') (opened m)
  | Finished b' result :
      before (at_before c) b = (Ok tt, b') → registered m → result_of result →
      ending b m (inl (state result))
        (if decide (state result = SUCCESS) then on_success b' else on_failure (at_failure c) b')
        (finished result m)
  | Escaped b' t m' :                           (* an object that is no [Exception] *)
      before (at_before c) b = (Ok tt, b') → tree_isinstance t PyException = false →
      m' = m ∨ m' = opened m ∧ registered m → ending b m (inr t) b' m'.
End endings.

(** ** Every run ends in one of these ways *)

Section lifecycle.
Context {D : Type} {HD : Database D} {HO : OrdinaryErrors D} {HR : Retrying}.
Context (initialized : bool).
Context (pipeline_run : PipelineSpec → RunContext → D → (RunResult + exc_tree) * (RunContext * D)).
Context (aclose : plugin → res unit).
Context (format_exception : exn → string).
Context (eps : entry_points).

(** The pipeline writes indicators and observations only. *)
Definition keeps_managed : Prop := ∀ spec ctx d r ctx' d',
  pipeline_run spec ctx d = (r, (ctx', d')) → managed_of (tables d') = managed_of (tables d).

(** What the pipeline of a source returns, from the context of the run. *)
Definition pipeline_result_of (c : clock) (source : SourceConfig) (run_id : N) (corr : string)
    (uri : option string) (result : RunResult) : Prop :=
  ∃ spec w d st', build_pipeline_spec eps source uri = Ok spec ∧
    run_pipeline pipeline_run c spec (new_context c run_id (sc_id source) corr w, d) = (inl result, st').

Abbreviation man d := (managed_of (tables d)).

Lemma open_session_spec c source run_id d r d' :
  open_session initialized c (sc_id source) run_id d = (r, d') →
  match r with
  | Raise e => d' = d ∧ isinstance e PermanentError = false
  | Ok x => man d' = opened c source run_id (man d) ∧ registered source run_id (man d)
  end.
Proof.
  intros H. unfold open_session in H. pose proof H as Hord.
  apply session_atomic in H; [|apply keeps_bind; [apply keeps_open_run|intros;
    apply keeps_bind; [apply keeps_mark_running|intros; apply keeps_ret]]].
  destruct r as [x|e].
  - destruct H as (_ & s & Hm & Ht). session_inv Hm. injection Hm as Hx Hs0. subst.
    destruct a as [row w]. apply open_run_Ok in E as (src & Hsrc & Hrow & _ & Hnew & Hs1).
    apply mark_running_Ok in E0 as [-> Hs2]. subst row. simpl in *.
    rewrite Ht, Hs2, Hs1. unfold managed_of, opened. simpl. rewrite insert_insert_eq.
    split; [done|]. split; [by exists src|done].
  - split; [done|]. eapply session_ordinary; [|exact Hord].
    apply ordinary_bind; [apply ordinary_open|]. intros.
    apply ordinary_bind; [apply ordinary_mark|intros; apply ordinary_ret].
Qed.

Lemma final_session_spec c source run_id result d r d' m :
  final_session initialized c run_id result d = (r, d') → man d = opened c source run_id m →
  match r with
  | Raise e => d' = d ∧ isinstance e PermanentError = false
  | Ok _ => man d' = finished c source run_id result m
  end.
Proof.
  intros H Hman. unfold final_session in H. pose proof H as Hord.
  apply session_atomic in H.
  2:{ apply keeps_bind; [apply keeps_read|]. intros [row|]; [apply keeps_finalize_run|apply keeps_raise]. }
  destruct r as [u|e].
  - destruct H as (_ & s & Hm & Ht). session_inv Hm. apply s_read_Ok in E as [-> ->].
    assert (t_feed_runs (tables d) !! run_id = Some (running_row c source run_id)) as Hrow.
    { change (m_runs (man d) !! run_id = Some (running_row c source run_id)). rewrite Hman.
      simpl. apply lookup_insert_eq. }
    simpl in Hm. rewrite Hrow in Hm. apply finalize_run_Ok in Hm as (Hr & Hs & Hl).
    simpl in *. unfold managed_of in *. rewrite Ht, Hr, Hs, Hl. injection Hman as -> -> ->.
    unfold finished. rewrite insert_insert_eq. done.
  - split; [done|]. eapply session_ordinary; [|exact Hord].
    apply ordinary_bind; [apply ordinary_read|].
    intros [row|]; [apply ordinary_finalize|by apply ordinary_raise].
Qed.

(** The attempts of a run are one attempt. *)
Lemma pipeline_once c policy spec st :
  with_retry policy (run_pipeline pipeline_run c spec) st = run_pipeline pipeline_run c spec st ∧
  ∀ t st', run_pipeline pipeline_run c spec st = (inr t, st') → tree_isinstance t PermanentError = false.
Proof.
  destruct (run_pipeline pipeline_run c spec st) as [r st'] eqn:E.
  unfold run_pipeline in E. destruct (pipeline_run spec st.1 st.2) as [r0 st0] eqn:Ep.
  injection E as Hr <-.
  assert (∀ t, r = inr t → ∀ c, issubclass c CTIError = true → tree_isinstance t c = false) as Hf
    by (intros t ->; by eapply outcome_foreign).
  split.
  - apply with_retry_once; [unfold run_pipeline; by rewrite Ep, Hr|].
    intros t Ht. unfold retryable. by rewrite !(Hf t Ht).
  - intros t st' [= Ht _]. by apply (Hf t Ht).
Qed.

Lemma run_pipeline_managed c spec ctx d r ctx' d' :
  keeps_managed → run_pipeline pipeline_run c spec (ctx, d) = (r, (ctx', d')) → man d' = man d.
Proof.
  intros Hk. unfold run_pipeline. simpl. destruct (pipeline_run spec ctx d) as [r0 [ctx0 d0]] eqn:E.
  intros [= _ <- <-]. by eapply Hk.
Qed.

(** The body of the [try]: it returns once the run is finalized; what it raises
    is no permanent error, and leaves the run unrecorded or running. *)
Lemma attempt_cases c source spec run_id corr uri b d o b' d' :
  keeps_managed → build_pipeline_spec eps source uri = Ok spec →
  attempt initialized pipeline_run c source spec run_id corr b d = (o, b', d') →
  match o with
  | inl st => ∃ result, st = state result ∧ pipeline_result_of c source run_id corr uri result ∧
                registered source run_id (man d) ∧ man d' = finished c source run_id result (man d) ∧
                b' = if decide (state result = SUCCESS) then on_success b else on_failure (at_failure c) b
  | inr t => tree_isinstance t PermanentError = false ∧ b' = b ∧
             (man d' = man d ∨ man d' = opened c source run_id (man d) ∧ registered source run_id (man d))
  end.
Proof.
  intros Hk Hspec. unfold attempt. destruct (open_session _ _ _ _ _) as [[[row w]|e] d1] eqn:Eo;
    apply open_session_spec in Eo.
  2:{ destruct Eo as [-> He]. intros [= <- <- <-]. auto. }
  destruct Eo as (Hopen & Hreg). rewrite (proj1 (pipeline_once _ _ _ _)).
  destruct (run_pipeline _ _ _ _) as [[result|t] [ctx' d2]] eqn:Er.
  2:{ intros [= <- <- <-]. split; [by eapply (pipeline_once c (sc_retry source))|]. split; [done|]. right.
      by rewrite (run_pipeline_managed _ _ _ _ _ _ _ Hk Er). }
  pose proof (run_pipeline_managed _ _ _ _ _ _ _ Hk Er) as Hd2. rewrite Hopen in Hd2.
  destruct (final_session _ _ _ _ _) as [[u|e] d3] eqn:Ef;
    apply (final_session_spec _ source _ _ _ _ _ (man d)) in Ef; try done; intros [= <- <- <-].
  - exists result. split_and!; try done. by exists spec, w, d1, (ctx', d2).
  - destruct Ef as [-> He]. rewrite Hd2. auto.
Qed.

(** The body of the [try] and its handlers. *)
Lemma handlers_ending c source spec run_id corr uri b b0 d o b' d' :
  keeps_managed → build_pipeline_spec eps source uri = Ok spec → before (at_before c) b0 = (Ok tt, b) →
  handlers initialized format_exception c (sc_id source) run_id
    (attempt initialized pipeline_run c source spec run_id corr b d) = (o, b', d') →
  ending c source run_id (pipeline_result_of c source run_id corr uri) b0 (man d) o b' (man d').
Proof.
  intros Hk Hspec Hb. destruct (attempt _ _ _ _ _ _ _ _ _) as [[o1 b1] d1] eqn:Ea.
  apply (attempt_cases _ _ _ _ _ uri) in Ea; [|done..]. destruct o1 as [st|t]; simpl.
  - intros [= <- <- <-]. destruct Ea as (result & -> & Hr & Hreg & -> & ->).
    by apply (Finished _ _ _ _ b0 (man d) b result).
  - destruct Ea as (Ht & -> & Hd). rewrite Ht. destruct (tree_isinstance t PyException) eqn:Hx.
    + intros [= <- <- <-]. destruct Hd as [->|[-> Hreg]]; [by apply NotOpened|by apply LeftRunning].
    + intros [= <- <- <-]. by apply (Escaped _ _ _ _ b0 (man d) b).
Qed.

Lemma close_plugins_ordinary ps o :
  (∀ p e, aclose p = Raise e → isinstance e PyException = true) →
  close_plugins aclose ps o = (o, ps).
Proof.
  intros H. induction ps as [|p ps IH]; simpl; [done|]. rewrite IH.
  destruct (aclose p) as [u|e] eqn:E; [done|]. by rewrite (H p e E).
Qed.

Lemma before_cases now b :
  (∃ b', before now b = (Ok tt, b')) ∨
  before now b = (raise CircuitOpen ("circuit open for source " +:+ cb_source_id b), record_metric b).
Proof. unfold before. destruct (cb_state b); eauto. destruct (Qle_bool _ _); eauto. Qed.

Lemma execute_inside_ending c source run_id corr uri b d o b' d' closed :
  keeps_managed → (∀ p e, aclose p = Raise e → isinstance e PyException = true) →
  execute_inside initialized pipeline_run aclose format_exception eps c source run_id corr uri b d
    = (o, b', d', closed) →
  ending c source run_id (pipeline_result_of c source run_id corr uri) b (man d) o b' (man d') ∧
  closed = match before (at_before c) b, build_pipeline_spec eps source uri with
           | (Ok _, _), Ok spec => plugins_of spec
           | _, _ => []
           end.
Proof.
  intros Hk Hclose. unfold execute_inside.
  destruct (before_cases (at_before c) b) as [[b1 Hb]|Hb]; rewrite Hb.
  2:{ simpl. intros [= <- <- <- <-]. split; [by apply Skipped|done]. }
  destruct (build_pipeline_spec eps source uri) as [spec|e] eqn:Espec.
  2:{ intros [= <- <- <- <-]. split; [by apply NotBuilt|done]. }
  destruct (handlers _ _ _ _ _ _) as [[o1 b2] d2] eqn:Eh.
  rewrite close_plugins_ordinary by done. intros [= <- <- <- <-]. split; [|done].
  by eapply handlers_ending.
Qed.

(** The breaker that [execute] uses. *)
Definition breaker_of (source : SourceConfig) (r : runner D) : CircuitBreaker :=
  (get_breaker (sc_id source) (sc_circuit source) (r_breakers r)).1.
End lifecycle.
