(* ===== verification/RunnerProps.v ===== *)
(** The guarantees of a feed run, and concrete runs. *)

From Stdlib Require Import QArith.
From S2P Require Import Prelude Errors PyStr PyDict PyVal Enums Models Effects Normalize.
From S2P Require Import Stages StageFacts Queue Network Pipeline PipelineRuns Breaker Registry.
From S2P Require Import Retry Concurrency Rows State Builder Runner RunnerFacts.
#[local] Open Scope string_scope.
#[local] Open Scope list_scope.

(** The rows of the sources are stored under their identifiers. *)
Definition keyed (m : gmap string SourceRow) : Prop := ∀ id row, m !! id = Some row → src_id row = id.

Lemma ending_watermark c source run_id P b m o b' m' :
  keyed (m_sources m) → ending c source run_id P b m o b' m' →
  (∀ id, m_sources m' !! id ≠ m_sources m !! id → o = inl SUCCESS ∧ id = sc_id source) ∧
  (o = inl SUCCESS → ∃ row w,
     m_sources m !! sc_id source = Some row ∧
     m_sources m' !! sc_id source = Some (set_watermark_of (Some w) row) ∧
     ∃ run, m_runs m' !! run_id = Some run ∧ run_state run = "SUCCESS" ∧
            run_watermark run = Some w).
Proof.
  intros Hkey [Hb|b1 e Hb|b1 Hb|b1 Hb _|b1 result Hb [[row Hrow] _] _|b1 t m1 Hb Ht Hor]; try done.
  - pose proof (Hkey _ _ Hrow) as Hid0. unfold finished, advanced. simpl. rewrite Hrow.
    destruct (decide (state result = SUCCESS)) as [Hst|Hst]; [|split; [by intros id []|congruence]].
    rewrite Hst, Hid0. split.
    + intros id Hid. split; [done|]. destruct (decide (id = sc_id source)); [done|].
      by rewrite lookup_insert_ne in Hid by congruence.
    + intros _. exists row, (res_watermark result). split; [done|].
      rewrite lookup_insert_eq. split; [done|]. rewrite (lookup_insert_eq (m_runs m)).
      eexists. split; [reflexivity|done].
  - split; [|done]. intros id Hid. by destruct Hor as [->|[-> _]]; destruct Hid.
Qed.

Lemma ending_letters c source run_id P b m o b' m' :
  ending c source run_id P b m o b' m' → m_letters m' = m_letters m.
Proof. intros [| | | | |b1 t m1 Hb Ht [->|[-> _]]]; done. Qed.

Section guarantees.
Context {D : Type} {HD : Database D} {HO : OrdinaryErrors D} {HR : Retrying}.
Context (initialized : bool).
Context (pipeline_run : PipelineSpec → RunContext → D → (RunResult + exc_tree) * (RunContext * D)).
Context (aclose : plugin → res unit).
Context (format_exception : exn → string).
Context (eps : entry_points).

Abbreviation run_of := (execute initialized pipeline_run aclose format_exception eps).
Abbreviation man d := (managed_of (tables d)).

Lemma acquire_release s s' : sem_acquire s = Some s' → sem_release s' = s.
Proof.
  unfold sem_acquire, sem_release. destruct (_ <=? 0)%Z; [done|]. intros [= <-]. destruct s. simpl.
  f_equal. lia.
Qed.

Lemma execute_ending c source run_id corr uri r o r' :
  keeps_managed pipeline_run → (∀ p e, aclose p = Raise e → isinstance e PyException = true) →
  run_of c source run_id corr uri r = Some (o, r') →
  ending c source run_id (pipeline_result_of pipeline_run eps c source run_id corr uri) (breaker_of source r) (man (r_db r)) o
    (breaker_of source r') (man (r_db r')) ∧
  r_globals r' = r_globals r ∧
  dget (r_per_source r') (sc_id source)
    = Some (get_semaphore (sc_id source) (sc_max_parallelism source) (r_per_source r)).1 ∧
  r_closed r' = r_closed r ++
    match before (at_before c) (breaker_of source r), build_pipeline_spec eps source uri with
    | (Ok _, _), Ok spec => plugins_of spec
    | _, _ => []
    end.
Proof.
  intros Hk Hclose. unfold execute, breaker_of.
  destruct (get_breaker _ _ (r_breakers r)) as [b store] eqn:Eb.
  destruct (get_semaphore _ _ (r_per_source r)) as [sem sems] eqn:Es. simpl.
  destruct (global_enter (r_globals r)) as [g|] eqn:Eg; simpl; [|done].
  destruct (sem_acquire sem) as [sem'|] eqn:Ea; simpl; [|done].
  destruct (execute_inside _ _ _ _ _ _ _ _ _ _ _ _) as [[[o1 b'] d'] closed] eqn:Ei.
  intros [= <- <-]. simpl. apply execute_inside_ending in Ei as [Hend ->]; [|done|done].
  unfold get_breaker at 1. rewrite dget_dset_eq. simpl. split_and!; [done| | |done].
  - by apply acquire_release.
  - rewrite dget_dset_eq. f_equal. by apply acquire_release.
Qed.

(** C19: the life of a run.  Whatever the pipeline does to its own tables and
    whatever error the database or a plugin raises, a run that got its permits
    ends in one of the ways of the specification [ending]: skipped by an open
    circuit, not built, not opened, left running, finished, or ended by an
    object that is no [Exception]; each with the stated outcome, the stated
    report to the breaker and the stated content of the sources, runs and dead
    letters.  The permits are given back, and every plugin that was built is
    closed once, in every case. *)
Theorem run_lifecycle c source run_id corr uri r o r' :
  keeps_managed pipeline_run → (∀ p e, aclose p = Raise e → isinstance e PyException = true) →
  run_of c source run_id corr uri r = Some (o, r') →
  ending c source run_id (pipeline_result_of pipeline_run eps c source run_id corr uri) (breaker_of source r) (man (r_db r)) o
    (breaker_of source r') (man (r_db r')) ∧
  r_globals r' = r_globals r ∧
  dget (r_per_source r') (sc_id source)
    = Some (get_semaphore (sc_id source) (sc_max_parallelism source) (r_per_source r)).1 ∧
  r_closed r' = r_closed r ++
    match before (at_before c) (breaker_of source r), build_pipeline_spec eps source uri with
    | (Ok _, _), Ok spec => plugins_of spec
    | _, _ => []
    end.
Proof. apply execute_ending. Qed.

(** The watermark moves with success only.  If after a run the row of any
    source is not what it was before, then it is the row of the source that ran,
    only its watermark differs, and the run is recorded as a success with that
    very watermark; and a run that returns SUCCESS has moved it. *)
Theorem watermark_on_success c source run_id corr uri r o r' :
  keeps_managed pipeline_run → (∀ p e, aclose p = Raise e → isinstance e PyException = true) →
  keyed (m_sources (man (r_db r))) →
  run_of c source run_id corr uri r = Some (o, r') →
  (∀ id, m_sources (man (r_db r')) !! id ≠ m_sources (man (r_db r)) !! id →
     o = inl SUCCESS ∧ id = sc_id source) ∧
  (o = inl SUCCESS → ∃ row w,
     m_sources (man (r_db r)) !! sc_id source = Some row ∧
     m_sources (man (r_db r')) !! sc_id source = Some (set_watermark_of (Some w) row) ∧
     ∃ run, m_runs (man (r_db r')) !! run_id = Some run ∧ run_state run = "SUCCESS" ∧
            run_watermark run = Some w).
Proof.
  intros Hk Hclose Hkey Hex. apply execute_ending in Hex as [Hend _]; [|done|done].
  by eapply ending_watermark.
Qed.

(** C24: no dead letter is ever recorded.  Permanent errors of the pipeline are
    turned into a FAILED result before [execute] sees them, and no other call in
    its [try] raises one, so the branch that records a dead letter is never
    entered, whatever the pipeline, the plugins and the database do. *)
Theorem dead_letters_never_recorded c source run_id corr uri r o r' :
  keeps_managed pipeline_run → (∀ p e, aclose p = Raise e → isinstance e PyException = true) →
  run_of c source run_id corr uri r = Some (o, r') →
  t_dead_letters (tables (r_db r')) = t_dead_letters (tables (r_db r)).
Proof.
  intros Hk Hclose Hex. apply execute_ending in Hex as [Hend _]; [|done|done].
  exact (ending_letters _ _ _ _ _ _ _ _ _ Hend).
Qed.

(** A run is attempted once.  For every retry policy and every behaviour of
    the pipeline, [with_retry] around [run_with_outcome] makes one attempt: the
    transient errors and rate limits it would retry have become results. *)
Theorem pipeline_never_retried c policy spec st :
  with_retry policy (run_pipeline pipeline_run c spec) st = run_pipeline pipeline_run c spec st.
Proof. apply pipeline_once. Qed.
End guarantees.

(** ** Two workers *)

Lemma open_session_memory c id run_id t row :
  t_sources t !! id = Some row → t_feed_runs t !! run_id = None →
  ∃ r, open_session true c id run_id (MkMemoryDb t true)
       = (Ok (r, default [] (src_watermark row)),
          MkMemoryDb (with_feed_runs (<[run_id := r]>) t) true) ∧
       run_state r = "RUNNING" ∧ run_row_id r = run_id.
Proof.
  intros Hs Hr. eexists. split.
  - unfold open_session, db_session. simpl. unfold mbind, Sess_bind, open_run, get_source.
    unfold mbind, Sess_bind, s_read. simpl. rewrite Hs. unfold s_write, insert_run. simpl.
    rewrite Hr, Hs. simpl. unfold mark_running, update_run, s_commit. simpl.
    unfold mbind, Sess_bind, s_write. simpl. f_equal. f_equal. unfold with_feed_runs. simpl.
    by rewrite insert_insert_eq.
  - done.
Qed.

(** Opening a run excludes nobody.  The lock that [open_run] takes on the
    source is gone when the first session commits, before the pipeline starts:
    two workers can both open a run of one source, both runs are then RUNNING at
    once and both start from the same watermark. *)
Theorem open_run_no_exclusion c c' id run1 run2 t row :
  t_sources t !! id = Some row → t_feed_runs t !! run1 = None → t_feed_runs t !! run2 = None →
  run1 ≠ run2 →
  ∃ r1 r2 w d1 d2,
    open_session true c id run1 (MkMemoryDb t true) = (Ok (r1, w), d1) ∧
    open_session true c' id run2 d1 = (Ok (r2, w), d2) ∧
    run_state <$> (t_feed_runs (tables d2) !! run1) = Some "RUNNING" ∧
    run_state <$> (t_feed_runs (tables d2) !! run2) = Some "RUNNING".
Proof.
  intros Hs H1 H2 Hne. destruct (open_session_memory c id run1 t row Hs H1) as (r1 & E1 & Hr1 & _).
  destruct (open_session_memory c' id run2 (with_feed_runs (<[run1 := r1]>) t) row)
    as (r2 & E2 & Hr2 & _); [done|simpl; by rewrite lookup_insert_ne|].
  do 5 eexists. split; [exact E1|]. split; [exact E2|]. simpl.
  rewrite lookup_insert_ne, !lookup_insert_eq by done. simpl. by rewrite Hr1, Hr2.
Qed.

Lemma final_session_memory c sid run_id result t row src :
  t_feed_runs t !! run_id = Some row → run_row_id row = run_id → run_source_id row = sid →
  t_sources t !! sid = Some src → src_id src = sid → state result = SUCCESS →
  final_session true c run_id result (MkMemoryDb t true)
  = (Ok tt, MkMemoryDb
       (with_sources (<[sid := set_watermark_of (Some (res_watermark result)) src]>)
          (with_feed_runs (<[run_id := finalized_row row SUCCESS (at_final c) (final_of result)]>) t)) true).
Proof.
  intros Hrow <- <- Hsrc Hid Hok. unfold final_session, db_session. simpl.
  unfold mbind, Sess_bind, get_run, s_read. simpl. rewrite Hrow, Hok.
  unfold finalize_run. cbn [fin_watermark final_of]. rewrite decide_True by done.
  unfold mbind, Sess_bind, s_write, update_run, get_source, s_read. simpl. rewrite Hsrc. simpl.
  by rewrite Hid.
Qed.

(** A conflict of watermarks is not noticed.  When two runs of one source have
    both succeeded, the second to finish writes its watermark over the one that the
    first has stored, though it started from an older one: no error is raised, and
    both rows say SUCCESS. *)
Theorem conflict_undetected c c' sid run1 run2 r1 r2 t src row1 row2 :
  t_sources t !! sid = Some src → src_id src = sid →
  t_feed_runs t !! run1 = Some row1 → run_row_id row1 = run1 → run_source_id row1 = sid →
  t_feed_runs t !! run2 = Some row2 → run_row_id row2 = run2 → run_source_id row2 = sid →
  run1 ≠ run2 → state r1 = SUCCESS → state r2 = SUCCESS →
  ∃ d1 d2,
    final_session true c run1 r1 (MkMemoryDb t true) = (Ok tt, d1) ∧
    final_session true c' run2 r2 d1 = (Ok tt, d2) ∧
    src_watermark <$> (t_sources (tables d1) !! sid) = Some (Some (res_watermark r1)) ∧
    src_watermark <$> (t_sources (tables d2) !! sid) = Some (Some (res_watermark r2)) ∧
    run_state <$> (t_feed_runs (tables d2) !! run1) = Some "SUCCESS" ∧
    run_state <$> (t_feed_runs (tables d2) !! run2) = Some "SUCCESS".
Proof.
  intros Hs Hid H1 Hi1 Hs1 H2 Hi2 Hs2 Hne Hok1 Hok2. do 2 eexists.
  split; [by apply (final_session_memory c sid run1 r1 t row1 src)|]. split.
  - apply (final_session_memory c' sid run2 r2 _ row2 (set_watermark_of (Some (res_watermark r1)) src));
      try done; simpl; [by rewrite lookup_insert_ne|by rewrite lookup_insert_eq].
  - simpl. by rewrite !lookup_insert_eq, (lookup_insert_ne _ run2 run1), lookup_insert_eq by done.
Qed.

(** ** Concrete runs *)

Definition sample_clock : clock := MkClock 0 0 1 2 3 4 5 6 1.

Definition sample_source : SourceConfig := default_SourceConfig "feed" "http" "json".

Definition sample_source_row : SourceRow :=
  MkSourceRow "feed" None "http" "" true (Some [("etag", PyStr "v0")]) None None None 0 0.

Definition sample_tables : db_tables :=
  MkTables {["feed" := sample_source_row]} ∅ ∅ [] [].

Definition sample_eps : entry_points :=
  MkEntryPoints [("http", Ok (λ _, Ok sample_connector))] [("json", Ok (λ _, Ok (yields [])))] []
    [("postgres", Ok (λ _, Ok accept_all))].

Definition sample_runner : runner MemoryDb :=
  MkRunner [] [] (MkSemaphore 1 1) (MkMemoryDb sample_tables true) [].

(** A pipeline that succeeds and moves the watermark, and one of which a stage
    raises an error that is not the framework's. *)
Definition succeeding (spec : PipelineSpec) (ctx : RunContext) (d : MemoryDb)
    : (RunResult + exc_tree) * (RunContext * MemoryDb) :=
  let ctx := set_watermark ctx "etag" (PyStr "v1") in
  (inl (MkRunResult_default ctx SUCCESS 0 0 None), (ctx, d)).

Definition overflowing (spec : PipelineSpec) (ctx : RunContext) (d : MemoryDb)
    : (RunResult + exc_tree) * (RunContext * MemoryDb) :=
  (inr (Group [Leaf (Exn OverflowError "cannot convert float infinity to integer")]), (ctx, d)).

Definition sample_execute run :=
  execute true run (λ _, Ok tt) (λ _, "") sample_eps sample_clock sample_source 7 "corr" None
    sample_runner.

Lemma succeeding_keeps : keeps_managed succeeding.
Proof. by intros spec ctx d r ctx' d' [= _ _ <-]. Qed.

Lemma run_lifecycle_witness :
  ∃ r', sample_execute succeeding = Some (inl SUCCESS, r') ∧ r_globals r' = MkSemaphore 1 1 ∧
        length (r_closed r') = 3%nat.
Proof.
  assert (option_map fst (sample_execute succeeding) = Some (inl SUCCESS)) as Hs
    by (vm_compute; reflexivity).
  destruct (sample_execute succeeding) as [[o r']|] eqn:E; [|discriminate]. injection Hs as ->.
  exists r'. split; [reflexivity|].
  destruct (run_lifecycle true succeeding (λ _, Ok tt) (λ _, "") sample_eps sample_clock
              sample_source 7 "corr" None sample_runner (inl SUCCESS) r') as (_ & Hg & _ & Hc).
  - apply succeeding_keeps.
  - discriminate.
  - exact E.
  - split; [exact Hg|]. rewrite Hc. vm_compute. reflexivity.
Defined.

Lemma watermark_on_success_witness :
  ∃ r' row, sample_execute succeeding = Some (inl SUCCESS, r') ∧
    t_sources (tables (r_db r')) !! "feed" = Some row ∧
    src_watermark row = Some [("etag", PyStr "v1")].
Proof.
  assert (option_map (λ x, (x.1, src_watermark <$> (t_sources (tables (r_db x.2)) !! "feed")))
            (sample_execute succeeding) = Some (inl SUCCESS, Some (Some [("etag", PyStr "v1")]))) as Hs
    by (vm_compute; reflexivity).
  destruct (sample_execute succeeding) as [[o r']|] eqn:E; [|discriminate].
  injection Hs as -> Hw. simpl in Hw.
  destruct (watermark_on_success true succeeding (λ _, Ok tt) (λ _, "") sample_eps sample_clock
              sample_source 7 "corr" None sample_runner (inl SUCCESS) r') as [_ Hmoved].
  - apply succeeding_keeps.
  - discriminate.
  - intros id row. simpl. rewrite lookup_singleton_Some. intros [<- <-]. reflexivity.
  - exact E.
  - destruct (Hmoved eq_refl) as (row & w & _ & Hrow & _). simpl in Hrow.
    exists r', (set_watermark_of (Some w) row). split; [reflexivity|]. split; [exact Hrow|].
    rewrite Hrow in Hw. injection Hw as Hw. simpl. by rewrite Hw.
Defined.

Lemma dead_letters_never_recorded_witness :
  ∃ r', sample_execute overflowing = Some (inl FAILED, r') ∧ t_dead_letters (tables (r_db r')) = [].
Proof.
  assert (option_map fst (sample_execute overflowing) = Some (inl FAILED)) as Hs
    by (vm_compute; reflexivity).
  destruct (sample_execute overflowing) as [[o r']|] eqn:E; [|discriminate]. injection Hs as ->.
  exists r'. split; [reflexivity|].
  transitivity (t_dead_letters (tables (r_db sample_runner))); [|reflexivity].
  apply (dead_letters_never_recorded true overflowing (λ _, Ok tt) (λ _, "") sample_eps sample_clock
           sample_source 7 "corr" None sample_runner (inl FAILED) r').
  - intros spec ctx d r ctx' d' [= _ _ <-]. reflexivity.
  - discriminate.
  - exact E.
Defined.

Lemma open_run_no_exclusion_witness :
  ∃ d1 d2 r1 r2 w,
    open_session true sample_clock "feed" 1 (MkMemoryDb sample_tables true) = (Ok (r1, w), d1) ∧
    open_session true sample_clock "feed" 2 d1 = (Ok (r2, w), d2).
Proof.
  destruct (open_run_no_exclusion sample_clock sample_clock "feed" 1 2 sample_tables sample_source_row)
    as (r1 & r2 & w & d1 & d2 & E1 & E2 & _).
  - reflexivity.
  - reflexivity.
  - reflexivity.
  - discriminate.
  - exists d1, d2, r1, r2, w. split; [exact E1|exact E2].
Defined.

Lemma conflict_undetected_witness :
  let result w := MkRunResult_default (new_context sample_clock 1 "feed" "" [("etag", PyStr w)]) SUCCESS 0 0 None in
  let row n := set_state RUNNING (pending_row "feed" n 1) in
  let t := with_feed_runs (λ m, <[2%N := row 2%N]> (<[1%N := row 1%N]> m)) sample_tables in
  ∃ d1 d2, final_session true sample_clock 1 (result "v2") (MkMemoryDb t true) = (Ok tt, d1) ∧
    final_session true sample_clock 2 (result "v1") d1 = (Ok tt, d2) ∧
    src_watermark <$> (t_sources (tables d2) !! "feed") = Some (Some [("etag", PyStr "v1")]).
Proof.
  intros result row t.
  destruct (conflict_undetected sample_clock sample_clock "feed" 1 2 (result "v2") (result "v1") t sample_source_row
              (row 1%N) (row 2%N)) as (d1 & d2 & E1 & E2 & _ & Hw & _); try reflexivity; [discriminate|].
  exists d1, d2. split; [exact E1|]. split; [exact E2|exact Hw].
Defined.

(** A foreign error leaves the run RUNNING.  When a stage raises an error
    that is not the framework's, [execute] returns FAILED, but the row of the
    run stays RUNNING for ever, without an end, an error or a watermark. *)
Theorem foreign_failure_left_running :
  ∃ r', sample_execute overflowing = Some (inl FAILED, r') ∧
    t_feed_runs (tables (r_db r')) !! 7%N = Some (running_row sample_clock sample_source 7) ∧
    run_state (running_row sample_clock sample_source 7) = "RUNNING" ∧
    run_finished_at (running_row sample_clock sample_source 7) = None ∧
    run_error (running_row sample_clock sample_source 7) = None.
Proof.
  assert (option_map (λ x, (x.1, t_feed_runs (tables (r_db x.2)) !! 7%N)) (sample_execute overflowing)
          = Some (inl FAILED, Some (running_row sample_clock sample_source 7))) as Hs
    by (vm_compute; reflexivity).
  destruct (sample_execute overflowing) as [[o r']|]; [|discriminate]. injection Hs as -> Hr.
  exists r'. split; [reflexivity|]. split; [exact Hr|]. done.
Qed.
