(* ===== verification/Logging.v ===== *)
(** [obs/logging.py], [obs/tracing.py] and the log lines of [manager/worker.py] and
    [manager/runner.py].

    [logging] belongs to the standard library: the attributes that the name of a
    level can reach and the state of the root logger are written out.
    [structlog] and [opentelemetry] do not: what the code hands to them is data,
    and the variables of a context are an interface with its documented laws. *)

From Stdlib Require Import QArith.
From S2P Require Import Prelude Errors PyStr PyDict PyVal Uuid Enums Secrets Config Models.
From S2P Require Import Stages Pipeline Breaker Registry Retry Concurrency Rows State Builder Runner RunnerFacts RunnerProps.
#[local] Open Scope string_scope.
#[local] Open Scope list_scope.

(** ** Names of levels *)

(** [str.upper] of one character.  The upper case of a micro sign and of a y with
    diaeresis lies above 255: both stay, as no attribute has either form. *)
Definition upper_char (c : ascii) : string :=
  if N.eqb (code c) 223 then "SS"
  else if is_lower_ascii c || (in_range 224 254 c && negb (N.eqb (code c) 247))
  then String (chr (code c - 32)) "" else String c "".

Fixpoint upper (s : string) : string :=
  match s with "" => "" | String c s => upper_char c +:+ upper s end.

(** An attribute of the module [logging]. *)
Inductive attribute := Level (n : Z) | Text (s : string) | Styles.

(** Those that the upper case of some text names. *)
Definition logging_attributes : list (string * attribute) :=
  [("CRITICAL", Level 50); ("DEBUG", Level 10); ("ERROR", Level 40); ("FATAL", Level 50);
   ("INFO", Level 20); ("NOTSET", Level 0); ("WARN", Level 30); ("WARNING", Level 30);
   ("BASIC_FORMAT", Text "%(levelname)s:%(name)s:%(message)s"); ("_STYLES", Styles)].

(** [getattr(logging, level.upper(), logging.INFO)]. *)
Definition level_attribute (level : string) : attribute :=
  default (Level 20) (dget logging_attributes (upper level)).

(** ** [configure] *)

Record handler := MkHandler { h_format : string; h_stream : string }.
Record root_logger := MkRoot { handlers : list handler; root_level : Z }.

Inductive processor :=
  | merge_contextvars | add_log_level | TimeStamper (fmt : string) | StackInfoRenderer
  | format_exc_info | JSONRenderer | ConsoleRenderer.

Inductive factory := PrintLoggerFactory.

Record structlog_config (W : Type) := MkStructlog {
  processors : list processor; wrapper_class : W; logger_factory : factory; cache_logger_on_first_use : bool }.
Arguments MkStructlog {W}.
Arguments processors {W}.
Arguments wrapper_class {W}.
Arguments logger_factory {W}.
Arguments cache_logger_on_first_use {W}.

(** The state of both libraries in a process. *)
Record logging_state (W : Type) := MkLogging { root : root_logger; structured : option (structlog_config W) }.
Arguments MkLogging {W}.
Arguments root {W}.
Arguments structured {W}.

(** [root.setLevel(level)]; [styles] is the text of the exception for the table
    of styles.  Text that is the name of a level cannot occur. *)
Definition setLevel (styles : string) (level : attribute) (r : root_logger) : res unit * root_logger :=
  match level with
  | Level n => (Ok tt, MkRoot (handlers r) n)
  | Text s => (raise ValueError ("Unknown level: " +:+ repr_str s), r)
  | Styles => (raise TypeError styles, r)
  end.

(** [logging.basicConfig(format=..., stream=..., level=...)]: nothing when the root logger has a
    handler; the handler is added before the level is set. *)
Definition basicConfig (styles format stream : string) (level : attribute) (r : root_logger)
    : res unit * root_logger :=
  match handlers r with
  | _ :: _ => (Ok tt, r)
  | [] => setLevel styles level (MkRoot [MkHandler format stream] (root_level r))
  end.

Definition processor_chain (json_output : bool) : list processor :=
  [merge_contextvars; add_log_level; TimeStamper "iso"; StackInfoRenderer; format_exc_info] ++
  [if json_output then JSONRenderer else ConsoleRenderer].

Section configure.
Context {W : Type} (make_filtering_bound_logger : attribute → res W) (styles : string).

(** [configure(level, json_output)]. *)
Definition configure (level : string) (json_output : bool) (g : logging_state W)
    : res unit * logging_state W :=
  let '(set, r) := basicConfig styles "%(message)s" "stdout" (level_attribute level) (root g) in
  match (_ ← set; make_filtering_bound_logger (level_attribute level)) with
  | Raise e => (Raise e, MkLogging r (structured g))
  | Ok w => (Ok tt, MkLogging r (Some (MkStructlog (processor_chain json_output) w PrintLoggerFactory true)))
  end.

Lemma no_level level : (∀ n, level_attribute level ≠ Level n) →
  upper level = "BASIC_FORMAT" ∧ level_attribute level = Text "%(levelname)s:%(name)s:%(message)s" ∨
  upper level = "_STYLES" ∧ level_attribute level = Styles.
Proof.
  unfold level_attribute. cbn [dget logging_attributes]. intros H.
  repeat match goal with
  | |- context [String.eqb ?name (upper level)] =>
      destruct (String.eqb_spec name (upper level)) as [<-|_];
      [first [by left | by right | by exfalso; eapply H]|]
  end.
  by exfalso; eapply H.
Qed.

(** How a process that configures its logging ends up.  A name that is no level,
    whatever its case, counts as INFO.  In a fresh process the root logger gets
    one handler and that level; a process that already has a handler keeps it and
    its level, so that only the filter of [structlog] follows a second call.  The
    two names that are attributes but no levels are refused, after the handler was
    added. *)
Theorem configure_outcome level json_output g :
  (∀ n w, level_attribute level = Level n → make_filtering_bound_logger (Level n) = Ok w →
     configure level json_output g =
       (Ok tt, MkLogging (if decide (handlers (root g) = [])
                          then MkRoot [MkHandler "%(message)s" "stdout"] n else root g)
                 (Some (MkStructlog (processor_chain json_output) w PrintLoggerFactory true)))) ∧
  (dget logging_attributes (upper level) = None → level_attribute level = Level 20) ∧
  (handlers (root g) = [] → (∀ n, level_attribute level ≠ Level n) →
     ∃ e, (upper level = "BASIC_FORMAT" ∧ cls e = ValueError ∨
           upper level = "_STYLES" ∧ cls e = TypeError) ∧
       configure level json_output g =
         (Raise e, MkLogging (MkRoot [MkHandler "%(message)s" "stdout"] (root_level (root g))) (structured g))).
Proof.
  split_and!.
  - intros n w Hl Hw. unfold configure, basicConfig. rewrite Hl.
    destruct (handlers (root g)) eqn:Hh; simpl; by rewrite Hw.
  - unfold level_attribute. by intros ->.
  - intros Hh Hn. unfold configure, basicConfig. rewrite Hh.
    destruct (no_level level Hn) as [[Hu ->]|[Hu ->]]; eexists; (split; [|reflexivity]); auto.
Qed.

End configure.

Lemma upper_lower s : upper (lower s) = upper s.
Proof.
  induction s as [|c s IH]; [done|]. unfold lower. cbn [map_str upper]. fold (lower s). rewrite IH. f_equal.
  by destruct c as [[][][][][][][][]].
Qed.

(** The second call decides the filter, the first one the level of the root
    logger: two calls are one only when they name one level. *)
Example two_calls :
  let g := (configure Ok "" "debug" true (MkLogging (MkRoot [] 30%Z) None)).2 in
  let g' := (configure Ok "" "Error" false g).2 in
  root_level (root g') = 10%Z ∧ wrapper_class <$> structured g' = Some (Level 40) ∧
  (processors <$> structured g') ≫= last = Some ConsoleRenderer.
Proof. vm_compute. done. Qed.

Lemma configure_outcome_witness :
  configure Ok "" "waRning" true (MkLogging (MkRoot [] 30%Z) None) =
    (Ok tt, MkLogging (MkRoot [MkHandler "%(message)s" "stdout"] 30)
              (Some (MkStructlog (processor_chain true) (Level 30) PrintLoggerFactory true))) ∧
  level_attribute "verbose" = Level 20 ∧
  ∃ e, configure (W := attribute) Ok "" "basic_format" true (MkLogging (MkRoot [] 30%Z) None) =
    (Raise e, MkLogging (MkRoot [MkHandler "%(message)s" "stdout"] 30) None).
Proof.
  split_and!.
  - pose proof (configure_outcome Ok "" "waRning" true (MkLogging (MkRoot [] 30%Z) None)) as [H _].
    by apply H.
  - pose proof (configure_outcome (W := attribute) Ok "" "verbose" true (MkLogging (MkRoot [] 30%Z) None)) as (_ & H & _).
    by apply H.
  - pose proof (configure_outcome (W := attribute) Ok "" "basic_format" true (MkLogging (MkRoot [] 30%Z) None)) as (_ & _ & H).
    destruct H as (e & _ & He); [done|done|]. by exists e.
Defined.

(** ** The context of a job *)

Abbreviation fields := (list (string * pyval)).

(** The variables of a context: what is bound is found, clearing unbinds all, and
    an event keeps the keys of its own. *)
Class ContextVars (C : Type) := {
  bound : C → string → option pyval;
  bind_contextvars : fields → C → C;
  clear_contextvars : C → C;
  merged : C → fields → fields;
  bound_bind kvs c k :
    bound (bind_contextvars kvs c) k = match dget kvs k with Some v => Some v | None => bound c k end;
  bound_clear c k : bound (clear_contextvars c) k = None;
  merged_get c event k :
    dget (merged c event) k = match dget event k with Some v => Some v | None => bound c k end
}.

#[export] Program Instance dict_context : ContextVars fields := {|
  bound := dget;
  bind_contextvars kvs c := kvs ++ c;
  clear_contextvars _ := [];
  merged c event := event ++ c
|}.
Next Obligation. intros. apply dget_app. Qed.
Next Obligation. done. Qed.
Next Obligation. intros. apply dget_app. Qed.

(** A log line: the event, its level and its fields. *)
Record log_line := MkLine { l_event : string; l_level : Z; l_fields : fields }.

Definition worker_startup (registry : sources) : log_line :=
  MkLine "worker.startup" 20 [("sources", PyInt (Z.of_nat (length (all registry))))].
Definition worker_shutdown : log_line := MkLine "worker.shutdown" 20 [].
Definition run_complete (source_id : string) (outcome : RunState) : log_line :=
  MkLine "run.complete" 20 [("source", PyStr source_id); ("state", PyStr (value outcome))].

(** The line of [_enqueue]; [job] is the identifier of the job in the queue, absent
    when the queue already has it. *)
Definition scheduler_enqueued (source : SourceConfig) (job : option string) : log_line :=
  MkLine "scheduler.enqueued" 20
    [("source", PyStr (sc_id source)); ("job_id", match job with Some j => PyStr j | None => PyNone end)].

(** [str(exc)]; the message of a group counts its parts. *)
Definition str_tree (t : exc_tree) : string :=
  match t with
  | Leaf e => msg e
  | Group es => "unhandled errors in a TaskGroup (" +:+ str_of_N (N.of_nat (length es)) +:+ " sub-exception" +:+
                (if decide (length es = 1%nat) then "" else "s") +:+ ")"
  end.

(** The lines of [FeedRunner.execute]; [log.exception] is [log.error] with the traceback. *)
Definition circuit_open_skip (source_id : string) (run_id : N) : log_line :=
  MkLine "circuit_open_skip" 30 [("source", PyStr source_id); ("run", PyStr (str_uuid run_id))].
Definition permanent_failure (source_id : string) (e : exn) : log_line :=
  MkLine "permanent_failure" 40 [("source", PyStr source_id); ("error", PyStr (msg e))].
Definition transient_failure (source_id : string) (t : exc_tree) : log_line :=
  MkLine "transient_failure" 40
    [("exc_info", PyBool true); ("source", PyStr source_id); ("error", PyStr (str_tree t))].

(** No field of the line is one that the context has. *)
Definition plain (l : log_line) : Prop :=
  dget (l_fields l) "run_id" = None ∧ dget (l_fields l) "source_id" = None.

Section runs.
Context {D : Type} {HD : Database D} {HR : Retrying}.
Context (initialized : bool) (pipeline_run : PipelineSpec → RunContext → D → (RunResult + exc_tree) * (RunContext * D)).
Context (aclose : plugin → res unit) (format_exception : exn → string) (eps : entry_points).

(** What the handlers log of the outcome of the [try]: [Runner.handlers]. *)
Definition handler_lines (c : clock) (source_id : string) (run_id : N)
    (x : (RunState + exc_tree) * CircuitBreaker * D) : list log_line :=
  match x with
  | (inl _, _, _) => []
  | (inr t, _, d) =>
      if tree_isinstance t PermanentError then
        match t with
        | Leaf e =>
            match letter_session initialized format_exception c run_id source_id e d with
            | (Ok _, _) => [permanent_failure source_id e]
            | (Raise _, _) => []
            end
        | Group _ => []
        end
      else if tree_isinstance t PyException then [transient_failure source_id t] else []
  end.

(** The lines of a run that has its permits: [Runner.execute_inside]. *)
Definition run_lines (c : clock) (source : SourceConfig) (run_id : N) (correlation_id : string)
    (uri : option string) (b : CircuitBreaker) (d : D) : list log_line :=
  match before (at_before c) b with
  | (Raise _, _) => [circuit_open_skip (sc_id source) run_id]
  | (Ok _, b) =>
      match build_pipeline_spec eps source uri with
      | Raise _ => []
      | Ok spec =>
          handler_lines c (sc_id source) run_id
            (attempt initialized pipeline_run c source spec run_id correlation_id b d)
      end
  end.

(** A run logs one line at most. *)
Lemma run_lines_cases c source run_id corr uri b d :
  ∃ l, run_lines c source run_id corr uri b d = option_list l ∧
    ∀ x, l = Some x → plain x ∧
      (x = circuit_open_skip (sc_id source) run_id ∨ (∃ e, x = permanent_failure (sc_id source) e) ∨
       ∃ t, x = transient_failure (sc_id source) t).
Proof.
  assert (∀ x, plain x →
            (x = circuit_open_skip (sc_id source) run_id ∨ (∃ e, x = permanent_failure (sc_id source) e) ∨
             ∃ t, x = transient_failure (sc_id source) t) →
            ∃ l, [x] = option_list l ∧ ∀ y, l = Some y → plain y ∧
              (y = circuit_open_skip (sc_id source) run_id ∨ (∃ e, y = permanent_failure (sc_id source) e) ∨
               ∃ t, y = transient_failure (sc_id source) t)) as Hone
    by (intros x Hx Hs; exists (Some x); split; [done|by intros y [= <-]]).
  assert (∀ P : log_line → Prop, ∃ l : option log_line, [] = option_list l ∧ ∀ y, l = Some y → P y) as Hnone
    by (intros P; by exists None).
  unfold run_lines. destruct (before _ _) as [[u|e] b1]; [|apply Hone; [done|by left]].
  destruct (build_pipeline_spec _ _ _) as [spec|e]; [|apply Hnone].
  destruct (attempt _ _ _ _ _ _ _ _ _) as [[[st|t] b2] d2]; simpl; [apply Hnone|].
  destruct (tree_isinstance t PermanentError).
  - destruct t as [e|es]; [|apply Hnone]. destruct (letter_session _ _ _ _ _ _ _) as [[x|e'] d3]; [|apply Hnone].
    apply Hone; [done|]. right. left. by exists e.
  - destruct (tree_isinstance t PyException); [|apply Hnone]. apply Hone; [done|]. right. right. by exists t.
Qed.

Context {HO : OrdinaryErrors D}.

Abbreviation man d := (managed_of (tables d)).

(** What a run logged, and the tables of the manager after it. *)
Lemma run_lines_ending c source run_id corr uri r o r' :
  keeps_managed pipeline_run → (∀ p e, aclose p = Raise e → isinstance e PyException = true) →
  execute initialized pipeline_run aclose format_exception eps c source run_id corr uri r = Some (o, r') →
  let lines := run_lines c source run_id corr uri (breaker_of source r) (r_db r) in
  lines = [] ∨
  o = inl FAILED ∧
  (lines = [circuit_open_skip (sc_id source) run_id] ∧ man (r_db r') = man (r_db r) ∨
   ∃ t, lines = [transient_failure (sc_id source) t] ∧ tree_isinstance t PermanentError = false ∧
        (man (r_db r') = man (r_db r) ∨
         man (r_db r') = opened c source run_id (man (r_db r)) ∧ registered source run_id (man (r_db r)))).
Proof.
  intros Hk Hclose. unfold run_lines, execute, breaker_of.
  destruct (get_breaker _ _ (r_breakers r)) as [b store]. destruct (get_semaphore _ _ _) as [sem sems].
  destruct (global_enter _) as [g|]; simpl; [|done]. destruct (sem_acquire sem) as [sem'|]; simpl; [|done].
  unfold execute_inside. destruct (before (at_before c) b) as [[u|e] b1].
  2:{ intros [= <- <-]. right. split; [done|]. by left. }
  destruct (build_pipeline_spec _ _ _) as [spec|e] eqn:Hspec; [|by left].
  destruct (attempt _ _ _ _ _ _ _ _ _) as [[[st|t] b2] d2] eqn:Ea; [by left|].
  apply (attempt_cases _ _ eps _ _ _ _ _ uri) in Ea as (Ht & _ & Hd); [|done..].
  cbn [Runner.handlers handler_lines]. rewrite Ht. destruct (tree_isinstance t PyException); [|by left].
  rewrite close_plugins_ordinary by done. intros [= <- <-]. right. split; [done|]. right. by exists t.
Qed.

(** Failures that are recorded are not logged, and failures that are logged are
    not recorded.  A run whose row says how it ended, be it FAILED or PARTIAL, has
    logged nothing.  A run that has logged a line was skipped by an open circuit, or
    ended by an error that is never a permanent one, in which case its row, if
    it has one at all, says RUNNING for ever; either way it does not count as a
    success. *)
Theorem failures_unlogged c source run_id corr uri r o r' :
  keeps_managed pipeline_run → (∀ p e, aclose p = Raise e → isinstance e PyException = true) →
  execute initialized pipeline_run aclose format_exception eps c source run_id corr uri r = Some (o, r') →
  let lines := run_lines c source run_id corr uri (breaker_of source r) (r_db r) in
  (∀ row, t_feed_runs (tables (r_db r)) !! run_id = None → t_feed_runs (tables (r_db r')) !! run_id = Some row →
     run_state row ≠ value RUNNING → lines = []) ∧
  (lines ≠ [] →
     o = inl FAILED ∧
     (lines = [circuit_open_skip (sc_id source) run_id] ∧ man (r_db r') = man (r_db r) ∨
      ∃ t, lines = [transient_failure (sc_id source) t] ∧ tree_isinstance t PermanentError = false ∧
           (man (r_db r') = man (r_db r) ∨ man (r_db r') = opened c source run_id (man (r_db r))))).
Proof.
  intros Hk Hclose Hex lines. pose proof (run_lines_ending _ _ _ _ _ _ _ _ Hk Hclose Hex) as Hl. split.
  2:{ intros Hne. destruct Hl as [?|[-> [?|(t & Hl & Ht & Hm)]]]; [done|by auto|]. split; [done|].
      right. exists t. split; [done|]. split; [done|]. destruct Hm as [?|[? _]]; auto. }
  intros row Hnew Hrow Hst.
  assert (∀ m, m = man (r_db r) ∨ m = opened c source run_id (man (r_db r)) → man (r_db r') = m → False) as Hno.
  { intros m Hm Hman. apply (f_equal (λ x, m_runs x !! run_id)) in Hman. simpl in Hman. rewrite Hrow in Hman.
    destruct Hm as [->| ->]; simpl in Hman; [by rewrite Hnew in Hman|].
    rewrite lookup_insert_eq in Hman. injection Hman as ->. by apply Hst. }
  destruct Hl as [Hl|(_ & [[_ Hm]|(t & _ & _ & [Hm|[Hm _]])])]; [done|exfalso..];
    first [exact (Hno _ (or_introl eq_refl) Hm)|exact (Hno _ (or_intror eq_refl) Hm)].
Qed.
End runs.

(** A pipeline that fails for good. *)
Definition refused (spec : PipelineSpec) (ctx : RunContext) (d : MemoryDb)
    : (RunResult + exc_tree) * (RunContext * MemoryDb) :=
  (inr (Group [Leaf (Exn EgressBlocked "blocked")]), (ctx, d)).

Definition sample_lines run :=
  run_lines true run (λ _, "") sample_eps sample_clock sample_source 7 "corr" None
    (breaker_of sample_source sample_runner) (r_db sample_runner).

(** The failure that the row records is not logged; the one that is logged
    leaves the row RUNNING. *)
Lemma failures_unlogged_witness :
  (∃ r', sample_execute refused = Some (inl FAILED, r') ∧ sample_lines refused = []) ∧
  (∃ r', sample_execute overflowing = Some (inl FAILED, r') ∧
         sample_lines overflowing
         = [transient_failure "feed" (Group [Leaf (Exn OverflowError "cannot convert float infinity to integer")])] ∧
         run_state <$> (t_feed_runs (tables (r_db r')) !! 7%N) = Some "RUNNING").
Proof.
  split.
  - assert ((λ x, (x.1, run_state <$> (t_feed_runs (tables (r_db x.2)) !! 7%N))) <$> sample_execute refused
            = Some (inl FAILED, Some "FAILED")) as Hs by (vm_compute; reflexivity).
    destruct (sample_execute refused) as [[o r']|] eqn:E; [|discriminate]. injection Hs as -> Hrow.
    exists r'. split; [reflexivity|]. apply fmap_Some in Hrow as (row & Hr & Hst).
    refine (proj1 (failures_unlogged true refused (λ _, Ok tt) (λ _, "") sample_eps sample_clock sample_source
                     7 "corr" None sample_runner (inl FAILED) r' _ _ E) row _ Hr _).
    + intros spec ctx d r0 ctx' d' [= _ _ <-]. reflexivity.
    + discriminate.
    + reflexivity.
    + rewrite <- Hst. discriminate.
  - assert ((λ x, (x.1, run_state <$> (t_feed_runs (tables (r_db x.2)) !! 7%N))) <$> sample_execute overflowing
            = Some (inl FAILED, Some "RUNNING")) as Hs by (vm_compute; reflexivity).
    destruct (sample_execute overflowing) as [[o r']|]; [|discriminate]. injection Hs as -> Hrow.
    exists r'. split; [reflexivity|]. split; [vm_compute; reflexivity|exact Hrow].
Defined.

Section jobs.
Context {C : Type} `{!ContextVars C}.

Definition bind_run_context (run_id source_id : string) : C → C :=
  bind_contextvars [("run_id", PyStr run_id); ("source_id", PyStr source_id)].
Definition clear_run_context : C → C := clear_contextvars.

Definition emit (ctx : C) (l : log_line) : log_line :=
  MkLine (l_event l) (l_level l) (merged ctx (l_fields l)).

Lemma emit_bound job_id source_id ctx l :
  plain l →
  let l' := emit (bind_run_context job_id source_id ctx) l in
  dget (l_fields l') "run_id" = Some (PyStr job_id) ∧ dget (l_fields l') "source_id" = Some (PyStr source_id).
Proof.
  intros [Hr Hs]. split; unfold emit; cbn [l_fields]; rewrite merged_get, ?Hr, ?Hs; unfold bind_run_context;
    by rewrite bound_bind.
Qed.

Context {D : Type} {HD : Database D} {HR : Retrying}.
Context (initialized : bool) (pipeline_run : PipelineSpec → RunContext → D → (RunResult + exc_tree) * (RunContext * D)).
Context (aclose : plugin → res unit) (format_exception : exn → string) (eps : entry_points).

(** [run_feed] with the lines it logs and the context it leaves. *)
Definition run_feed_logged (c : clock) (registry : sources) (source_id : string) (run_id : N)
    (correlation_id job_id : string) (r : runner D) (ctx : C)
    : option ((string + exc_tree) * runner D * (list log_line * C)) :=
  match get source_id registry with
  | Raise e => Some (inr (Leaf e), r, ([], ctx))
  | Ok cfg =>
      let ctx := bind_run_context job_id source_id ctx in
      let lines := run_lines initialized pipeline_run format_exception eps c cfg run_id correlation_id None
                     (breaker_of cfg r) (r_db r) in
      x ← execute initialized pipeline_run aclose format_exception eps c cfg run_id correlation_id None r;
      Some (match x.1 with inl st => inl (value st) | inr t => inr t end, x.2,
            (emit ctx <$> lines ++ match x.1 with inl st => [run_complete source_id st] | inr _ => [] end,
             clear_run_context ctx))
  end.

(** C40: the log of a job.  Logging changes neither what the job returns nor what it
    does.  Every line of a known source carries that source and the identifier of
    the job, and this, not the identifier of the run that is stored, is its
    [run_id].  The run logs one line at most, about an open circuit or a
    failure, and the job logs that it is complete, with the state, exactly if it
    returns one.  However it ended, the context it leaves binds nothing, so that no
    later line is taken for this job's. *)
Theorem job_log_context c registry source_id run_id corr job_id r ctx out r' lines ctx' :
  run_feed_logged c registry source_id run_id corr job_id r ctx = Some (out, r', (lines, ctx')) →
  run_feed initialized pipeline_run aclose format_exception eps c registry source_id run_id corr r = Some (out, r') ∧
  (is_ok (get source_id registry) = true →
     (∀ k, bound ctx' k = None) ∧
     (∀ l, l ∈ lines → dget (l_fields l) "run_id" = Some (PyStr job_id) ∧
                       dget (l_fields l) "source_id" = Some (PyStr source_id)) ∧
     (∃ x : option log_line,
        lines = option_list x ++
          match out with
          | inl st => [MkLine "run.complete" 20 (merged (bind_run_context job_id source_id ctx)
                                                   [("source", PyStr source_id); ("state", PyStr st)])]
          | inr _ => []
          end ∧
        ∀ l, x = Some l → l_event l ∈ ["circuit_open_skip"; "permanent_failure"; "transient_failure"])) ∧
  (is_ok (get source_id registry) = false → lines = [] ∧ ctx' = ctx).
Proof.
  unfold run_feed_logged, run_feed. destruct (get source_id registry) as [cfg|e]; simpl.
  2:{ intros [= <- <- <- <-]. done. }
  destruct (run_lines_cases initialized pipeline_run format_exception eps c cfg run_id corr None
              (breaker_of cfg r) (r_db r)) as (x & -> & Hx).
  destruct (execute _ _ _ _ _ _ _ _ _ _ _) as [[o r1]|]; simpl; [|done]. intros [= <- <- <- <-].
  split; [done|]. split; [intros _|done]. split; [apply bound_clear|]. split.
  - intros l (l0 & -> & Hl)%list_elem_of_fmap. apply emit_bound. apply elem_of_app in Hl as [Hl|Hl].
    + destruct x as [x|]; [|by apply elem_of_nil in Hl]. apply list_elem_of_singleton in Hl as ->. by apply Hx.
    + destruct o as [st|t]; [|by apply elem_of_nil in Hl]. by apply list_elem_of_singleton in Hl as ->.
  - exists (emit (bind_run_context job_id source_id ctx) <$> x). split.
    + rewrite fmap_app. f_equal; [by destruct x|by destruct o].
    + intros l Hl. destruct x as [l0|]; [|done]. injection Hl as <-. destruct (Hx l0 eq_refl) as (_ & [->|[[e ->]|[t ->]]]); simpl; set_solver.
Qed.
End jobs.

Definition log_sample (r : runner MemoryDb) :=
  run_feed_logged true succeeding (λ _, Ok tt) (λ _, "") sample_eps sample_clock [("feed", sample_source)] "feed" 7
    "corr" "job-1" r ([("source_id", PyStr "earlier")] : fields).

(** A run that succeeds, and one whose source has no row, which is logged. *)
Lemma job_log_context_witness :
  ∃ r' lines ctx', log_sample sample_runner = Some (inl "SUCCESS", r', (lines, ctx')) ∧
    bound ctx' "source_id" = None ∧ l_event <$> lines = ["run.complete"] ∧
    (∀ l, l ∈ lines → dget (l_fields l) "run_id" = Some (PyStr "job-1")).
Proof.
  assert (∃ r' lines ctx', log_sample sample_runner = Some (inl "SUCCESS", r', (lines, ctx')) ∧
            l_event <$> lines = ["run.complete"]) as (r' & lines & ctx' & H & He)
    by (do 3 eexists; split; [vm_compute; reflexivity|reflexivity]).
  exists r', lines, ctx'. split; [done|].
  destruct (job_log_context true succeeding (λ _, Ok tt) (λ _, "") sample_eps sample_clock [("feed", sample_source)]
              "feed" 7 "corr" "job-1" sample_runner [("source_id", PyStr "earlier")] _ _ _ _ H) as (_ & Hk & _).
  destruct (Hk eq_refl) as (Hc & Hl & _). split; [apply Hc|]. split; [done|]. intros l Hin. by apply Hl.
Defined.

(** ** Tracing *)

(** What [configure] sets up: a provider of the service with one exporter. *)
Record tracer_provider := MkProvider { tp_service_name : string; tp_endpoint : string }.

Section tracing.
Context {P : Type} (set_tracer_provider : tracer_provider → P → P).
Context (exporter : string → res unit).      (* the import of the exporter and its constructor *)

(** [configure(service_name, endpoint)]. *)
Definition configure_tracing (service_name : string) (endpoint : option string) (p : P) : res unit * P :=
  match endpoint with
  | None => (Ok tt, p)
  | Some endpoint =>
      match exporter endpoint with
      | Raise e => (Raise e, p)
      | Ok _ => (Ok tt, set_tracer_provider (MkProvider service_name endpoint) p)
      end
  end.
End tracing.
