(* ===== verification/Worker.v ===== *)
(** [manager/worker.py] and [manager/scheduler.py]: the processes that run
    feeds, and the jobs that the scheduler keeps. *)

From Stdlib Require Import QArith.
From S2P Require Import Prelude Errors PyStr PyStrFacts PyDict PyVal Enums Secrets Config Models.
From S2P Require Import Pipeline Breaker Registry Retry Concurrency Rows State Builder Runner.
#[local] Open Scope string_scope.
#[local] Open Scope list_scope.

(** ** The worker *)

(** What [startup] puts into the context of the jobs. *)
Record worker_ctx (D : Type) := MkWorkerCtx { w_registry : sources; w_runner : runner D }.
Arguments MkWorkerCtx {D}.
Arguments w_registry {D}.
Arguments w_runner {D}.

Section worker.
Context {D : Type} `{!Database D} `{!Retrying}.
Context (safe_load : string → res pyval) (model_validate : pyval → res (list SourceConfig)).
Context (h : host).

(** [SourceRegistry(settings.runtime.sources_file).load()]. *)
Definition load_registry (settings : Settings) : res sources :=
  let '(loaded, registry) := Registry.load safe_load model_validate h
                               (read_text h (sources_file (runtime settings))) [] in
  _ ← loaded; Ok registry.

(** A new [FeedRunner] over the database that [init_engine] connects to. *)
Definition new_runner (settings : Settings) (d : D) : res (runner D) :=
  g ← new_GlobalConcurrency (global_concurrency (runtime settings));
  Ok (MkRunner [] [] g d []).

(** [startup(ctx)]: the sources file is read once. *)
Definition startup (settings : Settings) (d : D) : res (worker_ctx D) :=
  registry ← load_registry settings; r ← new_runner settings d; Ok (MkWorkerCtx registry r).

(** [int(os.environ.get(name, fallback))] and [os.environ.get]. *)
Definition env_get (name fallback : string) : string := default fallback (dget (environ h) name).

Record WorkerSettings := MkWorkerSettings {
  ws_redis_url : string; ws_queue_name : string; ws_max_jobs : Z; ws_job_timeout : Z;
  ws_keep_result : Z }.

Definition worker_settings : res WorkerSettings :=
  jobs ← int_of_str (env_get "CTI_WORKER_MAX_JOBS" "10");
  timeout ← int_of_str (env_get "CTI_WORKER_JOB_TIMEOUT" "1800");
  Ok (MkWorkerSettings (env_get "CTI_REDIS_URL" "redis://redis:6379/0")
        (env_get "CTI_RUN_ARQ_QUEUE" "cti:queue") jobs timeout 3600).
End worker.

(** ** The scheduler *)

Definition sync_dsn (dsn : string) : string :=
  replace (replace dsn "+asyncpg" "+psycopg2") "postgresql+psycopg2" "postgresql".

(** A job of the scheduler. *)
Record job := MkJob {
  j_schedule : string; j_source : SourceConfig; j_queue : string; j_max_instances : Z;
  j_coalesce : bool; j_misfire_grace_time : Z }.

(** The persistent job store: what the code relies on is that a job replaces
    the one of its identifier and that every other job stays. *)
Class JobStore (S : Type) := {
  stored : S → string → option job;
  add_job : string → job → S → S;
  stored_add id j s id' : stored (add_job id j s) id' = if decide (id = id') then Some j else stored s id'
}.

#[export] Program Instance dict_store : JobStore (list (string * job)) := {|
  stored := dget;
  add_job id j s := dset s id j
|}.
Next Obligation. intros. apply dget_dset. Qed.

Section scheduler.
Context {S : Type} `{!JobStore S}.
Context (from_crontab : string → res unit).       (* the parser of cron expressions *)

Definition job_id (source : SourceConfig) : string := "feed:" +:+ sc_id source.

Definition job_of (source : SourceConfig) (queue : string) : job :=
  MkJob (sc_schedule source) source queue 1 true 300.

(** The loop of [main] over the enabled sources. *)
Fixpoint add_jobs (l : list SourceConfig) (queue : string) (s : S) : res S :=
  match l with
  | [] => Ok s
  | source :: l =>
      _ ← from_crontab (sc_schedule source);
      add_jobs l queue (add_job (job_id source) (job_of source queue) s)
  end.

Definition schedule (registry : sources) (queue : string) (s : S) : res S :=
  add_jobs (enabled registry) queue s.

(** [_enqueue]: the job that fires, the delay it waits and what it puts on the
    queue; [uniform] is the random number. *)
Definition enqueue (uniform : Z → Q) (j : job) : Q * (string * string * string) :=
  ((if (0 <? sc_jitter_seconds (j_source j))%Z then uniform (sc_jitter_seconds (j_source j)) else 0)%Q,
   ("run_feed", sc_id (j_source j), j_queue j)).

(** ** Facts *)

Lemma job_id_inj s s' : job_id s = job_id s' ↔ sc_id s = sc_id s'.
Proof. unfold job_id. split; [|by intros ->]. by intros [= ->]. Qed.

Lemma add_jobs_stored queue l : ∀ s s' id,
  NoDup (sc_id <$> l) → add_jobs l queue s = Ok s' →
  (∀ source, source ∈ l → stored s' (job_id source) = Some (job_of source queue)) ∧
  ((∀ source, source ∈ l → job_id source ≠ id) → stored s' id = stored s id).
Proof.
  induction l as [|source l IH]; intros s s' id Hnd H; simpl in H.
  - injection H as <-. split; [set_solver|done].
  - destruct (from_crontab _) as [u|e]; simpl in H; [|done].
    apply NoDup_cons in Hnd as [Hn Hnd]. split.
    + intros x [->|Hx]%elem_of_cons; [|by eapply IH].
      destruct (IH _ _ (job_id source) Hnd H) as [_ Hkeep]. rewrite Hkeep.
      * rewrite stored_add. by case_decide.
      * intros y Hy Heq. apply Hn. apply job_id_inj in Heq. rewrite <- Heq.
        by apply list_elem_of_fmap_2.
    + intros Hid. destruct (IH _ _ id Hnd H) as [_ Hkeep]. rewrite Hkeep by set_solver.
      rewrite stored_add. case_decide as Heq; [|done]. exfalso. apply (Hid source); [set_solver|done].
Qed.

(** The jobs after the scheduler has started.  Every enabled source has its
    job, with its own schedule, and only under its own identifier; but the jobs
    that the persistent store kept from an earlier start stay: a source that has
    been disabled or removed since then is still enqueued. *)
Theorem scheduled_jobs registry queue s s' :
  NoDup (dkeys registry) → (∀ k source, (k, source) ∈ registry → sc_id source = k) →
  schedule registry queue s = Ok s' →
  (∀ source, source ∈ enabled registry → stored s' (job_id source) = Some (job_of source queue)) ∧
  (∀ id, (∀ source, source ∈ enabled registry → job_id source ≠ id) → stored s' id = stored s id).
Proof.
  intros Hnd Hkey H.
  assert (sc_id <$> dvalues registry = dkeys registry) as Hids.
  { clear Hnd H. induction registry as [|[k source] r IH]; [done|]. simpl.
    rewrite (Hkey k source) by set_solver. f_equal. apply IH. intros. apply Hkey. set_solver. }
  assert (NoDup (sc_id <$> enabled registry)) as Hnd'.
  { unfold enabled. rewrite <- Hids in Hnd. revert Hnd. generalize (dvalues registry). intros l.
    induction l as [|x l IH]; [done|]. simpl. intros [Hx Hl]%NoDup_cons.
    rewrite filter_cons. case_decide; [|by apply IH]. apply NoDup_cons. split; [|by apply IH].
    intros (y & Hy & Hin)%list_elem_of_fmap. apply list_elem_of_filter in Hin as [_ Hin].
    apply Hx. rewrite Hy. by apply list_elem_of_fmap_2. }
  split.
  - intros source Hs. by eapply add_jobs_stored.
  - intros id Hid. by eapply (add_jobs_stored _ _ _ _ id Hnd' H).
Qed.
End scheduler.

Lemma scheduled_jobs_witness :
  let a := default_SourceConfig "a" "http" "json" in
  let gone := job_of (default_SourceConfig "b" "http" "json") "cti:queue" in
  ∃ s', schedule (λ _, Ok tt) [("a", a)] "cti:queue" [("feed:b", gone)] = Ok s' ∧
    stored s' "feed:a" = Some (job_of a "cti:queue") ∧ stored s' "feed:b" = Some gone.
Proof.
  intros a gone. eexists. split; [reflexivity|].
  destruct (scheduled_jobs (λ _, Ok tt) [("a", a)] "cti:queue" [("feed:b", gone)]
              [("feed:b", gone); ("feed:a", job_of a "cti:queue")]) as [Ha Hb].
  - repeat constructor. set_solver.
  - intros k source H. apply list_elem_of_singleton in H. by injection H as -> ->.
  - reflexivity.
  - split; [apply (Ha a); vm_compute; constructor|]. rewrite Hb; [reflexivity|].
    intros source Hs. vm_compute in Hs. apply list_elem_of_singleton in Hs. by subst.
Defined.
