(* ===== verification/Repositories.v ===== *)
(** [persistence/repositories.py] and [plugins/publishers/postgres.py]: the
    statements of the repositories, and the canonical publisher. *)

From stdpp Require Import sorting.
From S2P Require Import Prelude Errors PyStr PyDict PyVal Enums Models Rows.

(** The rows of a table. *)
Definition rows_of {K A} `{Countable K} (m : gmap K A) : list A := snd <$> map_to_list m.

Section repositories.
Context {D : Type} `{!Database D}.

(** ** Indicators *)

(** The rows that [upsert_batch] builds. *)
Definition ind_row (ind : Indicator) : IndicatorRow :=
  MkIndicatorRow (ind_id ind) (value (ind_type ind)) (ind_value ind) (pattern ind)
    (confidence ind) (value (severity ind)) (value (tlp ind)) (tags ind) (first_seen_by_us ind)
    (last_seen_by_us ind) (valid_from ind) (valid_until ind) (schema_version ind).

Definition obs_row (obs : Observation) : IndicatorObservationRow :=
  MkObservationRow (obs_indicator_id obs) (obs_source_id obs) (feed_run_id obs) (observed_at obs)
    (value (obs_tlp obs)) (obs_confidence obs) (obs_raw obs) (obs_schema_version obs).

(** [ON CONFLICT (id) DO UPDATE]: the columns that change. *)
Definition on_conflict (old new : IndicatorRow) : IndicatorRow :=
  MkIndicatorRow (ir_id old) (ir_type old) (ir_value old) (ir_pattern old)
    (Z.max (ir_confidence old) (ir_confidence new)) (ir_severity old) (ir_tlp old) (ir_tags new)
    (ir_first_seen_by_us old) (Z.max (ir_last_seen_by_us old) (ir_last_seen_by_us new))
    (ir_valid_from old) (ir_valid_until old) (ir_schema_version old).

Definition upsert_row (m : gmap N IndicatorRow) (new : IndicatorRow) : gmap N IndicatorRow :=
  <[ir_id new := match m !! ir_id new with Some old => on_conflict old new | None => new end]> m.

(** The constraint [uq_indicators_type_value] of the schema: no two rows have
    one type and value.  It is not the conflict that the statement handles. *)
Definition uq_indicators_type_value (m : gmap N IndicatorRow) : Prop :=
  NoDup ((λ r, (ir_type r, ir_value r)) <$> rows_of m).
#[global] Instance uq_indicators_dec m : Decision (uq_indicators_type_value m).
Proof. unfold uq_indicators_type_value. apply _. Defined.

(** The insert of several rows: one command may not affect a row twice, and
    the constraint holds in what it leaves. *)
Definition upsert_rows (rows : list IndicatorRow) (t : db_tables) : res db_tables :=
  if decide (NoDup (ir_id <$> rows)) then
    let m := fold_left upsert_row rows (t_indicators t) in
    if decide (uq_indicators_type_value m)
    then Ok (with_indicators (λ _, m) t)
    else raise DatabaseError "duplicate key value violates unique constraint uq_indicators_type_value"
  else raise DatabaseError "ON CONFLICT DO UPDATE command cannot affect row a second time".

Definition insert_observations (rows : list IndicatorObservationRow) (t : db_tables) : res db_tables :=
  Ok (with_observations (λ l, l ++ rows) t).

(** [IndicatorRepo.upsert_batch]; an observation always has its instant. *)
Definition upsert_batch (batch : list (Indicator * Observation)) : Sess D Z :=
  match batch with
  | [] => mret 0%Z
  | _ =>
      _ ← s_write (upsert_rows (ind_row ∘ fst <$> batch));
      _ ← s_write (insert_observations (obs_row ∘ snd <$> batch));
      mret (Z.of_nat (length batch))
  end.

(** [PostgresPublisher.publish]. *)
Definition postgres_publish (initialized : bool) (batch : list (Indicator * Observation)) (d : D)
    : res unit * D :=
  match batch with
  | [] => (Ok tt, d)
  | _ => db_session initialized (n ← upsert_batch batch; _ ← s_commit; mret tt) d
  end.

(** ** Queries *)

(** [ORDER BY key DESC LIMIT limit]. *)
Definition later_first {A} (key : A → Z) (x y : A) : Prop := (key y <= key x)%Z.
#[global] Instance later_first_dec {A} (key : A → Z) : RelDecision (later_first key).
Proof. intros x y. unfold later_first. apply _. Defined.

Definition newest {A} (key : A → Z) (limit : Z) (l : list A) : res (list A) :=
  if (limit <? 0)%Z then raise DatabaseError "LIMIT must not be negative"
  else Ok (take (Z.to_nat limit) (merge_sort (later_first key) l)).

(** An optional filter: absent and empty text do not filter. *)
Definition matches (wanted : option string) (field : string) : bool :=
  match wanted with
  | None => true
  | Some s => String.eqb s "" || String.eqb field s
  end.

(** [FeedRunRepo]. *)
Definition run_get (run_id : N) : Sess D (option FeedRunRow) := s_read (λ t, t_feed_runs t !! run_id).

Definition recent_rows (source_id : option string) (limit : Z) (t : db_tables) : res (list FeedRunRow) :=
  newest run_started_at limit
    (filter (λ r, matches source_id (run_source_id r) = true) (rows_of (t_feed_runs t))).

Definition s_query {A} (f : db_tables → res A) : Sess D A :=
  r ← s_read f; ((λ s, (r, s)) : Sess D A).

Definition recent (source_id : option string) (limit : Z) : Sess D (list FeedRunRow) :=
  s_query (recent_rows source_id limit).

(** [SourceRepo]. *)
Definition upsert_source_row (source_id : string) (name : option string) (plugin config_hash : string)
    (enabled : bool) (now : Z) (t : db_tables) : res db_tables :=
  let row := match t_sources t !! source_id with
             | None => MkSourceRow source_id name plugin config_hash enabled (Some []) None None None
                         now now
             | Some r => MkSourceRow (src_id r) name plugin config_hash enabled (src_watermark r)
                           (src_last_etag r) (src_last_modified r) (src_last_seen_id r)
                           (src_created_at r) now
             end in
  Ok (with_sources (<[source_id := row]>) t).

Definition source_upsert (source_id : string) (name : option string) (plugin config_hash : string)
    (enabled : bool) (now : Z) : Sess D SourceRow :=
  _ ← s_write (upsert_source_row source_id name plugin config_hash enabled now);
  r ← s_read (λ t, t_sources t !! source_id);
  match r with Some row => mret row | None => s_raise AssertionError "" end.

(** [ORDER BY id], in the database's order of text. *)
Definition by_id (text_le : string → string → bool) (x y : SourceRow) : Prop :=
  text_le (src_id x) (src_id y) = true.
#[global] Instance by_id_dec text_le : RelDecision (by_id text_le).
Proof. intros x y. unfold by_id. apply _. Defined.

Definition source_rows (text_le : string → string → bool) (t : db_tables) : list SourceRow :=
  merge_sort (by_id text_le) (rows_of (t_sources t)).
Definition source_list (text_le : string → string → bool) : Sess D (list SourceRow) :=
  s_read (source_rows text_le).

(** [DeadLetterRepo]. *)
Definition dead_letter_rows (source_id : option string) (unreplayed_only : bool) (limit : Z)
    (t : db_tables) : res (list DeadLetterRow) :=
  newest dl_created_at limit
    (filter (λ r, matches source_id (dl_source_id r)
                  && (negb unreplayed_only || bool_decide (dl_replayed_at r = None)) = true)
       (t_dead_letters t)).

Definition dead_letter_list (source_id : option string) (unreplayed_only : bool) (limit : Z)
    : Sess D (list DeadLetterRow) := s_query (dead_letter_rows source_id unreplayed_only limit).

Definition set_replayed (now : Z) (r : DeadLetterRow) : DeadLetterRow :=
  MkDeadLetterRow (dl_id r) (dl_feed_run_id r) (dl_source_id r) (dl_payload_sha r)
    (dl_error_class r) (dl_error_msg r) (dl_traceback r) (dl_reason r) (dl_created_at r) (Some now).

(** [mark_replayed(dlq_id)]: a missing row is no error. *)
Definition mark_replayed (dlq_id : Z) (now : Z) : Sess D unit :=
  s_write (λ t, Ok (with_dead_letters
    (map (λ r, if (dl_id r =? dlq_id)%Z then set_replayed now r else r)) t)).

(** [IndicatorLookupRepo]. *)
Definition lookup_rows (ind_type value : option string) (limit : Z) (t : db_tables)
    : res (list IndicatorRow) :=
  newest ir_last_seen_by_us limit
    (filter (λ r, matches ind_type (ir_type r) && matches value (ir_value r) = true)
       (rows_of (t_indicators t))).

Definition lookup (ind_type value : option string) (limit : Z) : Sess D (list IndicatorRow) :=
  s_query (lookup_rows ind_type value limit).

Definition indicator_get (id : N) : Sess D (option IndicatorRow) := s_read (λ t, t_indicators t !! id).

(** ** Facts: sorting *)

Lemma newest_spec {A} (key : A → Z) limit l r :
  newest key limit l = Ok r →
  (0 <= limit)%Z ∧ Sorted (later_first key) r ∧ Z.of_nat (length r) = Z.min limit (Z.of_nat (length l)) ∧
  ∃ rest, r ++ rest ≡ₚ l ∧ ∀ x y, x ∈ r → y ∈ rest → (key y <= key x)%Z.
Proof.
  unfold newest. destruct (Z.ltb_spec limit 0); [done|]. intros [= <-]. split; [done|].
  assert (Transitive (later_first key)) as Ht by (intros x y z; unfold later_first; lia).
  assert (Total (later_first key)) as Htot by (intros x y; unfold later_first; lia).
  pose proof (merge_sort_Permutation (later_first key) l) as Hp.
  pose proof (StronglySorted_merge_sort (later_first key) l) as Hs.
  set (k := merge_sort _ l) in *.
  rewrite <- (take_drop (Z.to_nat limit) k) in Hs, Hp.
  apply StronglySorted_app in Hs as (Hle & Hs1 & _). split; [by apply StronglySorted_Sorted|].
  split.
  - rewrite length_take. rewrite <- (Permutation_length Hp), length_app, length_take, length_drop. lia.
  - exists (drop (Z.to_nat limit) k). split; [done|]. intros x y Hx Hy. by apply Hle.
Qed.

(** ** Facts: upserts *)

Lemma upsert_rows_lookup rows m id :
  NoDup (ir_id <$> rows) →
  fold_left upsert_row rows m !! id
  = match find (λ r, bool_decide (ir_id r = id)) rows with
    | Some new => Some match m !! id with Some old => on_conflict old new | None => new end
    | None => m !! id
    end.
Proof.
  revert m. induction rows as [|r rows IH]; intros m; [done|]. simpl.
  intros [Hr Hnd]%NoDup_cons. rewrite IH by done. case_bool_decide as Hid.
  - subst id. replace (find _ rows) with (@None IndicatorRow).
    + unfold upsert_row. by rewrite lookup_insert_eq.
    + symmetry. destruct (find _ rows) as [x|] eqn:E; [|done].
      apply find_some in E as [Hx Hxe]. apply bool_decide_eq_true in Hxe. destruct Hr.
      apply list_elem_of_fmap. exists x. split; [done|]. by apply list_elem_of_In.
  - unfold upsert_row. rewrite lookup_insert_ne by done. done.
Qed.

(** ** Facts: the constraint *)

Lemma NoDup_fmap_eq {A B} (f : A → B) l x y :
  NoDup (f <$> l) → x ∈ l → y ∈ l → f x = f y → x = y.
Proof.
  induction l as [|a l IH]; [set_solver|]. simpl. intros [Ha Hnd]%NoDup_cons Hx Hy Hf.
  apply elem_of_cons in Hx as [->|Hx]; apply elem_of_cons in Hy as [->|Hy]; [done| | |by apply IH];
    destruct Ha; apply list_elem_of_fmap; [exists y|exists x]; done.
Qed.

Lemma uq_same_key m i j r s :
  uq_indicators_type_value m → m !! i = Some r → m !! j = Some s →
  ir_type r = ir_type s → ir_value r = ir_value s → i = j.
Proof.
  unfold uq_indicators_type_value, rows_of. rewrite <- list_fmap_compose.
  intros Hnd Hi%elem_of_map_to_list Hj%elem_of_map_to_list Ht Hv.
  assert ((i, r) = (j, s)) as [= -> _]; [|done].
  eapply NoDup_fmap_eq; [exact Hnd|done|done|]. simpl. by rewrite Ht, Hv.
Qed.
End repositories.
