(* ===== verification/PostgresFacts.v ===== *)
(** The guarantees of the canonical publisher and of the queries. *)

From stdpp Require Import sorting.
From S2P Require Import Prelude Errors PyStr PyDict PyVal Enums Hashing HashingFacts Models Effects.
From S2P Require Import Normalize Stages StageFacts Queue Network NetworkFacts Completion Pipeline.
From S2P Require Import PipelineFacts PipelineRuns Rows.
From S2P Require Import Repositories.

(** ** Publishing *)

Section publish.
Context {D : Type} {HD : Database D}.

(** A session whose result is not used. *)
Lemma session_discard {A} initialized (m : Sess D A) d :
  db_session initialized (a ← (n ← m; mret tt); _ ← s_commit; mret a) d
  = db_session initialized (n ← m; _ ← s_commit; mret tt) d.
Proof.
  unfold db_session. destruct initialized; simpl; [|done].
  unfold mbind, Sess_bind. destruct (m (MkSession d d)) as [[n|e] s1]; simpl; [|done].
  by destruct (s_commit s1) as [[[]|e] s2].
Qed.

(** What a batch makes of the row of an indicator. *)
Definition merged (rows : list IndicatorRow) (m : gmap N IndicatorRow) (id : N) : option IndicatorRow :=
  match find (λ r, bool_decide (ir_id r = id)) rows with
  | Some new => Some match m !! id with Some old => on_conflict old new | None => new end
  | None => m !! id
  end.

Lemma keeps_upsert (batch : list (Indicator * Observation)) : keeps_committed (upsert_batch batch).
Proof.
  unfold upsert_batch. destruct batch as [|p l]; [apply keeps_ret|].
  apply keeps_bind; [apply keeps_write|]. intros _.
  apply keeps_bind; [apply keeps_write|]. intros _. apply keeps_ret.
Qed.

Lemma upsert_batch_Ok batch s n s' :
  upsert_batch batch s = (Ok n, s') → batch ≠ [] →
  NoDup (ir_id <$> (ind_row ∘ fst <$> batch)) ∧
  uq_indicators_type_value (t_indicators (tables (working s'))) ∧
  tables (working s')
  = with_observations (λ l, l ++ (obs_row ∘ snd <$> batch))
      (with_indicators (λ _, fold_left upsert_row (ind_row ∘ fst <$> batch) (t_indicators (tables (working s)))) (tables (working s))).
Proof.
  intros H Hne. unfold upsert_batch in H. destruct batch as [|p l]; [done|].
  session_inv H. apply s_write_Ok in E as [Hi _]. apply s_write_Ok in E0 as [Ho _].
  injection H as <- <-. unfold upsert_rows in Hi. case_decide as Hnd; [|done].
  destruct (decide (uq_indicators_type_value _)) as [Huq|] in Hi; [|done].
  injection Hi as Hi. injection Ho as Ho. rewrite <- Ho, <- Hi. done.
Qed.

Lemma publish_cases initialized batch (d : D) r d' :
  batch ≠ [] → postgres_publish initialized batch d = (r, d') →
  match r with
  | Raise _ => d' = d
  | Ok _ => NoDup (ir_id <$> (ind_row ∘ fst <$> batch)) ∧
            tables d'
            = with_observations (λ l, l ++ (obs_row ∘ snd <$> batch))
                (with_indicators (λ _, fold_left upsert_row (ind_row ∘ fst <$> batch) (t_indicators (tables d))) (tables d)) ∧
            uq_indicators_type_value (t_indicators (tables d'))
  end.
Proof.
  intros Hne H. unfold postgres_publish in H. destruct batch as [|p l]; [done|].
  assert (db_session initialized
            (a ← (n ← upsert_batch (p :: l); mret tt); _ ← s_commit; mret a) d = (r, d')) as H'.
  { rewrite <- H. apply session_discard. }
  apply session_atomic in H'.
  2:{ apply keeps_bind; [apply keeps_upsert|intros; apply keeps_ret]. }
  destruct r as [u|e]; [|done]. destruct H' as (_ & s & Hm & Ht).
  apply s_bind_Ok in Hm as (n & s1 & E & Hm). injection Hm as _ <-. apply upsert_batch_Ok in E as (Hnd & Huq & Hs); [|done].
  split; [done|]. split; [by rewrite Ht, Hs|by rewrite Ht].
Qed.

(** C25: the canonical publisher is one transaction.  A batch is either written
    whole or not at all.  When it is written, its identifiers were distinct, the
    row of each of its indicators is new or is the old one with the greater
    confidence, the later sighting and the new tags, every other row and every
    other table is untouched, and one observation per pair is appended in order. *)
Theorem postgres_publish_atomic initialized batch (d : D) r d' :
  batch ≠ [] → postgres_publish initialized batch d = (r, d') →
  match r with
  | Raise _ => d' = d
  | Ok _ =>
      NoDup (ind_id ∘ fst <$> batch) ∧
      (∀ id, t_indicators (tables d') !! id = merged (ind_row ∘ fst <$> batch) (t_indicators (tables d)) id) ∧
      t_observations (tables d') = t_observations (tables d) ++ (obs_row ∘ snd <$> batch) ∧
      t_sources (tables d') = t_sources (tables d) ∧ t_feed_runs (tables d') = t_feed_runs (tables d)
  end.
Proof.
  intros Hne H. apply publish_cases in H; [|done]. destruct r as [u|e]; [|done].
  destruct H as (Hnd & -> & _). simpl. split.
  { by rewrite <- list_fmap_compose in Hnd. }
  split; [|done]. intros id. by apply upsert_rows_lookup.
Qed.

(** A batch that repeats an indicator is refused.  Since nothing before the
    persist stage removes repetitions, a feed that lists an indicator twice
    within one batch cannot be stored: the statement fails, whatever the
    database holds. *)
Theorem repeated_indicator_refused initialized batch (d : D) :
  ¬ NoDup (ind_id ∘ fst <$> batch) →
  is_ok (postgres_publish initialized batch d).1 = false ∧ (postgres_publish initialized batch d).2 = d.
Proof.
  intros Hdup. destruct (postgres_publish initialized batch d) as [r d'] eqn:E.
  apply publish_cases in E; [|by intros ->; apply Hdup; constructor].
  destruct r as [u|e]; [|done]. destruct E as (Hnd & _). destruct Hdup.
  by rewrite <- list_fmap_compose in Hnd.
Qed.

(** Two identifiers for one type and value cannot be stored.  The table has a
    unique constraint on them that the statement does not handle, so a batch with
    an indicator whose type and value are stored under another identifier is
    refused as a whole. *)
Theorem identity_clash_refused initialized batch (d : D) p id row :
  p ∈ batch → t_indicators (tables d) !! id = Some row → id ≠ ind_id p.1 →
  t_indicators (tables d) !! ind_id p.1 = None →
  ir_type row = value (ind_type p.1) → ir_value row = ind_value p.1 →
  is_ok (postgres_publish initialized batch d).1 = false ∧ (postgres_publish initialized batch d).2 = d.
Proof.
  intros Hp Hid Hne Hnew Ht Hv. destruct (postgres_publish initialized batch d) as [r d'] eqn:E.
  apply publish_cases in E; [|intros ->; set_solver]. destruct r as [u|e]; [|done].
  destruct E as (Hnd & Htab & Huq). destruct Hne. rewrite Htab in Huq. simpl in Huq.
  assert (∃ r, fold_left upsert_row (ind_row ∘ fst <$> batch) (t_indicators (tables d)) !! id = Some r ∧
               ir_type r = ir_type row ∧ ir_value r = ir_value row) as (r & Hr & Hrt & Hrv).
  { rewrite upsert_rows_lookup, Hid by done. destruct (find _ _); eexists; done. }
  assert (find (λ r, bool_decide (ir_id r = ind_id p.1)) (ind_row ∘ fst <$> batch)
          = Some (ind_row p.1)) as Hf.
  { destruct (find _ _) as [x|] eqn:Ef.
    - apply find_some in Ef as [Hx Hxe]. apply bool_decide_eq_true in Hxe. f_equal.
      apply (NoDup_fmap_eq ir_id _ _ _ Hnd); [by apply list_elem_of_In| |done].
      apply list_elem_of_fmap. by exists p.
    - eapply find_none in Ef; [|apply list_elem_of_In, list_elem_of_fmap; by exists p].
      simpl in Ef. by rewrite bool_decide_eq_true_2 in Ef. }
  eapply (uq_same_key _ id (ind_id p.1) r (ind_row p.1)); [exact Huq|exact Hr| | |].
  - by rewrite upsert_rows_lookup, Hf, Hnew by done.
  - by rewrite Hrt, Ht.
  - by rewrite Hrv, Hv.
Qed.

Lemma on_conflict_idem old new : on_conflict (on_conflict old new) new = on_conflict old new.
Proof. unfold on_conflict. simpl. f_equal; lia. Qed.

Lemma on_conflict_self r : on_conflict r r = r.
Proof. unfold on_conflict. destruct r. simpl. f_equal; lia. Qed.

(** Storing again changes no indicator.  When a batch has been stored,
    storing it a second time, as a replay does, leaves the table of indicators
    as it is; only the observations are appended again. *)
Theorem republish_idempotent initialized batch (d d1 d2 : D) u1 u2 :
  batch ≠ [] → postgres_publish initialized batch d = (Ok u1, d1) →
  postgres_publish initialized batch d1 = (Ok u2, d2) →
  t_indicators (tables d2) = t_indicators (tables d1) ∧
  t_observations (tables d2) = t_observations (tables d1) ++ (obs_row ∘ snd <$> batch).
Proof.
  intros Hne H1 H2. apply publish_cases in H1 as (Hnd & Ht1 & _); [|done].
  apply publish_cases in H2 as (_ & Ht2 & _); [|done]. rewrite Ht2. split; [|done].
  simpl. rewrite Ht1. simpl. apply map_eq. intros id. rewrite !upsert_rows_lookup by done.
  destruct (find _ _) as [new|] eqn:E; [|done]. f_equal.
  destruct (t_indicators (tables d) !! id) as [old|]; [apply on_conflict_idem|apply on_conflict_self].
Qed.

(** The TLP of a stored indicator never changes.  A batch that brings an
    indicator already in the table leaves its TLP, severity and first sighting
    as they were, even if the new observation is more restricted. *)
Theorem stored_tlp_fixed initialized batch (d : D) u d' id old :
  batch ≠ [] → postgres_publish initialized batch d = (Ok u, d') →
  t_indicators (tables d) !! id = Some old →
  ∃ row, t_indicators (tables d') !! id = Some row ∧ ir_tlp row = ir_tlp old ∧
         ir_severity row = ir_severity old ∧ ir_first_seen_by_us row = ir_first_seen_by_us old ∧
         (ir_confidence old <= ir_confidence row)%Z.
Proof.
  intros Hne H Hold. apply publish_cases in H as (Hnd & Ht & _); [|done].
  rewrite Ht. simpl. rewrite upsert_rows_lookup by done. rewrite Hold.
  destruct (find _ _) as [new|]; eexists; (split; [done|]); simpl; repeat split; lia.
Qed.

(** The list of recent runs.  [recent] returns runs of the wanted source
    only, the newest first, as many as there are up to the limit, and none that
    it leaves out is newer than one it returns. *)
Theorem recent_runs source_id limit (d : D) l :
  recent_rows source_id limit (tables d) = Ok l →
  Sorted (λ x y, run_started_at y <= run_started_at x)%Z l ∧
  (Z.of_nat (length l) <= limit)%Z ∧
  (∀ r, r ∈ l → matches source_id (run_source_id r) = true ∧
                ∃ id, t_feed_runs (tables d) !! id = Some r) ∧
  (∀ id r, t_feed_runs (tables d) !! id = Some r → matches source_id (run_source_id r) = true →
     r ∈ l ∨ (Z.of_nat (length l) = limit ∧ ∀ x, x ∈ l → run_started_at r <= run_started_at x)%Z).
Proof.
  intros H. apply newest_spec in H as (Hlim & Hs & Hlen & rest & Hp & Hle).
  assert (∀ r, r ∈ l ∨ r ∈ rest ↔ matches source_id (run_source_id r) = true ∧
                ∃ id, t_feed_runs (tables d) !! id = Some r) as Hin.
  { intros r. rewrite <- elem_of_app, Hp, list_elem_of_filter. unfold rows_of.
    rewrite list_elem_of_fmap. split; intros [Hm Hr]; (split; [done|]).
    - destruct Hr as ([id x] & -> & Hx). apply elem_of_map_to_list in Hx. by exists id.
    - destruct Hr as (id & Hr). exists (id, r). split; [done|]. by apply elem_of_map_to_list. }
  split; [exact Hs|]. split; [lia|]. split.
  - intros r Hr. apply Hin. by left.
  - intros id r Hr Hm. destruct (proj2 (Hin r)) as [Hl|Hrest]; [eauto|by left|right].
    split; [|intros x Hx; by apply Hle].
    apply Permutation_length in Hp. rewrite length_app in Hp.
    assert (0 < length rest) as Hpos by (destruct rest; [set_solver|simpl; lia]). lia.
Qed.
End publish.

(** ** Concrete batches *)

Definition empty_tables : db_tables := MkTables ∅ ∅ ∅ [] [].
Definition empty_db : MemoryDb := MkMemoryDb empty_tables true.

Definition sample_indicator (id : N) (t : TLP) (seen : Z) : Indicator :=
  MkIndicator id IPV4 ("10.0.0." +:+ str_of_N id) None 50 INFO t [] seen seen None None "1".
Definition sample_pair (id : N) (t : TLP) (seen : Z) : Indicator * Observation :=
  (sample_indicator id t seen, MkObservation id "src" 1 seen t 50 [] "1").

Definition sample_batch : list (Indicator * Observation) := [sample_pair 1 AMBER 5; sample_pair 2 GREEN 5].
Definition after_batch : MemoryDb := (postgres_publish true sample_batch empty_db).2.

Lemma postgres_publish_atomic_witness :
  NoDup (ind_id ∘ fst <$> sample_batch) ∧
  t_observations (tables after_batch) = obs_row ∘ snd <$> sample_batch.
Proof.
  destruct (postgres_publish_atomic true sample_batch empty_db (Ok tt) after_batch)
    as (Hnd & _ & Ho & _).
  - discriminate.
  - vm_compute. reflexivity.
  - split; [exact Hnd|exact Ho].
Defined.

Lemma repeated_indicator_refused_witness :
  is_ok (postgres_publish true [sample_pair 1 AMBER 5; sample_pair 1 AMBER 6] empty_db).1 = false.
Proof.
  apply (repeated_indicator_refused true [sample_pair 1 AMBER 5; sample_pair 1 AMBER 6] empty_db).
  intros H. inversion H as [|x l Hx Hl]. apply Hx. simpl. constructor.
Defined.

Lemma republish_idempotent_witness :
  t_indicators (tables (postgres_publish true sample_batch after_batch).2)
  = t_indicators (tables after_batch).
Proof.
  apply (republish_idempotent true sample_batch empty_db after_batch
           (postgres_publish true sample_batch after_batch).2 tt tt).
  - discriminate.
  - vm_compute. reflexivity.
  - vm_compute. reflexivity.
Defined.

Lemma stored_tlp_fixed_witness :
  ∃ row, t_indicators (tables (postgres_publish true [sample_pair 1 RED 9] after_batch).2) !! 1%N
         = Some row ∧ ir_tlp row = "AMBER".
Proof.
  destruct (stored_tlp_fixed true [sample_pair 1 RED 9] after_batch tt
              (postgres_publish true [sample_pair 1 RED 9] after_batch).2 1
              (ind_row (sample_indicator 1 AMBER 5))) as (row & Hrow & Htlp & _).
  - discriminate.
  - vm_compute. reflexivity.
  - vm_compute. reflexivity.
  - exists row. split; [exact Hrow|exact Htlp].
Defined.

Definition run_row (id : N) (source : string) (at_ : Z) : FeedRunRow :=
  MkFeedRunRow id source "SUCCESS" at_ None 0 0 0 0 0 None None None.
Definition three_runs : MemoryDb :=
  MkMemoryDb (with_feed_runs (λ _, list_to_map [(1%N, run_row 1 "a" 10); (2%N, run_row 2 "b" 20);
                                               (3%N, run_row 3 "a" 30)]) empty_tables) true.

Lemma recent_runs_witness :
  ∃ l, recent_rows (Some "a") 1 (tables three_runs) = Ok l ∧ run_row_id <$> l = [3%N] ∧
       (Z.of_nat (length l) <= 1)%Z.
Proof.
  eexists. split; [vm_compute; reflexivity|]. split; [reflexivity|].
  apply (recent_runs (Some "a") 1 three_runs). vm_compute. reflexivity.
Defined.
