(* ===== verification/Aggregate.v ===== *)
(** What the tables hold after any number of batches: the rows of the indicators as
    an aggregation of their sightings, and what of it depends on how the sightings
    were divided into batches and on the order they came in. *)

From S2P Require Import Prelude Errors PyStr PyDict PyVal Enums Models Effects Rows.
From S2P Require Import State Builder Runner RunnerFacts Repositories PostgresFacts.

(** ** The reference: an aggregation *)

(** The greatest value of a column in [r :: l]. *)
Definition greatest (f : IndicatorRow → Z) (r : IndicatorRow) (l : list IndicatorRow) : Z :=
  foldr (λ x, Z.max (f x)) (f r) l.

(** The row that a list of sightings makes: what the first one said, the greatest
    confidence, the latest sighting, and the tags of the last one. *)
Definition aggregate (l : list IndicatorRow) : option IndicatorRow :=
  match l with
  | [] => None
  | r :: rest =>
      Some (MkIndicatorRow (ir_id r) (ir_type r) (ir_value r) (ir_pattern r)
              (greatest ir_confidence r rest) (ir_severity r) (ir_tlp r) (ir_tags (default r (last rest)))
              (ir_first_seen_by_us r) (greatest ir_last_seen_by_us r rest)
              (ir_valid_from r) (ir_valid_until r) (ir_schema_version r))
  end.

Lemma greatest_snoc f r l x : greatest f r (l ++ [x]) = Z.max (greatest f r l) (f x).
Proof. unfold greatest. induction l as [|y l IH]; simpl in *; lia. Qed.

(** One more sighting: the update of [ON CONFLICT], or the first row. *)
Definition sight (o : option IndicatorRow) (new : IndicatorRow) : option IndicatorRow :=
  Some match o with Some old => on_conflict old new | None => new end.

Lemma aggregate_snoc l x : aggregate (l ++ [x]) = sight (aggregate l) x.
Proof.
  destruct l as [|r l]; simpl; [by destruct x|]. unfold sight, on_conflict. simpl.
  by rewrite !greatest_snoc, last_snoc.
Qed.

Lemma aggregate_app l k : aggregate (l ++ k) = fold_left sight k (aggregate l).
Proof.
  revert l. induction k as [|x k IH]; intros l; simpl; [by rewrite app_nil_r|].
  rewrite <- aggregate_snoc, <- IH, <- app_assoc. done.
Qed.

Lemma aggregate_stored o : aggregate (option_list o) = o.
Proof. destruct o as [r|]; [|done]. by destruct r. Qed.

(** ** Batches *)

(** The rows that the pairs bring for an indicator, in order. *)
Definition sightings (id : N) (pairs : list pair) : list IndicatorRow :=
  filter (λ r, ir_id r = id) (ind_row ∘ fst <$> pairs).

Lemma sightings_app id l k : sightings id (l ++ k) = sightings id l ++ sightings id k.
Proof. unfold sightings. by rewrite fmap_app, filter_app. Qed.

Lemma upsert_rows_sight rows m id :
  fold_left upsert_row rows m !! id = fold_left sight (filter (λ r, ir_id r = id) rows) (m !! id).
Proof.
  revert m. induction rows as [|r rows IH]; intros m; [done|]. simpl. rewrite IH, filter_cons.
  unfold upsert_row. case_decide as Hid; simpl.
  - subst id. by rewrite lookup_insert_eq.
  - by rewrite lookup_insert_ne.
Qed.

Section stored.
Context {D : Type} `{!Database D}.

(** The canonical publisher accepted these batches, one after another. *)
Inductive stored : D → list (list pair) → D → Prop :=
  | stored_nil d : stored d [] d
  | stored_cons b bs d d1 d' :
      postgres_publish true b d = (Ok tt, d1) → stored d1 bs d' → stored d (b :: bs) d'.

Lemma stored_app d bs d1 bs' d2 : stored d bs d1 → stored d1 bs' d2 → stored d (bs ++ bs') d2.
Proof. induction 1 as [|b bs d d0 d1 Hp _ IH]; [done|]. intros H. econstructor; [exact Hp|by apply IH]. Qed.

(** One batch, the empty one included. *)
Lemma publish_tables b d d1 :
  postgres_publish true b d = (Ok tt, d1) →
  tables d1 = with_observations (λ l, l ++ (obs_row ∘ snd <$> b))
                (with_indicators (λ m, fold_left upsert_row (ind_row ∘ fst <$> b) m) (tables d)).
Proof.
  destruct b as [|p b].
  - intros [= <-]. unfold with_observations, with_indicators. simpl. rewrite app_nil_r. by destruct (tables d).
  - intros H. by apply publish_cases in H as (_ & -> & _).
Qed.

Lemma stored_tables d bs d' : stored d bs d' →
  (∀ id, t_indicators (tables d') !! id
         = aggregate (option_list (t_indicators (tables d) !! id) ++ sightings id (concat bs))) ∧
  t_observations (tables d') = t_observations (tables d) ++ (obs_row ∘ snd <$> concat bs) ∧
  managed_of (tables d') = managed_of (tables d).
Proof.
  induction 1 as [d|b bs d d1 d' Hp%publish_tables _ (Hi & Ho & Hm)]; simpl.
  - split; [|by rewrite app_nil_r]. intros id. by rewrite app_nil_r, aggregate_stored.
  - rewrite Ho, Hm, Hp. simpl. split; [|split; [|done]].
    + intros id. rewrite Hi, Hp. simpl. rewrite sightings_app, app_assoc.
      rewrite (aggregate_app (option_list _) (sightings id (concat bs))), (aggregate_app (_ ++ _)). f_equal.
      rewrite aggregate_app, !aggregate_stored. apply upsert_rows_sight.
    + by rewrite fmap_app, app_assoc.
Qed.

(** C6: publishing is an aggregation.  Whatever batches the canonical publisher
    accepts, one after another, the row of every indicator is the aggregation of
    what was stored and of all its sightings: the first one fixes the value, the
    marking, the severity and the validity, the confidence is the greatest, the
    last sighting is the latest and the tags are the last ones; the observations
    are those of the pairs, in order.  How the pairs are divided into batches has
    no effect: two divisions that are accepted leave the same tables. *)
Theorem stored_aggregates d bs d' :
  stored d bs d' →
  (∀ id, t_indicators (tables d') !! id
         = aggregate (option_list (t_indicators (tables d) !! id) ++ sightings id (concat bs))) ∧
  t_observations (tables d') = t_observations (tables d) ++ (obs_row ∘ snd <$> concat bs) ∧
  (∀ bs' d2, stored d bs' d2 → concat bs' = concat bs → tables d2 = tables d').
Proof.
  intros H. destruct (stored_tables _ _ _ H) as (Hi & Ho & Hm). split; [done|]. split; [done|].
  intros bs' d2 H2 Hc. destruct (stored_tables _ _ _ H2) as (Hi2 & Ho2 & Hm2). rewrite Hc in Hi2, Ho2.
  assert (t_indicators (tables d2) = t_indicators (tables d')) as Hind by (apply map_eq; intros id; by rewrite Hi2, Hi).
  rewrite <- Ho in Ho2. rewrite <- Hm in Hm2. unfold managed_of in Hm2.
  destruct (tables d2), (tables d'). simpl in *. by injection Hm2 as -> -> ->; subst.
Qed.
End stored.

(** ** What does not depend on the order *)

(** The evidence for an indicator: how sure, and when last seen. *)
Definition evidence (r : IndicatorRow) : Z * Z := (ir_confidence r, ir_last_seen_by_us r).

(** Tables with the same evidence and the same observations in any order. *)
#[export] Instance tables_equiv : Equiv db_tables := λ t u,
  (∀ id, evidence <$> t_indicators t !! id = evidence <$> t_indicators u !! id) ∧
  t_observations t ≡ₚ t_observations u ∧ managed_of t = managed_of u.

#[export] Instance tables_equivalence : Equivalence (≡@{db_tables}).
Proof.
  split.
  - by intros t.
  - intros t u (Hi & Ho & Hm). by split_and!.
  - intros t u v (Hi & Ho & Hm) (Hi' & Ho' & Hm'). split_and!; [|by etrans..]. intros id. by rewrite Hi, Hi'.
Qed.

(** The evidence of a list of sightings, as one fold. *)
Definition join (o : option (Z * Z)) (e : Z * Z) : option (Z * Z) :=
  Some match o with Some (c, s) => (Z.max c e.1, Z.max s e.2) | None => e end.

Lemma aggregate_evidence l : evidence <$> aggregate l = fold_left join (evidence <$> l) None.
Proof.
  induction l as [|x l IH] using rev_ind; [done|].
  rewrite aggregate_snoc, fmap_app, fold_left_app, <- IH. simpl. by destruct (aggregate l).
Qed.

Lemma join_Permutation l k : l ≡ₚ k → ∀ o, fold_left join l o = fold_left join k o.
Proof.
  induction 1 as [|e l k _ IH|e e' l|l1 l2 l3 _ IH1 _ IH2]; intros o; simpl; [done|done| |by rewrite IH1].
  f_equal. unfold join. f_equal. destruct o as [[c s]|], e, e'; simpl; f_equal; lia.
Qed.

#[export] Instance aggregate_proper : Proper ((≡ₚ) ==> eq) (λ l, evidence <$> aggregate l).
Proof.
  intros l k Hlk. rewrite !aggregate_evidence. by apply join_Permutation, fmap_Permutation.
Qed.

#[export] Instance sightings_proper id : Proper ((≡ₚ) ==> (≡ₚ)) (sightings id).
Proof. intros l k H. unfold sightings. by rewrite H. Qed.

(** The order of the pairs has no effect on the evidence.  If the same pairs
    reach the database in another order, as when several workers store their
    batches in turn, the tables differ at most in the order of the observations
    and in the columns that one sighting alone decides: confidences and times of
    the last sighting are the same. *)
Theorem stored_order {D} `{!Database D} (d : D) bs bs' d1 d2 :
  stored d bs d1 → stored d bs' d2 → concat bs ≡ₚ concat bs' → tables d1 ≡ tables d2.
Proof.
  intros H1 H2 Hp. destruct (stored_tables _ _ _ H1) as (Hi1 & Ho1 & Hm1).
  destruct (stored_tables _ _ _ H2) as (Hi2 & Ho2 & Hm2). split; [|split; [|by rewrite Hm1, Hm2]].
  - intros id. rewrite Hi1, Hi2. apply aggregate_proper. by rewrite Hp.
  - by rewrite Ho1, Ho2, Hp.
Qed.

(** ** Samples *)

(** Two sightings of one indicator, in one batch after another. *)
Definition seen_twice : list (list pair) := [[sample_pair 1 AMBER 5]; [sample_pair 1 RED 9; sample_pair 2 GREEN 9]].

Definition after_batches (bs : list (list pair)) : MemoryDb :=
  fold_left (λ d b, (postgres_publish true b d).2) bs empty_db.

Lemma seen_twice_stored : stored empty_db seen_twice (after_batches seen_twice).
Proof. unfold seen_twice. repeat (econstructor; [vm_compute; reflexivity|]). constructor. Qed.

Lemma stored_aggregates_witness :
  t_indicators (tables (after_batches seen_twice)) !! 1%N
  = aggregate [ind_row (sample_indicator 1 AMBER 5); ind_row (sample_indicator 1 RED 9)].
Proof.
  destruct (stored_aggregates empty_db seen_twice (after_batches seen_twice)) as (H & _).
  - exact seen_twice_stored.
  - rewrite H. vm_compute. reflexivity.
Defined.

Definition seen_otherwise : list (list pair) := [[sample_pair 1 RED 9]; [sample_pair 2 GREEN 9; sample_pair 1 AMBER 5]].

Lemma stored_order_witness :
  tables (after_batches seen_twice) ≡ tables (after_batches seen_otherwise) ∧
  ir_tlp <$> (t_indicators (tables (after_batches seen_twice)) !! 1%N)
  ≠ ir_tlp <$> (t_indicators (tables (after_batches seen_otherwise)) !! 1%N).
Proof.
  split; [|vm_compute; discriminate].
  apply (stored_order empty_db seen_twice seen_otherwise).
  - exact seen_twice_stored.
  - unfold seen_otherwise. repeat (econstructor; [vm_compute; reflexivity|]). constructor.
  - apply (Permutation_cons_append [sample_pair 1 RED 9; sample_pair 2 GREEN 9] (sample_pair 1 AMBER 5)).
Defined.
