(* ===== verification/Feed.v ===== *)
(** A feed run end to end: [FeedRunner.execute] over the concurrent pipeline, whose
    canonical publisher writes to the database that the runner's sessions use.

    [Runner] leaves open what [Pipeline.run] does; here it is an execution of the
    network of [Pipeline] in which the canonical publisher answers each call as its
    transaction does on the database that the calls before it left.  What the feed
    says is [feed_pairs]; one that repeats an indicator within a batch fails. *)

From Stdlib Require Import QArith.
From S2P Require Import Prelude Errors PyStr PyDict PyVal Enums Hashing Models Effects Normalize.
From S2P Require Import Stages PersistFacts PublishFacts StageFacts Queue Network NetworkFacts.
From S2P Require Import Completion Pipeline PipelineFacts Converse PipelineRuns Breaker Registry Retry.
From S2P Require Import Concurrency Rows State Builder Runner RunnerFacts RunnerProps Repositories.
From S2P Require Import PostgresFacts Aggregate.
#[local] Open Scope string_scope.
#[local] Open Scope list_scope.

(** ** Executions of the pipeline on a database *)

(** The same pipeline with another canonical publisher. *)
Definition with_canonical (p : Publisher) (spec : PipelineSpec) : PipelineSpec :=
  MkPipelineSpec (connector spec) (parser spec) (enrichers spec) p (extra_publishers spec)
    (normalize spec) (archive spec) (bloom spec) (queue_maxsize spec) (batch_size spec).

(** What the canonical publisher accepted in an execution. *)
Definition accepted_batches (n : net) : list (list pair) := published "postgres" (trace PERSIST n).

Section executions.
Context {D : Type} `{!Database D}.

(** The publisher answers every call as the transaction does on some database, and
    call [k] of the run on the one that the [k] batches accepted before it left. *)
Definition answers (p : Publisher) (ctx : RunContext) (d : D) (bs : list (list pair)) : Prop :=
  (∀ k b, ∃ dk, publish p k b ctx = (postgres_publish true b dk).1) ∧
  ∀ k b dk, k <= length bs → stored d (take k bs) dk → publish p k b ctx = (postgres_publish true b dk).1.

(** [Pipeline.run] from a context and a database, ending in the state [n] of its
    tasks: every task is done; the result is the one of the task group, and the
    database has the accepted batches. *)
Inductive execution (w : world) (spec : PipelineSpec) (ctx : RunContext) (d : D)
    : net → (RunResult + exc_tree) * (RunContext * D) → Prop :=
  | Execution p n started finished d' :
      reachable (pipeline_net w (with_canonical p spec) ctx) n → all_done n →
      answers p ctx d (accepted_batches n) → stored d (accepted_batches n) d' →
      execution w spec ctx d n (pipeline_result ctx started finished n, (ctx_after ctx (trace FETCH n), d')).

(** The accepted calls did store their batches. *)
Lemma accepted_stored p ctx d bs :
  accepted_from p ctx 0 bs → answers p ctx d bs → ∃ d', stored d bs d'.
Proof.
  intros Hacc [_ Hans].
  assert (∀ k, k <= length bs → ∃ dk, stored d (take k bs) dk) as H.
  { induction k as [|k IH]; intros Hk; [exists d; constructor|].
    destruct IH as [dk Hdk]; [lia|]. destruct (lookup_lt_is_Some_2 bs k ltac:(lia)) as [b Hb].
    pose proof (Hacc k b Hb) as Hok. simpl in Hok. rewrite (Hans k b dk) in Hok by (done || lia).
    destruct (postgres_publish true b dk) as [r d1] eqn:E. simpl in Hok. subst r.
    exists d1. rewrite (take_S_r _ _ _ Hb). eapply stored_app; [exact Hdk|].
    econstructor; [exact E|constructor]. }
  destruct (H (length bs)) as [d' Hd]; [done|]. rewrite take_ge in Hd by done. eauto.
Qed.

(** The publisher returned from the accepted calls, and what they were given are
    observations of the run. *)
Lemma accepted_facts w spec ctx p n :
  reachable (pipeline_net w (with_canonical p spec) ctx) n →
  accepted_from p ctx 0 (accepted_batches n) ∧
  ∃ h, concat (accepted_batches n) `prefix_of` pairs_of ctx (obs_clock w) 0 h.
Proof.
  intros Hr. pose proof (pipeline_wf w _ ctx n Hr) as Hwf.
  assert (∃ t5, tasks n !! PERSIST = Some t5) as [t5 Ht5].
  { apply lookup_lt_is_Some. pose proof (wf_tasks _ _ Hwf). simpl in *. lia. }
  destruct (wf_task _ _ Hwf PERSIST t5 _ Ht5 eq_refl) as [_ Hok].
  apply task_ok_prefix in Hok. rewrite effects_process_of in Hok. simpl in Hok.
  destruct (run_stage (run_persist p ctx (batch_size spec) (obs_clock w)) (t_hist t5)) as [es r] eqn:E.
  simpl in Hok. apply persist_trace in E as (bs & -> & _ & Hacc & Hpre & _).
  destruct Hok as [rest Hrest]. apply (f_equal (published "postgres")) in Hrest.
  rewrite published_flushes, published_app in Hrest. split.
  - intros j b Hj. apply Hacc. rewrite Hrest. by apply lookup_app_l_Some.
  - exists (t_hist t5). rewrite Hrest, concat_app in Hpre. etrans; [by eexists|exact Hpre].
Qed.

(** So every finished execution of the tasks is one of [Pipeline.run]. *)
Lemma execution_intro w spec ctx d p n started finished :
  reachable (pipeline_net w (with_canonical p spec) ctx) n → all_done n →
  answers p ctx d (accepted_batches n) →
  ∃ d', execution w spec ctx d n (pipeline_result ctx started finished n, (ctx_after ctx (trace FETCH n), d')).
Proof.
  intros Hr Hd Ha. destruct (accepted_facts w spec ctx p n Hr) as [Hacc _].
  destruct (accepted_stored p ctx d _ Hacc Ha) as [d' Hst]. exists d'. by econstructor.
Qed.

Lemma execution_managed w spec ctx d n r ctx' d' :
  execution w spec ctx d n (r, (ctx', d')) → managed_of (tables d') = managed_of (tables d).
Proof. inversion 1 as [p n0 t0 t1 d2 Hr Hd Ha Hs]; subst. by apply stored_tables in Hs as (_ & _ & ->). Qed.

(** ** What a feed says *)

(** The pairs of a feed: what its payloads parse, normalize and enrich to, with
    the observations of the run; [None] if a stage raises. *)
Definition feed_pairs (w : world) (spec : PipelineSpec) (ctx : RunContext) : option (list pair) :=
  traces ← after_stage (run_dedup (bloom spec))
             (after_stage (run_enrich (enrichers spec) ctx)
             (after_stage (run_normalize (idna w) (ind_clock w) (normalize spec))
             (after_stage (run_parse (parser spec) ctx)
               (match run_fetch (connector spec) (archive spec) ctx with
                | (es, Ok _) => Some [es]
                | _ => None
                end))));
  Some (pairs_of ctx (obs_clock w) 0 (puts (default [] (last traces)))).

Lemma sequential_feed w spec ctx p traces :
  sequential_run w (with_canonical p spec) ctx = Some traces →
  ∃ l es5 es6, let pairs := pairs_of ctx (obs_clock w) 0 l in
    feed_pairs w spec ctx = Some pairs ∧ traces !! PERSIST = Some es5 ∧ traces !! PUBLISH = Some es6 ∧
    run_stage (run_persist p ctx (batch_size spec) (obs_clock w)) l = (es5, Ok tt) ∧
    concat (published "postgres" es5) = pairs ∧
    run_stage (run_publish (extra_publishers spec) ctx (batch_size spec)) (MPair <$> pairs) = (es6, Ok tt).
Proof.
  unfold sequential_run, feed_pairs, with_canonical. cbn [connector parser enrichers canonical_publisher
    extra_publishers normalize archive bloom queue_maxsize batch_size].
  set (front := after_stage (run_dedup (bloom spec)) _). intros H.
  apply chain_stage in H as (t5 & es6 & H5 & -> & C6).
  apply chain_stage in H5 as (t4 & es5 & H4 & -> & C5). rewrite H4. cbn [mbind option_bind].
  rewrite last_snoc in C6. change (default [] (Some es5)) with es5 in C6.
  assert (length t4 = 5) as Hlen.
  { subst front. apply chain_stage in H4 as (t3 & e4 & H3 & -> & _). apply chain_stage in H3 as (t2 & e3 & H2 & -> & _).
    apply chain_stage in H2 as (t1 & e2 & H1 & -> & _). apply chain_stage in H1 as (t0 & e1 & H0 & -> & _).
    destruct (run_fetch _ _ _) as [e0 [r|e]]; [|done]. by injection H0 as <-. }
  destruct C5 as (E5 & Hok5 & Hend5), C6 as (E6 & Hok6 & Hend6).
  pose proof (quiet_stage _ _ Hok5 Hend5) as R5. rewrite E5 in R5.
  pose proof (quiet_stage _ _ Hok6 Hend6) as R6. rewrite E6 in R6.
  pose proof R5 as P5. apply persist_trace in P5 as (bs & -> & _ & _ & _ & Hpairs). rewrite puts_flushes, Hpairs in R6 by done.
  eexists _, (flushes bs), es6. split; [reflexivity|]. split; [|split; [|split; [exact R5|split; [|exact R6]]]].
  - by rewrite lookup_app_l, <- Hlen, list_lookup_middle by (rewrite ?length_app; simpl; lia || done).
  - replace PUBLISH with (length (t4 ++ [flushes bs])) by (rewrite length_app, Hlen; done).
    by apply list_lookup_middle.
  - rewrite published_flushes. by apply Hpairs.
Qed.

(** What an execution did that ended without an error and without a cancelled
    task. *)
Lemma clean_feed w spec ctx p n :
  reachable (pipeline_net w (with_canonical p spec) ctx) n → all_done n → clean n →
  ∃ l, let pairs := pairs_of ctx (obs_clock w) 0 l in
    feed_pairs w spec ctx = Some pairs ∧ concat (accepted_batches n) = pairs ∧
    run_stage (run_persist p ctx (batch_size spec) (obs_clock w)) l = (trace PERSIST n, Ok tt) ∧
    run_stage (run_publish (extra_publishers spec) ctx (batch_size spec)) (MPair <$> pairs) = (trace PUBLISH n, Ok tt).
Proof.
  intros Hr Hd Hc. pose proof (success_sequential_lemma _ _ _ _ Hr Hd Hc) as Hseq.
  destruct (sequential_feed _ _ _ _ _ Hseq) as (l & es5 & es6 & Hf & H5 & H6 & R5 & Hp & R6).
  injection H5 as <-. injection H6 as <-. by exists l.
Qed.
End executions.

Lemma pipeline_success ctx t0 t1 n result :
  pipeline_result ctx t0 t1 n = inl result → errors n = [].
Proof. unfold pipeline_result. by destruct (errors n). Qed.

(** ** A feed that repeats an indicator *)

Lemma stored_distinct {D} `{!Database D} (d : D) bs d' :
  stored d bs d' → Forall (λ b, NoDup (ind_id ∘ fst <$> b)) bs.
Proof.
  induction 1 as [|b bs d d1 d' Hp _ IH]; constructor; [|done]. destruct b as [|x b]; [constructor|].
  apply publish_cases in Hp as [Hnd _]; [|done]. by rewrite <- list_fmap_compose in Hnd.
Qed.

(** The batch of the canonical publisher that the [i]-th pair of a feed goes to. *)
Definition batch_number (spec : PipelineSpec) (i : nat) : nat := i / PersistFacts.limit (batch_size spec).

(** C26: a feed that repeats an indicator within a batch fails.  If two pairs of
    what a feed says have the same identifier and fall in one batch of the canonical
    publisher, then no execution of the pipeline on a database is a SUCCESS,
    whatever the database holds, unless a stage raised a [CancelledError] of its own
    that the task group did not notice: the batch is refused.  In every execution, each
    batch that was stored has distinct identifiers.  (Pairs that fall in two batches
    are stored, and aggregated.) *)
Theorem repeated_record_fails_run {D} `{!Database D} w spec ctx (d : D) n r ctx' d' pairs i j x y :
  execution w spec ctx d n (r, (ctx', d')) → (errors n = [] → uncancelled n) →
  feed_pairs w spec ctx = Some pairs → pairs !! i = Some x → pairs !! j = Some y →
  i ≠ j → batch_number spec i = batch_number spec j → ind_id x.1 = ind_id y.1 →
  (∃ t, r = inr t) ∧
  (∀ t0 t1 result, run_with_outcome ctx' t0 t1 r = inl result → state result ≠ SUCCESS) ∧
  Forall (λ b, NoDup (ind_id ∘ fst <$> b)) (accepted_batches n).
Proof.
  intros Hex Hu Hf Hi Hj Hne Hb Hid. inversion Hex as [p n0 t0 t1 d2 Hr Hd Ha Hst]; subst.
  pose proof (stored_distinct _ _ _ Hst) as Hdist.
  assert (errors n ≠ []) as He.
  { intros He. destruct (clean_feed w spec ctx p n Hr Hd) as (l & Hf' & _ & R5 & _); [by split; auto|].
    rewrite Hf in Hf'. injection Hf' as ->.
    destruct (persist_batches_lookup _ _ _ _ _ _ i x R5 Hi) as (b & Hbi & Hxi).
    destruct (persist_batches_lookup _ _ _ _ _ _ j y R5 Hj) as (b' & Hbj & Hyj).
    unfold batch_number in Hb. rewrite Hb, Hbj in Hbi. injection Hbi as ->.
    rewrite Forall_lookup in Hdist. specialize (Hdist _ _ Hbj). apply Hne.
    assert (i mod PersistFacts.limit (batch_size spec) = j mod PersistFacts.limit (batch_size spec)) as Hm.
    { eapply (NoDup_lookup _ _ _ (ind_id x.1) Hdist); rewrite list_lookup_fmap, ?Hxi, ?Hyj; simpl; by rewrite ?Hid. }
    rewrite (Nat.div_mod_eq i (PersistFacts.limit (batch_size spec))), (Nat.div_mod_eq j (PersistFacts.limit (batch_size spec))), Hb, Hm. done. }
  unfold pipeline_result. destruct (errors n) as [|e es]; [done|]. split; [by eexists|]. split; [|done].
  intros s0 s1 result Hw. unfold run_with_outcome in Hw.
  destruct (existsb _ _); [by injection Hw as <-|]. destruct (existsb _ _); [by injection Hw as <-|done].
Qed.

(** ** The sessions of the runner *)

(** The tables that the canonical publisher writes. *)
Definition storage (t : db_tables) : gmap N IndicatorRow * list IndicatorObservationRow :=
  (t_indicators t, t_observations t).

Section sessions.
Context {D : Type} {HD : Database D}.

(** Code of a session that leaves them alone. *)
Definition spares {A} (m : Sess D A) : Prop := ∀ s r s', m s = (r, s') →
  storage (tables (working s')) = storage (tables (working s)) ∧
  (storage (tables (committed s')) = storage (tables (committed s)) ∨
   storage (tables (committed s')) = storage (tables (working s))).

Lemma spares_ret {A} (a : A) : spares (mret a).
Proof. intros s r s' [= _ <-]. auto. Qed.
Lemma spares_raise {A} c m : spares (s_raise (A:=A) c m).
Proof. intros s r s' [= _ <-]. auto. Qed.
Lemma spares_read {A} (f : db_tables → A) : spares (s_read f).
Proof. intros s r s' [= _ <-]. auto. Qed.

Lemma spares_write f : (∀ t t', f t = Ok t' → storage t' = storage t) → spares (s_write f).
Proof.
  intros Hf s r s'. unfold s_write. destruct (write f (working s)) as [d|e] eqn:E; intros [= _ <-]; [|auto].
  apply write_Ok, Hf in E. auto.
Qed.

Lemma spares_commit : spares s_commit.
Proof.
  intros s r s'. unfold s_commit. destruct (db_commit (working s)) as [d|e] eqn:E; intros [= _ <-]; [|auto].
  apply commit_Ok in E. simpl. rewrite E. auto.
Qed.

Lemma spares_bind {A B} (m : Sess D A) (f : A → Sess D B) : spares m → (∀ a, spares (f a)) → spares (m ≫= f).
Proof.
  intros Hm Hf s r s'. unfold mbind, Sess_bind. destruct (m s) as [[a|e] s1] eqn:E.
  - intros H. destruct (Hm _ _ _ E) as [Hw Hc], (Hf a _ _ _ H) as [Hw' Hc']. rewrite Hw'. split; [done|].
    rewrite Hw in Hc'. destruct Hc' as [->|]; [done|auto].
  - intros [= _ <-]. by apply (Hm _ _ _ E).
Qed.

Lemma session_storage {A} initialized (m : Sess D A) d r d' :
  spares m → db_session initialized (a ← m; _ ← s_commit; mret a) d = (r, d') →
  storage (tables d') = storage (tables d).
Proof.
  intros Hm. unfold db_session. destruct initialized; simpl; [|by intros [= _ <-]].
  destruct ((a ← m; _ ← s_commit; mret a) (MkSession d d)) as [r0 s] eqn:E. intros [= _ <-].
  assert (spares (a ← m; _ ← s_commit; mret a)) as Hall.
  { apply spares_bind; [done|]. intros a. apply spares_bind; [apply spares_commit|]. intros _. apply spares_ret. }
  by destruct (Hall _ _ _ E) as [_ [H|H]].
Qed.

Lemma spares_open source_id run_id now : spares (open_run source_id run_id now).
Proof.
  apply spares_bind; [apply spares_read|]. intros [source|]; [|apply spares_raise].
  apply spares_bind; [|intros; apply spares_ret]. apply spares_write. intros t t'. unfold insert_run.
  destruct (_ !! _); [done|]. destruct (_ !! _); [|done]. by intros [= <-].
Qed.

Lemma spares_mark row : spares (mark_running row).
Proof.
  apply spares_bind; [|intros; apply spares_ret]. apply spares_write. by intros t t' [= <-].
Qed.

Lemma spares_finalize row st now k : spares (finalize_run row st now k).
Proof.
  unfold finalize_run. apply spares_bind; [apply spares_write; by intros t t' [= <-]|]. intros _.
  destruct (fin_watermark k) as [wm|]; [|apply spares_ret]. case_decide; [|apply spares_ret].
  apply spares_bind; [apply spares_read|]. intros [source|]; [|apply spares_ret].
  apply spares_write. by intros t t' [= <-].
Qed.

Lemma spares_letter fe n i s p e rs now : spares (record_dead_letter fe n i s p e rs now).
Proof.
  unfold record_dead_letter. apply spares_bind; [|intros; apply spares_ret].
  apply spares_write. by intros t t' [= <-].
Qed.

Context {HR : Retrying} (initialized : bool).
Context (pipeline_run : PipelineSpec → RunContext → D → (RunResult + exc_tree) * (RunContext * D)).
Context (aclose : plugin → res unit) (format_exception : exn → string) (eps : entry_points).

Lemma open_session_storage c source_id run_id d r d' :
  open_session initialized c source_id run_id d = (r, d') → storage (tables d') = storage (tables d).
Proof.
  apply session_storage, spares_bind; [apply spares_open|]. intros.
  apply spares_bind; [apply spares_mark|]. intros. apply spares_ret.
Qed.

Lemma final_session_storage c run_id result d r d' :
  final_session initialized c run_id result d = (r, d') → storage (tables d') = storage (tables d).
Proof.
  apply session_storage, spares_bind; [apply spares_read|]. intros [row|]; [apply spares_finalize|apply spares_raise].
Qed.

Lemma letter_session_storage c run_id source_id e d r d' :
  letter_session initialized format_exception c run_id source_id e d = (r, d') →
  storage (tables d') = storage (tables d).
Proof. apply session_storage, spares_letter. Qed.

(** What a run does to these tables: nothing, or what its one call of the
    pipeline does. *)
Inductive stored_by (c : clock) (source : SourceConfig) (spec : PipelineSpec) (run_id : N) (corr : string)
    (d : D) (o : RunState + exc_tree) (d' : D) : Prop :=
  | by_nothing : storage (tables d') = storage (tables d) → o ≠ inl SUCCESS → stored_by c source spec run_id corr d o d'
  | by_pipeline row wm d1 r ctx' d2 :
      open_session initialized c (sc_id source) run_id d = (Ok (row, wm), d1) →
      pipeline_run spec (new_context c run_id (sc_id source) corr wm) d1 = (r, (ctx', d2)) →
      storage (tables d1) = storage (tables d) → storage (tables d') = storage (tables d2) →
      (o = inl SUCCESS → ∃ result, r = inl result ∧ state result = SUCCESS) →
      stored_by c source spec run_id corr d o d'.

Lemma handlers_storage c source spec run_id corr b d o b' d' :
  handlers initialized format_exception c (sc_id source) run_id
    (attempt initialized pipeline_run c source spec run_id corr b d) = (o, b', d') →
  stored_by c source spec run_id corr d o d'.
Proof.
  assert (∀ t d1 o' b1 b' d', handlers initialized format_exception c (sc_id source) run_id (inr t, b1, d1) = (o', b', d') →
            storage (tables d') = storage (tables d1) ∧ o' ≠ inl SUCCESS) as Hraise.
  { intros t d1 o' b1 b2 d2. simpl. destruct (tree_isinstance t PermanentError).
    - destruct t as [e|es]; [|by intros [= <- _ <-]].
      destruct (letter_session _ _ _ _ _ _ _) as [[l|e'] d3] eqn:El; apply letter_session_storage in El;
        by intros [= <- _ <-].
    - destruct (tree_isinstance t PyException); by intros [= <- _ <-]. }
  unfold attempt. destruct (open_session _ _ _ _ _) as [[[row wm]|e] d1] eqn:Eo.
  2:{ intros [H Hn]%Hraise. apply open_session_storage in Eo. apply by_nothing; [by rewrite H, Eo|done]. }
  rewrite (proj1 (pipeline_once _ _ _ _ _)). unfold run_pipeline. cbn [fst snd].
  destruct (pipeline_run spec _ d1) as [r [ctx' d2]] eqn:Ep. cbn [fst snd].
  pose proof (open_session_storage _ _ _ _ _ _ Eo) as Ho.
  destruct (run_with_outcome ctx' (at_start c) (at_finish c) r) as [result|t] eqn:Ew.
  2:{ intros [H Hn]%Hraise. by eapply by_pipeline. }
  destruct (final_session _ _ _ _ _) as [[u|e] d3] eqn:Ef; pose proof (final_session_storage _ _ _ _ _ _ Ef) as H3.
  - intros [= <- _ <-]. eapply by_pipeline; [done..|]. intros [= Hs]. exists result. split; [|done].
    unfold run_with_outcome in Ew. destruct r as [res|exc]; [by injection Ew as ->|].
    destruct (existsb _ _); [injection Ew as <-; discriminate Hs|].
    destruct (existsb _ _); [injection Ew as <-; discriminate Hs|done].
  - intros [H Hn]%Hraise. eapply by_pipeline; [done..|by rewrite H|done].
Qed.

Lemma close_plugins_success ps o o' closed :
  close_plugins aclose ps o = (o', closed) → o' = inl SUCCESS → o = inl SUCCESS.
Proof.
  revert o' closed. induction ps as [|p ps IH]; intros o' closed; simpl; [by intros [= -> _]|].
  destruct (close_plugins aclose ps o) as [o1 cl] eqn:E.
  destruct (aclose p) as [u|e]; [|destruct (isinstance e PyException)]; intros [= <- _] Hs; try done;
    by eapply IH.
Qed.

Lemma execute_storage c source spec run_id corr uri r o r' :
  build_pipeline_spec eps source uri = Ok spec →
  execute initialized pipeline_run aclose format_exception eps c source run_id corr uri r = Some (o, r') →
  stored_by c source spec run_id corr (r_db r) o (r_db r').
Proof.
  intros Hspec. unfold execute. destruct (get_breaker _ _ _) as [b store]. destruct (get_semaphore _ _ _) as [sem sems].
  destruct (global_enter _) as [g|]; simpl; [|done]. destruct (sem_acquire sem) as [sem'|]; simpl; [|done].
  unfold execute_inside. destruct (before (at_before c) b) as [[u|e] b1].
  2:{ intros [= <- <-]. by apply by_nothing. }
  rewrite Hspec. destruct (handlers _ _ _ _ _ _) as [[o1 b2] d2] eqn:Eh.
  destruct (close_plugins _ _ _) as [o2 closed] eqn:Ec. intros [= <- <-]. simpl.
  apply handlers_storage in Eh.
  destruct Eh as [Hs Hn|row wm d1 r0 ctx' d3 H1 H2 H3 H4 H5].
  - apply by_nothing; [done|]. intros Ho. by apply Hn, (close_plugins_success _ _ _ _ Ec).
  - eapply by_pipeline; [done..|]. intros Ho. by apply H5, (close_plugins_success _ _ _ _ Ec).
Qed.
End sessions.

(** ** End to end *)

Section end_to_end.
Context {D : Type} {HD : Database D} {HR : Retrying}.
Context (pipeline_run : PipelineSpec → RunContext → D → (RunResult + exc_tree) * (RunContext * D)).
Context (aclose : plugin → res unit) (format_exception : exn → string) (eps : entry_points).

(** The call of the pipeline that a run makes is an execution; [final] is the
    state in which its tasks end. *)
Definition runs_pipeline (w : world) (c : clock) (source : SourceConfig) (spec : PipelineSpec) (run_id : N)
    (corr : string) (d : D) (final : RunContext → net) : Prop :=
  ∀ row wm d1, open_session true c (sc_id source) run_id d = (Ok (row, wm), d1) →
    let ctx := new_context c run_id (sc_id source) corr wm in
    execution w spec ctx d1 (final ctx) (pipeline_run spec ctx d1).

(** C2: a feed run, end to end.  Take a run of a source whose pipeline is executed
    concurrently, in any interleaving and for any bound of its queues, while the
    canonical publisher commits each batch to the database.  Whatever the run
    returns or raises, the indicators afterwards are the aggregation of the stored
    ones and of the sightings in a list of pairs, and the observations are the
    stored ones followed by those of these pairs, in order.  If it returns SUCCESS
    and no stage raised a [CancelledError] of its own, the pairs are exactly those
    that the feed says: what the payloads of the connector parse, normalize and
    enrich to, none lost and none twice; and what the publish task of the execution
    did is the publish stage over exactly these pairs, run to its end, so that each
    of the other publishers, if their names are distinct, accepted a subsequence of
    them, the whole of it unless it refuses for TLP, and all are counted. *)
Theorem feed_end_to_end w c source spec run_id corr uri final (r r' : runner D) o :
  build_pipeline_spec eps source uri = Ok spec →
  runs_pipeline w c source spec run_id corr (r_db r) final →
  execute true pipeline_run aclose format_exception eps c source run_id corr uri r = Some (o, r') →
  ∃ pairs,
    (∀ id, t_indicators (tables (r_db r')) !! id
           = aggregate (option_list (t_indicators (tables (r_db r)) !! id) ++ sightings id pairs)) ∧
    t_observations (tables (r_db r')) = t_observations (tables (r_db r)) ++ (obs_row ∘ snd <$> pairs) ∧
    (o = inl SUCCESS → ∃ row wm d1,
       let ctx := new_context c run_id (sc_id source) corr wm in
       let sent := trace PUBLISH (final ctx) in
       open_session true c (sc_id source) run_id (r_db r) = (Ok (row, wm), d1) ∧
       (uncancelled (final ctx) →
          feed_pairs w spec ctx = Some pairs ∧
          run_stage (run_publish (extra_publishers spec) ctx (batch_size spec)) (MPair <$> pairs) = (sent, Ok tt) ∧
          (NoDup (pub_name <$> extra_publishers spec) →
             ∀ p, p ∈ extra_publishers spec → fanned_out ctx p pairs sent))).
Proof.
  intros Hspec Hrun Hex. apply (execute_storage _ _ _ _ _ c source spec) in Hex; [|done].
  destruct Hex as [[= Hi Ho] Hn|row wm d1 res ctx' d2 Hopen Hp [= Hi1 Ho1] [= Hi Ho] Hs].
  - exists []. rewrite Ho, app_nil_r. split; [|split; [done|done]].
    intros id. by rewrite Hi, app_nil_r, aggregate_stored.
  - specialize (Hrun row wm d1 Hopen). cbn zeta in Hrun. rewrite Hp in Hrun.
    inversion Hrun as [p n t0 t1 d3 Hr Hd Ha Hst Hf Hres]; subst n.
    destruct (stored_tables _ _ _ Hst) as (Hai & Hao & _). subst.
    eexists. rewrite Hi, Ho, <- Hi1, <- Ho1. split; [exact Hai|]. split; [exact Hao|].
    intros Hsuc. exists row, wm, d1. split; [exact Hopen|]. intros Hu.
    destruct (Hs Hsuc) as (result & Hres & Hstate). apply pipeline_success in Hres.
    destruct (clean_feed w spec _ p _ Hr Hd) as (l & Hf & Hc & _ & Hpub); [by split|].
    rewrite <- Hc in Hf, Hpub. split; [exact Hf|]. split; [exact Hpub|].
    intros Hnd q Hq. by eapply publish_fanned_out.
Qed.
End end_to_end.

(** ** A sample *)

(** A pipeline on a database in memory: the tasks take turns, and the publisher
    answers from the database. *)
Definition live_pairs (spec : PipelineSpec) (ctx : RunContext) : list pair :=
  default [] (feed_pairs sample_world spec ctx).

Definition live_publisher (spec : PipelineSpec) (ctx : RunContext) (d : MemoryDb) : Publisher :=
  MkPublisher "postgres" (λ k b _,
    (postgres_publish true b
       match k with O => d | _ => (postgres_publish true (live_pairs spec ctx) d).2 end).1).

Definition live_net (spec : PipelineSpec) (ctx : RunContext) (d : MemoryDb) : net :=
  run_schedule (round_robin 60)
    (pipeline_net sample_world (with_canonical (live_publisher spec ctx d) spec) ctx).

Definition live_run (spec : PipelineSpec) (ctx : RunContext) (d : MemoryDb)
    : (RunResult + exc_tree) * (RunContext * MemoryDb) :=
  (pipeline_result ctx 0 0 (live_net spec ctx d),
   (ctx_after ctx (trace FETCH (live_net spec ctx d)), (postgres_publish true (live_pairs spec ctx) d).2)).

Lemma live_execution spec ctx d :
  done_b (live_net spec ctx d) = true → accepted_batches (live_net spec ctx d) = [live_pairs spec ctx] →
  (postgres_publish true (live_pairs spec ctx) d).1 = Ok tt →
  execution sample_world spec ctx d (live_net spec ctx d) (live_run spec ctx d).
Proof.
  intros Hd Ha Hp.
  assert (stored d [live_pairs spec ctx] (postgres_publish true (live_pairs spec ctx) d).2) as Hs.
  { econstructor; [|constructor]. rewrite <- Hp. apply surjective_pairing. }
  apply (Execution sample_world spec ctx d (live_publisher spec ctx d) (live_net spec ctx d)).
  - apply run_schedule_reachable.
  - by apply done_b_all_done.
  - rewrite Ha. split; [intros k b; eexists; reflexivity|].
    intros [|[|k]] b dk Hk Hst; simpl in Hst; [|..|simpl in Hk; lia].
    + by inversion Hst.
    + inversion Hst as [|b0 bs d0 d1 d2 Hpub Hrest]; subst. inversion Hrest; subst. simpl.
      rewrite Hpub. done.
  - by rewrite Ha.
Qed.

(** Two addresses and a record that is none. *)
Definition live_eps : entry_points :=
  MkEntryPoints [("http", Ok (λ _, Ok sample_connector))]
    [("json", Ok (λ _, Ok (yields [[("value", PyStr "10.0.0.1")]; [("value", PyStr "bad")];
                                   [("value", PyStr "10.0.0.2")]])))] []
    [("postgres", Ok (λ _, Ok accept_all)); ("webhook", Ok (λ _, Ok accept_all))].

Definition live_source : SourceConfig :=
  let s := default_SourceConfig "feed" "http" "json" in
  MkSourceConfig (sc_id s) (sc_name s) (sc_plugin s) (sc_enabled s) (sc_schedule s) (sc_jitter_seconds s)
    (sc_rate_limit_rps s) (sc_max_parallelism s) (sc_timeout_seconds s) (sc_retry s) (sc_circuit s) (sc_parser s)
    (sc_enrichers s) ["postgres"; "webhook"] (sc_params s) (sc_parser_params s) (sc_enricher_params s)
    (sc_publisher_params s) ipv4_config (sc_tlp s) (sc_severity_default s) (sc_confidence_default s) (sc_tags s).

Definition live_spec : PipelineSpec :=
  MkPipelineSpec sample_connector
    (yields [[("value", PyStr "10.0.0.1")]; [("value", PyStr "bad")]; [("value", PyStr "10.0.0.2")]])
    [] accept_all [accept_all] ipv4_config None None DEFAULT_MAXSIZE 500.

Lemma live_built : build_pipeline_spec live_eps live_source None = Ok live_spec.
Proof. reflexivity. Qed.

Definition live_execute :=
  execute true live_run (λ _, Ok tt) (λ _, "") live_eps sample_clock live_source 7 "corr" None sample_runner.

Definition live_opened : MemoryDb := (open_session true sample_clock "feed" 7 (r_db sample_runner)).2.

(** Two pairs are stored, and the webhook got both. *)
Lemma feed_end_to_end_witness :
  ∃ r' pairs wm, live_execute = Some (inl SUCCESS, r') ∧
    t_observations (tables (r_db r')) = obs_row ∘ snd <$> pairs ∧ length pairs = 2%nat ∧
    let ctx := new_context sample_clock 7 "feed" "corr" wm in
    feed_pairs sample_world live_spec ctx = Some pairs ∧
    concat (published "webhook" (trace PUBLISH (live_net live_spec ctx live_opened))) = pairs.
Proof.
  assert ((λ x, (x.1, length (t_observations (tables (r_db x.2))))) <$> live_execute = Some (inl SUCCESS, 2%nat)) as Hs
    by (vm_compute; reflexivity).
  destruct live_execute as [[o r']|] eqn:E; [|discriminate]. injection Hs as -> Hlen.
  destruct (feed_end_to_end live_run (λ _, Ok tt) (λ _, "") live_eps sample_world sample_clock live_source live_spec 7
              "corr" None (λ ctx, live_net live_spec ctx live_opened) sample_runner r' (inl SUCCESS))
    as (pairs & _ & Ho & Hsuc).
  - exact live_built.
  - intros row wm d1 Hopen ctx. change (open_session true sample_clock "feed" 7 (r_db sample_runner) = (Ok (row, wm), d1)) in Hopen.
    unfold live_opened. rewrite Hopen. cbn [snd].
    vm_compute in Hopen. injection Hopen as _ Hwm Hd. subst ctx wm d1.
    apply live_execution; vm_compute; reflexivity.
  - exact E.
  - destruct (Hsuc eq_refl) as (row & wm & d1 & Hopen & Hall). vm_compute in Hopen. injection Hopen as _ <- _.
    destruct Hall as (Hf & _ & Hpub); [apply uncancelled_b_true; vm_compute; reflexivity|].
    destruct (Hpub (NoDup_singleton _) accept_all) as (_ & _ & Hall); [by left|].
    exists r', pairs. eexists. split; [reflexivity|]. split; [exact Ho|]. split; [|split; [exact Hf|]].
    + change (t_observations (tables (r_db r')) = obs_row ∘ snd <$> pairs) in Ho.
      apply (f_equal length) in Ho. rewrite length_fmap in Ho. rewrite <- Ho. exact Hlen.
    + apply Hall. intros k b e. discriminate.
Defined.

(** ** A payload that repeats an indicator *)

(** The canonical publisher over an empty database. *)
Definition postgres : Publisher :=
  MkPublisher "postgres" (λ _ batch _, (postgres_publish true batch empty_db).1).

Definition repeating_spec : PipelineSpec :=
  MkPipelineSpec sample_connector
    (yields [[("value", PyStr "10.0.0.1")]; [("value", PyStr "10.0.0.2")];
             [("value", PyStr "10.0.0.1 ")]])
    [] postgres [accept_all] ipv4_config None (Some bloom_down) 10 500.

Definition refused : net :=
  run_schedule (round_robin 60) (pipeline_net sample_world (with_canonical postgres repeating_spec) sample_ctx).

Lemma refused_execution :
  execution sample_world repeating_spec sample_ctx empty_db refused
    (pipeline_result sample_ctx 0 0 refused, (ctx_after sample_ctx (trace FETCH refused), empty_db)).
Proof.
  assert (accepted_batches refused = []) as Ha by (vm_compute; reflexivity).
  apply (Execution sample_world repeating_spec sample_ctx empty_db postgres refused).
  - apply run_schedule_reachable.
  - apply done_b_all_done. vm_compute. reflexivity.
  - rewrite Ha. split; [intros k b; eexists; reflexivity|]. intros k b dk Hk Hst. rewrite take_nil in Hst.
    by inversion Hst.
  - rewrite Ha. constructor.
Qed.

(** The first and the last record are one address. *)
Lemma repeated_record_fails_run_witness :
  ∃ t, pipeline_result sample_ctx 0 0 refused = inr t ∧ accepted_batches refused = [].
Proof.
  destruct (feed_pairs sample_world repeating_spec sample_ctx) as [pairs|] eqn:Hf; [|vm_compute in Hf; discriminate Hf].
  assert ((λ p, ind_id p.1) <$> pairs !! 0%nat = (λ p, ind_id p.1) <$> pairs !! 2%nat ∧ length pairs = 3%nat) as [Hid Hlen].
  { vm_compute in Hf. injection Hf as <-. split; vm_compute; reflexivity. }
  destruct (lookup_lt_is_Some_2 pairs 0%nat) as [x Hx]; [lia|].
  destruct (lookup_lt_is_Some_2 pairs 2%nat) as [y Hy]; [lia|]. rewrite Hx, Hy in Hid. injection Hid as Hid.
  destruct (repeated_record_fails_run sample_world repeating_spec sample_ctx empty_db refused _ _ _ pairs 0 2 x y
              refused_execution) as ([t Ht] & _).
  - intros He. vm_compute in He. discriminate He.
  - exact Hf.
  - exact Hx.
  - exact Hy.
  - discriminate.
  - vm_compute. reflexivity.
  - exact Hid.
  - exists t. split; [exact Ht|vm_compute; reflexivity].
Defined.
