(* ===== verification/Metrics.v ===== *)
(** [obs/metrics.py]: the metrics that the process registers, the calls that the
    code makes on them, and that the library accepts every one.

    The library is [prometheus_client].  What the code relies on is documented: a
    metric takes the labels it was declared with, no others and none left out; a
    counter is incremented by no negative amount; a registry refuses two metrics of
    one name. *)

From Stdlib Require Import QArith.
From S2P Require Import Prelude Errors PyStr PyDict PyVal Enums Models Effects Normalize Stages.
From S2P Require Import Queue Network NetworkFacts Completion Pipeline PipelineFacts PipelineRuns StageFacts Breaker Rows State.
#[local] Open Scope string_scope.
#[local] Open Scope list_scope.

(** ** Declarations *)

Inductive metric_kind := Counter | Gauge | Histogram (buckets : list Q).

Record family := MkFamily {
  fam_name : string;
  fam_documentation : string;
  fam_kind : metric_kind;
  fam_labelnames : list string
}.

Definition family_RECORDS_IN : family :=
  MkFamily "cti_records_in_total" "Records entering a stage from the previous one" Counter ["source"; "stage"].
Definition family_RECORDS_OUT : family :=
  MkFamily "cti_records_out_total" "Records emitted by a publisher" Counter ["source"; "publisher"].
Definition family_FETCH_BYTES : family :=
  MkFamily "cti_fetch_bytes_total" "Raw bytes fetched from upstream" Counter ["source"].
Definition family_FETCH_SECONDS : family :=
  MkFamily "cti_fetch_seconds" "Time spent in the fetch stage"
    (Histogram [1 # 10; 1 # 2; 1; 2; 5; 10; 30; 60; 120; 300]%Q) ["source"].
Definition family_PARSE_ERRORS : family :=
  MkFamily "cti_parse_errors_total" "Records dropped due to parse errors" Counter ["source"].
Definition family_DROPPED : family :=
  MkFamily "cti_dropped_total" "Records dropped (enricher returned None, TLP, etc.)" Counter ["source"; "reason"].
Definition family_QUEUE_DEPTH : family :=
  MkFamily "cti_queue_depth" "Inter-stage queue depth" Gauge ["stage"].
Definition family_CIRCUIT_STATE : family :=
  MkFamily "cti_circuit_state" "0=closed, 1=half-open, 2=open" Gauge ["source"].
Definition family_DLQ_TOTAL : family :=
  MkFamily "cti_dlq_total" "Records moved to the dead-letter table" Counter ["source"; "reason"].
Definition family_RUN_DURATION : family :=
  MkFamily "cti_run_duration_seconds" "Duration of a complete feed run"
    (Histogram [1; 5; 15; 30; 60; 120; 300; 600; 1800]%Q) ["source"; "state"].

(** The registry, in the order of registration. *)
Definition REGISTRY : list family :=
  [family_RECORDS_IN; family_RECORDS_OUT; family_FETCH_BYTES; family_FETCH_SECONDS; family_PARSE_ERRORS;
   family_DROPPED; family_QUEUE_DEPTH; family_CIRCUIT_STATE; family_DLQ_TOTAL; family_RUN_DURATION].

(** ** Calls *)

Inductive metric_op := OpInc (n : Z) | OpSet (v : Z) | OpObserve (seconds : Q).

(** [metric.labels(name=value, ...).inc(n)], [.set(v)] or [.time()]. *)
Record metric_call := MkCall { mc_family : family; mc_labels : list (string * string); mc_op : metric_op }.

(** The call that an increment of a stage stands for. *)
Definition counter_call (source : string) (c : metric) (n : Z) : metric_call :=
  match c with
  | FETCH_BYTES => MkCall family_FETCH_BYTES [("source", source)] (OpInc n)
  | RECORDS_IN stage => MkCall family_RECORDS_IN [("source", source); ("stage", stage)] (OpInc n)
  | RECORDS_OUT p => MkCall family_RECORDS_OUT [("source", source); ("publisher", p)] (OpInc n)
  | PARSE_ERRORS => MkCall family_PARSE_ERRORS [("source", source)] (OpInc n)
  | DROPPED reason => MkCall family_DROPPED [("source", source); ("reason", reason)] (OpInc n)
  end.

Definition stage_calls (source : string) (es : list effect) : list metric_call :=
  omap (λ e, match e with Inc c n => Some (counter_call source c n) | _ => None end) es.

(** The gauges of a queue and of a breaker, the timer of the fetch stage and the
    counter of the dead letters. *)
Definition queue_call (q : StageQueue) : metric_call :=
  MkCall family_QUEUE_DEPTH [("stage", q_name q)] (OpSet (qsize q)).
Definition breaker_call (b : CircuitBreaker) : metric_call :=
  MkCall family_CIRCUIT_STATE [("source", cb_source_id b)] (OpSet (metric_value (cb_state b))).
Definition fetch_timer (source : string) (seconds : Q) : metric_call :=
  MkCall family_FETCH_SECONDS [("source", source)] (OpObserve seconds).
Definition letter_call (row : DeadLetterRow) : metric_call :=
  MkCall family_DLQ_TOTAL [("source", dl_source_id row); ("reason", dl_reason row)] (OpInc 1).

(** The library accepts a call: the metric is registered, the labels are those
    of its declaration, and the operation is one of its kind. *)
Definition accepted_call (c : metric_call) : Prop :=
  mc_family c ∈ REGISTRY ∧ (mc_labels c).*1 = fam_labelnames (mc_family c) ∧
  match fam_kind (mc_family c), mc_op c with
  | Counter, OpInc n => (0 <= n)%Z
  | Gauge, OpSet _ => True
  | Histogram _, OpObserve _ => True
  | _, _ => False
  end.

(** ** The stages only count up *)

Definition counts_up (es : list effect) : Prop :=
  Forall (λ e, match e with Inc _ n => (0 <= n)%Z | _ => True end) es.

Lemma counts_up_calls source es : counts_up es → Forall accepted_call (stage_calls source es).
Proof.
  unfold counts_up, stage_calls. rewrite !Forall_forall. intros H c (e & He & Hc)%list_elem_of_omap.
  specialize (H e He). destruct e as [m|k n|u|x|i|p b]; try done. injection Hc as <-.
  destruct k; (split; [unfold REGISTRY; set_solver|done]).
Qed.

Section counts.
Context {A B : Type}.

Lemma counts_nil : counts_up [].
Proof. constructor. Qed.

Lemma counts_bind (m : W A) (f : A → W B) : counts_up m.1 → (∀ a, counts_up (f a).1) → counts_up (m ≫= f).1.
Proof.
  destruct m as [es [a|e]]; simpl; [|done]. intros H1 H2. specialize (H2 a).
  destruct (f a) as [es' r]. by apply Forall_app.
Qed.

Lemma counts_catch (m : W A) classes (h : exn → W A) :
  counts_up m.1 → (∀ e, counts_up (h e).1) → counts_up (catch m classes h).1.
Proof.
  destruct m as [es [a|e]]; simpl; [done|]. intros H1 H2. specialize (H2 e).
  destruct (existsb _ _); [|done]. destruct (h e) as [es' r]. by apply Forall_app.
Qed.

Lemma counts_each (l : list A) (f : A → W unit) : (∀ a, counts_up (f a).1) → counts_up (for_each l f).1.
Proof.
  intros H. induction l as [|a l IH]; cbn [for_each]; [constructor|].
  specialize (H a). destruct (f a) as [es [u|e]]; simpl in *; [|done].
  destruct (for_each l f) as [es' r]. by apply Forall_app.
Qed.
End counts.

Lemma counts_inc c n : (0 <= n)%Z → counts_up (inc c n).1.
Proof. intros. by apply Forall_singleton. Qed.
Lemma counts_tell e : match e with Inc _ _ => False | _ => True end → counts_up (tell e).1.
Proof. intros. apply Forall_singleton. by destruct e. Qed.

(** A body that is built from these counts up. *)
Ltac counting :=
  intros;
  repeat first
    [ done | exact counts_nil | apply counts_inc; lia | by apply counts_tell
    | apply counts_bind; intros | apply counts_catch; intros | apply counts_each; intros | case_match ].

(** A stage whose reactions count up does. *)
Lemma counts_stage {St} (s : stage St) l :
  (∀ st m, counts_up (st_item s st m).1) → (∀ st, counts_up (st_end s st).1) → counts_up (run_stage s l).1.
Proof.
  intros Hi He. unfold run_stage. apply counts_bind; [|done].
  revert l. enough (∀ l st, counts_up (run_items s st l).1) by auto.
  induction l as [|m l IH]; intros st; cbn [run_items]; counting; eauto.
Qed.

Lemma counts_fetch a g : counts_up (fetch_loop a g).1.
Proof. induction g as [p ctx k IH|ctx|ctx e]; cbn [fetch_loop]; counting. Qed.

Lemma counts_normalize i clock cfg l : counts_up (run_stage (run_normalize i clock cfg) l).1.
Proof. apply counts_stage; [|counting]. intros st m. simpl. unfold normalize_item. counting. Qed.

Lemma counts_parse p ctx l : counts_up (run_stage (run_parse p ctx) l).1.
Proof. apply counts_stage; [|counting]. intros st m. simpl. unfold parse_item, wrong_type. counting. Qed.

Lemma counts_enrich es ctx l : counts_up (run_stage (run_enrich es ctx) l).1.
Proof. apply counts_stage; [|counting]. intros st m. simpl. unfold enrich_item, wrong_type. counting. Qed.

Lemma counts_dedup b l : counts_up (run_stage (run_dedup b) l).1.
Proof. apply counts_stage; [|counting]. intros st m. simpl. unfold dedup_item, wrong_type. counting. Qed.

Lemma counts_persist p ctx bs clock l : counts_up (run_stage (run_persist p ctx bs clock) l).1.
Proof.
  apply counts_stage; simpl; [|unfold persist_end, persist_flush; counting].
  intros st m. unfold persist_item, persist_flush, wrong_type. counting.
Qed.

Lemma counts_publish ps ctx bs l : counts_up (run_stage (run_publish ps ctx bs) l).1.
Proof.
  assert (∀ st p, counts_up (publish_flush ctx st p).1) as Hf by (unfold publish_flush; counting).
  assert (∀ f qs st, (∀ st p, counts_up (f st p).1) → counts_up (fold_publishers f qs st).1) as Hfold.
  { intros f qs st H. revert st. induction qs as [|q qs IH]; intros st; cbn [fold_publishers]; counting; auto. }
  apply counts_stage; simpl.
  - intros st m. unfold publish_item, publish_append, wrong_type. counting. apply Hfold. intros. by counting.
  - intros st. unfold publish_end. counting. by apply Hfold.
Qed.

Lemma effects_source {A} (m : W A) h : effects_of (source_of m) h = m.1.
Proof.
  unfold effects_of, scripts. assert (∀ pre, scripts_from (source_of m) pre h = []) as ->; [|done].
  induction h as [|x h IH]; intros pre; [done|]. apply IH.
Qed.

Lemma counts_process w spec ctx i p h :
  (fetch_process w spec ctx :: stage_processes w spec ctx) !! i = Some p → counts_up (effects_of p h).
Proof.
  intros Hp. destruct i as [|[|[|[|[|[|[|i]]]]]]]; [injection Hp as <-..|done].
  - unfold fetch_process. rewrite effects_source. apply counts_fetch.
  - rewrite effects_process_of. apply counts_parse.
  - rewrite effects_process_of. apply counts_normalize.
  - rewrite effects_process_of. apply counts_enrich.
  - rewrite effects_process_of. apply counts_dedup.
  - rewrite effects_process_of. apply counts_persist.
  - rewrite effects_process_of. apply counts_publish.
Qed.

(** Metrics never break a run.  In every execution of the pipeline, failures and
    cancellations included, every increment that a task makes is one that the
    library accepts: on a registered metric, with exactly the labels it was
    declared with, and by no negative amount; so are the calls for the depth of a
    queue, the state of a breaker, the time of the fetch stage and a dead letter.
    No two metrics have one name. *)
Theorem metric_calls_accepted w spec ctx n :
  reachable (pipeline_net w spec ctx) n →
  (∀ i, i < 7 → Forall accepted_call (stage_calls (source_id ctx) (trace i n))) ∧
  (∀ q, accepted_call (queue_call q)) ∧ (∀ b, accepted_call (breaker_call b)) ∧
  (∀ source t, accepted_call (fetch_timer source t)) ∧ (∀ row, accepted_call (letter_call row)) ∧
  NoDup (fam_name <$> REGISTRY).
Proof.
  intros Hr%pipeline_wf. split.
  - intros i Hi.
    assert (∃ t, tasks n !! i = Some t) as [t Ht].
    { apply lookup_lt_is_Some. pose proof (wf_tasks _ _ Hr). simpl in *. lia. }
    assert (∃ p, (fetch_process w spec ctx :: stage_processes w spec ctx) !! i = Some p) as [p Hp].
    { apply lookup_lt_is_Some. simpl. lia. }
    destruct (wf_task _ _ Hr i t p Ht Hp) as [_ Hok]. apply task_ok_prefix in Hok as [r Hpre].
    pose proof (counts_process w spec ctx i p (t_hist t) Hp) as Hc. apply counts_up_calls. rewrite Hpre in Hc. by apply Forall_app in Hc as [Hc _].
  - split_and!; intros; try (split; [unfold REGISTRY; set_solver|done]).
    apply (bool_decide_unpack (NoDup (fam_name <$> REGISTRY))). vm_compute. exact I.
Qed.

(** The histogram of the durations of runs is declared, and no call of the program
    is for it; the one of the dead letters is for a table that stays empty. *)
Theorem run_duration_unused source es q b t row :
  ∀ c, c ∈ stage_calls source es ++ [queue_call q; breaker_call b; fetch_timer source t; letter_call row] →
  mc_family c ≠ family_RUN_DURATION.
Proof.
  intros c [(e & _ & He)%list_elem_of_omap|Hc]%elem_of_app.
  - destruct e as [m|k n|u|x|i|p l]; try done. injection He as <-. by destruct k.
  - repeat (apply elem_of_cons in Hc as [->|Hc]; [done|]). by apply elem_of_nil in Hc.
Qed.

Lemma metric_calls_accepted_witness :
  let n := run_schedule (round_robin 60) (pipeline_net sample_world sample_spec sample_ctx) in
  Forall accepted_call (stage_calls "src" (trace PERSIST n)) ∧ length (stage_calls "src" (trace PERSIST n)) = 1%nat.
Proof.
  intros n. split; [|vm_compute; reflexivity].
  apply (metric_calls_accepted sample_world sample_spec sample_ctx n).
  - apply run_schedule_reachable.
  - lia.
Defined.
