(* ===== verification/Partitioning.v ===== *)
(** [persistence/partitioning.py]: the monthly partitions of the observations. *)

From S2P Require Import Prelude Errors PyStr PyStrFacts DateTime.
#[local] Open Scope Z_scope.

(** [_partition_bounds(year, month)]: the name and the two bounds. *)
Definition first_of (year month : Z) : string := zfill 4 year +:+ "-" +:+ zfill 2 month +:+ "-01".

Definition partition_name (year month : Z) : string :=
  "indicator_observations_" +:+ zfill 4 year +:+ "_" +:+ zfill 2 month.

Definition partition_bounds (year month : Z) : string * string * string :=
  let '(next_year, next_month) := if month =? 12 then (year + 1, 1) else (year, month + 1) in
  (partition_name year month, first_of year month, first_of next_year next_month).

(** The statement that creates a partition. *)
Definition create_partition (b : string * string * string) : string :=
  "CREATE TABLE IF NOT EXISTS cti." +:+ b.1.1 +:+
  " PARTITION OF cti.indicator_observations FOR VALUES FROM ('" +:+ b.1.2 +:+ "') TO ('" +:+ b.2 +:+ "')".

Section connection.
Context {C : Type} (execute : string → C → res C).      (* a statement on a connection *)

(** [ensure_partition(conn, when)], at [now] when no time is given. *)
Definition ensure_partition (when : option Z) (now : Z) (conn : C) : res (string * C) :=
  let when := datetime_of (default now when) in
  let b := partition_bounds (dt_year when) (dt_month when) in
  conn ← execute (create_partition b) conn; Ok (b.1.1, conn).

(** The month of step [i] of [ensure_next_n_months]. *)
Definition month_at (year month i : Z) : Z * Z :=
  (year + (month - 1 + i) / 12, (month - 1 + i) `mod` 12 + 1).

Fixpoint ensure_from (year month i : Z) (n : nat) (conn : C) : res (list string * C) :=
  match n with
  | O => Ok ([], conn)
  | S n =>
      let '(y, m) := month_at year month i in
      let b := partition_bounds y m in
      conn ← execute (create_partition b) conn;
      r ← ensure_from year month (i + 1) n conn;
      Ok (b.1.1 :: r.1, r.2)
  end.

(** [ensure_next_n_months(conn, n)] at [now]; [range(n)] of a negative [n] is
    empty. *)
Definition ensure_next_n_months (now n : Z) (conn : C) : res (list string * C) :=
  let now := datetime_of now in
  ensure_from (dt_year now) (dt_month now) 0 (Z.to_nat n) conn.
End connection.

(** ** Facts *)

Definition bounds_at (year month i : Z) : string * string * string :=
  partition_bounds (month_at year month i).1 (month_at year month i).2.

(** The month after the month of step [i] is the month of step [i + 1]. *)
Lemma month_at_next year month i :
  month_at year month (i + 1)
  = (if (month_at year month i).2 =? 12
     then ((month_at year month i).1 + 1, 1)
     else ((month_at year month i).1, (month_at year month i).2 + 1)).
Proof.
  unfold month_at. simpl. replace (month - 1 + (i + 1)) with (month - 1 + i + 1) by lia.
  destruct (Z_div_mod_step (month - 1) i) as [-> ->].
  destruct (Z.eqb_spec ((month - 1 + i) `mod` 12 + 1) 12); case_decide; f_equal; lia.
Qed.

Lemma bounds_start y m : (partition_bounds y m).1.2 = first_of y m.
Proof. unfold partition_bounds. by destruct (m =? 12). Qed.

Lemma bounds_end y m :
  (partition_bounds y m).2 = if m =? 12 then first_of (y + 1) 1 else first_of y (m + 1).
Proof. unfold partition_bounds. by destruct (m =? 12). Qed.

(** A connection that records its statements. *)
Definition record_statement (s : string) (log : list string) : res (list string) := Ok (log ++ [s]).

Lemma ensure_from_log year month n : ∀ i log,
  ensure_from record_statement year month i n log
  = Ok ((λ k, (bounds_at year month (i + Z.of_nat k)).1.1) <$> seq 0 n,
        log ++ ((λ k, create_partition (bounds_at year month (i + Z.of_nat k))) <$> seq 0 n)).
Proof.
  induction n as [|n IH]; intros i log; [simpl; by rewrite app_nil_r|].
  cbn [ensure_from]. rewrite (surjective_pairing (month_at year month i)).
  change (partition_bounds (month_at year month i).1 (month_at year month i).2)
    with (bounds_at year month i).
  unfold record_statement at 1. simpl. rewrite IH. simpl. rewrite Z.add_0_r. f_equal. f_equal.
  - f_equal. rewrite <- fmap_S_seq, <- list_fmap_compose. apply list_fmap_ext. intros k x _.
    simpl. do 3 f_equal. lia.
  - rewrite <- app_assoc. simpl. f_equal. f_equal. rewrite <- fmap_S_seq, <- list_fmap_compose.
    apply list_fmap_ext. intros k x _. simpl. do 2 f_equal. lia.
Qed.

(** ** The months as instants *)

(** The first instant of a month. *)
Definition month_start (p : Z * Z) : Z := instant (MkDatetime p.1 p.2 1 0 0 0 0).

(** The month of an instant, and its number. *)
Definition month_of (t : Z) : Z * Z := (dt_year (datetime_of t), dt_month (datetime_of t)).
Definition month_index (p : Z * Z) : Z := p.1 * 12 + (p.2 - 1).
Definition nth_month (i : Z) : Z * Z := (i / 12, i mod 12 + 1).

Definition month_ok (p : Z * Z) : Prop := 1 <= p.2 <= 12.

Lemma nth_month_ok i : month_ok (nth_month i).
Proof. unfold month_ok. simpl. pose proof (Z.mod_pos_bound i 12). lia. Qed.

Lemma nth_month_index p : month_ok p → nth_month (month_index p) = p.
Proof.
  destruct p as [y m]. unfold month_ok, nth_month, month_index. simpl. intros Hm.
  rewrite Z.div_add_l, (Z.add_comm (y * 12)), Z.mod_add by lia.
  rewrite Z.div_small, Z.mod_small by lia. f_equal; lia.
Qed.

Lemma month_index_nth i : month_index (nth_month i) = i.
Proof. unfold month_index, nth_month. cbn [fst snd]. pose proof (Z.div_mod i 12). lia. Qed.

Lemma month_at_index year month k : month_at year month k = nth_month (month_index (year, month) + k).
Proof.
  unfold month_at, nth_month, month_index. simpl.
  replace (year * 12 + (month - 1) + k) with (month - 1 + k + year * 12) by lia.
  rewrite Z.div_add, Z.mod_add by lia. f_equal. lia.
Qed.

Lemma days_in_month_bounds y m : 1 <= m <= 12 → 28 <= days_in_month y m <= 31.
Proof.
  intros Hm. unfold days_in_month, days_before_month, leap_day.
  each_month m; destruct (is_leap y); vm_compute; split; discriminate.
Qed.

Lemma first_ok y m : 1 <= m <= 12 → date_ok y m 1.
Proof. intros Hm. split; [done|]. pose proof (days_in_month_bounds y m Hm). lia. Qed.

Lemma month_start_day y m :
  month_start (y, m) = (days_before_year y + days_before_month y m + 1 - epoch_ordinal) * us_per_day.
Proof. unfold month_start, instant, ymd2ord. cbn [dt_year dt_month dt_day dt_hour dt_minute dt_second dt_microsecond fst snd]. lia. Qed.

(** The month after a month begins when its days are over. *)
Lemma month_after y m : 1 <= m <= 12 →
  month_start (if m =? 12 then (y + 1, 1) else (y, m + 1)) = month_start (y, m) + days_in_month y m * us_per_day.
Proof.
  intros Hm. unfold days_in_month. destruct (Z.eqb_spec m 12) as [->|Hn]; rewrite !month_start_day.
  - rewrite days_before_next. change (days_before_month y (12 + 1)) with (year_length y).
    change (days_before_month (y + 1) 1) with 0. ring.
  - ring.
Qed.

Lemma nth_month_next i :
  nth_month (i + 1) = if (nth_month i).2 =? 12 then ((nth_month i).1 + 1, 1) else ((nth_month i).1, (nth_month i).2 + 1).
Proof.
  pose proof (Z_div_mod_step 0 i) as [Hd Hm]. rewrite Z.add_0_l in Hd, Hm. unfold nth_month. rewrite Hd, Hm.
  cbn [fst snd]. destruct (Z.eqb_spec (i mod 12 + 1) 12); case_decide; f_equal; lia.
Qed.

Lemma month_start_next i :
  month_start (nth_month (i + 1))
  = month_start (nth_month i) + days_in_month (nth_month i).1 (nth_month i).2 * us_per_day.
Proof. rewrite nth_month_next, month_after, <- surjective_pairing by apply nth_month_ok. done. Qed.

Lemma month_start_mono i j : i < j → month_start (nth_month i) < month_start (nth_month j).
Proof.
  intros H. replace j with (i + 1 + (j - i - 1)) by lia.
  assert (0 <= j - i - 1) as Hk by lia. revert Hk. generalize (j - i - 1). clear.
  assert (∀ i, month_start (nth_month i) < month_start (nth_month (i + 1))) as Hstep.
  { intros k. rewrite month_start_next.
    pose proof (days_in_month_bounds (nth_month k).1 (nth_month k).2 (nth_month_ok k)). unfold us_per_day. lia. }
  apply (natlike_ind (λ k, month_start (nth_month i) < month_start (nth_month (i + 1 + k)))).
  - rewrite Z.add_0_r. apply Hstep.
  - intros k _ IH. unfold Z.succ. rewrite Z.add_assoc. pose proof (Hstep (i + 1 + k)). lia.
Qed.

Lemma month_of_ok t : month_ok (month_of t).
Proof. destruct (datetime_of_spec t) as [([Hm _] & _) _]. exact Hm. Qed.

(** An instant lies in its month. *)
Lemma month_of_bounds t :
  let i := month_index (month_of t) in month_start (nth_month i) <= t < month_start (nth_month (i + 1)).
Proof.
  cbv zeta. rewrite month_start_next, nth_month_index by apply month_of_ok.
  unfold month_of, month_start. simpl.
  destruct (datetime_of_spec t) as [([Hm Hd] & Hh & Hmi & Hs & Hu) E].
  set (d := datetime_of t) in *. clearbody d. subst t.
  unfold instant, ymd2ord, us_per_day. simpl. lia.
Qed.

(** It lies in no other. *)
Lemma month_of_unique t i :
  month_start (nth_month i) <= t < month_start (nth_month (i + 1)) → i = month_index (month_of t).
Proof.
  intros H. pose proof (month_of_bounds t) as Hb. cbv zeta in Hb.
  set (j := month_index (month_of t)) in *. clearbody j.
  destruct (Z.lt_trichotomy i j) as [Hlt|[->|Hlt]]; [|done|].
  - destruct (Z.eq_dec (i + 1) j) as [<-|]; [lia|]. pose proof (month_start_mono (i + 1) j). lia.
  - destruct (Z.eq_dec (j + 1) i) as [<-|]; [lia|]. pose proof (month_start_mono (j + 1) i). lia.
Qed.

(** The text of a bound is the date at whose midnight the month begins. *)
Lemma month_start_text y m :
  1 <= m <= 12 → isoformat (month_start (y, m)) = first_of y m +:+ "T00:00:00+00:00".
Proof.
  intros Hm. unfold isoformat, month_start. rewrite datetime_of_instant.
  - unfold first_of. simpl. rewrite <- !app_str_assoc. simpl. by rewrite <- !app_str_assoc.
  - split; [by apply first_ok|]. simpl. lia.
Qed.

(** ** The partitions *)

(** A partition takes an instant: its bounds are the dates of two midnights
    (the database reads dates in UTC), between which the instant lies. *)
Definition midnight (s : string) (t : Z) : Prop := isoformat t = s +:+ "T00:00:00+00:00".
Definition takes (b : string * string * string) (t : Z) : Prop :=
  ∃ lo hi, in_calendar lo ∧ in_calendar hi ∧ midnight b.1.2 lo ∧ midnight b.2 hi ∧ lo <= t < hi.

Lemma bounds_next i year month :
  bounds_at year month i
  = (partition_name (month_at year month i).1 (month_at year month i).2,
     first_of (month_at year month i).1 (month_at year month i).2,
     first_of (month_at year month (i + 1)).1 (month_at year month (i + 1)).2).
Proof.
  unfold bounds_at. rewrite month_at_next. unfold partition_bounds. by destruct (_ =? 12).
Qed.

Lemma midnight_first p lo : month_ok p → in_calendar (month_start p) → in_calendar lo →
  midnight (first_of p.1 p.2) lo → lo = month_start p.
Proof.
  intros Hp Hc Hlo E. apply isoformat_inj; [done..|].
  unfold midnight in E. rewrite E. destruct p as [y m]. by rewrite month_start_text.
Qed.

Definition months (now k : Z) : Z * Z := nth_month (month_index (month_of now) + k).

(** In the calendar, partition [k] takes the instants of month [k]. *)
Lemma takes_month now k t : in_calendar t → in_calendar (month_start (months now k)) →
  in_calendar (month_start (months now (k + 1))) →
  takes (bounds_at (month_of now).1 (month_of now).2 k) t ↔ month_of t = months now k.
Proof.
  intros Ht Hlo Hhi. unfold takes. rewrite bounds_next, !month_at_index. cbn [fst snd].
  rewrite <- surjective_pairing. fold (months now k). fold (months now (k + 1)). split.
  - intros (lo & hi & Hcl & Hch & Hl & Hh & Hb).
    apply midnight_first in Hl as ->; [|apply nth_month_ok|done..].
    apply midnight_first in Hh as ->; [|apply nth_month_ok|done..].
    unfold months in Hb. rewrite Z.add_assoc in Hb. apply month_of_unique in Hb.
    unfold months. rewrite Hb. symmetry. apply nth_month_index, month_of_ok.
  - intros E. exists (month_start (months now k)), (month_start (months now (k + 1))).
    split_and!; [done..| | | |].
    + unfold midnight. rewrite <- month_start_text by apply nth_month_ok. by rewrite <- surjective_pairing.
    + unfold midnight. rewrite <- month_start_text by apply nth_month_ok. by rewrite <- surjective_pairing.
    + pose proof (month_of_bounds t) as [H _]. rewrite E, nth_month_index in H; [exact H|apply nth_month_ok].
    + pose proof (month_of_bounds t) as [_ H]. rewrite E in H. unfold months in *.
      rewrite Z.add_assoc. by rewrite month_index_nth in H.
Qed.

(** The months of a span are counted from its first. *)
Lemma months_index now t n : month_start (months now 0) <= t < month_start (months now n) →
  ∃ k, 0 <= k < n ∧ month_of t = months now k.
Proof.
  unfold months. rewrite Z.add_0_r. set (i := month_index (month_of now)). intros Hb.
  pose proof (month_of_bounds t) as Ht. cbv zeta in Ht. set (j := month_index (month_of t)) in *.
  exists (j - i). split.
  - destruct (Z_lt_le_dec j i) as [H|H].
    + destruct (Z.eq_dec (j + 1) i) as [<-|]; [lia|]. pose proof (month_start_mono (j + 1) i). lia.
    + destruct (Z_lt_le_dec j (i + n)); [lia|].
      destruct (Z.eq_dec j (i + n)) as [->|]; [lia|]. pose proof (month_start_mono (i + n) j). lia.
  - replace (i + (j - i)) with j by lia. symmetry. apply nth_month_index, month_of_ok.
Qed.

(** The name of a partition tells its month. *)
Lemma partition_name_inj p q : 0 <= p.1 < 10000 ∧ month_ok p → 0 <= q.1 < 10000 ∧ month_ok q →
  partition_name p.1 p.2 = partition_name q.1 q.2 → p = q.
Proof.
  destruct p as [y m], q as [y' m']. unfold month_ok, partition_name. cbn [fst snd]. intros [Hy Hm] [Hy' Hm'] E.
  apply app_str_inj_l in E as [_ E]; [|done].
  apply zfill_app_inj in E as [-> E]; [|lia|simpl; lia|simpl; lia]. injection E as E.
  rewrite <- (app_str_nil_r (zfill 2 m)), <- (app_str_nil_r (zfill 2 m')) in E.
  by apply zfill_app_inj in E as [-> _]; [|lia|simpl; lia|simpl; lia].
Qed.

Lemma months_ok now k : in_calendar (month_start (months now k)) →
  0 <= (months now k).1 < 10000 ∧ month_ok (months now k).
Proof.
  intros Hc%year_bounds. split; [|apply nth_month_ok]. revert Hc. unfold month_start.
  rewrite datetime_of_instant; [simpl; lia|]. split; [apply first_ok, nth_month_ok|]. simpl. lia.
Qed.

(** From the month of an instant of the calendar on, months begin in the
    calendar, up to its last. *)
Lemma months_calendar now n k : in_calendar now → in_calendar (month_start (months now n)) →
  0 <= k <= n → in_calendar (month_start (months now k)).
Proof.
  intros Hnow [_ Hn] Hk. unfold months in *. set (i := month_index (month_of now)) in *.
  assert (12 <= i) as Hi.
  { subst i. pose proof (year_bounds now Hnow). pose proof (month_of_ok now). unfold month_ok in *.
    unfold month_index, month_of in *. cbn [fst snd] in *. lia. }
  assert (∀ a b, a <= b → month_start (nth_month a) <= month_start (nth_month b)) as Hle.
  { intros a b H. destruct (Z.eq_dec a b) as [->|]; [done|]. pose proof (month_start_mono a b). lia. }
  split.
  - pose proof (Hle 12 (i + k) ltac:(lia)) as H12. unfold nth_month in H12 at 1.
    change (12 / 12, 12 mod 12 + 1) with (1, 1) in H12. rewrite month_start_day in H12. exact H12.
  - pose proof (Hle (i + k) (i + n) ltac:(lia)). lia.
Qed.

(** C27: every instant has its partition.  At any time, the command creates [n]
    partitions, the months from the current one on in order, whose names differ.
    Every instant from the beginning of the current month to the end of the last
    one, across the ends of years and leap days, is taken by exactly one of them;
    what is observed now goes to the first. *)
Theorem partitions_cover now n :
  in_calendar now → 0 <= n → in_calendar (month_start (months now n)) →
  let part k := bounds_at (month_of now).1 (month_of now).2 k in
  ensure_next_n_months record_statement now n []
    = Ok ((λ k, (part (Z.of_nat k)).1.1) <$> seq 0 (Z.to_nat n),
          (λ k, create_partition (part (Z.of_nat k))) <$> seq 0 (Z.to_nat n)) ∧
  (∀ j k, 0 <= j < n → 0 <= k < n → (part j).1.1 = (part k).1.1 → j = k) ∧
  (∀ t, in_calendar t → month_start (months now 0) <= t < month_start (months now n) →
     exists! k, 0 <= k < n ∧ takes (part k) t) ∧
  (0 < n → takes (part 0) now).
Proof.
  intros Hnow Hn Hend part.
  assert (∀ k, 0 <= k <= n → in_calendar (month_start (months now k))) as Hcal.
  { intros k. by apply months_calendar. }
  split_and!.
  - apply (ensure_from_log (month_of now).1 (month_of now).2 (Z.to_nat n) 0 []).
  - intros j k Hj Hk E. subst part. cbv beta in E. rewrite !bounds_next, !month_at_index in E.
    rewrite <- !surjective_pairing in E. fold (months now j) (months now k) in E. cbn [fst] in E.
    apply partition_name_inj in E; [|apply months_ok, Hcal; lia..].
    apply (f_equal month_index) in E. unfold months in E. rewrite !month_index_nth in E. lia.
  - intros t Ht Hb. pose proof (months_index now t n Hb) as (k & Hk & E). exists k. split.
    + split; [done|]. apply takes_month; [done|apply Hcal; lia..|done].
    + intros k' [Hk' Ht']. apply takes_month in Ht'; [|done|apply Hcal; lia..].
      rewrite E in Ht'. apply (f_equal month_index) in Ht'. unfold months in Ht'. rewrite !month_index_nth in Ht'. lia.
  - intros Hpos. apply takes_month; [done|apply Hcal; lia..|].
    unfold months. rewrite Z.add_0_r. symmetry. apply nth_month_index, month_of_ok.
Qed.

(** In November 2024: three partitions, the third of which takes the instants of
    January. *)
Lemma partitions_cover_witness :
  (λ r : list string * list string, r.1) <$>
    (match ensure_next_n_months record_statement 1731000000000000 3 [] with Ok r => Some r | Raise _ => None end)
  = Some ["indicator_observations_2024_11"; "indicator_observations_2024_12";
          "indicator_observations_2025_01"] ∧
  exists! k, 0 <= k < 3 ∧ takes (bounds_at (month_of 1731000000000000).1 (month_of 1731000000000000).2 k) 1737000000000000.
Proof.
  destruct (partitions_cover 1731000000000000 3) as (E & _ & Ht & _).
  - vm_compute; split; [discriminate|reflexivity].
  - lia.
  - vm_compute; split; [discriminate|reflexivity].
  - rewrite E. split; [vm_compute; reflexivity|]. apply Ht.
    + vm_compute; split; [discriminate|reflexivity].
    + vm_compute; split; [discriminate|reflexivity].
Defined.
