(* ===== verification/Schema.v ===== *)
(** The schema of the database twice: as [persistence/models.py] declares it and
    as [migrations/versions/0001_initial.py] creates it, with all their differences;
    and the first partitions, which the migration and a command both create. *)

From S2P Require Import Prelude Errors PyStr PyStrFacts PyDict Uuid UuidText Regex Enums Sha256 Registry State Partitioning.
#[local] Open Scope string_scope.
#[local] Open Scope list_scope.

Inductive sql_type :=
  | VARCHAR (n : Z) | TEXT | BOOLEAN | INTEGER | BIGINT | UUID_ | JSON_ | JSONB | TIMESTAMPTZ | ARRAY_TEXT.
#[export] Instance sql_type_eq_dec : EqDecision sql_type.
Proof. solve_decision. Defined.

(** A column: its type, whether it may be [NULL], the default that the client fills
    in ([default=...]), the one that the database fills in ([server_default=...] or
    [DEFAULT]), each as text, and whether the database numbers the rows by it. *)
Record column := Column {
  col_name : string;
  col_type : sql_type;
  col_null : bool;
  col_client : option string;
  col_server : option string;
  col_auto : bool
}.

(** An index: its name, if the code gives it one, its method, if it is not the
    default one, and its columns as they are written. *)
Record index := Index { ix_name : option string; ix_using : option string; ix_on : list string }.
#[export] Instance index_eq_dec : EqDecision index.
Proof. solve_decision. Defined.

(** A reference: the column, the column it references, and [ON DELETE]. *)
Record reference := Reference { fk_column : string; fk_target : string; fk_ondelete : option string }.
#[export] Instance reference_eq_dec : EqDecision reference.
Proof. solve_decision. Defined.

Record table := Table {
  tab_name : string;
  tab_columns : list column;
  tab_key : list string;
  tab_references : list reference;
  tab_unique : list (string * list string);
  tab_indexes : list index
}.

(** A column that is required, one that may be [NULL], one that the client or the
    database gives a default, and one that numbers the rows. *)
Definition req (n : string) (t : sql_type) : column := Column n t false None None false.
Definition opt (n : string) (t : sql_type) : column := Column n t true None None false.
Definition client (n : string) (t : sql_type) (null : bool) (d : string) : column := Column n t null (Some d) None false.
Definition server (n : string) (t : sql_type) (null : bool) (d : string) : column := Column n t null None (Some d) false.
Definition serial (n : string) : column := Column n BIGINT false None None true.

(** [index=True] on a column. *)
Definition indexed (c : string) : index := Index None None [c].
Definition named_index (n : string) (on : list string) : index := Index (Some n) None on.

Definition source_reference : reference := Reference "source_id" "cti.sources.id" (Some "CASCADE").

(** ** The models *)

(** [Mapped[... | None]] makes a column nullable; the type of [source_id] in the runs
    is that of the column it references. *)
Definition orm_sources : table := Table "sources"
  [req "id" (VARCHAR 128); opt "name" (VARCHAR 256); req "plugin" (VARCHAR 128); req "config_hash" (VARCHAR 64);
   client "enabled" BOOLEAN false "true"; client "watermark" JSON_ true "{}"; opt "last_etag" (VARCHAR 256);
   opt "last_modified" (VARCHAR 64); opt "last_seen_id" (VARCHAR 256); req "created_at" TIMESTAMPTZ;
   req "updated_at" TIMESTAMPTZ] ["id"] [] [] [].

Definition orm_feed_runs : table := Table "feed_runs"
  [req "id" UUID_; req "source_id" (VARCHAR 128); req "state" (VARCHAR 16); req "started_at" TIMESTAMPTZ;
   opt "finished_at" TIMESTAMPTZ; client "fetched_bytes" BIGINT false "0"; client "records_in" BIGINT false "0";
   client "records_out" BIGINT false "0"; client "parse_errors" INTEGER false "0"; client "dropped" INTEGER false "0";
   opt "error" TEXT; client "watermark" JSON_ true "{}"; opt "raw_uri" (VARCHAR 1024)]
  ["id"] [source_reference] [] [indexed "source_id"; indexed "state"; indexed "started_at"].

Definition orm_indicators : table := Table "indicators"
  [req "id" UUID_; req "type" (VARCHAR 32); req "value" TEXT; opt "pattern" TEXT; client "confidence" INTEGER false "50";
   client "severity" (VARCHAR 16) false "info"; client "tlp" (VARCHAR 16) false "AMBER"; client "tags" ARRAY_TEXT false "{}";
   req "first_seen_by_us" TIMESTAMPTZ; req "last_seen_by_us" TIMESTAMPTZ; opt "valid_from" TIMESTAMPTZ;
   opt "valid_until" TIMESTAMPTZ; client "schema_version" (VARCHAR 8) false "1"] ["id"] [] [] [indexed "type"].

Definition orm_observations : table := Table "indicator_observations"
  [serial "id"; req "indicator_id" UUID_; req "source_id" (VARCHAR 128); req "feed_run_id" UUID_;
   req "observed_at" TIMESTAMPTZ; req "tlp" (VARCHAR 16); req "confidence" INTEGER; client "raw" JSON_ false "{}";
   client "schema_version" (VARCHAR 8) false "1"]
  ["id"] [] [] [indexed "indicator_id"; indexed "source_id"; indexed "feed_run_id"; indexed "observed_at"].

Definition orm_dead_letters : table := Table "dead_letters"
  [serial "id"; req "feed_run_id" UUID_; req "source_id" (VARCHAR 128); req "payload_sha" (VARCHAR 64);
   req "error_class" (VARCHAR 128); req "error_msg" TEXT; req "traceback" TEXT; client "reason" (VARCHAR 64) false "permanent";
   req "created_at" TIMESTAMPTZ; opt "replayed_at" TIMESTAMPTZ]
  ["id"] [] [] [indexed "feed_run_id"; indexed "source_id"; indexed "created_at"].

Definition orm_schema : list table :=
  [orm_sources; orm_feed_runs; orm_indicators; orm_observations; orm_dead_letters].

(** ** The migration *)

Definition mig_sources : table := Table "sources"
  [req "id" (VARCHAR 128); opt "name" (VARCHAR 256); req "plugin" (VARCHAR 128); req "config_hash" (VARCHAR 64);
   server "enabled" BOOLEAN false "true"; server "watermark" JSON_ true "{}"; opt "last_etag" (VARCHAR 256);
   opt "last_modified" (VARCHAR 64); opt "last_seen_id" (VARCHAR 256); req "created_at" TIMESTAMPTZ;
   req "updated_at" TIMESTAMPTZ] ["id"] [] [] [].

Definition mig_feed_runs : table := Table "feed_runs"
  [req "id" UUID_; req "source_id" (VARCHAR 128); req "state" (VARCHAR 16); req "started_at" TIMESTAMPTZ;
   opt "finished_at" TIMESTAMPTZ; server "fetched_bytes" BIGINT true "0"; server "records_in" BIGINT true "0";
   server "records_out" BIGINT true "0"; server "parse_errors" INTEGER true "0"; server "dropped" INTEGER true "0";
   opt "error" TEXT; server "watermark" JSON_ true "{}"; opt "raw_uri" (VARCHAR 1024)]
  ["id"] [source_reference] []
  [named_index "idx_feed_runs_source_started" ["source_id"; "started_at DESC"]; named_index "idx_feed_runs_state" ["state"]].

Definition mig_indicators : table := Table "indicators"
  [req "id" UUID_; req "type" (VARCHAR 32); req "value" TEXT; opt "pattern" TEXT; server "confidence" INTEGER true "50";
   server "severity" (VARCHAR 16) true "info"; server "tlp" (VARCHAR 16) true "AMBER"; server "tags" ARRAY_TEXT true "{}";
   req "first_seen_by_us" TIMESTAMPTZ; req "last_seen_by_us" TIMESTAMPTZ; opt "valid_from" TIMESTAMPTZ;
   opt "valid_until" TIMESTAMPTZ; server "schema_version" (VARCHAR 8) true "1"]
  ["id"] [] [("uq_indicators_type_value", ["type"; "value"])]
  [named_index "idx_indicators_type" ["type"]; Index (Some "idx_indicators_tags") (Some "GIN") ["tags"];
   Index (Some "idx_indicators_value_trgm") (Some "GIN") ["value gin_trgm_ops"]].

(** [CREATE TABLE cti.indicator_observations (...) PARTITION BY RANGE (observed_at)]. *)
Definition mig_observations : table := Table "indicator_observations"
  [serial "id"; req "indicator_id" UUID_; req "source_id" (VARCHAR 128); req "feed_run_id" UUID_;
   req "observed_at" TIMESTAMPTZ; req "tlp" (VARCHAR 16); req "confidence" INTEGER; server "raw" JSONB false "{}";
   server "schema_version" (VARCHAR 8) false "1"] ["observed_at"; "id"] [] []
  [named_index "idx_obs_indicator_id" ["indicator_id"]; named_index "idx_obs_source" ["source_id"];
   named_index "idx_obs_run" ["feed_run_id"]].

Definition mig_dead_letters : table := Table "dead_letters"
  [serial "id"; req "feed_run_id" UUID_; req "source_id" (VARCHAR 128); req "payload_sha" (VARCHAR 64);
   req "error_class" (VARCHAR 128); req "error_msg" TEXT; req "traceback" TEXT; server "reason" (VARCHAR 64) true "permanent";
   req "created_at" TIMESTAMPTZ; opt "replayed_at" TIMESTAMPTZ]
  ["id"] [] [] [indexed "feed_run_id"; indexed "source_id"; indexed "created_at"].

(** The month of a date that begins a month, [i] months later. *)
Definition add_months (year month i : Z) : Z * Z :=
  let n := (year * 12 + (month - 1) + i)%Z in ((n / 12)%Z, (n mod 12 + 1)%Z).

(** One turn of the loop that creates the first partitions: [to_char(start_d,
    'YYYY_MM')] and the two dates as literals, of years of four digits. *)
Definition bootstrap_partition (year month i : Z) : string * string :=
  let s := add_months year month i in
  let e := add_months year month (i + 1) in
  let tname := "indicator_observations_" +:+ zfill 4 s.1 +:+ "_" +:+ zfill 2 s.2 in
  (tname,
   "CREATE TABLE IF NOT EXISTS cti." +:+ tname +:+
   " PARTITION OF cti.indicator_observations FOR VALUES FROM ('" +:+ first_of s.1 s.2 +:+ "') TO ('"
   +:+ first_of e.1 e.2 +:+ "')").

(** [FOR i IN 0..2 LOOP]. *)
Definition bootstrap (year month : Z) : list (string * string) :=
  bootstrap_partition year month <$> [0; 1; 2]%Z.

(** The tables in the order of their creation, and the order of [downgrade]. *)
Definition upgrade : list table := [mig_sources; mig_feed_runs; mig_indicators; mig_observations; mig_dead_letters].
Definition downgrade : list string := ["dead_letters"; "indicator_observations"; "indicators"; "feed_runs"; "sources"].

(** ** How the two differ *)

(** In what a column of the database differs from the column of the model: its
    type, that it may be [NULL] or not, and the value that it has when the code
    names none, which the client fills in on one side and the database on the
    other. *)
Definition column_differences (orm db : column) : list string :=
  (if bool_decide (col_type orm = col_type db) then [] else ["type"]) ++
  (if bool_decide (col_null orm = col_null db) then [] else ["null"]) ++
  (if bool_decide (col_client orm = col_server db) then [] else ["default"]) ++
  (if bool_decide (col_auto orm = col_auto db) then [] else ["auto"]).

Definition table_differences (orm db : table) : list (string * string) :=
  concat (zip_with (λ o d, (λ w, (col_name o, w)) <$> column_differences o d) (tab_columns orm) (tab_columns db)).

(** The columns that an index begins with, of all indexes of the default method. *)
Definition first_columns (t : table) : list string :=
  omap (λ i, match ix_using i, ix_on i with None, c :: _ => Some c | _, _ => None end) (tab_indexes t).

(** A table references only tables that were created before it. *)
Fixpoint references_before (seen : list string) (l : list table) : bool :=
  match l with
  | [] => true
  | t :: l =>
      forallb (λ r, existsb (λ n, startswith (fk_target r) ("cti." +:+ n +:+ ".")) seen) (tab_references t)
      && references_before (tab_name t :: seen) l
  end.

(** The models and the migration compared.  They declare the same tables with the
    same columns in the same order and the same references; a table is created
    before what references it, and dropped in the reverse order.  These are all the
    differences: one column is [JSON] in the model and [JSONB] in the database;
    columns with a default may be [NULL] in the database; the partitioned table has
    another key; the constraint on the indicators and the two [GIN] indexes are in
    the migration only; the indexes on the start of a run and on the time of an
    observation are in the models only. *)
Theorem schema_agreement :
  Forall2 (λ orm db, tab_name orm = tab_name db ∧ (col_name <$> tab_columns orm) = (col_name <$> tab_columns db) ∧
                     tab_references orm = tab_references db) orm_schema upgrade ∧
  references_before [] upgrade = true ∧ rev (tab_name <$> upgrade) = downgrade ∧
  zip_with table_differences orm_schema upgrade
  = [[]; [("fetched_bytes", "null"); ("records_in", "null"); ("records_out", "null"); ("parse_errors", "null"); ("dropped", "null")];
     [("confidence", "null"); ("severity", "null"); ("tlp", "null"); ("tags", "null"); ("schema_version", "null")];
     [("raw", "type")]; [("reason", "null")]] ∧
  zip_with (λ orm db, (tab_key orm, tab_key db)) orm_schema upgrade
  = [(["id"], ["id"]); (["id"], ["id"]); (["id"], ["id"]); (["id"], ["observed_at"; "id"]); (["id"], ["id"])] ∧
  (tab_unique <$> orm_schema, mjoin (tab_unique <$> upgrade))
  = ([[]; []; []; []; []], [("uq_indicators_type_value", ["type"; "value"])]) ∧
  zip_with (λ orm db, (first_columns orm, first_columns db)) orm_schema upgrade
  = [([], []); (["source_id"; "state"; "started_at"], ["source_id"; "state"]); (["type"], ["type"]);
     (["indicator_id"; "source_id"; "feed_run_id"; "observed_at"], ["indicator_id"; "source_id"; "feed_run_id"]);
     (["feed_run_id"; "source_id"; "created_at"], ["feed_run_id"; "source_id"; "created_at"])].
Proof. split_and!; [|reflexivity..]. by repeat constructor. Qed.

(** ** The first partitions *)

Lemma add_months_month_at year month i : add_months year month i = month_at year month i.
Proof.
  unfold add_months, month_at. rewrite <- Z.add_assoc, Z.add_comm, Z.div_add by done.
  rewrite Z.mod_add by done. f_equal. lia.
Qed.

Lemma bootstrap_bounds year month i :
  bootstrap_partition year month i = ((bounds_at year month i).1.1, create_partition (bounds_at year month i)).
Proof.
  unfold bootstrap_partition. rewrite !add_months_month_at, month_at_next.
  unfold bounds_at, partition_bounds, create_partition, partition_name.
  destruct (month_at year month i) as [y m]. simpl. by destruct (Z.eqb_spec m 12) as [->|_].
Qed.

(** C38: the migration and the maintenance command create the same partitions.  At
    any time, read in one time zone, the statements of the loop in SQL are, name by
    name and text by text, those that [ensure_next_n_months] issues for three
    months, across the ends of years too: the command adds nothing to what the
    migration has just made. *)
Theorem bootstrap_agrees now :
  ensure_next_n_months record_statement now 3 []
  = Ok (fst <$> bootstrap (month_of now).1 (month_of now).2, snd <$> bootstrap (month_of now).1 (month_of now).2).
Proof.
  unfold ensure_next_n_months, month_of. cbn [fst snd].
  rewrite (ensure_from_log _ _ (Z.to_nat 3) 0 []). unfold bootstrap.
  cbn [fmap list_fmap]. rewrite !bootstrap_bounds. reflexivity.
Qed.

(** ** Widths *)

(** A text fits a column of the migration. *)
Definition fits_column (t : table) (c s : string) : Prop :=
  match find (λ k, String.eqb (col_name k) c) (tab_columns t) with
  | Some k => match col_type k with VARCHAR n => (Z.of_nat (String.length s) <= n)%Z | TEXT => True | _ => False end
  | None => False
  end.
#[export] Instance fits_column_dec t c s : Decision (fits_column t c s).
Proof. unfold fits_column. destruct (find _ _) as [k|]; [destruct (col_type k)|]; apply _. Defined.

Lemma length_sha256_round st kw : length st = 8 → length (sha256_round st kw) = 8.
Proof. intros H. do 9 (destruct st as [|? st]; try done). Qed.

Lemma length_sha256_block h block : length h = 8 → length (sha256_block h block) = 8.
Proof.
  intros H. unfold sha256_block. rewrite length_zip_with.
  assert (∀ l st, length st = 8 → length (fold_left sha256_round l st) = 8) as Hl.
  { intros l. induction l as [|x l IH]; [done|]. intros st Hst. by apply IH, length_sha256_round. }
  rewrite Hl by done. lia.
Qed.

Lemma length_sha256_hex m : String.length (sha256_hex m) = 64.
Proof.
  unfold sha256_hex. rewrite length_hex_bytes.
  assert (∀ l h, length h = 8 → length (fold_left sha256_block l h) = 8) as Hl.
  { intros l. induction l as [|x l IH]; [done|]. intros h Hh. by apply IH, length_sha256_block. }
  assert (∀ l, length (flat_map (to_be 4) l) = 4 * length l) as Hf.
  { intros l. induction l as [|x l IH]; [done|]. cbn [flat_map length]. rewrite length_app, length_to_be, IH. lia. }
  rewrite Hf, Hl by done. reflexivity.
Qed.

(** What the code writes of its own fits.  The names of the types, markings,
    severities and states, the digest of a payload, the name of every class of
    exception and the reason of a dead letter fit the columns that store them. *)
Theorem stored_texts_fit :
  (∀ ty : IndicatorType, fits_column mig_indicators "type" (value ty)) ∧
  (∀ t : TLP, fits_column mig_indicators "tlp" (value t) ∧ fits_column mig_observations "tlp" (value t)) ∧
  (∀ s : Severity, fits_column mig_indicators "severity" (value s)) ∧
  (∀ st : RunState, fits_column mig_feed_runs "state" (value st)) ∧
  (∀ payload, fits_column mig_dead_letters "payload_sha" (sha256_hex payload)) ∧
  (∀ c, fits_column mig_dead_letters "error_class" (class_name c)) ∧
  fits_column mig_dead_letters "reason" "permanent".
Proof.
  split_and!.
  - intros []; vm_compute; done.
  - intros []; split; vm_compute; done.
  - intros []; vm_compute; done.
  - intros []; vm_compute; done.
  - intros payload. unfold fits_column. cbn -[sha256_hex]. rewrite length_sha256_hex. done.
  - intros []; vm_compute; done.
  - vm_compute. done.
Qed.

(** An identifier of a source is not limited by the registry, but by its column. *)
Definition long_id : string := String.string_of_list_ascii (replicate 129 "a"%char).
Theorem long_source_id : slug long_id = Ok long_id ∧ ¬ fits_column mig_sources "id" long_id.
Proof. split; [reflexivity|]. vm_compute. auto. Qed.
