(* ===== verification/Ranges.v ===== *)
(** Lists of networks as numeric ranges: what it means for an address to be in
    one of the networks of a deny list or an allow list. *)

From S2P Require Import Prelude Errors PyStr IpAddr.
#[local] Open Scope Z_scope.

(** A range is its first address and its size. *)
Definition in_range (n : Z) (r : Z * Z) : bool := (r.1 <=? n) && (n <? r.1 + r.2).

(** The networks of ranges of IPv4 and of IPv6 addresses. *)
Definition nets_of (r4 r6 : list (Z * Z)) : list network :=
  ((λ r, Net false r.1 (32 - Z.log2 r.2)) <$> r4) ++ ((λ r, Net true r.1 (128 - Z.log2 r.2)) <$> r6).

(** A range that is a network: its size is a power of two and divides its
    first address. *)
Definition aligned (bits : Z) (r : Z * Z) : bool :=
  (0 <? r.2) && (2 ^ (bits - (bits - Z.log2 r.2)) =? r.2) && (r.1 mod r.2 =? 0).

Lemma mask_range size addr n :
  0 < size → addr mod size = 0 → (n / size * size =? addr) = in_range n (addr, size).
Proof.
  intros Hs Ha. unfold in_range. simpl.
  pose proof (Z.div_mod n size). pose proof (Z.mod_pos_bound n size Hs).
  pose proof (Z.div_mod addr size).
  destruct (Z.eqb_spec (n / size * size) addr) as [E|E];
    destruct (Z.leb_spec addr n), (Z.ltb_spec n (addr + size)); simpl; try done; try lia.
  exfalso. apply E. assert (addr = size * (addr / size)) as Hq by lia.
  assert (n / size = addr / size) as ->; [|lia].
  symmetry. apply (Z.div_unique_pos n size (addr / size) (n - addr)); lia.
Qed.

Lemma mask_aligned v6 r n :
  aligned (max_prefixlen v6) r = true →
  (mask_addr v6 (max_prefixlen v6 - Z.log2 r.2) n =? r.1) = in_range n r.
Proof.
  unfold aligned, mask_addr, net_size. intros [[Hs Hp]%andb_true_iff Ha]%andb_true_iff.
  apply Z.ltb_lt in Hs. apply Z.eqb_eq in Hp, Ha. rewrite Hp.
  destruct r as [a size]. by apply mask_range.
Qed.

Lemma existsb_none {A} (f : A → bool) (l : list A) : (∀ x, x ∈ l → f x = false) → existsb f l = false.
Proof. apply existsb_false_forall. Qed.

Lemma existsb_fmap_ext {A B} (f : B → bool) (g : A → B) (h : A → bool) l :
  (∀ x, x ∈ l → f (g x) = h x) → existsb f (g <$> l) = existsb h l.
Proof.
  induction l as [|x l IH]; [done|]. intros Hx. simpl. rewrite Hx by set_solver.
  f_equal. apply IH. intros y Hy. apply Hx. set_solver.
Qed.

Lemma in_nets_of4 r4 r6 n :
  forallb (aligned 32) r4 = true →
  existsb (in_net (IP4 n)) (nets_of r4 r6) = existsb (in_range n) r4.
Proof.
  intros Hal. unfold nets_of. rewrite existsb_app.
  rewrite (existsb_none _ ((λ r, Net true r.1 (128 - Z.log2 r.2)) <$> r6)).
  2:{ intros x (r & -> & _)%list_elem_of_fmap. done. }
  rewrite orb_false_r. apply existsb_fmap_ext. intros r Hr. simpl.
  apply (mask_aligned false). simpl. rewrite forallb_forall in Hal.
  apply Hal. by apply list_elem_of_In.
Qed.

Lemma in_nets_of6 r4 r6 n sc :
  forallb (aligned 128) r6 = true →
  existsb (in_net (IP6 n sc)) (nets_of r4 r6) = existsb (in_range n) r6.
Proof.
  intros Hal. unfold nets_of. rewrite existsb_app.
  rewrite (existsb_none _ ((λ r, Net false r.1 (32 - Z.log2 r.2)) <$> r4)).
  2:{ intros x (r & -> & _)%list_elem_of_fmap. done. }
  rewrite orb_false_l. apply existsb_fmap_ext. intros r Hr. simpl.
  apply (mask_aligned true). simpl. rewrite forallb_forall in Hal.
  apply Hal. by apply list_elem_of_In.
Qed.
