(* ===== verification/Egress.v ===== *)
(** [security/egress.py]: the guard of outgoing requests. *)

From S2P Require Import Prelude Errors PyStr PyStrFacts IpAddr IpAddrFacts Ranges UrlParse.
#[local] Open Scope Z_scope.

Definition DENY_LIST : list string :=
  ["0.0.0.0/8"; "10.0.0.0/8"; "100.64.0.0/10"; "127.0.0.0/8"; "169.254.0.0/16"; "172.16.0.0/12";
   "192.0.0.0/24"; "192.0.2.0/24"; "192.168.0.0/16"; "198.18.0.0/15"; "198.51.100.0/24";
   "203.0.113.0/24"; "224.0.0.0/4"; "240.0.0.0/4"; "::1/128"; "fc00::/7"; "fe80::/10"].

(** [_DENY_NETS], built when the module is imported. *)
Definition DENY_NETS : res (list network) := mapM_res ip_network DENY_LIST.
Definition deny_nets : list network := match DENY_NETS with Ok l => l | Raise _ => [] end.

Definition is_blocked (addr : string) : bool :=
  match ip_address addr with
  | Ok ip => existsb (in_net ip) deny_nets
  | Raise _ => false
  end.

(** [check_url(url, allow_http)]; [getaddrinfo] is the resolver, with the
    addresses it returns. *)
Definition check_url (getaddrinfo : string → res (list string)) (url : string) (allow_http : bool)
    : res unit :=
  parsed ← urlparse url;
  if negb (in_list (scheme parsed) ["http"; "https"])
  then raise EgressBlocked ("unsupported scheme: " +:+ scheme parsed)
  else if String.eqb (scheme parsed) "http" && negb allow_http
  then raise EgressBlocked ("plaintext HTTP forbidden by default: " +:+ url)
  else match hostname parsed with
       | None => raise EgressBlocked ("missing host in URL: " +:+ url)
       | Some host =>
           infos ← try_except (getaddrinfo host) [OSError]
                     (λ e, raise EgressBlocked ("DNS failure for " +:+ host +:+ ": " +:+ Errors.msg e));
           match find is_blocked infos with
           | Some addr => raise EgressBlocked ("blocked egress: " +:+ host +:+ " -> " +:+ addr)
           | None => Ok tt
           end
       end.

(** ** The blocked addresses *)

Example deny_nets_ok : is_ok DENY_NETS = true.
Proof. vm_compute. reflexivity. Qed.

(** The ranges of the deny list, as numbers: first address and size. *)
Definition denied4 : list (Z * Z) :=
  [(0, 2 ^ 24); (167772160, 2 ^ 24); (1681915904, 2 ^ 22); (2130706432, 2 ^ 24);
   (2851995648, 2 ^ 16); (2886729728, 2 ^ 20); (3221225472, 2 ^ 8); (3221225984, 2 ^ 8);
   (3232235520, 2 ^ 16); (3323068416, 2 ^ 17); (3325256704, 2 ^ 8); (3405803776, 2 ^ 8);
   (3758096384, 2 ^ 28); (4026531840, 2 ^ 28)].
Definition denied6 : list (Z * Z) :=
  [(1, 1); (334965454937798799971759379190646833152, 2 ^ 121);
   (338288524927261089654018896841347694592, 2 ^ 118)].

Lemma deny_nets_value : deny_nets = nets_of denied4 denied6.
Proof. vm_compute. reflexivity. Qed.

Lemma in_nets4 n : existsb (in_net (IP4 n)) deny_nets = existsb (in_range n) denied4.
Proof. rewrite deny_nets_value. apply in_nets_of4. vm_compute. reflexivity. Qed.

Lemma in_nets6 n sc : existsb (in_net (IP6 n sc)) deny_nets = existsb (in_range n) denied6.
Proof. rewrite deny_nets_value. apply in_nets_of6. vm_compute. reflexivity. Qed.

Lemma find_none_forall {A} (f : A → bool) l : find f l = None ↔ Forall (λ x, f x = false) l.
Proof.
  induction l as [|x l IH]; simpl; [done|]. destruct (f x) eqn:E.
  - split; [done|]. intros [H _]%Forall_cons. congruence.
  - rewrite IH, Forall_cons. naive_solver.
Qed.

(** The checks on the host, once the scheme is accepted. *)
Lemma host_checks getaddrinfo host :
  (infos ← try_except (getaddrinfo host) [OSError]
             (λ e, raise EgressBlocked ("DNS failure for " +:+ host +:+ ": " +:+ Errors.msg e));
   match find is_blocked infos with
   | Some addr => raise EgressBlocked ("blocked egress: " +:+ host +:+ " -> " +:+ addr)
   | None => Ok tt
   end) = Ok tt ↔
  ∃ addrs, getaddrinfo host = Ok addrs ∧ Forall (λ a, is_blocked a = false) addrs.
Proof.
  unfold try_except. destruct (getaddrinfo host) as [addrs|e]; simpl.
  - destruct (find is_blocked addrs) as [a|] eqn:Ef.
    + split; [done|]. intros (l & [= <-] & Hall). apply find_none_forall in Hall. congruence.
    + split; [|done]. intros _. exists addrs. split; [done|]. by apply find_none_forall.
  - destruct (isinstance e OSError); simpl; (split; [done|]); by intros (l & ? & _).
Qed.

Lemma check_url_Ok getaddrinfo url allow_http :
  check_url getaddrinfo url allow_http = Ok tt ↔
  ∃ p host addrs,
    urlparse url = Ok p ∧ (scheme p = "https" ∨ (scheme p = "http" ∧ allow_http = true)) ∧
    hostname p = Some host ∧ getaddrinfo host = Ok addrs ∧
    Forall (λ a, is_blocked a = false) addrs.
Proof.
  unfold check_url. destruct (urlparse url) as [p|e]; [|simpl; naive_solver].
  change (Ok p ≫= ?f) with (f p). cbv beta.
  assert ((negb (in_list (scheme p) ["http"; "https"]) = false ∧
           String.eqb (scheme p) "http" && negb allow_http = false) ↔
          (scheme p = "https" ∨ (scheme p = "http" ∧ allow_http = true))) as Hsch.
  { unfold in_list. simpl. rewrite orb_false_r.
    destruct (String.eqb_spec (scheme p) "http") as [->|]; [by destruct allow_http; naive_solver|].
    destruct (String.eqb_spec (scheme p) "https") as [->|]; naive_solver. }
  destruct (negb (in_list _ _)) eqn:E1; [split; [done|]; naive_solver|].
  destruct (String.eqb (scheme p) "http" && negb allow_http) eqn:E2; [split; [done|]; naive_solver|].
  destruct (hostname p) as [host|] eqn:Eh; [|split; [done|]; naive_solver].
  rewrite host_checks. naive_solver.
Qed.

(** C28: what the egress guard lets through.  A URL passes exactly if it parses,
    its scheme is https, or http where that is allowed, it names a host, the
    host resolves, and none of its addresses is in the deny list; and for every
    IPv4 address, and every IPv6 one, being in the list is being in one of the
    numeric ranges. *)
Theorem egress_guard getaddrinfo url allow_http :
  (check_url getaddrinfo url allow_http = Ok tt ↔
   ∃ p host addrs,
     urlparse url = Ok p ∧ (scheme p = "https" ∨ (scheme p = "http" ∧ allow_http = true)) ∧
     hostname p = Some host ∧ getaddrinfo host = Ok addrs ∧
     Forall (λ a, is_blocked a = false) addrs) ∧
  (∀ n, 0 <= n < 2 ^ 32 → is_blocked (str_ipv4 n) = existsb (in_range n) denied4) ∧
  (∀ s n sc, ip_address s = Ok (IP6 n sc) → is_blocked s = existsb (in_range n) denied6).
Proof.
  split; [|split].
  - apply check_url_Ok.
  - intros n Hn. unfold is_blocked, ip_address. rewrite IPv4Address_str by (simpl in Hn; lia).
    apply in_nets4.
  - intros s n sc Hs. unfold is_blocked. rewrite Hs. apply in_nets6.
Qed.

(** Internal addresses in IPv6 clothing pass.  The unspecified address, the
    IPv4-mapped form of the loopback and metadata addresses and their NAT64 form
    are in no range of the list, so a host that resolves to one of them is let
    through although the same IPv4 address is blocked. *)
Theorem egress_mapped_gap getaddrinfo :
  getaddrinfo "evil.example" = Ok ["::ffff:127.0.0.1"; "::ffff:169.254.169.254"; "::"; "64:ff9b::7f00:1"] →
  check_url getaddrinfo "https://evil.example/latest" false = Ok tt ∧
  is_blocked "127.0.0.1" = true ∧ is_blocked "169.254.169.254" = true ∧ is_blocked "0.0.0.0" = true.
Proof.
  intros H. split; [|vm_compute; done]. apply check_url_Ok.
  exists (ParseResult "https" "evil.example" "/latest" "" "" ""), "evil.example".
  eexists. split; [vm_compute; reflexivity|]. split; [by left|]. split; [vm_compute; reflexivity|].
  split; [exact H|]. repeat constructor.
Qed.

Lemma egress_mapped_gap_witness :
  check_url (λ _, Ok ["::ffff:127.0.0.1"; "::ffff:169.254.169.254"; "::"; "64:ff9b::7f00:1"])
    "https://evil.example/latest" false = Ok tt.
Proof. apply egress_mapped_gap. reflexivity. Defined.

Lemma egress_guard_witness :
  is_blocked (str_ipv4 167772161) = true ∧
  check_url (λ _, Ok ["93.184.216.34"]) "https://example.com/feed" false = Ok tt.
Proof.
  destruct (egress_guard (λ _, Ok ["93.184.216.34"]) "https://example.com/feed" false)
    as (Hpass & H4 & _).
  split.
  - rewrite H4 by lia. vm_compute. reflexivity.
  - apply Hpass. exists (ParseResult "https" "example.com" "/feed" "" "" ""), "example.com".
    eexists. split; [vm_compute; reflexivity|]. split; [by left|].
    split; [vm_compute; reflexivity|]. split; [reflexivity|]. repeat constructor.
Defined.
