(* ===== verification/Archive.v ===== *)
(** [security/archive.py]: the archives of raw payloads. *)

From S2P Require Import Prelude DateTime Errors PyStr PyStrFacts PyDict PyVal Uuid Models.

Abbreviation bytes := (list Byte.byte).

(** [gzip], as the archives rely on it. *)
Class Gzip := {
  compress : bytes → bytes;
  decompress : bytes → res bytes;
  decompress_compress b : decompress (compress b) = Ok b
}.

(** A store of named objects: the file system below the root, or the buckets.
    Writing a name makes it readable and leaves the other names alone. *)
Class ObjectStore (F : Type) := {
  store_write : string → bytes → F → res F;
  store_read : string → F → res bytes;
  read_written k b f f' : store_write k b f = Ok f' → store_read k f' = Ok b;
  read_other k k' b f f' : store_write k b f = Ok f' → k ≠ k' → store_read k' f' = store_read k' f
}.

#[local] Obligation Tactic := idtac.

#[export] Program Instance identity_gzip : Gzip := {| compress b := b; decompress b := Ok b |}.
Next Obligation. done. Qed.

Definition memory_files := list (string * bytes).
#[export] Program Instance memory_store : ObjectStore memory_files := {|
  store_write k b f := Ok (dset f k b);
  store_read k f := match dget f k with
                    | Some b => Ok b
                    | None => raise OSError ("No such file or directory: " +:+ k)
                    end
|}.
Next Obligation. intros k b f f' [= <-]. by rewrite dget_dset_eq. Qed.
Next Obligation. intros k k' b f f' [= <-] Hk. by rewrite dget_dset_ne. Qed.

Section archive.
Context {F : Type} `{!ObjectStore F} `{!Gzip}.

(** [payload.etag or payload.fetched_at.strftime(...)]. *)
Definition raw_tag (payload : RawPayload) : string :=
  match etag payload with
  | Some e => if String.eqb e "" then strftime (fetched_at payload) else e
  | None => strftime (fetched_at payload)
  end.

(** ** [FilesystemArchive] *)

Definition tag_of (payload : RawPayload) : string :=
  replace (strip_by (λ c, bool_decide (c = dquote_char)) (raw_tag payload)) "/" "_".

Definition fs_key (ctx : RunContext) (payload : RawPayload) : string :=
  source_id ctx +:+ "/" +:+ str_uuid (run_id ctx) +:+ "/" +:+ tag_of payload +:+ ".bin.gz".

(** [root] is the resolved root directory. *)
Definition fs_put (root : string) (ctx : RunContext) (payload : RawPayload) (f : F) : res (string * F) :=
  let target := root +:+ "/" +:+ fs_key ctx payload in
  f ← store_write target (compress (body payload)) f;
  Ok ("file://" +:+ target, f).

Definition fs_get (uri : string) (f : F) : res bytes :=
  data ← store_read (removeprefix uri "file://") f; decompress data.

(** ** [S3Archive] *)

Definition s3_key (prefix : string) (ctx : RunContext) (payload : RawPayload) : string :=
  prefix +:+ "/" +:+ source_id ctx +:+ "/" +:+ str_uuid (run_id ctx) +:+ "/"
  +:+ raw_tag payload +:+ ".bin.gz".

(** The objects of a bucket are named by the bucket and their key. *)
Definition object_name (bucket key : string) : string := bucket +:+ "/" +:+ key.

Definition s3_put (bucket prefix : string) (ctx : RunContext) (payload : RawPayload) (f : F)
    : res (string * F) :=
  let key := s3_key prefix ctx payload in
  f ← store_write (object_name bucket key) (compress (body payload)) f;
  Ok ("s3://" +:+ bucket +:+ "/" +:+ key, f).

Definition s3_get (uri : string) (f : F) : res bytes :=
  let rest := removeprefix uri "s3://" in
  let '(bucket, key) := match partition "/" rest with Some (b, k) => (b, k) | None => (rest, "") end in
  data ← store_read (object_name bucket key) f; decompress data.

(** ** Facts *)

Lemma partition_at_first c w s :
  contains_char c w = false → partition c (w +:+ String c s) = Some (w, s).
Proof.
  unfold contains_char. rewrite negb_false_iff. induction w as [|a w IH]; simpl.
  - intros _. by rewrite bool_decide_eq_true_2.
  - rewrite andb_true_iff, negb_true_iff, bool_decide_eq_false. intros [Ha Hw].
    rewrite bool_decide_eq_false_2 by done. by rewrite IH.
Qed.

Lemma fs_get_uri target f :
  fs_get ("file://" +:+ target) f = (data ← store_read target f; decompress data).
Proof. unfold fs_get. by rewrite removeprefix_app. Qed.

Lemma s3_get_uri bucket key f :
  contains_char "/" bucket = false →
  s3_get ("s3://" +:+ bucket +:+ "/" +:+ key) f
  = (data ← store_read (object_name bucket key) f; decompress data).
Proof.
  intros Hb. unfold s3_get. rewrite removeprefix_app. cbv zeta.
  change (bucket +:+ "/" +:+ key) with (bucket +:+ String "/" key). by rewrite partition_at_first.
Qed.

(** Reading what was just written. *)
Lemma read_back k b f f' :
  store_write k (compress b) f = Ok f' → (data ← store_read k f'; decompress data) = Ok b.
Proof. intros Hw. rewrite (read_written _ _ _ _ Hw). apply decompress_compress. Qed.

(** C29: what is archived can be read back.  Both archives return a URI from
    which [get] reads exactly the body that was put, for every payload and every
    context (a bucket has no slash in its name). *)
Theorem archive_round_trip root bucket prefix ctx payload f f' uri :
  contains_char "/" bucket = false →
  (fs_put root ctx payload f = Ok (uri, f') → fs_get uri f' = Ok (body payload)) ∧
  (s3_put bucket prefix ctx payload f = Ok (uri, f') → s3_get uri f' = Ok (body payload)).
Proof.
  intros Hb. split.
  - unfold fs_put. intros (f1 & Hw & [= <- <-])%bind_Ok.
    etransitivity; [apply fs_get_uri|]. by eapply read_back.
  - unfold s3_put. intros (f1 & Hw & [= <- <-])%bind_Ok.
    etransitivity; [by apply s3_get_uri|]. by eapply read_back.
Qed.

(** Pages can overwrite each other.  Two payloads of one run without an
    entity tag that are fetched within one second get one key: after the second
    put the first body is gone, although both puts returned a URI. *)
Theorem archive_collision root ctx p q f f1 f2 u1 u2 :
  etag p = None → etag q = None → (fetched_at p / 1000000 = fetched_at q / 1000000)%Z →
  fs_put root ctx p f = Ok (u1, f1) → fs_put root ctx q f1 = Ok (u2, f2) →
  u1 = u2 ∧ fs_get u1 f2 = Ok (body q).
Proof.
  intros Hp Hq Ht H1 H2.
  assert (fs_key ctx p = fs_key ctx q) as Hk.
  { unfold fs_key, tag_of, raw_tag. rewrite Hp, Hq. by rewrite (strftime_second _ _ Ht). }
  unfold fs_put in *. apply bind_Ok in H1 as (g1 & Hw1 & [= <- <-]).
  apply bind_Ok in H2 as (g2 & Hw2 & [= <- <-]). rewrite Hk. split; [done|].
  etransitivity; [apply fs_get_uri|]. by eapply read_back.
Qed.
End archive.

(** ** Samples *)

Definition page (text : bytes) (at_ : Z) : RawPayload := MkRawPayload text "text/plain" [] at_ None None None.
Definition archive_ctx : RunContext := MkRunContext 1 "src" 0 "c" [] None [].

Lemma archive_round_trip_witness :
  ∃ uri f', fs_put "/raw" archive_ctx (page [Byte.x41] 5) ([] : memory_files) = Ok (uri, f') ∧
            fs_get uri f' = Ok [Byte.x41].
Proof.
  destruct (fs_put "/raw" archive_ctx (page [Byte.x41] 5) ([] : memory_files))
    as [[uri f']|e] eqn:E; [|discriminate].
  exists uri, f'. split; [reflexivity|].
  apply (archive_round_trip "/raw" "bucket" "raw" archive_ctx (page [Byte.x41] 5) [] f' uri);
    [reflexivity|exact E].
Defined.

Lemma archive_collision_witness :
  ∃ u f1 f2, fs_put "/raw" archive_ctx (page [Byte.x41] 5) ([] : memory_files) = Ok (u, f1) ∧
             fs_put "/raw" archive_ctx (page [Byte.x42] 6) f1 = Ok (u, f2) ∧
             fs_get u f2 = Ok [Byte.x42].
Proof.
  destruct (fs_put "/raw" archive_ctx (page [Byte.x41] 5) ([] : memory_files))
    as [[u1 f1]|e] eqn:E1; [|discriminate].
  destruct (fs_put "/raw" archive_ctx (page [Byte.x42] 6) f1) as [[u2 f2]|e] eqn:E2;
    [|discriminate].
  destruct (archive_collision "/raw" archive_ctx (page [Byte.x41] 5) (page [Byte.x42] 6)
              [] f1 f2 u1 u2) as [Hu Hg].
  - reflexivity.
  - reflexivity.
  - reflexivity.
  - exact E1.
  - exact E2.
  - exists u1, f1, f2. split; [reflexivity|]. split; [by rewrite Hu, E2|exact Hg].
Defined.
