(* ===== verification/Auth.v ===== *)
(** [obs/auth.py]: bearer tokens and scopes. *)

From S2P Require Import Prelude Errors PyStr PyStrFacts PyDict PyVal.

Definition VALID_SCOPES : list string := ["read"; "trigger"; "admin"].

Record Principal := MkPrincipal { p_name : pyval; p_scopes : list string }.

(** [principal.has(scope)]. *)
Definition has (p : Principal) (scope : string) : bool :=
  existsb (String.eqb scope) (p_scopes p) || existsb (String.eqb "admin") (p_scopes p).

(** The dictionary of a [TokenStore].  A token of the file that is no text is a
    key that no header equals; it is left out. *)
Abbreviation tokens := (list (string * Principal)).

(** The scopes kept from a value that is iterated: the elements of a list, the
    keys of a dictionary, the characters of a text. *)
Definition scopes_of (v : pyval) : res (list string) :=
  let keep l := filter (λ s, s ∈ VALID_SCOPES) (fromkeys l) in
  match v with
  | PyList l => Ok (keep (omap (λ x, match x with PyStr s => Some s | _ => None end) l))
  | PyDict d => Ok (keep (dkeys d))
  | PyStr _ => Ok []                              (* no scope has one character *)
  | _ => raise TypeError "object is not iterable"
  end.

(** One entry of the file. *)
Definition load_entry (entry : pyval) (out : tokens) : res tokens :=
  match entry with
  | PyDict d =>
      scopes ← scopes_of (default (PyList []) (dget d "scopes"));
      match dget d "token" with
      | None => raise KeyError "token"
      | Some (PyStr t) =>
          Ok (dset out t (MkPrincipal (default (PyStr "anonymous") (dget d "name")) scopes))
      | Some (PyList _) | Some (PyDict _) => raise TypeError "unhashable type"
      | Some _ => Ok out
      end
  | _ => raise AttributeError "object has no attribute 'get'"
  end.

Fixpoint load_entries (l : list pyval) (out : tokens) : res tokens :=
  match l with
  | [] => Ok out
  | e :: l => out ← load_entry e out; load_entries l out
  end.

(** [for entry in v]. *)
Definition entries_of (v : pyval) : res (list pyval) :=
  match v with
  | PyList l => Ok l
  | PyDict d => Ok (PyStr <$> dkeys d)
  | PyStr s => Ok ((λ c, PyStr (String c "")) <$> String.list_ascii_of_string s)
  | _ => raise TypeError "object is not iterable"
  end.

(** [TokenStore.load(path)]: the text of the file, [None] without a path or a
    file; [safe_load] is the YAML reader. *)
Definition load_tokens (safe_load : string → res pyval) (text : option (res string)) : res tokens :=
  match text with
  | None => Ok []
  | Some text =>
      t ← text; raw ← safe_load t;
      match (if truthy raw then raw else PyDict []) with
      | PyDict d => l ← entries_of (default (PyList []) (dget d "tokens")); load_entries l []
      | _ => raise AttributeError "object has no attribute 'get'"
      end
  end.

(** [authenticate(header)]. *)
Definition authenticate (store : tokens) (header : option string) : option Principal :=
  match header with
  | None => None
  | Some h =>
      if String.eqb h "" || negb (startswith (lower h) "bearer ") then None
      else dget store (strip (drop_str 7 h))
  end.

(** ** Facts *)

Definition scoped (p : Principal) : Prop := ∀ s, s ∈ p_scopes p → s ∈ VALID_SCOPES.

Lemma scopes_of_valid v l : scopes_of v = Ok l → ∀ s, s ∈ l → s ∈ VALID_SCOPES.
Proof.
  unfold scopes_of. destruct v; try done; intros [= <-] x H; try set_solver;
    by apply list_elem_of_filter in H as [? _].
Qed.

Lemma load_entry_scoped e out out' :
  load_entry e out = Ok out' → (∀ k p, dget out k = Some p → scoped p) →
  ∀ k p, dget out' k = Some p → scoped p.
Proof.
  unfold load_entry. destruct e as [| | | | | |d]; try done. intros H Hout.
  apply bind_Ok in H as (scopes & Hs & H). destruct (dget d "token") as [[]|]; try done; simplify_eq;
    try exact Hout.
  intros k p. rewrite dget_dset. case_decide; [|apply Hout]. intros [= <-] x Hin.
  by eapply scopes_of_valid.
Qed.

Lemma load_entries_scoped l : ∀ out out', load_entries l out = Ok out' →
  (∀ k p, dget out k = Some p → scoped p) → ∀ k p, dget out' k = Some p → scoped p.
Proof.
  induction l as [|e l IH]; intros out out' H Hout; simpl in H; [by simplify_eq|].
  apply bind_Ok in H as (o & Ho & H). eapply IH; [done|]. by eapply load_entry_scoped.
Qed.

Lemma authenticate_iff store header p :
  authenticate store header = Some p ↔
  ∃ word token, header = Some (word +:+ token) ∧ lower word = "bearer " ∧
                dget store (strip token) = Some p.
Proof.
  unfold authenticate. destruct header as [h|]; [|split; [done|by intros (? & ? & ? & _)]].
  split.
  - destruct (String.eqb h "") eqn:E1; [done|]. simpl.
    destruct (startswith (lower h) "bearer ") eqn:E2; [|done]. simpl. intros Hauth.
    exists (take_str 7 h), (drop_str 7 h). rewrite take_drop_str. split; [done|].
    split; [|exact Hauth]. apply startswith_spec in E2 as [r Hr].
    clear -Hr. do 7 (destruct h as [|? h]; [discriminate|]). simpl in *.
    injection Hr as ? ? ? ? ? ? ?. unfold lower. simpl. congruence.
  - intros (word & token & [= ->] & Hw & Hd).
    assert (String.length word = 7) as Hlen.
    { rewrite <- (length_map_str lower_char word). change (map_str lower_char word) with (lower word).
      by rewrite Hw. }
    destruct (String.eqb (word +:+ token) "") eqn:E1.
    { apply String.eqb_eq in E1. destruct word; [discriminate Hlen|discriminate]. }
    rewrite lower_app, Hw, startswith_refl_app. cbn [negb orb].
    rewrite <- Hlen, drop_str_app. exact Hd.
Qed.

Lemma load_tokens_scoped safe_load text store :
  load_tokens safe_load text = Ok store → ∀ k p, dget store k = Some p → scoped p.
Proof.
  unfold load_tokens. destruct text as [t|]; [|by intros [= <-]]. intros Hload.
  apply bind_Ok in Hload as (t' & _ & Hload). apply bind_Ok in Hload as (raw & _ & Hload).
  destruct (if truthy raw then raw else PyDict []) as [| | | | | |d]; try done.
  apply bind_Ok in Hload as (l & _ & Hload). by eapply load_entries_scoped.
Qed.

(** Who is let in.  A request is authenticated exactly when its header
    consists of the word Bearer, in any case, a space and a token of the file,
    surrounding white space aside; the principal then has only scopes that the
    service knows, so a scope misspelt in the file grants nothing. *)
Theorem authentication safe_load text store header p :
  load_tokens safe_load text = Ok store →
  (authenticate store header = Some p ↔
   ∃ word token, header = Some (word +:+ token) ∧ lower word = "bearer " ∧
                 dget store (strip token) = Some p) ∧
  (authenticate store header = Some p →
   ∀ scope, scope ∉ VALID_SCOPES → has p scope = existsb (String.eqb "admin") (p_scopes p)).
Proof.
  intros Hload. split; [apply authenticate_iff|].
  intros (word & token & _ & _ & Hd)%authenticate_iff scope Hs. unfold has.
  destruct (existsb (String.eqb scope) (p_scopes p)) eqn:E; [|done].
  apply existsb_true_exists in E as (x & Hx & Heq). apply String.eqb_eq in Heq. subst x.
  destruct Hs. by eapply load_tokens_scoped.
Qed.

Definition sample_tokens : pyval :=
  PyDict [("tokens", PyList [PyDict [("token", PyStr "abc123"); ("name", PyStr "operator-1");
                                     ("scopes", PyList [PyStr "read"; PyStr "wirte"])]])].

Lemma authentication_witness :
  ∃ store p, load_tokens (λ _, Ok sample_tokens) (Some (Ok "")) = Ok store ∧
    authenticate store (Some "BEARER abc123 ") = Some p ∧ has p "read" = true ∧ has p "wirte" = false.
Proof.
  eexists _, _. split; [vm_compute; reflexivity|]. split; [vm_compute; reflexivity|].
  split; [reflexivity|].
  destruct (authentication (λ _, Ok sample_tokens) (Some (Ok "")) 
              [("abc123", MkPrincipal (PyStr "operator-1") ["read"])] (Some "BEARER abc123 ")
              (MkPrincipal (PyStr "operator-1") ["read"])) as [_ Hs].
  - vm_compute. reflexivity.
  - rewrite Hs; [reflexivity|vm_compute; reflexivity|]. unfold VALID_SCOPES. set_solver.
Defined.
