(* ===== verification/HttpApp.v ===== *)
(** [obs/http_app.py]: the HTTP interface.

    A handler is a function of the request and the database.  Routing is the
    web framework's: [routes] is the table it is given, and [serve] is what
    happens once a request has been matched to one of its rows. *)

From Stdlib Require Import QArith.
From S2P Require Import Prelude DateTime Errors PyStr PyDict PyVal Uuid UuidText Enums Models Registry.
From S2P Require Import Secrets Config Rows State Repositories Auth.
#[local] Open Scope string_scope.
#[local] Open Scope list_scope.

Record request := MkRequest {
  authorization : option string;
  path_params : list (string * string);
  query_params : list (string * string)
}.

Inductive content := Json (v : pyval) | Text (s : string).

Record response := MkResponse { status : Z; resp_content : content; resp_headers : list (string * string) }.

Definition JSONResponse (v : pyval) : response := MkResponse 200 (Json v) [].
Definition json_error (code : Z) (e : string) : response :=
  MkResponse code (Json (PyDict [("error", PyStr e)])) [].

Section app.
Context {D : Type} `{!Database D}.
Context (initialized : bool).
Context (generate_latest : string).                  (* the exposition of the metrics *)
Context (text_le : string → string → bool).          (* the order of text in the database *)
Context (model_dump : SourceConfig → pyval).         (* the dump of a source *)

(** [app.state]. *)
Record app_state := MkApp {
  tokens_ : tokens;
  source_registry : sources;
  enqueuer : option (string → res pyval)
}.
Context (app : app_state).

Definition handler : Type := request → D → res response * D.

(** [_require(request, scope)]. *)
Definition require (req : request) (scope : string) : res Principal :=
  match authenticate (tokens_ app) (authorization req) with
  | Some p => if has p scope then Ok p else raise Unauthorized scope
  | None => raise Unauthorized scope
  end.

(** [_unauthorized_handler]. *)
Definition unauthorized_handler (scope : string) : response :=
  MkResponse 401 (Json (PyDict [("error", PyStr "unauthorized"); ("required_scope", PyStr scope)]))
    [("WWW-Authenticate", "Bearer")].

(** A handler that begins with [_require]. *)
Definition guarded (scope : string) (h : handler) : handler := λ req d,
  match require req scope with
  | Ok _ => h req d
  | Raise e => (Raise e, d)
  end.

(** The rest of a handler that reads in a session and answers. *)
Definition answer {A} (q : Sess D A) (f : A → res response) (d : D) : res response * D :=
  match db_session initialized q d with
  | (Ok a, d) => (f a, d)
  | (Raise e, d) => (Raise e, d)
  end.

Definition path_param (req : request) (k : string) : res string :=
  match dget (path_params req) k with Some v => Ok v | None => raise KeyError k end.

Definition query_param (req : request) (k : string) : option string := dget (query_params req) k.

Definition opt_json (o : option string) : pyval := match o with Some s => PyStr s | None => PyNone end.
Definition opt_time (o : option Z) : pyval :=
  match o with Some t => PyStr (isoformat t) | None => PyNone end.

(** [min(int(request.query_params.get("limit", fallback)), cap)]. *)
Definition limit_param (req : request) (fallback : string) (cap : Z) : res Z :=
  n ← int_of_str (default fallback (query_param req "limit")); Ok (Z.min n cap).

Definition healthz : handler := λ _ d, (Ok (MkResponse 200 (Text "ok") []), d).

Definition readyz : handler := λ _ d,
  match db_session initialized (source_list text_le) d with
  | (Ok _, d) => (Ok (MkResponse 200 (Text "ready") []), d)
  | (Raise e, d) =>
      (if isinstance e PyException
       then Ok (MkResponse 503 (Text ("not ready: " +:+ Errors.msg e)) [])
       else Raise e, d)
  end.

Definition metrics : handler := λ _ d, (Ok (MkResponse 200 (Text generate_latest) []), d).

Definition source_json (rows : list SourceRow) (cfg : SourceConfig) : pyval :=
  let row := find (λ r, String.eqb (src_id r) (sc_id cfg)) (rev rows) in
  PyDict [("id", PyStr (sc_id cfg)); ("name", opt_json (sc_name cfg)); ("plugin", PyStr (sc_plugin cfg));
          ("enabled", PyBool (sc_enabled cfg)); ("schedule", PyStr (sc_schedule cfg));
          ("watermark", PyDict (default [] (r ← row; src_watermark r)))].

Definition list_sources : handler := guarded "read" (λ _,
  answer (source_list text_le) (λ rows,
    Ok (JSONResponse (PyList (source_json rows <$> all (source_registry app)))))).

Definition get_source_handler : handler := guarded "read" (λ req d,
  (id ← path_param req "source_id";
   match get id (source_registry app) with
   | Ok cfg => Ok (JSONResponse (model_dump cfg))
   | Raise e => if isinstance e KeyError then Ok (json_error 404 "not_found") else Raise e
   end, d)).

Definition run_summary (r : FeedRunRow) : pyval :=
  PyDict [("id", PyStr (str_uuid (run_row_id r))); ("source_id", PyStr (run_source_id r));
          ("state", PyStr (run_state r)); ("started_at", PyStr (isoformat (run_started_at r)));
          ("finished_at", opt_time (run_finished_at r)); ("records_in", PyInt (run_records_in r));
          ("records_out", PyInt (run_records_out r)); ("error", opt_json (run_error r));
          ("raw_uri", opt_json (run_raw_uri r))].

Definition list_runs : handler := guarded "read" (λ req d,
  match limit_param req "50" 500 with
  | Raise e => (Raise e, d)
  | Ok limit =>
      answer (recent (query_param req "source") limit)
        (λ rows, Ok (JSONResponse (PyList (run_summary <$> rows)))) d
  end).

Definition run_detail (r : FeedRunRow) : pyval :=
  PyDict [("id", PyStr (str_uuid (run_row_id r))); ("source_id", PyStr (run_source_id r));
          ("state", PyStr (run_state r)); ("started_at", PyStr (isoformat (run_started_at r)));
          ("finished_at", opt_time (run_finished_at r)); ("fetched_bytes", PyInt (run_fetched_bytes r));
          ("records_in", PyInt (run_records_in r)); ("records_out", PyInt (run_records_out r));
          ("error", opt_json (run_error r));
          ("watermark", match run_watermark r with Some w => PyDict w | None => PyNone end);
          ("raw_uri", opt_json (run_raw_uri r))].

Definition get_run_handler : handler := guarded "read" (λ req d,
  match (t ← path_param req "run_id"; parse_uuid t) with
  | Raise e => (Raise e, d)
  | Ok run_id =>
      answer (run_get run_id)
        (λ row, Ok (match row with
                    | None => json_error 404 "not_found"
                    | Some r => JSONResponse (run_detail r)
                    end)) d
  end).

Definition indicator_json (r : IndicatorRow) : pyval :=
  PyDict [("id", PyStr (str_uuid (ir_id r))); ("type", PyStr (ir_type r)); ("value", PyStr (ir_value r));
          ("confidence", PyInt (ir_confidence r)); ("tlp", PyStr (ir_tlp r));
          ("tags", PyList (PyStr <$> ir_tags r));
          ("first_seen_by_us", PyStr (isoformat (ir_first_seen_by_us r)));
          ("last_seen_by_us", PyStr (isoformat (ir_last_seen_by_us r)))].

Definition lookup_indicators : handler := guarded "read" (λ req d,
  match limit_param req "100" 1000 with
  | Raise e => (Raise e, d)
  | Ok limit =>
      answer (lookup (query_param req "type") (query_param req "value") limit)
        (λ rows, Ok (JSONResponse (PyList (indicator_json <$> rows)))) d
  end).

Definition letter_json (r : DeadLetterRow) : pyval :=
  PyDict [("id", PyInt (dl_id r)); ("feed_run_id", PyStr (str_uuid (dl_feed_run_id r)));
          ("source_id", PyStr (dl_source_id r)); ("error_class", PyStr (dl_error_class r));
          ("error_msg", PyStr (dl_error_msg r)); ("reason", PyStr (dl_reason r));
          ("created_at", PyStr (isoformat (dl_created_at r))); ("replayed_at", opt_time (dl_replayed_at r))].

Definition list_dlq : handler := guarded "read" (λ req,
  answer (dead_letter_list (query_param req "source")
            (negb (String.eqb (lower (default "true" (query_param req "unreplayed"))) "false")) 200)
    (λ rows, Ok (JSONResponse (PyList (letter_json <$> rows))))).

(** [now] is read for the row and for the answer. *)
Definition replay_dlq (now : Z * Z) : handler := guarded "trigger" (λ req d,
  match (t ← path_param req "dlq_id"; int_of_str t) with
  | Raise e => (Raise e, d)
  | Ok dlq_id =>
      answer (x ← mark_replayed dlq_id now.1; _ ← s_commit; mret x)
        (λ _, Ok (JSONResponse (PyDict [("id", PyInt dlq_id); ("replayed_at", PyStr (isoformat now.2))]))) d
  end).

Definition trigger_run : handler := guarded "trigger" (λ req d,
  (source_id ← path_param req "source_id";
   match get source_id (source_registry app) with
   | Raise e => if isinstance e KeyError then Ok (json_error 404 "not_found") else Raise e
   | Ok cfg =>
       match enqueuer app with
       | None => Ok (json_error 503 "queue_unavailable")
       | Some enqueue =>
           job_id ← enqueue (sc_id cfg);
           Ok (JSONResponse (PyDict [("queued", PyBool true); ("source_id", PyStr (sc_id cfg));
                                     ("job_id", job_id)]))
       end
   end, d)).

(** The exception handler of [build_app]: any other exception leaves the
    application. *)
Definition serve (h : handler) (req : request) (d : D) : res response * D :=
  match h req d with
  | (Raise e, d) =>
      (if isinstance e Unauthorized then Ok (unauthorized_handler (Errors.msg e)) else Raise e, d)
  | x => x
  end.

(** The table of [build_app]: path, method, endpoint. *)
Inductive method := GET | POST.
Definition routes (now : Z * Z) : list (string * method * handler) :=
  [("/healthz", GET, healthz); ("/readyz", GET, readyz); ("/metrics", GET, metrics);
   ("/v1/sources", GET, list_sources); ("/v1/sources/{source_id}", GET, get_source_handler);
   ("/v1/sources/{source_id}/trigger", POST, trigger_run); ("/v1/runs", GET, list_runs);
   ("/v1/runs/{run_id}", GET, get_run_handler); ("/v1/indicators", GET, lookup_indicators);
   ("/v1/dlq", GET, list_dlq); ("/v1/dlq/{dlq_id:int}/replay", POST, replay_dlq now)].

(** ** Facts *)

(** The scope that a method of the versioned interface asks for. *)
Definition scope_of (m : method) : string := match m with GET => "read" | POST => "trigger" end.

Lemma v1_guarded now path m h :
  (path, m, h) ∈ routes now → startswith path "/v1/" = true → ∃ g, h = guarded (scope_of m) g.
Proof.
  unfold routes. intros Hin Hv. repeat (apply elem_of_cons in Hin as [Heq|Hin]); [..|by apply elem_of_nil in Hin];
    injection Heq as -> -> ->; try discriminate Hv; eexists; reflexivity.
Qed.

Lemma require_cases req scope :
  (∃ p, require req scope = Ok p ∧ authenticate (tokens_ app) (authorization req) = Some p ∧
        has p scope = true) ∨ require req scope = raise Unauthorized scope.
Proof.
  unfold require. destruct (authenticate _ _) as [p|]; [|by right].
  destruct (has p scope) eqn:E; [left|by right]. by exists p.
Qed.

(** C30: the interface is closed to strangers.  Every endpoint under [/v1/]
    answers 401 and does not touch the database, which need not even be
    reachable, unless the request carries a token whose principal has the scope
    of the method: [read] for GET and [trigger] for POST. *)
Theorem api_authorization now path m h req d :
  (path, m, h) ∈ routes now → startswith path "/v1/" = true →
  (∃ p, authenticate (tokens_ app) (authorization req) = Some p ∧ has p (scope_of m) = true) ∨
  serve h req d = (Ok (unauthorized_handler (scope_of m)), d).
Proof.
  intros Hin Hv. destruct (v1_guarded _ _ _ _ Hin Hv) as [g ->].
  destruct (require_cases req (scope_of m)) as [(p & _ & Hp & Hs)|Hr]; [left; by exists p|right].
  unfold serve, guarded. by rewrite Hr.
Qed.

Lemma answer_read {A} (f : db_tables → A) k d : (answer (s_read f) k d).2 = d.
Proof.
  unfold answer, db_session. destruct initialized; simpl; [|done].
  by destruct (read f d).
Qed.

Lemma answer_query {A} (f : db_tables → res A) k d : (answer (s_query f) k d).2 = d.
Proof.
  unfold answer, db_session, s_query. destruct initialized; simpl; [|done].
  unfold mbind, Sess_bind, s_read. simpl. by destruct (read f d) as [[a|e]|e].
Qed.

Lemma serve_state h req d : (serve h req d).2 = (h req d).2.
Proof. unfold serve. by destruct (h req d) as [[r|e] d']. Qed.

Lemma guarded_state scope h req d : (∀ d, (h req d).2 = d) → (guarded scope h req d).2 = d.
Proof. intros H. unfold guarded. by destruct (require req scope). Qed.

(** What a replay of a dead letter does to the rows. *)
Definition replayed (dlq_id now : Z) (t : db_tables) : db_tables :=
  with_dead_letters (map (λ r, if (dl_id r =? dlq_id)%Z then set_replayed now r else r)) t.

Lemma replay_tables now req d :
  tables (replay_dlq now req d).2 = tables d ∨
  ∃ dlq_id, tables (replay_dlq now req d).2 = replayed dlq_id now.1 (tables d).
Proof.
  unfold replay_dlq, guarded. destruct (require req "trigger"); [|by left].
  destruct (t ← path_param req "dlq_id"; int_of_str t) as [i|e]; [|by left].
  unfold answer. destruct (db_session _ _ d) as [r d'] eqn:E.
  apply session_atomic in E; [|apply keeps_write]. destruct r as [[]|e].
  - right. exists i. destruct E as (_ & s & Hm & Ht). apply s_write_Ok in Hm as [Hw _].
    injection Hw as Hw. simpl. by rewrite Ht, <- Hw.
  - left. by rewrite E.
Qed.

Lemma routes_state now path m h req d :
  (path, m, h) ∈ routes now →
  match m with
  | GET => (serve h req d).2 = d
  | POST => (serve h req d).2 = d ∨ tables (serve h req d).2 = tables d ∨
            ∃ dlq_id, tables (serve h req d).2 = replayed dlq_id now.1 (tables d)
  end.
Proof.
  unfold routes. intros Hin. repeat (apply elem_of_cons in Hin as [Heq|Hin]); [..|by apply elem_of_nil in Hin];
    injection Heq as -> -> ->; rewrite serve_state.
  - done.
  - unfold readyz, db_session. destruct initialized; simpl; [|done]. by destruct (read _ d).
  - done.
  - apply guarded_state. intros d'. apply answer_read.
  - by apply guarded_state.
  - left. by apply guarded_state.
  - apply guarded_state. intros d'. destruct (limit_param _ _ _); [apply answer_query|done].
  - apply guarded_state. intros d'. destruct (_ ≫= _); [apply answer_read|done].
  - apply guarded_state. intros d'. destruct (limit_param _ _ _); [apply answer_query|done].
  - apply guarded_state. intros d'. apply answer_query.
  - right. apply replay_tables.
Qed.

(** C31: reading does not write.  A GET endpoint leaves the database as it is;
    the only thing that a request can change is the mark of one dead letter,
    through the replay endpoint, which re-runs nothing. *)
Theorem api_read_only now path m h req d :
  (path, m, h) ∈ routes now →
  match m with
  | GET => (serve h req d).2 = d
  | POST => (serve h req d).2 = d ∨ tables (serve h req d).2 = tables d ∨
            ∃ dlq_id, tables (serve h req d).2 = replayed dlq_id now.1 (tables d)
  end.
Proof. apply routes_state. Qed.
End app.

(** ** [build_app] *)

(** [build_app(source_registry, tokens=..., enqueue=...)]; [token_text] is the
    content of a file of tokens, [None] if there is none. *)
Definition build_app (safe_load : string → res pyval) (token_text : option string → option (res string))
    (settings : Settings) (registry : sources) (store : option tokens)
    (enqueue : option (string → res pyval)) : res app_state :=
  store ← match store with
          | Some s => Ok s
          | None => load_tokens safe_load (token_text (api_token_file (security settings)))
          end;
  Ok (MkApp store registry enqueue).

(** [build_app(registry)] as the command line calls it: the tokens of the
    settings and no queue. *)
Definition cli_app (registry : sources) (store : tokens) : app_state := MkApp store registry None.

Lemma cli_app_built safe_load token_text settings registry app :
  build_app safe_load token_text settings registry None None = Ok app →
  ∃ store, load_tokens safe_load (token_text (api_token_file (security settings))) = Ok store ∧
           app = cli_app registry store.
Proof. unfold build_app. intros H. apply bind_Ok in H as (store & Hl & [= <-]). by exists store. Qed.

(** The trigger endpoint of [cti api] never triggers.  The command builds
    the application without a queue, so an authorised request for a known source
    is always answered 503. *)
Theorem trigger_unavailable {D} (registry : sources) store req (d : D) p id cfg :
  authenticate store (authorization req) = Some p → has p "trigger" = true →
  dget (path_params req) "source_id" = Some id → get id registry = Ok cfg →
  serve (trigger_run (cli_app registry store)) req d = (Ok (json_error 503 "queue_unavailable"), d).
Proof.
  intros Hp Hs Hid Hget. unfold serve, trigger_run, guarded, require. simpl. rewrite Hp, Hs.
  unfold path_param. rewrite Hid. simpl. by rewrite Hget.
Qed.

(** ** Samples *)

Definition sample_store : tokens := [("abc", MkPrincipal (PyStr "operator") ["read"])].
Definition sample_db : MemoryDb := MkMemoryDb (MkTables ∅ ∅ ∅ [] []) true.
Definition sample_routes : list (string * method * handler (D := MemoryDb)) :=
  routes true "" (λ _ _, true) (λ _, PyNone)
    (cli_app [] sample_store) (0%Z, 1%Z).

(** The list of the dead letters, and the mark of one of them. *)
Definition sample_handler (k : nat) : handler (D := MemoryDb) :=
  default (λ _ d, (raise KeyError "", d)) (x ← sample_routes !! k; Some x.2).

Definition anonymous : request := MkRequest None [("dlq_id", "7")] [].
Definition reader : request := MkRequest (Some "Bearer abc") [("dlq_id", "7")] [].

Lemma api_authorization_witness :
  serve (sample_handler 9) anonymous sample_db = (Ok (unauthorized_handler "read"), sample_db) ∧
  serve (sample_handler 10) reader sample_db = (Ok (unauthorized_handler "trigger"), sample_db).
Proof.
  split.
  - destruct (api_authorization true "" (λ _ _, true)
                (λ _, PyNone) (cli_app [] sample_store) (0%Z, 1%Z) "/v1/dlq" GET (sample_handler 9)
                anonymous sample_db) as [(p & Hp & _)|Hr].
    + by apply list_elem_of_lookup_2 with 9.
    + reflexivity.
    + discriminate Hp.
    + exact Hr.
  - destruct (api_authorization true "" (λ _ _, true)
                (λ _, PyNone) (cli_app [] sample_store) (0%Z, 1%Z) "/v1/dlq/{dlq_id:int}/replay" POST
                (sample_handler 10) reader sample_db) as [(p & Hp & Hs)|Hr].
    + by apply list_elem_of_lookup_2 with 10.
    + reflexivity.
    + vm_compute in Hp. injection Hp as <-. discriminate Hs.
    + exact Hr.
Defined.

Lemma api_read_only_witness : (serve (sample_handler 9) reader sample_db).2 = sample_db.
Proof.
  apply (api_read_only true "" (λ _ _, true)
           (λ _, PyNone) (cli_app [] sample_store) (0%Z, 1%Z) "/v1/dlq" GET).
  by apply list_elem_of_lookup_2 with 9.
Defined.
