(* ===== verification/Enrichers.v ===== *)
(** [plugins/enrichers/]: the allow list, the refanging enricher, and the two
    lookups in MaxMind databases. *)

From S2P Require Import Prelude Errors PyStr PyStrFacts PyDict PyVal Regex RegexFacts IpAddr Ranges.
From S2P Require Import Uuid Enums Hashing Models Stages Rows Repositories PostgresFacts.
#[local] Open Scope Z_scope.

(** [SyncEnricher.enrich]: the synchronous method on a worker thread. *)
Definition SyncEnricher_enrich (enrich_sync : Indicator → RunContext → res (option Indicator)) : Enricher :=
  MkEnricher enrich_sync.

(** ** [allowlist.py] *)

Definition PRIVATE_LIST : list string :=
  ["10.0.0.0/8"; "172.16.0.0/12"; "192.168.0.0/16"; "127.0.0.0/8"; "169.254.0.0/16"; "::1/128";
   "fc00::/7"; "fe80::/10"].
Definition PRIVATE_NETS : res (list network) := mapM_res ip_network PRIVATE_LIST.
Definition private_nets : list network := match PRIVATE_NETS with Ok l => l | Raise _ => [] end.

Record AllowlistConfig := MkAllowlistConfig {
  drop_private_ips : bool;
  al_domains : list string;
  al_ips : list string;
  al_urls : list string
}.
Definition default_AllowlistConfig : AllowlistConfig := MkAllowlistConfig true [] [] [].

Definition domain_listed (cfg : AllowlistConfig) (value : string) : bool :=
  let v := lower value in
  existsb (λ d, let d := lower d in String.eqb v d || endswith v ("." +:+ d)) (al_domains cfg).

Definition allowlist_enrich (cfg : AllowlistConfig) (ind : Indicator) (ctx : RunContext)
    : res (option Indicator) :=
  match ind_type ind with
  | IPV4 | IPV6 =>
      match ip_address (ind_value ind) with
      | Raise e => if isinstance e ValueError then Ok (Some ind) else Raise e
      | Ok ip =>
          if drop_private_ips cfg && existsb (in_net ip) private_nets then Ok None
          else if existsb (λ s, String.eqb (str_ip ip) s) (al_ips cfg) then Ok None
          else Ok (Some ind)
      end
  | DOMAIN => if domain_listed cfg (ind_value ind) then Ok None else Ok (Some ind)
  | URL => if existsb (startswith (ind_value ind)) (al_urls cfg) then Ok None else Ok (Some ind)
  | _ => Ok (Some ind)
  end.

(** ** [defang.py] *)

(** [r"\b" prefix "(s?)://"]. *)
Definition defanged_scheme (prefix : string) : regex :=
  RSeq RWordB (RSeq (RStrI prefix) (RSeq (RGroup 1 (ROpt (RLitI "s"))) (RStrI "://"))).

(** [_PATTERNS], a replacement being a function of the match. *)
Definition PATTERNS : list (regex * (match_obj → string)) :=
  [(RStr "[.]", λ _, "."); (RStr "(.)", λ _, "."); (RStrI "{dot}", λ _, "."); (RStrI "[at]", λ _, "@");
   (RStrI "[://]", λ _, "://");
   (defanged_scheme "hxxp", λ m, "http" +:+ group m 1 +:+ "://");
   (defanged_scheme "h[ttp]", λ m, "http" +:+ group m 1 +:+ "://")].

Definition refang_value (value : string) : string :=
  fold_left (λ value p, re_sub p.1 p.2 value) PATTERNS value.

(** [ind.value = value]. *)
Definition with_value (ind : Indicator) (value : string) : Indicator :=
  MkIndicator (ind_id ind) (ind_type ind) value (pattern ind) (confidence ind) (severity ind) (tlp ind)
    (tags ind) (first_seen_by_us ind) (last_seen_by_us ind) (valid_from ind) (valid_until ind)
    (schema_version ind).

(** [DefangConfig.enabled]. *)
Definition defang_enrich (enabled : bool) (ind : Indicator) (ctx : RunContext) : res (option Indicator) :=
  if negb enabled then Ok (Some ind)
  else
    let value := refang_value (ind_value ind) in
    Ok (Some (if negb (String.eqb value (ind_value ind)) then with_value ind value else ind)).

(** ** [asn.py] and [geoip.py] *)

(** [ind.tags = tuple(dict.fromkeys(tags))]. *)
Definition with_tags (ind : Indicator) (tags : list string) : Indicator :=
  MkIndicator (ind_id ind) (ind_type ind) (ind_value ind) (pattern ind) (confidence ind) (severity ind)
    (tlp ind) tags (first_seen_by_us ind) (last_seen_by_us ind) (valid_from ind) (valid_until ind)
    (schema_version ind).
Definition add_tag (ind : Indicator) (tag : string) : Indicator :=
  with_tags ind (fromkeys (tags ind ++ [tag])).

(** The file system and the MaxMind library: whether a path exists, and
    [maxminddb.open_database], which raises [None] when the library is not
    installed ([ImportError]). *)
Record maxmind := MkMaxmind {
  path_exists : string → bool;
  open_database : string → option (res (string → res pyval))
}.

Definition reader := option (string → res pyval).

(** [__init__], the same in both classes: [db_path] may be absent. *)
Definition open_reader (h : maxmind) (db_path : option string) : res reader :=
  match db_path with
  | None => Ok None
  | Some path =>
      if negb (String.eqb path "") && path_exists h path then
        match open_database h path with
        | Some r => f ← r; Ok (Some f)
        | None => Ok None
        end
      else Ok None
  end.

(** A lookup: [None] when it does not apply or fails. *)
Definition lookup_record (r : reader) (ind : Indicator) : res (option pyval) :=
  match r, ind_type ind with
  | Some get, (IPV4 | IPV6) =>
      try_except (v ← get (ind_value ind); Ok (Some v)) [PyException] (λ _, Ok None)
  | _, _ => Ok None
  end.

(** [key in v] and [v[key]] for a text key. *)
Definition py_contains (key : string) (v : pyval) : res bool :=
  match v with
  | PyDict d => Ok (dmem d key)
  | PyList l => Ok (existsb (λ x, match x with PyStr s => String.eqb s key | _ => false end) l)
  | PyStr s => Ok (contains s key)
  | _ => raise TypeError "argument is not iterable"
  end.
Definition py_item (v : pyval) (key : string) : res pyval :=
  match v with
  | PyDict d => match dget d key with Some x => Ok x | None => raise KeyError key end
  | _ => raise TypeError "indices must be integers"
  end.

(** [v.get(key)]. *)
Definition py_get (v : pyval) (key : string) : res pyval :=
  match v with
  | PyDict d => Ok (default PyNone (dget d key))
  | _ => raise AttributeError "object has no attribute 'get'"
  end.

Definition asn_enrich (r : reader) (ind : Indicator) (ctx : RunContext) : res (option Indicator) :=
  record ← lookup_record r ind;
  match record with
  | None => Ok (Some ind)
  | Some record =>
      known ← (if truthy record then py_contains "autonomous_system_number" record else Ok false);
      if (known : bool) then
        n ← py_item record "autonomous_system_number";
        Ok (Some (add_tag ind ("asn:AS" +:+ py_str n)))
      else Ok (Some ind)
  end.

Definition geoip_enrich (r : reader) (ind : Indicator) (ctx : RunContext) : res (option Indicator) :=
  record ← lookup_record r ind;
  match record with
  | None => Ok (Some ind)
  | Some record =>
      if truthy record then
        c ← py_get record "country";
        country ← py_get (if truthy c then c else PyDict []) "iso_code";
        if truthy country then Ok (Some (add_tag ind ("country:" +:+ py_str country)))
        else Ok (Some ind)
      else Ok (Some ind)
  end.

(** ** The allow list *)

(** The private ranges as numbers: first address and size. *)
Definition private4 : list (Z * Z) :=
  [(167772160, 2 ^ 24); (2886729728, 2 ^ 20); (3232235520, 2 ^ 16); (2130706432, 2 ^ 24);
   (2851995648, 2 ^ 16)].
Definition private6 : list (Z * Z) :=
  [(1, 1); (334965454937798799971759379190646833152, 2 ^ 121);
   (338288524927261089654018896841347694592, 2 ^ 118)].

Definition is_private (a : ip) : bool :=
  match a with IP4 n => existsb (in_range n) private4 | IP6 n _ => existsb (in_range n) private6 end.

Lemma private_nets_value : private_nets = nets_of private4 private6.
Proof. vm_compute. reflexivity. Qed.

Lemma in_private_nets a : existsb (in_net a) private_nets = is_private a.
Proof.
  rewrite private_nets_value. destruct a as [n|n sc]; [apply in_nets_of4|apply in_nets_of6];
    vm_compute; reflexivity.
Qed.

Lemma domain_listed_iff cfg v :
  domain_listed cfg v = true ↔
  ∃ d, d ∈ al_domains cfg ∧ split "." (lower d) `suffix_of` split "." (lower v).
Proof.
  unfold domain_listed. rewrite existsb_true_exists. apply exist_proper. intros d.
  rewrite <- label_suffix, orb_true_iff, String.eqb_eq, endswith_spec. simpl. done.
Qed.

Lemma ip_address_value_error s e : ip_address s = Raise e → isinstance e ValueError = true.
Proof.
  unfold ip_address. destruct (IPv4Address s); [done|]. destruct (IPv6Address s) as [[]|]; [done|].
  by intros [= <-].
Qed.

(** What the allow list drops.  It returns the indicator unchanged or drops it.
    It drops an address that is private, where that is on, or whose canonical
    text is listed; a domain if a listed name is the list of its last labels,
    whatever the case; a URL that begins with a listed text; nothing else. *)
Theorem allowlist_drops cfg ind ctx :
  (allowlist_enrich cfg ind ctx = Ok None ∨ allowlist_enrich cfg ind ctx = Ok (Some ind)) ∧
  (allowlist_enrich cfg ind ctx = Ok None ↔
   match ind_type ind with
   | IPV4 | IPV6 =>
       ∃ a, ip_address (ind_value ind) = Ok a ∧
            ((drop_private_ips cfg = true ∧ is_private a = true) ∨ str_ip a ∈ al_ips cfg)
   | DOMAIN =>
       ∃ d, d ∈ al_domains cfg ∧ split "." (lower d) `suffix_of` split "." (lower (ind_value ind))
   | URL => ∃ u rest, u ∈ al_urls cfg ∧ ind_value ind = u +:+ rest
   | _ => False
   end).
Proof.
  unfold allowlist_enrich.
  assert (∀ b : bool, (if b then Ok None else Ok (Some ind)) = Ok None ∨
                      (if b then Ok None else Ok (Some ind)) = Ok (Some ind)) as Hif
    by (intros []; auto).
  assert (∀ b : bool, (if b then Ok None else Ok (Some ind)) = Ok None ↔ b = true) as Hdrop
    by (intros []; naive_solver).
  assert (∀ a : ip, (∃ b, Ok a = Ok b ∧ ((drop_private_ips cfg = true ∧ is_private b = true) ∨
                            str_ip b ∈ al_ips cfg)) ↔
          drop_private_ips cfg && is_private a || existsb (λ s, String.eqb (str_ip a) s) (al_ips cfg)
          = true) as Haddr.
  { intros a. rewrite orb_true_iff, andb_true_iff, existsb_true_exists. setoid_rewrite String.eqb_eq.
    naive_solver. }
  assert (∀ p q : bool, (if p then Ok None else if q then Ok None else Ok (Some ind))
          = if p || q then Ok None else Ok (Some ind)) as Hor by (by intros []).
  destruct (ind_type ind); try (split; [by right|]; naive_solver).
  1,2: destruct (ip_address (ind_value ind)) as [a|e] eqn:E;
    [rewrite in_private_nets, Hor; split; [apply Hif|]; rewrite Hdrop; symmetry; apply Haddr|
     rewrite (ip_address_value_error _ _ E); split; [by right|]; naive_solver].
  - split; [apply Hif|]. rewrite Hdrop. apply domain_listed_iff.
  - split; [apply Hif|]. rewrite Hdrop, existsb_true_exists. setoid_rewrite startswith_spec.
    naive_solver.
Qed.

(** A URL is listed as text, not by its host: listing a site without a final
    slash drops every host whose name begins like it. *)
Example allowlist_url_prefix :
  allowlist_enrich (MkAllowlistConfig true [] [] ["https://good.example"])
    (MkIndicator 1 URL "https://good.example.evil.test/x" None 50 INFO AMBER [] 0 0 None None "1")
    (MkRunContext 1 "src" 0 "c" [] None []) = Ok None.
Proof. vm_compute. reflexivity. Qed.

(** ** The refanging enricher *)

(** It changes nothing but the value, and it keeps the identifier. *)
Lemma defang_enrich_Ok enabled ind ctx r :
  defang_enrich enabled ind ctx = Ok r →
  r = Some (with_value ind (if enabled then refang_value (ind_value ind) else ind_value ind)).
Proof.
  assert (∀ i, with_value i (ind_value i) = i) as Hsame by (by intros []).
  unfold defang_enrich. destruct enabled; simpl; [|intros [= <-]; by rewrite Hsame].
  intros [= <-]. destruct (String.eqb_spec (refang_value (ind_value ind)) (ind_value ind)) as [->|];
    simpl; by rewrite ?Hsame.
Qed.

(** A pattern of the list needs one of the four characters. *)
Lemma refang_clean value :
  forallb (λ c, negb (contains_char c value)) ["["; "("; "{"; "/"]%char = true → refang_value value = value.
Proof.
  simpl. rewrite !andb_true_iff, !negb_true_iff. intros (H1 & H2 & H3 & H4 & _).
  unfold refang_value, PATTERNS. cbn [fold_left fst snd].
  rewrite (re_sub_needs "[" (RStr "[.]")); [|vm_compute; reflexivity|done].
  rewrite (re_sub_needs "(" (RStr "(.)")); [|vm_compute; reflexivity|done].
  rewrite (re_sub_needs "{" (RStrI "{dot}")); [|vm_compute; reflexivity|done].
  rewrite (re_sub_needs "[" (RStrI "[at]")); [|vm_compute; reflexivity|done].
  rewrite (re_sub_needs "[" (RStrI "[://]")); [|vm_compute; reflexivity|done].
  rewrite (re_sub_needs "/" (defanged_scheme "hxxp")); [|vm_compute; reflexivity|done].
  rewrite (re_sub_needs "/" (defanged_scheme "h[ttp]")); [done|vm_compute; reflexivity|done].
Qed.

(** Refanging only restores.  The enricher returns the same indicator but for
    the value, and a value without any of the characters [ ( { and / , as
    addresses, domains and hashes are in canonical form, is left as it is. *)
Theorem defang_only_value enabled ind ctx :
  ∃ value, defang_enrich enabled ind ctx = Ok (Some (with_value ind value)) ∧
           (enabled = false → value = ind_value ind) ∧
           (forallb (λ c, negb (contains_char c (ind_value ind))) ["["; "("; "{"; "/"]%char = true →
            value = ind_value ind).
Proof.
  exists (if enabled then refang_value (ind_value ind) else ind_value ind). split.
  - assert (∃ r, defang_enrich enabled ind ctx = Ok r) as [r Hr]
      by (unfold defang_enrich; destruct enabled; eexists; reflexivity).
    rewrite Hr. by rewrite (defang_enrich_Ok _ _ _ _ Hr).
  - split; [by intros ->|]. destruct enabled; [apply refang_clean|done].
Qed.

(** The URL of a feed that writes dots as {dot}, and the same URL plainly. *)
Definition built (raw : string) : res Indicator := build (λ s, Ok s) (0, 0) URL raw default_fields.
Definition braced_url : string := "http://evil{dot}example/a".
Definition plain_url : string := "http://evil.example/a".

(** [Observation] of an indicator by a source. *)
Definition seen_by (source : string) (ind : Indicator) : Indicator * Observation :=
  (ind, MkObservation (ind_id ind) source 1 0 (tlp ind) (confidence ind) [] "1").

(** Refanging after the identifier was derived breaks it.  The two ways of
    writing one URL are built with two identifiers; the enricher makes the values
    equal and keeps the identifiers, so the same type and value are named twice;
    and once one of them is stored, a batch with the other is refused by the
    unique constraint and stores nothing. *)
Theorem defang_identity_clash ctx :
  ∃ i j i', built braced_url = Ok i ∧ built plain_url = Ok j ∧
    defang_enrich true i ctx = Ok (Some i') ∧
    ind_type i' = ind_type j ∧ ind_value i' = ind_value j ∧ ind_id i' ≠ ind_id j ∧
    indicator_uuid (λ s, Ok s) (ind_type i') (ind_value i') ≠ Ok (ind_id i') ∧
    ∃ d, postgres_publish true [seen_by "plain" j] empty_db = (Ok tt, d) ∧
         is_ok (postgres_publish true [seen_by "braced" i'] d).1 = false ∧
         (postgres_publish true [seen_by "braced" i'] d).2 = d.
Proof.
  destruct (built braced_url) as [i|] eqn:Ei; [|vm_compute in Ei; discriminate Ei].
  destruct (built plain_url) as [j|] eqn:Ej; [|vm_compute in Ej; discriminate Ej].
  vm_compute in Ei. injection Ei as <-. vm_compute in Ej. injection Ej as <-.
  eexists _, _, _. split; [reflexivity|]. split; [reflexivity|]. split; [reflexivity|].
  split; [vm_compute; reflexivity|]. split; [vm_compute; reflexivity|].
  split; [vm_compute; discriminate|]. split; [vm_compute; discriminate|].
  eexists. split; [vm_compute; reflexivity|]. split; vm_compute; reflexivity.
Qed.

(** The header of the module says that refanging is idempotent: it is not, a
    bracket inside brackets is one that a second pass restores. *)
Theorem defang_not_idempotent : refang_value (refang_value "evil[[.]]example") ≠ refang_value "evil[[.]]example".
Proof. vm_compute. discriminate. Qed.

(** ** The lookups *)

Lemma fromkeys_snoc l t : NoDup l → fromkeys (l ++ [t]) = if decide (t ∈ l) then l else l ++ [t].
Proof.
  intros Hl. unfold fromkeys. rewrite fold_left_app. fold (fromkeys l). rewrite fromkeys_id by done.
  simpl. unfold fromkeys_step. by destruct (decide (t ∈ l)).
Qed.

(** What a lookup may do to an indicator: nothing, or one more tag at the end. *)
Definition tagged (t : string → Prop) (ind : Indicator) (r : option Indicator) : Prop :=
  r = Some ind ∨
  ∃ x, t x ∧ x ∉ tags ind ∧ r = Some (with_tags ind (tags ind ++ [x])).

Lemma add_tag_tagged (t : string → Prop) ind x : NoDup (tags ind) → t x → tagged t ind (Some (add_tag ind x)).
Proof.
  intros Hnd Hx. unfold add_tag. rewrite fromkeys_snoc by done. destruct (decide (x ∈ tags ind)).
  - left. f_equal. by destruct ind.
  - right. by exists x.
Qed.

Definition has_prefix (p s : string) : Prop := ∃ rest, s = p +:+ rest.

(** Lookups only add a tag.  Whatever the database answers, the ASN and the
    country lookup drop no indicator and change nothing of one but that they may
    append one tag of their kind that it did not have; without a database, for
    other types, and when the reader fails they return it as it is. *)
Theorem lookups_only_tag r ind ctx o :
  NoDup (tags ind) →
  (asn_enrich r ind ctx = Ok o → tagged (has_prefix "asn:AS") ind o) ∧
  (geoip_enrich r ind ctx = Ok o → tagged (has_prefix "country:") ind o) ∧
  (r = None ∨ ind_type ind ∉ [IPV4; IPV6] ∨
   (∃ f e, r = Some f ∧ f (ind_value ind) = Raise e ∧ isinstance e PyException = true) →
   asn_enrich r ind ctx = Ok (Some ind) ∧ geoip_enrich r ind ctx = Ok (Some ind)).
Proof.
  intros Hnd. split; [|split].
  - unfold asn_enrich. intros (rec & _ & H)%bind_Ok. destruct rec as [v|]; [|left; congruence].
    apply bind_Ok in H as (known & _ & H). destruct known; [|left; congruence].
    apply bind_Ok in H as (n & _ & [= <-]). apply add_tag_tagged; [done|]. by eexists.
  - unfold geoip_enrich. intros (rec & _ & H)%bind_Ok. destruct rec as [v|]; [|left; congruence].
    destruct (truthy v); [|left; congruence]. apply bind_Ok in H as (c & _ & H).
    apply bind_Ok in H as (country & _ & H). destruct (truthy country); [|left; congruence].
    injection H as <-. apply add_tag_tagged; [done|]. by eexists.
  - intros Hnone. assert (lookup_record r ind = Ok None) as Hl.
    { unfold lookup_record. destruct Hnone as [->|[Ht|(f & e & -> & Hf & He)]]; [done| |].
      - destruct r; [|done]. destruct (ind_type ind); try done; set_solver.
      - rewrite Hf. simpl. rewrite He. by destruct (ind_type ind). }
    unfold asn_enrich, geoip_enrich. by rewrite Hl.
Qed.

Lemma lookups_only_tag_witness :
  ∃ o, asn_enrich (Some (λ _, Ok (PyDict [("autonomous_system_number", PyInt 64500)])))
         (sample_indicator 7 AMBER 0) (MkRunContext 1 "src" 0 "c" [] None []) = Ok (Some o) ∧
       tags o = ["asn:AS64500"] ∧ tagged (has_prefix "asn:AS") (sample_indicator 7 AMBER 0) (Some o).
Proof.
  eexists. split; [vm_compute; reflexivity|]. split; [reflexivity|].
  apply (lookups_only_tag (Some (λ _, Ok (PyDict [("autonomous_system_number", PyInt 64500)])))
           (sample_indicator 7 AMBER 0) (MkRunContext 1 "src" 0 "c" [] None [])).
  - constructor.
  - vm_compute. reflexivity.
Defined.
