(* ===== verification/Publishers.v ===== *)
(** [plugins/publishers/kafka.py] and [webhook.py]: the downstream publishers.

    A call on the outside world takes the number of the call and answers; what
    is sent is the trace of the publisher. *)

From S2P Require Import Prelude DateTime Errors PyStr PyDict PyVal Json JsonFacts Uuid Enums Models Effects Stages.

(** [_TLP_RANK], the same table in both modules. *)
Definition TLP_RANK : list (string * Z) :=
  [("CLEAR", 0); ("GREEN", 1); ("AMBER", 2); ("AMBER+STRICT", 3); ("RED", 4)]%Z.

(** [_TLP_RANK[name]]. *)
Definition rank (name : string) : res Z :=
  match dget TLP_RANK name with Some n => Ok n | None => raise KeyError name end.

(** [(ind, obs) for ind, obs in batch if _TLP_RANK[ind.tlp.value] <= max_allowed]. *)
Fixpoint filtered (max_allowed : Z) (batch : list pair) : res (list pair) :=
  match batch with
  | [] => Ok []
  | p :: batch =>
      n ← rank (value (tlp p.1));
      rest ← filtered max_allowed batch;
      Ok (if (n <=? max_allowed)%Z then p :: rest else rest)
  end.

(** ** [webhook.py] *)

Record WebhookPublisherConfig := MkWebhookConfig {
  wh_url : string;
  wh_headers : list (string * string);
  bearer : option string;
  wh_max_tlp : string
}.

(** A POST request: URL, content and headers. *)
Record post_request := MkPost { post_url : string; post_content : string; post_headers : list (string * string) }.

Section webhook.
Context (post : nat → post_request → res Z).      (* the client: the status, or an error *)

Definition webhook_record (p : pair) : pyval :=
  let '(ind, obs) := p in
  PyDict [("id", PyStr (str_uuid (ind_id ind))); ("type", PyStr (value (ind_type ind)));
          ("value", PyStr (ind_value ind)); ("confidence", PyInt (confidence ind));
          ("tlp", PyStr (value (tlp ind))); ("tags", PyList (PyStr <$> tags ind));
          ("first_seen_by_us", PyStr (isoformat (first_seen_by_us ind)));
          ("last_seen_by_us", PyStr (isoformat (last_seen_by_us ind)));
          ("source_id", PyStr (obs_source_id obs)); ("feed_run_id", PyStr (str_uuid (feed_run_id obs)))].

Definition webhook_headers (cfg : WebhookPublisherConfig) : list (string * string) :=
  let h := wh_headers cfg in
  let h := match bearer cfg with
           | Some b => if String.eqb b "" then h else dset h "Authorization" ("Bearer " +:+ b)
           | None => h
           end in
  if dmem h "Content-Type" then h else dset h "Content-Type" "application/json".

(** [publish]: the request that is sent, if any, and how the call ends.  The
    answer is not looked at. *)
Definition webhook_publish (cfg : WebhookPublisherConfig) (n : nat) (batch : list pair)
    : list post_request * res unit :=
  match (max_allowed ← rank (wh_max_tlp cfg); filtered max_allowed batch) with
  | Raise e => ([], Raise e)
  | Ok [] => ([], raise TLPViolation "all records exceed webhook max_tlp")
  | Ok pairs =>
      let req := MkPost (wh_url cfg) (dumps (PyList (webhook_record <$> pairs))) (webhook_headers cfg) in
      ([req], _ ← post n req; Ok tt)
  end.

Definition WebhookPublisher (cfg : WebhookPublisherConfig) : Publisher :=
  MkPublisher "webhook" (λ n batch _, (webhook_publish cfg n batch).2).
End webhook.

(** ** [kafka.py] *)

Record KafkaPublisherConfig := MkKafkaConfig {
  bootstrap_servers : string;
  topic : string;
  k_headers : list (string * string);
  k_max_tlp : string
}.

Section kafka.
Context (start : res unit).                          (* [producer.start()] *)
Context (stop : res unit).                           (* [producer.stop()] *)
Context (send_and_wait : nat → string → string → res unit).   (* topic and message *)

(** [self._producer]: whether there is a started producer, and how many
    messages it has been given. *)
Record KafkaPublisher := MkKafka { producer : bool; sends : nat }.

(** [__init__]: the client library is an optional dependency. *)
Definition new_KafkaPublisher (installed : bool) : res KafkaPublisher :=
  if installed then Ok (MkKafka false 0)
  else raise PluginConfigError "kafka publisher requires the 'kafka' extra".

Definition ensure_producer (k : KafkaPublisher) : res KafkaPublisher :=
  if producer k then Ok k else _ ← start; Ok (MkKafka true (sends k)).

Definition kafka_aclose (k : KafkaPublisher) : res KafkaPublisher :=
  if producer k then _ ← stop; Ok (MkKafka false (sends k)) else Ok k.

Definition kafka_record (p : pair) : pyval :=
  let '(ind, obs) := p in
  PyDict [("id", PyStr (str_uuid (ind_id ind))); ("type", PyStr (value (ind_type ind)));
          ("value", PyStr (ind_value ind)); ("tlp", PyStr (value (tlp ind)));
          ("tags", PyList (PyStr <$> tags ind)); ("source_id", PyStr (obs_source_id obs));
          ("feed_run_id", PyStr (str_uuid (feed_run_id obs)))].

(** The loop over the pairs: the messages handed to the producer, the last one
    perhaps in vain. *)
Fixpoint send_all (cfg : KafkaPublisherConfig) (k : KafkaPublisher) (pairs : list pair)
    : list string * res unit * KafkaPublisher :=
  match pairs with
  | [] => ([], Ok tt, k)
  | p :: pairs =>
      let text := dumps (kafka_record p) in
      let k' := MkKafka (producer k) (S (sends k)) in
      match send_and_wait (sends k) (topic cfg) text with
      | Raise e => ([text], Raise e, k')
      | Ok _ => let '(sent, r, k'') := send_all cfg k' pairs in (text :: sent, r, k'')
      end
  end.

Definition kafka_publish (cfg : KafkaPublisherConfig) (k : KafkaPublisher) (batch : list pair)
    : list string * res unit * KafkaPublisher :=
  match (max_allowed ← rank (k_max_tlp cfg); filtered max_allowed batch) with
  | Raise e => ([], Raise e, k)
  | Ok [] => ([], raise TLPViolation "all records exceed kafka max_tlp", k)
  | Ok pairs =>
      match ensure_producer k with
      | Raise e => ([], Raise e, k)
      | Ok k => send_all cfg k pairs
      end
  end.
End kafka.

(** ** The filter *)

(** The tables of both publishers are the order of [core/enums.py]. *)
Lemma rank_value t : rank (value t) = Ok (TLP_ORDER t).
Proof. by destruct t. Qed.

Lemma rank_unknown name : (∀ t : TLP, name ≠ value t) → rank name = raise KeyError name.
Proof.
  intros H. unfold rank. destruct (dget TLP_RANK name) as [n|] eqn:E; [|done].
  apply dget_Some_elem in E. exfalso.
  repeat (apply elem_of_cons in E as [[= -> _]|E]); [..|by apply elem_of_nil in E].
  - by apply (H CLEAR).
  - by apply (H GREEN).
  - by apply (H AMBER).
  - by apply (H AMBER_STRICT).
  - by apply (H RED).
Qed.

(** The pairs whose marking is at most [m]. *)
Definition allowed (m : TLP) (batch : list pair) : list pair :=
  filter (λ p, (TLP_ORDER (tlp p.1) <= TLP_ORDER m)%Z) batch.

Lemma filtered_allowed m batch : filtered (TLP_ORDER m) batch = Ok (allowed m batch).
Proof.
  induction batch as [|p batch IH]; [done|]. cbn [filtered]. rewrite rank_value, IH.
  unfold allowed. rewrite filter_cons. simpl. destruct (decide _) as [Hle|Hle].
  - apply Z.leb_le in Hle. by rewrite Hle.
  - assert ((TLP_ORDER (tlp p.1) <=? TLP_ORDER m)%Z = false) as -> by lia. done.
Qed.

(** ** What is sent can be read back *)

Lemma confidence_plain c : (0 <= c <= 100)%Z → plain (PyInt c) = true.
Proof.
  intros Hc. assert (c ∈ seqZ 0 101) as Hin by (apply elem_of_seqZ; lia).
  assert (forallb (λ c, plain (PyInt c)) (seqZ 0 101) = true) as Hall by (vm_compute; reflexivity).
  rewrite forallb_true_forall in Hall. by apply Hall.
Qed.

Lemma tags_plain (l : list string) : plain (PyList (PyStr <$> l)) = true.
Proof.
  simpl. apply forallb_true_forall. by intros x (s & -> & _)%list_elem_of_fmap.
Qed.

Lemma tags_depth (l : list string) : depth (PyList (PyStr <$> l)) = 1.
Proof. simpl. f_equal. by induction l as [|s l IH]. Qed.

Definition valid_confidence (p : pair) : Prop := (0 <= confidence p.1 <= 100)%Z.

Lemma plain_dict d : NoDup (dkeys d) → Forall (λ kv, plain kv.2 = true) d → plain (PyDict d) = true.
Proof.
  intros Hnd Hall. cbn [plain]. rewrite bool_decide_eq_true_2 by done. simpl.
  apply forallb_true_forall. by apply Forall_forall.
Qed.

Lemma depth_dict d n : Forall (λ kv, depth kv.2 <= n) d → depth (PyDict d) <= S n.
Proof. intros Hall. cbn [depth]. by apply le_n_S, list_max_le, List.Forall_map. Qed.

Lemma webhook_record_plain p :
  valid_confidence p → plain (webhook_record p) = true ∧ depth (webhook_record p) <= 2.
Proof.
  destruct p as [ind obs]. intros Hc%confidence_plain. split.
  - apply plain_dict; [vm_compute; repeat constructor; set_solver|].
    repeat (apply Forall_cons; split; [first [reflexivity|exact Hc|apply tags_plain]|]). constructor.
  - apply depth_dict.
    repeat (apply Forall_cons; split; [first [apply Nat.le_0_l|cbn [snd]; by rewrite tags_depth]|]). constructor.
Qed.

Lemma kafka_record_plain p : plain (kafka_record p) = true ∧ depth (kafka_record p) <= 2.
Proof.
  destruct p as [ind obs]. split.
  - apply plain_dict; [vm_compute; repeat constructor; set_solver|].
    repeat (apply Forall_cons; split; [first [reflexivity|apply tags_plain]|]). constructor.
  - apply depth_dict.
    repeat (apply Forall_cons; split; [first [apply Nat.le_0_l|cbn [snd]; by rewrite tags_depth]|]). constructor.
Qed.

Lemma list_plain {A} (f : A → pyval) l n :
  (∀ x, x ∈ l → plain (f x) = true ∧ depth (f x) <= n) →
  plain (PyList (f <$> l)) = true ∧ depth (PyList (f <$> l)) <= S n.
Proof.
  intros H. split.
  - cbn [plain]. apply forallb_true_forall. intros x (y & -> & Hy)%list_elem_of_fmap. by apply H.
  - cbn [depth]. apply le_n_S, list_max_le, List.Forall_map, Forall_forall.
    intros x (y & -> & Hy)%list_elem_of_fmap. by apply H.
Qed.

(** ** Delivery *)

(** C33: what the webhook sends.  With a known limit one request is sent if some pair
    of the batch is within it, and none otherwise, which is reported as a
    violation; the content of the request decodes to exactly the pairs within the
    limit, in order, so nothing stricter leaves; an error of the client ends the
    call, and any status at all, refusals included, counts as success. *)
Theorem webhook_delivery post cfg n batch m wide float_of d :
  wh_max_tlp cfg = value m → Forall valid_confidence batch → 3 <= d →
  let '(sent, r) := webhook_publish post cfg n batch in
  match allowed m batch with
  | [] => sent = [] ∧ r = raise TLPViolation "all records exceed webhook max_tlp"
  | pairs =>
      ∃ req, sent = [req] ∧ post_url req = wh_url cfg ∧
             loads wide float_of d (post_content req) = Ok (PyList (webhook_record <$> pairs)) ∧
             Forall (λ p, TLP_ORDER (tlp p.1) <= TLP_ORDER m)%Z pairs ∧
             match post n req with Ok status => r = Ok tt | Raise e => r = Raise e end
  end.
Proof.
  intros Hm Hval Hd. unfold webhook_publish. rewrite Hm, rank_value. cbn [mbind res_bind].
  rewrite filtered_allowed. assert (∀ p, p ∈ allowed m batch → valid_confidence p ∧ (TLP_ORDER (tlp p.1) <= TLP_ORDER m)%Z) as Hin.
  { intros p [Hle Hp]%list_elem_of_filter. rewrite Forall_forall in Hval. split; [by apply Hval|done]. }
  destruct (allowed m batch) as [|p pairs]; [done|]. eexists. split; [reflexivity|]. split; [done|].
  split; [|split].
  - destruct (list_plain (webhook_record) (p :: pairs) 2) as [Hp Hdep].
    { intros x Hx. by apply webhook_record_plain, Hin. }
    apply loads_dumps; [exact Hp|lia].
  - apply Forall_forall. intros x Hx. by apply Hin.
  - by destruct (post n _).
Qed.

(** A limit that is not the name of a marking is not noticed before the first
    batch, which then ends with an error foreign to the framework. *)
Theorem webhook_unknown_limit post cfg n batch :
  (∀ t : TLP, wh_max_tlp cfg ≠ value t) →
  webhook_publish post cfg n batch = ([], raise KeyError (wh_max_tlp cfg)).
Proof. intros H. unfold webhook_publish. by rewrite rank_unknown. Qed.

Lemma send_all_spec send cfg pairs k :
  ∃ sent r k', send_all send cfg k pairs = (sent, r, k') ∧
    ∃ done rest, pairs = done ++ rest ∧ sent = dumps ∘ kafka_record <$> done ∧
      (is_ok r = true → rest = []) ∧ producer k' = producer k ∧ sends k' = sends k + length done.
Proof.
  revert k. induction pairs as [|p pairs IH]; intros k; simpl.
  - eexists _, _, _. split; [reflexivity|]. exists [], []. split_and!; try done; simpl; lia.
  - destruct (send (sends k) (topic cfg) (dumps (kafka_record p))) as [u|e].
    + destruct (IH (MkKafka (producer k) (S (sends k)))) as (sent & r & k' & -> & done & rest & -> & -> & Hr & Hp & Hs).
      eexists _, _, _. split; [reflexivity|]. exists (p :: done), rest. split_and!; try done. rewrite Hs. simpl. lia.
    + eexists _, _, _. split; [reflexivity|]. exists [p], pairs. split_and!; try done. simpl. lia.
Qed.

(** What the Kafka publisher sends: the pairs within the limit, one message
    each and in order, up to the first that fails; every message decodes to its
    pair; without any pair within the limit nothing is sent and no producer is
    started. *)
Theorem kafka_delivery start send cfg k batch m wide float_of d :
  k_max_tlp cfg = value m → 2 <= d →
  ∃ sent r k', kafka_publish start send cfg k batch = (sent, r, k') ∧
    ∃ done, done `prefix_of` allowed m batch ∧
      Forall2 (λ p text, loads wide float_of d text = Ok (kafka_record p)) done sent ∧
      (is_ok r = true → done = allowed m batch ∧ done ≠ []) ∧
      (allowed m batch = [] → r = raise TLPViolation "all records exceed kafka max_tlp" ∧ k' = k).
Proof.
  intros Hm Hd. unfold kafka_publish. rewrite Hm, rank_value. cbn [mbind res_bind].
  rewrite filtered_allowed. destruct (allowed m batch) as [|p pairs] eqn:E.
  { eexists _, _, _. split; [reflexivity|]. exists []. split; [done|]. split; [constructor|]. split; [discriminate|]. by intros. }
  unfold ensure_producer.
  destruct (if producer k then _ else _) as [k1|e].
  - destruct (send_all_spec send cfg (p :: pairs) k1) as (sent & r & k' & -> & done & rest & Hsplit & -> & Hr & _).
    eexists _, _, _. split; [reflexivity|]. exists done. rewrite Hsplit. split; [by eexists|].
    rewrite <- Hsplit. split; [|split; [|discriminate]].
    + apply Forall2_fmap_r, Forall_Forall2_diag, Forall_forall. intros x _.
      destruct (kafka_record_plain x) as [Hp Hdep]. apply loads_dumps; [done|lia].
    + intros Hok. rewrite (Hr Hok), app_nil_r in Hsplit. by rewrite <- Hsplit.
  - eexists _, _, _. split; [reflexivity|]. exists []. split; [apply prefix_nil|]. split; [constructor|]. split; discriminate.
Qed.

(** ** Samples *)

Definition sample_webhook : WebhookPublisherConfig :=
  MkWebhookConfig "https://siem.example/in" [] (Some "t0ken") "GREEN".
Definition sample_kafka : KafkaPublisherConfig := MkKafkaConfig "broker:9092" "cti" [] "GREEN".

Definition marked (id : N) (t : TLP) : pair :=
  (MkIndicator id DOMAIN "evil.example" None 50 INFO t ["c2"] 0 0 None None "1",
   MkObservation id "src" 1 0 t 50 [] "1").
Definition sample_pairs : list pair := [marked 1 GREEN; marked 2 RED; marked 3 CLEAR].

(** The collector refuses, which the publisher does not notice. *)
Lemma webhook_delivery_witness :
  ∃ req, webhook_publish (λ _ _, Ok 500%Z) sample_webhook 0 sample_pairs = ([req], Ok tt) ∧
         loads (λ _, "") (λ s, PyFloatV s None false false) 3 (post_content req)
         = Ok (PyList (webhook_record <$> [marked 1 GREEN; marked 3 CLEAR])).
Proof.
  pose proof (webhook_delivery (λ _ _, Ok 500%Z) sample_webhook 0 sample_pairs GREEN
                (λ _, "") (λ s, PyFloatV s None false false) 3) as H.
  destruct (webhook_publish (λ _ _, Ok 500%Z) sample_webhook 0 sample_pairs) as [sent r] eqn:E.
  destruct H as (req & -> & _ & Hl & _ & Hr).
  - reflexivity.
  - repeat (apply Forall_cons; split; [unfold valid_confidence; simpl; lia|]). constructor.
  - lia.
  - exists req. split; [by rewrite Hr|exact Hl].
Defined.

Lemma webhook_unknown_limit_witness :
  webhook_publish (λ _ _, Ok 200%Z) (MkWebhookConfig "https://siem.example/in" [] None "green") 0
    sample_pairs = ([], raise KeyError "green").
Proof. apply webhook_unknown_limit. intros []; discriminate. Defined.

Lemma kafka_delivery_witness :
  ∃ sent k, kafka_publish (Ok tt) (λ _ _ _, Ok tt) sample_kafka (MkKafka false 0) sample_pairs
            = (sent, Ok tt, k) ∧ length sent = 2 ∧ producer k = true.
Proof.
  destruct (kafka_delivery (Ok tt) (λ _ _ _, Ok tt) sample_kafka (MkKafka false 0) sample_pairs GREEN
              (λ _, "") (λ s, PyFloatV s None false false) 2) as (sent & r & k & E & done & _ & Hall & Hr & _).
  - reflexivity.
  - lia.
  - assert (r = Ok tt ∧ producer k = true) as [-> Hk].
    { vm_compute in E. injection E as _ <- <-. done. }
    exists sent, k. split; [exact E|]. split; [|exact Hk].
    apply Forall2_length in Hall. destruct (Hr eq_refl) as [-> _]. rewrite <- Hall. reflexivity.
Defined.
