(* ===== verification/HttpConnector.v ===== *)
(** [plugins/connectors/]: the HTTP connectors.

    The client, the codecs of compressed bodies and the resolver are arguments.
    A response has its headers as the client gives them, with names in lower
    case.  What [Retry-After] says is attached to the exception, where nothing
    reads it; it is not part of the model's exceptions. *)

From Stdlib Require Import QArith.
From S2P Require Import Prelude Errors PyStr PyDict PyVal Models Effects Stages Egress.
#[local] Open Scope string_scope.
#[local] Open Scope list_scope.

Abbreviation bytes := (list Byte.byte).

Definition DEFAULT_TIMEOUT_S : Q := 60.
Definition DEFAULT_MAX_BYTES : Z := 256 * 1024 * 1024.

Record HttpConnectorConfig := MkHttpConfig {
  url : string;
  http_method : string;
  req_headers : list (string * string);
  auth_bearer : option string;
  auth_basic : option (string * string);
  timeout_seconds : Q;
  max_bytes : Z;
  decompress : option string;
  zip_member : option string;
  allow_http : bool;
  verify_ssl : bool;
  follow_redirects : bool
}.

(** The defaults of the model, for a URL. *)
Definition default_HttpConnectorConfig (u : string) : HttpConnectorConfig :=
  MkHttpConfig u "GET" [] None None DEFAULT_TIMEOUT_S DEFAULT_MAX_BYTES None None false true true.

Record http_request := MkRequest {
  rq_method : string;
  rq_url : string;
  rq_headers : list (string * string);
  rq_auth : option (string * string)
}.

Record http_response := MkResponse {
  status_code : Z;
  rs_headers : list (string * string);
  content : bytes
}.

(** [response.headers.get(name)]. *)
Definition header (r : http_response) (name : string) : option string := dget (rs_headers r) (lower name).

(** The options of the client that [__init__] makes: it follows redirects by
    itself unless the source says otherwise. *)
Record client_options := MkClientOptions {
  http2 : bool; verify : bool; timeout : Q; follow : bool
}.
Definition client_of (cfg : HttpConnectorConfig) : client_options :=
  MkClientOptions true (verify_ssl cfg) (timeout_seconds cfg) (follow_redirects cfg).

(** The libraries around the connector. *)
Record http_env := MkEnv {
  getaddrinfo : string → res (list string);
  request : client_options → http_request → res http_response;   (* [self._client.request] *)
  gunzip : bytes → res bytes;                    (* [gzip.decompress] *)
  zip_namelist : bytes → res (list string);      (* [ZipFile(body).namelist()] *)
  zip_read : bytes → string → res bytes          (* [ZipFile(body).read(name)] *)
}.

(** The headers of the request: [if etag := ctx.watermark.get("etag")] tests
    the truth of the value. *)
Definition add_condition (ctx : RunContext) (key name : string) (h : list (string * string))
    : list (string * string) :=
  match dget (watermark ctx) key with
  | Some v => if truthy v then dset h name (py_str v) else h
  | None => h
  end.

Definition request_headers (cfg : HttpConnectorConfig) (ctx : RunContext) : list (string * string) :=
  let h := req_headers cfg in
  let h := match auth_bearer cfg with
           | Some b => if String.eqb b "" then h else dset h "Authorization" ("Bearer " +:+ b)
           | None => h
           end in
  add_condition ctx "last_modified" "If-Modified-Since" (add_condition ctx "etag" "If-None-Match" h).

Definition build_request (cfg : HttpConnectorConfig) (ctx : RunContext) : http_request :=
  MkRequest (http_method cfg) (url cfg) (request_headers cfg ctx) (auth_basic cfg).

(** The request with its handlers. *)
Definition send (env : http_env) (cfg : HttpConnectorConfig) (ctx : RunContext) : res http_response :=
  try_except
    (try_except (request env (client_of cfg) (build_request cfg ctx)) [TimeoutException]
       (λ e, raise TransientError ("timeout fetching " +:+ url cfg +:+ ": " +:+ Errors.msg e)))
    [HTTPError]
    (λ e, raise TransientError ("http error fetching " +:+ url cfg +:+ ": " +:+ Errors.msg e)).

(** The tests of the status: [None] if there is nothing new. *)
Definition check_status (cfg : HttpConnectorConfig) (r : http_response) : res (option http_response) :=
  let st := status_code r in
  if (st =? 304)%Z then Ok None
  else if (st =? 429)%Z then raise RateLimited ("429 on " +:+ url cfg)
  else if (500 <=? st)%Z && (st <? 600)%Z
  then raise TransientError ("upstream " +:+ str_of_Z st +:+ " on " +:+ url cfg)
  else if (400 <=? st)%Z then raise PermanentError ("client error " +:+ str_of_Z st +:+ " on " +:+ url cfg)
  else Ok (Some r).

Definition check_size (cfg : HttpConnectorConfig) (body : bytes) : res unit :=
  if (max_bytes cfg <? Z.of_nat (length body))%Z
  then raise PermanentError ("payload exceeds max_bytes (" +:+ str_of_Z (Z.of_nat (length body)) +:+ " > "
                             +:+ str_of_Z (max_bytes cfg) +:+ ")")
  else Ok tt.

(** [self.config.zip_member or (names[0] if names else None)]. *)
Definition zip_target (cfg : HttpConnectorConfig) (names : list string) : option string :=
  match zip_member cfg with
  | Some m => if String.eqb m "" then head names else Some m
  | None => head names
  end.

Definition decoded_body (env : http_env) (cfg : HttpConnectorConfig) (body : bytes) : res bytes :=
  match decompress cfg with
  | Some d =>
      if String.eqb d "gzip" then gunzip env body
      else if String.eqb d "zip" then
        names ← zip_namelist env body;
        match zip_target cfg names with
        | None => raise PermanentError "zip archive empty"
        | Some target => zip_read env body target
        end
      else Ok body
  | None => Ok body
  end.

Definition opt_str (o : option string) : pyval := match o with Some s => PyStr s | None => PyNone end.

(** What the response does to the watermark, before the payload is yielded. *)
Definition remember (r : http_response) (ctx : RunContext) : RunContext :=
  set_watermark (set_watermark ctx "etag" (opt_str (header r "ETag")))
    "last_modified" (opt_str (header r "Last-Modified")).

Definition payload_of (default_content_type : string) (now : Z) (cfg : HttpConnectorConfig)
    (r : http_response) (body : bytes) : RawPayload :=
  MkRawPayload body (default default_content_type (header r "Content-Type")) (rs_headers r) now
    (header r "ETag") (header r "Last-Modified") (Some (url cfg)).

(** The body up to the first [yield]: what is remembered and the payload. *)
Definition retrieve (env : http_env) (default_content_type : string) (now : Z) (cfg : HttpConnectorConfig)
    (ctx : RunContext) : res (option (RunContext * RawPayload)) :=
  _ ← check_url (getaddrinfo env) (url cfg) (allow_http cfg);
  r ← send env cfg ctx;
  o ← check_status cfg r;
  match o with
  | None => Ok None
  | Some r =>
      _ ← check_size cfg (content r);
      body ← decoded_body env cfg (content r);
      Ok (Some (remember r ctx, payload_of default_content_type now cfg r body))
  end.

(** [HttpConnectorBase.fetch], an asynchronous generator. *)
Definition http_fetch (env : http_env) (default_content_type : string) (now : Z)
    (cfg : HttpConnectorConfig) (ctx : RunContext) : generator :=
  match retrieve env default_content_type now cfg ctx with
  | Ok (Some (ctx', payload)) => GYield payload ctx' GReturn
  | Ok None => GReturn ctx
  | Raise e => GRaise ctx e
  end.

(** The three connectors differ in their default content type. *)
Definition HttpCsvConnector env now cfg : Connector := MkConnector (http_fetch env "text/csv" now cfg).
Definition HttpJsonConnector env now cfg : Connector := MkConnector (http_fetch env "application/json" now cfg).
Definition HttpTxtLinesConnector env now cfg : Connector := MkConnector (http_fetch env "text/plain" now cfg).

(** ** The outcomes *)

(** What a status means to the connector. *)
Inductive verdict := NothingNew | Failure (c : exn_class) | Payload.

Definition verdict_of (st : Z) : verdict :=
  if decide (st = 304)%Z then NothingNew
  else if decide (st = 429)%Z then Failure RateLimited
  else if decide (500 <= st < 600)%Z then Failure TransientError
  else if decide (400 <= st)%Z then Failure PermanentError
  else Payload.

Lemma check_status_verdict cfg r :
  match verdict_of (status_code r) with
  | NothingNew => check_status cfg r = Ok None
  | Failure c => ∃ m, check_status cfg r = raise c m
  | Payload => check_status cfg r = Ok (Some r)
  end.
Proof.
  unfold verdict_of, check_status. set (st := status_code r).
  destruct (decide (st = 304)%Z) as [->|H1]; [done|]. apply Z.eqb_neq in H1. rewrite H1.
  destruct (decide (st = 429)%Z) as [->|H2]; [by eexists|]. apply Z.eqb_neq in H2. rewrite H2.
  destruct (decide (500 <= st < 600)%Z) as [[H3 H4]|H3].
  - apply Z.leb_le in H3. apply Z.ltb_lt in H4. rewrite H3, H4. by eexists.
  - assert ((500 <=? st)%Z && (st <? 600)%Z = false) as -> by lia.
    destruct (decide (400 <= st)%Z) as [H5|H5]; [apply Z.leb_le in H5; rewrite H5; by eexists|].
    assert ((400 <=? st)%Z = false) as -> by lia. done.
Qed.

(** The ways a fetch ends.  A URL that the guard refuses ends it before any
    request; a failure of the client is transient; the status decides, with 304
    nothing is yielded and the watermark stays; otherwise the size limit and the
    codec stand between the response and the one payload, whose entity tag and
    date are remembered in the context that comes with it. *)
Inductive fetch_ends (env : http_env) (ct : string) (now : Z) (cfg : HttpConnectorConfig)
    (ctx : RunContext) : generator → Prop :=
  | ends_blocked e :
      check_url (getaddrinfo env) (url cfg) (allow_http cfg) = Raise e →
      fetch_ends env ct now cfg ctx (GRaise ctx e)
  | ends_client e e' :
      check_url (getaddrinfo env) (url cfg) (allow_http cfg) = Ok tt →
      request env (client_of cfg) (build_request cfg ctx) = Raise e →
      (if isinstance e HTTPError then cls e' = TransientError else e' = e) →
      fetch_ends env ct now cfg ctx (GRaise ctx e')
  | ends_not_modified r :
      check_url (getaddrinfo env) (url cfg) (allow_http cfg) = Ok tt →
      request env (client_of cfg) (build_request cfg ctx) = Ok r → verdict_of (status_code r) = NothingNew →
      fetch_ends env ct now cfg ctx (GReturn ctx)
  | ends_status r c m :
      check_url (getaddrinfo env) (url cfg) (allow_http cfg) = Ok tt →
      request env (client_of cfg) (build_request cfg ctx) = Ok r → verdict_of (status_code r) = Failure c →
      fetch_ends env ct now cfg ctx (GRaise ctx (Exn c m))
  | ends_size r m :
      check_url (getaddrinfo env) (url cfg) (allow_http cfg) = Ok tt →
      request env (client_of cfg) (build_request cfg ctx) = Ok r → verdict_of (status_code r) = Payload →
      (max_bytes cfg < Z.of_nat (length (content r)))%Z →
      fetch_ends env ct now cfg ctx (GRaise ctx (Exn PermanentError m))
  | ends_codec r e :
      check_url (getaddrinfo env) (url cfg) (allow_http cfg) = Ok tt →
      request env (client_of cfg) (build_request cfg ctx) = Ok r → verdict_of (status_code r) = Payload →
      (Z.of_nat (length (content r)) <= max_bytes cfg)%Z → decoded_body env cfg (content r) = Raise e →
      fetch_ends env ct now cfg ctx (GRaise ctx e)
  | ends_payload r body :
      check_url (getaddrinfo env) (url cfg) (allow_http cfg) = Ok tt →
      request env (client_of cfg) (build_request cfg ctx) = Ok r → verdict_of (status_code r) = Payload →
      (Z.of_nat (length (content r)) <= max_bytes cfg)%Z → decoded_body env cfg (content r) = Ok body →
      fetch_ends env ct now cfg ctx (GYield (payload_of ct now cfg r body) (remember r ctx) GReturn).

Lemma timeout_is_http e : isinstance e TimeoutException = true → isinstance e HTTPError = true.
Proof. destruct e as [c m]. by destruct c. Qed.

Lemma send_cases env cfg ctx :
  match request env (client_of cfg) (build_request cfg ctx) with
  | Ok r => send env cfg ctx = Ok r
  | Raise e => ∃ e', send env cfg ctx = Raise e' ∧
                     (if isinstance e HTTPError then cls e' = TransientError else e' = e)
  end.
Proof.
  unfold send, try_except. destruct (request env (client_of cfg) (build_request cfg ctx)) as [r|e]; [done|].
  simpl. rewrite !orb_false_r. pose proof (timeout_is_http e) as Ht.
  destruct (isinstance e TimeoutException).
  - rewrite Ht by done. simpl. by eexists.
  - rewrite orb_false_r. destruct (isinstance e HTTPError); by eexists.
Qed.

(** C32: the fetch of the HTTP connectors follows its specification: it always ends
    in one of the seven ways, and it yields at most one payload. *)
Theorem http_fetch_outcomes env ct now cfg ctx : fetch_ends env ct now cfg ctx (http_fetch env ct now cfg ctx).
Proof.
  unfold http_fetch, retrieve.
  destruct (check_url (getaddrinfo env) (url cfg) (allow_http cfg)) as [[]|e] eqn:Hc; [|by constructor].
  cbn [mbind res_bind]. pose proof (send_cases env cfg ctx) as Hs.
  destruct (request env (client_of cfg) (build_request cfg ctx)) as [r|e] eqn:Hr.
  2:{ destruct Hs as (e' & -> & He). cbn [mbind res_bind]. by eapply ends_client. }
  rewrite Hs. cbn [mbind res_bind]. pose proof (check_status_verdict cfg r) as Hv.
  destruct (verdict_of (status_code r)) as [|c|] eqn:Hst.
  - rewrite Hv. by eapply ends_not_modified.
  - destruct Hv as [m ->]. by eapply ends_status.
  - rewrite Hv. cbn [mbind res_bind]. unfold check_size.
    destruct (Z.ltb_spec (max_bytes cfg) (Z.of_nat (length (content r)))) as [Hsz|Hsz];
      cbn [mbind res_bind]; [by eapply ends_size|].
    destruct (decoded_body env cfg (content r)) as [body|e] eqn:Hd; [by eapply ends_payload|].
    by eapply ends_codec.
Qed.

(** ** The watermark between two runs *)

Lemma watermark_remember r ctx k :
  dget (watermark (remember r ctx)) k
  = if decide (k = "last_modified") then Some (opt_str (header r "Last-Modified"))
    else if decide (k = "etag") then Some (opt_str (header r "ETag")) else dget (watermark ctx) k.
Proof. unfold remember, set_watermark. simpl. rewrite !dget_dset. repeat case_decide; congruence. Qed.

(** A header that the configuration does not set. *)
Definition unset (cfg : HttpConnectorConfig) (name : string) : Prop := dget (req_headers cfg) name = None.

(** The value a server gave, if it can make a request conditional. *)
Definition given (o : option string) : option string :=
  match o with Some s => if String.eqb s "" then None else Some s | None => None end.

Lemma add_condition_get ctx key name h k :
  dget (add_condition ctx key name h) k
  = if decide (k = name)
    then match dget (watermark ctx) key with
         | Some v => if truthy v then Some (py_str v) else dget h k
         | None => dget h k
         end
    else dget h k.
Proof.
  unfold add_condition. destruct (dget (watermark ctx) key) as [v|]; [|by destruct (decide _)].
  destruct (truthy v); [|by destruct (decide _)]. rewrite dget_dset.
  destruct (decide (k = name)) as [->|Hne]; [by repeat case_decide|].
  repeat case_decide; congruence.
Qed.

(** Only what was given makes the next request conditional.  After a payload,
    a run that starts from the remembered watermark sends the entity tag and the
    date of that payload, if the server gave any, and no condition otherwise; with
    one, an answer 304 yields nothing and leaves the watermark as it was. *)
Theorem conditional_get env ct now cfg ctx payload ctx' k next :
  http_fetch env ct now cfg ctx = GYield payload ctx' k → watermark next = watermark ctx' →
  unset cfg "If-None-Match" → unset cfg "If-Modified-Since" →
  dget (rq_headers (build_request cfg next)) "If-None-Match" = given (etag payload) ∧
  dget (rq_headers (build_request cfg next)) "If-Modified-Since" = given (last_modified payload) ∧
  ∀ env' now' r, check_url (getaddrinfo env') (url cfg) (allow_http cfg) = Ok tt →
    request env' (client_of cfg) (build_request cfg next) = Ok r → status_code r = 304%Z →
    http_fetch env' ct now' cfg next = GReturn next.
Proof.
  intros Hf Hw Hn Hm. assert (∃ r, ctx' = remember r ctx ∧ etag payload = header r "ETag" ∧
                                 last_modified payload = header r "Last-Modified") as (r & -> & He & Hl).
  { unfold http_fetch, retrieve in Hf.
    destruct (check_url _ _ _); [|done]. cbn [mbind res_bind] in Hf.
    destruct (send env cfg ctx) as [r0|]; [|done]. cbn [mbind res_bind] in Hf.
    destruct (check_status cfg r0) as [[r|]|]; [|done..]. cbn [mbind res_bind] in Hf.
    destruct (check_size _ _); [|done]. cbn [mbind res_bind] in Hf.
    destruct (decoded_body _ _ _); [|done]. injection Hf as <- <- <-. by exists r. }
  set (h := match auth_bearer cfg with
            | Some b => if String.eqb b "" then req_headers cfg
                        else dset (req_headers cfg) "Authorization" ("Bearer " +:+ b)
            | None => req_headers cfg
            end).
  assert (dget h "If-None-Match" = None ∧ dget h "If-Modified-Since" = None) as [Hhn Hhm].
  { unfold h. destruct (auth_bearer cfg) as [b|]; [|done]. destruct (String.eqb b ""); [done|].
    by rewrite !dget_dset. }
  assert (∀ o : option string, match Some (opt_str o) with
            | Some v => if truthy v then Some (py_str v) else None | None => None end = given o) as Hgiven.
  { intros [s|]; [|done]. simpl. by destruct (String.eqb s ""). }
  assert (rq_headers (build_request cfg next)
          = add_condition next "last_modified" "If-Modified-Since" (add_condition next "etag" "If-None-Match" h))
    as Hreq by done.
  rewrite Hreq, He, Hl. split; [|split].
  - rewrite !add_condition_get, Hw, !watermark_remember. simpl. rewrite Hhn. apply Hgiven.
  - rewrite !add_condition_get, Hw, !watermark_remember. simpl. rewrite Hhm. apply Hgiven.
  - intros env' now' r' Hc Hr Hst. unfold http_fetch, retrieve. rewrite Hc. cbn [mbind res_bind].
    pose proof (send_cases env' cfg next) as Hs. rewrite Hr in Hs. rewrite Hs. cbn [mbind res_bind].
    unfold check_status. by rewrite Hst.
Qed.

(** What the fetch stage makes of it: the bytes are counted, one payload is put
    on the queue and the context carries the new watermark. *)
Lemma http_run_fetch env ct now cfg ctx payload ctx' k :
  http_fetch env ct now cfg ctx = GYield payload ctx' k →
  run_fetch (MkConnector (http_fetch env ct now cfg)) None ctx
  = ([SetCtx ctx'; Inc FETCH_BYTES (Z.of_nat (length (body payload))); Inc (RECORDS_IN "fetch") 1;
      Put (MPayload payload); SetCtx ctx'], Ok ctx').
Proof.
  intros Hf. unfold run_fetch. cbn [fetch]. rewrite Hf.
  assert (k = GReturn) as ->; [|done].
  unfold http_fetch in Hf. by destruct (retrieve _ _ _ _ _) as [[[]|]|]; [injection Hf as _ _ <-|..].
Qed.

(** ** Samples *)

(** A server with one page, and a resolver that knows it. *)
Definition feed_url : string := "https://feeds.example/list.csv.gz".
Definition feed_env (status : Z) (page : bytes) : http_env :=
  MkEnv (λ _, Ok ["93.184.216.34"])
    (λ _ _, Ok (MkResponse status [("etag", "v1"); ("content-type", "text/csv")] page))
    (λ b, Ok (concat (replicate 1000 b))) (λ _, Ok []) (λ _ _, raise KeyError "").
Definition feed_ctx : RunContext := MkRunContext 1 "src" 0 "c" [] None [].

Lemma conditional_get_witness :
  ∃ payload ctx' k, http_fetch (feed_env 200 [Byte.x41]) "text/csv" 0 (default_HttpConnectorConfig feed_url)
                      feed_ctx = GYield payload ctx' k ∧
    dget (rq_headers (build_request (default_HttpConnectorConfig feed_url) ctx')) "If-None-Match" = Some "v1" ∧
    http_fetch (feed_env 304 []) "text/csv" 1 (default_HttpConnectorConfig feed_url) ctx' = GReturn ctx'.
Proof.
  destruct (http_fetch (feed_env 200 [Byte.x41]) "text/csv" 0 (default_HttpConnectorConfig feed_url) feed_ctx)
    as [payload ctx' k|c|c e] eqn:E; [|vm_compute in E; discriminate E..].
  exists payload, ctx', k. split; [reflexivity|].
  destruct (conditional_get (feed_env 200 [Byte.x41]) "text/csv" 0 (default_HttpConnectorConfig feed_url) feed_ctx
              payload ctx' k ctx') as (Hn & _ & H304); [exact E|reflexivity|reflexivity|reflexivity|].
  split.
  - rewrite Hn. vm_compute in E. injection E as <- _ _. reflexivity.
  - eapply H304; [vm_compute; reflexivity|reflexivity|reflexivity].
Defined.

(** The limit is on the compressed body: what it decompresses to has none. *)
Example limit_before_decompression :
  match http_fetch (feed_env 200 [Byte.x41; Byte.x42]) "text/csv" 0
          (MkHttpConfig feed_url "GET" [] None None 60 2 (Some "gzip") None false true true) feed_ctx with
  | GYield p _ _ => length (body p) = 2000
  | _ => False
  end.
Proof. vm_compute. reflexivity. Qed.

(** An answer that redirects, to a client that does not follow, is a payload. *)
Example redirect_is_payload :
  match http_fetch (feed_env 302 [Byte.x41]) "text/csv" 0 (default_HttpConnectorConfig feed_url) feed_ctx with
  | GYield p _ _ => body p = [Byte.x41]
  | _ => False
  end.
Proof. vm_compute. reflexivity. Qed.
