(* ===== verification/CsvParser.v ===== *)
(** [plugins/parsers/csv_parser.py] on Python's [csv.reader].

    The reader is the state machine of the interpreter's [_csv] module for the
    dialect the parser asks for: doubled quotes, no escape character, not
    strict.  Decoding of bytes is an argument.  The format that is read back is a
    relation, [feed_lines], between rows and lines. *)

From S2P Require Import Prelude Errors PyStr PyStrFacts PyDict PyVal Models Effects Stages.

Abbreviation bytes := (list Byte.byte).

(** ** [csv.reader] *)

Inductive csv_mode :=
  | START_RECORD | START_FIELD | IN_FIELD | IN_QUOTED_FIELD | QUOTE_IN_QUOTED_FIELD | EAT_CRNL.
#[export] Instance csv_mode_eq_dec : EqDecision csv_mode.
Proof. solve_decision. Defined.

Record csv_state := CsvState { mode : csv_mode; field : string; fields_ : list string }.

Definition fresh : csv_state := CsvState START_RECORD "" [].

(** [csv.field_size_limit()]. *)
Definition FIELD_LIMIT : Z := 131072.

Section reader.
Context (delimiter quotechar : ascii).

Definition add_char (s : csv_state) (m : csv_mode) (c : ascii) : res csv_state :=
  if (FIELD_LIMIT <=? Z.of_nat (String.length (field s)))%Z
  then raise CsvError "field larger than field limit (131072)"
  else Ok (CsvState m (field s +:+ String c "") (fields_ s)).

Definition save_field (s : csv_state) (m : csv_mode) : csv_state := CsvState m "" (fields_ s ++ [field s]).

Definition is_newline (c : ascii) : bool := N.eqb (code c) 10 || N.eqb (code c) 13.

(** One character, or [None] at the end of a line of the input. *)
Definition process_char (s : csv_state) (o : option ascii) : res csv_state :=
  let start_field :=
    match o with
    | None => Ok (save_field s START_RECORD)
    | Some c =>
        if is_newline c then Ok (save_field s EAT_CRNL)
        else if bool_decide (c = quotechar) then Ok (CsvState IN_QUOTED_FIELD (field s) (fields_ s))
        else if bool_decide (c = delimiter) then Ok (save_field s START_FIELD)
        else add_char s IN_FIELD c
    end in
  match mode s, o with
  | START_RECORD, None => Ok s
  | START_RECORD, Some c =>
      if is_newline c then Ok (CsvState EAT_CRNL (field s) (fields_ s)) else start_field
  | START_FIELD, _ => start_field
  | IN_FIELD, None => Ok (save_field s START_RECORD)
  | IN_FIELD, Some c =>
      if is_newline c then Ok (save_field s EAT_CRNL)
      else if bool_decide (c = delimiter) then Ok (save_field s START_FIELD)
      else add_char s IN_FIELD c
  | IN_QUOTED_FIELD, None => Ok s
  | IN_QUOTED_FIELD, Some c =>
      if bool_decide (c = quotechar) then Ok (CsvState QUOTE_IN_QUOTED_FIELD (field s) (fields_ s))
      else add_char s IN_QUOTED_FIELD c
  | QUOTE_IN_QUOTED_FIELD, None => Ok (save_field s START_RECORD)
  | QUOTE_IN_QUOTED_FIELD, Some c =>
      if bool_decide (c = quotechar) then add_char s IN_QUOTED_FIELD c
      else if bool_decide (c = delimiter) then Ok (save_field s START_FIELD)
      else if is_newline c then Ok (save_field s EAT_CRNL)
      else add_char s IN_FIELD c
  | EAT_CRNL, None => Ok (CsvState START_RECORD (field s) (fields_ s))
  | EAT_CRNL, Some c =>
      if is_newline c then Ok s
      else raise CsvError "new-line character seen in unquoted field"
  end.

Fixpoint process_str (s : csv_state) (line : string) : res csv_state :=
  match line with
  | "" => Ok s
  | String c line => s ← process_char s (Some c); process_str s line
  end.

Definition process_line (s : csv_state) (line : string) : res csv_state :=
  s ← process_str s line; process_char s None.

(** The records of the lines: a line that ends inside quotes continues in the
    next, and the end of the input ends an open field. *)
Fixpoint read_rows (s : csv_state) (lines : list string) : res (list (list string)) :=
  match lines with
  | [] =>
      if bool_decide (mode s = IN_QUOTED_FIELD) || negb (String.eqb (field s) "")
      then Ok [fields_ s ++ [field s]] else Ok []
  | line :: lines =>
      s' ← process_line s line;
      if decide (mode s' = START_RECORD)
      then rows ← read_rows fresh lines; Ok (fields_ s' :: rows)
      else read_rows s' lines
  end.
End reader.

(** The lines of [io.StringIO(text)], with their ends. *)
Fixpoint io_lines (text : string) : list string :=
  match text with
  | "" => []
  | String c text =>
      if N.eqb (code c) 10 then String c "" :: io_lines text
      else match io_lines text with
           | [] => [String c ""]
           | l :: ls => String c l :: ls
           end
  end.

(** A dialect takes characters. *)
Definition one_char (name s : string) : res ascii :=
  match s with
  | String c "" => Ok c
  | _ => raise TypeError (name +:+ " must be a 1-character string")
  end.

(** [list(csv.reader(io.StringIO(text), delimiter=..., quotechar=...))]. *)
Definition csv_reader (text delimiter quotechar : string) : res (list (list string)) :=
  d ← one_char "delimiter" delimiter;
  q ← one_char "quotechar" quotechar;
  read_rows d q fresh (io_lines text).

(** ** [CsvParser] *)

Record CsvParserConfig := MkCsvConfig {
  delimiter : string;
  quotechar : string;
  has_header : bool;
  skip_comment_prefix : string;
  field_names : list string;
  encoding : string
}.

Definition default_CsvParserConfig : CsvParserConfig :=
  MkCsvConfig "," (String dquote_char "") true "#" [] "utf-8".

Section parser.
Context (decode : string → bytes → res string).    (* [body.decode(encoding)] *)

(** The lines the reader is given. *)
Definition kept (cfg : CsvParserConfig) (line : string) : bool :=
  negb (String.eqb line "") && negb (startswith line (skip_comment_prefix cfg)).

(** The names of the columns, and the rows below. *)
Definition columns (cfg : CsvParserConfig) (first : list string) (rows : list (list string))
    : list string * list (list string) :=
  if has_header cfg then (strip <$> first, rows)
  else match field_names cfg with
       | [] => (imap (λ i _, "col" +:+ str_of_Z (Z.of_nat i)) first, first :: rows)
       | names => (names, first :: rows)
       end.

Definition csv_record (header row : list string) : record :=
  dict (zip header ((λ c, PyStr (strip c)) <$> row)).

Definition csv_parse_sync (cfg : CsvParserConfig) (payload : RawPayload) (ctx : RunContext)
    : res (list record) :=
  text ← try_except (decode (encoding cfg) (body payload)) [UnicodeError]
           (λ e, raise PermanentError ("csv decode error: " +:+ Errors.msg e));
  let lines := filter (λ l, kept cfg l = true) (splitlines text) in
  rows ← csv_reader (join (String (chr 10) "") lines) (delimiter cfg) (quotechar cfg);
  match rows with
  | [] => Ok []
  | first :: rows =>
      let '(header, data) := columns cfg first rows in
      Ok (csv_record header <$> filter (λ row, row ≠ []) data)
  end.

Definition CsvParser (cfg : CsvParserConfig) : Parser := MkParser (SyncParser_parse (csv_parse_sync cfg)).
End parser.

(** ** Samples, checked against the interpreter *)

Definition dq : string := String dquote_char "".

Example reader_quotes :
  csv_reader ("a," +:+ dq +:+ "b,c" +:+ dq +:+ dq +:+ "d" +:+ dq +:+ ",e f," +:+ dq +:+ "x" +:+ dq +:+ "y") "," dq
  = Ok [["a"; "b,c" +:+ dq +:+ "d"; "e f"; "xy"]].
Proof. vm_compute. reflexivity. Qed.

Example reader_open_quote :
  csv_reader ("a," +:+ dq +:+ "b" +:+ String (chr 10) "c,d") "," dq
  = Ok [["a"; "b" +:+ String (chr 10) "c,d"]].
Proof. vm_compute. reflexivity. Qed.

Example reader_long_delimiter : is_ok (csv_reader "a" ";;" dq) = false.
Proof. reflexivity. Qed.

(** ** Reading back what a writer wrote *)

#[local] Arguments is_newline : simpl never.
#[local] Arguments process_char _ _ !s !o /.

Section facts.
Context (d q : ascii) (prefix : string).

(** The text of a field: as it is, if it has no delimiter and does not begin
    with a quote, or in quotes with its quotes doubled. *)
Fixpoint doubled (w : string) : string :=
  match w with
  | "" => ""
  | String c w => if bool_decide (c = q) then String q (String q (doubled w)) else String c (doubled w)
  end.

Definition first_not (c : ascii) (w : string) : Prop :=
  match w with String a _ => a ≠ c | "" => True end.

Inductive cell_text : string → string → Prop :=
  | cell_plain w :
      all_str (λ c, negb (is_newline c) && negb (bool_decide (c = d))) w = true →
      first_not q w → cell_text w w
  | cell_quoted w : cell_text w (String q (doubled w +:+ String q "")).

(** The text of a row: the texts of its fields around delimiters. *)
Definition row_text (row : list string) (line : string) : Prop :=
  ∃ texts, Forall2 cell_text row texts ∧ line = join (String d "") texts.

Definition fits (w : string) : Prop := (Z.of_nat (String.length w) <= FIELD_LIMIT)%Z.

Hypothesis dialect : d ≠ q ∧ is_newline d = false ∧ is_newline q = false.

Lemma process_str_app s t u :
  process_str d q s (t +:+ u) = (s' ← process_str d q s t; process_str d q s' u).
Proof.
  revert s. induction t as [|c t IH]; intros s; [done|]. simpl.
  destruct (process_char d q s (Some c)) as [s'|e]; [apply IH|done].
Qed.

Lemma add_char_fits m m' acc c fs w :
  fits (acc +:+ String c w) →
  add_char (CsvState m acc fs) m' c = Ok (CsvState m' (acc +:+ String c "") fs).
Proof.
  unfold fits, add_char. rewrite length_app_str. simpl. intros H.
  assert ((FIELD_LIMIT <=? Z.of_nat (String.length acc))%Z = false) as -> by lia. done.
Qed.

Lemma process_plain acc fs w :
  all_str (λ c, negb (is_newline c) && negb (bool_decide (c = d))) w = true → fits (acc +:+ w) →
  process_str d q (CsvState IN_FIELD acc fs) w = Ok (CsvState IN_FIELD (acc +:+ w) fs).
Proof.
  revert acc. induction w as [|c w IH]; intros acc; [by rewrite app_str_nil_r|].
  simpl. rewrite !andb_true_iff, !negb_true_iff. intros [[Hn Hd] Hw] Hf.
  rewrite Hn, Hd, (add_char_fits _ _ _ _ _ w) by done. cbn [mbind res_bind].
  rewrite IH; [by rewrite <- app_str_assoc|done|by rewrite <- app_str_assoc].
Qed.

Lemma process_doubled acc fs w :
  fits (acc +:+ w) →
  process_str d q (CsvState IN_QUOTED_FIELD acc fs) (doubled w) = Ok (CsvState IN_QUOTED_FIELD (acc +:+ w) fs).
Proof.
  revert acc. induction w as [|c w IH]; intros acc Hf; [by rewrite app_str_nil_r|].
  simpl doubled. destruct (bool_decide (c = q)) eqn:E.
  - apply bool_decide_eq_true in E as ->. simpl. rewrite bool_decide_eq_true_2 by done. simpl.
    rewrite bool_decide_eq_true_2 by done. rewrite (add_char_fits _ _ _ _ _ w) by done. cbn [mbind res_bind].
    rewrite IH; by rewrite <- app_str_assoc.
  - simpl. rewrite E, (add_char_fits _ _ _ _ _ w) by done. cbn [mbind res_bind].
    rewrite IH; by rewrite <- app_str_assoc.
Qed.

(** The modes in which a field may end. *)
Definition ready (m : csv_mode) : Prop := m = START_RECORD ∨ m = START_FIELD.
Definition closing (m : csv_mode) : Prop := m = START_FIELD ∨ m = IN_FIELD ∨ m = QUOTE_IN_QUOTED_FIELD.

Lemma process_cell m fs w t :
  ready m → cell_text w t → fits w →
  ∃ m', process_str d q (CsvState m "" fs) t = Ok (CsvState m' w fs) ∧ (closing m' ∨ (m' = m ∧ t = "")).
Proof.
  destruct dialect as (Hdq & Hdn & Hqn). intros Hm [w' Hall Hhead|w'] Hf.
  - destruct w' as [|c w']; [exists m; split; [done|by right]|].
    simpl in Hall. rewrite !andb_true_iff, !negb_true_iff in Hall. destruct Hall as [[Hn Hd] Hw].
    exists IN_FIELD. split; [|left; right; by left].
    assert (process_char d q (CsvState m "" fs) (Some c) = add_char (CsvState m "" fs) IN_FIELD c) as Hc.
    { assert (bool_decide (c = q) = false) as Hq by (by apply bool_decide_eq_false).
      destruct Hm as [-> | ->]; unfold process_char; simpl; by rewrite Hn, Hq, Hd. }
    cbn [process_str]. rewrite Hc, (add_char_fits _ _ _ _ _ w') by done. cbn [mbind res_bind].
    by rewrite process_plain.
  - exists QUOTE_IN_QUOTED_FIELD. split; [|left; right; by right].
    assert (process_char d q (CsvState m "" fs) (Some q) = Ok (CsvState IN_QUOTED_FIELD "" fs)) as Hc.
    { destruct Hm as [-> | ->]; unfold process_char; simpl; by rewrite Hqn, bool_decide_eq_true_2. }
    cbn [process_str]. rewrite Hc. cbn [mbind res_bind]. rewrite process_str_app, process_doubled by done.
    simpl. by rewrite bool_decide_eq_true_2.
Qed.

Lemma process_delimiter m fs w :
  ready m ∨ closing m → process_char d q (CsvState m w fs) (Some d) = Ok (CsvState START_FIELD "" (fs ++ [w])).
Proof.
  destruct dialect as (Hdq & Hdn & Hqn). intros Hm. unfold process_char, ready, closing in *. simpl.
  rewrite Hdn, (bool_decide_eq_false_2 _ Hdq), (bool_decide_eq_true_2 (d = d)) by done.
  destruct Hm as [[-> | ->]|[->|[-> | ->]]]; done.
Qed.

Lemma process_end m fs w :
  closing m →
  process_char d q (CsvState m w fs) None = Ok (CsvState START_RECORD "" (fs ++ [w])) ∧
  process_char d q (CsvState m w fs) (Some (chr 10)) = Ok (CsvState EAT_CRNL "" (fs ++ [w])).
Proof.
  destruct dialect as (Hdq & Hdn & Hqn). intros Hm.
  assert (chr 10 ≠ d ∧ chr 10 ≠ q) as [H1 H2] by (split; intros <-; done).
  unfold process_char, closing in *. simpl.
  rewrite (bool_decide_eq_false_2 _ H1), (bool_decide_eq_false_2 _ H2).
  destruct Hm as [->|[-> | ->]]; done.
Qed.

Lemma process_row row texts m fs :
  ready m → Forall2 cell_text row texts → row ≠ [] → Forall fits row →
  ∃ m' w fs', process_str d q (CsvState m "" fs) (join (String d "") texts) = Ok (CsvState m' w fs') ∧
              fs' ++ [w] = fs ++ row ∧ (closing m' ∨ (m' = m ∧ join (String d "") texts = "")).
Proof.
  intros Hm Hrow. revert m fs Hm. induction Hrow as [|w t row texts Hw Hrow IH]; intros m fs Hm Hne Hfit; [done|].
  apply Forall_cons in Hfit as [Hf Hfit]. destruct (process_cell m fs w t Hm Hw Hf) as (m' & Hp & Hm').
  destruct Hrow as [|w2 t2 row texts Hw2 Hrow].
  - exists m', w, fs. split; [done|]. split; [done|]. exact Hm'.
  - change (join (String d "") (t :: t2 :: texts)) with (t +:+ String d (join (String d "") (t2 :: texts))).
    rewrite process_str_app, Hp. cbn [mbind res_bind process_str].
    rewrite process_delimiter by (destruct Hm' as [?|[-> _]]; [by right|by left]). cbn [mbind res_bind].
    destruct (IH START_FIELD (fs ++ [w])) as (m2 & w' & fs' & Hp2 & Hfs & Hm2);
      [by right|done|done|].
    exists m2, w', fs'. split; [done|]. split; [by rewrite Hfs, <- app_assoc|].
    left. destruct Hm2 as [?|[-> _]]; [done|by left].
Qed.

Lemma process_text row line nl :
  row_text row line → line ≠ "" → row ≠ [] → Forall fits row → nl = "" ∨ nl = String (chr 10) "" →
  process_line d q fresh (line +:+ nl) = Ok (CsvState START_RECORD "" row).
Proof.
  intros (texts & Hrow & ->) Hne Hr Hfit Hnl. unfold process_line. rewrite process_str_app.
  destruct (process_row row texts START_RECORD [] ltac:(by left) Hrow Hr Hfit) as (m & w & fs & Hp & Hfs & Hm).
  unfold fresh. rewrite Hp. cbn [mbind res_bind]. destruct Hm as [Hm|[_ He]]; [|done].
  destruct (process_end m fs w Hm) as [Hnone Hlf]. rewrite Hfs in Hnone, Hlf.
  destruct Hnl as [-> | ->]; cbn [process_str]; cbn [mbind res_bind]; [exact Hnone|].
  rewrite Hlf. reflexivity.
Qed.

(** ** Lines *)

Lemma io_lines_no_lf w s :
  no_break w = true → io_lines (w +:+ String (chr 10) s) = (w +:+ String (chr 10) "") :: io_lines s.
Proof.
  induction w as [|c w IH]; [done|]. unfold no_break. cbn [all_str]. rewrite andb_true_iff, negb_true_iff.
  intros [Hc Hw]. cbn [String.append io_lines]. assert (N.eqb (code c) 10 = false) as ->.
  { destruct (N.eqb_spec (code c) 10) as [E|]; [|done]. unfold is_linebreak, in_range in Hc.
    rewrite E in Hc. done. }
  rewrite IH by done. done.
Qed.

Lemma io_lines_last w : no_break w = true → w ≠ "" → io_lines w = [w].
Proof.
  induction w as [|c w IH]; [done|]. unfold no_break. cbn [all_str]. rewrite andb_true_iff, negb_true_iff.
  intros [Hc Hw] _. cbn [io_lines]. assert (N.eqb (code c) 10 = false) as ->.
  { destruct (N.eqb_spec (code c) 10) as [E|]; [|done]. unfold is_linebreak, in_range in Hc.
    rewrite E in Hc. done. }
  destruct w as [|c' w]; [done|]. by rewrite IH.
Qed.

Definition fitting (row : list string) : Prop := row ≠ [] ∧ Forall fits row.

Lemma read_rows_join table lines :
  Forall2 (row_text) table lines → Forall (λ l, no_break l = true ∧ l ≠ "") lines → Forall fitting table →
  read_rows d q fresh (io_lines (join (String (chr 10) "") lines)) = Ok table.
Proof.
  intros Ht. induction Ht as [|row line table lines Hrow Ht IH]; intros Hl Hf; [done|].
  apply Forall_cons in Hl as [[Hb Hne] Hl]. apply Forall_cons in Hf as [[Hr Hfit] Hf].
  destruct Ht as [|row2 line2 table lines Hrow2 Ht].
  - change (join (String (chr 10) "") [line]) with line. rewrite io_lines_last by done. cbn [read_rows].
    pose proof (process_text row line "" Hrow Hne Hr Hfit ltac:(by left)) as Hp.
    rewrite app_str_nil_r in Hp. rewrite Hp. done.
  - change (join (String (chr 10) "") (line :: line2 :: lines))
      with (line +:+ String (chr 10) (join (String (chr 10) "") (line2 :: lines))).
    rewrite io_lines_no_lf by done. cbn [read_rows].
    rewrite (process_text row line) by (done || by right). cbn [mbind res_bind mode].
    destruct (decide (START_RECORD = START_RECORD)); [|done]. rewrite IH by done. done.
Qed.
(** The lines of a feed that holds these rows: their texts, with any number of empty
    lines and of comments between them. *)
Inductive feed_lines : list (list string) → list string → Prop :=
  | fl_end : feed_lines [] []
  | fl_blank rows lines : feed_lines rows lines → feed_lines rows ("" :: lines)
  | fl_comment c rows lines : feed_lines rows lines → feed_lines rows ((prefix +:+ c) :: lines)
  | fl_row row line rows lines :
      row_text row line → line ≠ "" → (∀ c, line ≠ prefix +:+ c) →
      feed_lines rows lines → feed_lines (row :: rows) (line :: lines).

Lemma feed_lines_kept cfg rows lines :
  skip_comment_prefix cfg = prefix → feed_lines rows lines →
  Forall2 row_text rows (filter (λ l, kept cfg l = true) lines).
Proof.
  intros Hp. unfold kept. rewrite Hp.
  induction 1 as [|rows lines _ IH|c rows lines _ IH|row line rows lines Hr Hne Hc _ IH]; [constructor| | |].
  - by rewrite filter_cons_False.
  - rewrite filter_cons_False; [done|]. rewrite startswith_refl_app. by rewrite andb_false_r.
  - rewrite filter_cons_True; [by constructor|]. apply andb_true_iff. split.
    + apply negb_true_iff. by apply String.eqb_neq.
    + apply negb_true_iff. destruct (startswith line prefix) eqn:E; [|done].
      apply startswith_spec in E as [c ->]. by destruct (Hc c).
Qed.
End facts.

(** Where the names of the columns come from, and which rows of a feed are data. *)
Inductive layout (cfg : CsvParserConfig) : list string → list (list string) → list (list string) → Prop :=
  | in_header header data :
      has_header cfg = true → layout cfg (strip <$> header) data (header :: data)
  | configured data :
      has_header cfg = false → field_names cfg ≠ [] → layout cfg (field_names cfg) data data
  | numbered row data :
      has_header cfg = false → field_names cfg = [] →
      layout cfg ((λ i, "col" +:+ str_of_Z (Z.of_nat i)) <$> seq 0 (length row)) (row :: data) (row :: data).

Lemma layout_columns cfg names data first rows :
  layout cfg names data (first :: rows) → columns cfg first rows = (names, data).
Proof.
  unfold columns. inversion 1 as [h dt Hh|dt Hh Hf|r dt Hh Hf]; subst; rewrite Hh; [done| |].
  - by destruct (field_names cfg).
  - rewrite Hf. f_equal. apply list_eq. intros i. rewrite list_lookup_imap, list_lookup_fmap.
    destruct (decide (i < length first)) as [Hi|Hi].
    + rewrite lookup_seq_lt by done. by destruct (lookup_lt_is_Some_2 _ _ Hi) as [x ->].
    + rewrite lookup_seq_ge by lia. by rewrite (proj2 (lookup_ge_None first i)) by lia.
Qed.

Lemma layout_data cfg names data rows : layout cfg names data rows → data `suffix_of` rows.
Proof. inversion 1; subst; [by eexists [_]|done..]. Qed.

(** The fields of a row under the names of the columns, without surrounding blanks. *)
Definition named (names row : list string) : record := zip names ((PyStr ∘ strip) <$> row).

Lemma csv_record_named names row : NoDup names → csv_record names row = named names row.
Proof.
  intros Hn. unfold csv_record, named. apply dict_id. unfold dkeys.
  assert (∀ l : list pyval, map fst (zip names l) `sublist_of` names) as Hs.
  { induction names as [|n names IH]; intros [|v l]; simpl; [done|done|apply sublist_nil_l|].
    apply sublist_skip, IH. by apply NoDup_cons in Hn as []. }
  eapply sublist_NoDup; [exact Hn|apply Hs].
Qed.

(** C34: a table is read back as it was written.  Take a feed that consists of the
    lines of rows, with any number of empty lines and of comment lines between
    them, ended by line feeds with or without carriage returns; each field is
    written as it is, if it has no delimiter and does not begin with a quote, or in
    quotes with its quotes doubled.  Then the parser yields one record for each row
    of data, in order, which maps the names of the columns to the fields without
    surrounding blanks; the names are those of the first row, or else the
    configured ones, or else numbered.  The lines have no line breaks, so neither
    have the fields; no row is written as an empty line or begins with the comment
    prefix; no field exceeds the limit of the reader; and the names are distinct. *)
Theorem csv_round_trip decode cfg payload ctx text lines rows names data d q :
  decode (encoding cfg) (body payload) = Ok text → written lines text →
  delimiter cfg = String d "" → quotechar cfg = String q "" →
  d ≠ q ∧ is_newline d = false ∧ is_newline q = false →
  feed_lines d q (skip_comment_prefix cfg) rows lines → Forall fitting rows →
  layout cfg names data rows → NoDup names →
  csv_parse_sync decode cfg payload ctx = Ok (named names <$> data).
Proof.
  intros Hdec Hw Hd Hq Hdia Hrows Hfit Hlay Hnames. unfold csv_parse_sync. rewrite Hdec. cbn [try_except mbind res_bind].
  rewrite (splitlines_written _ _ Hw). unfold csv_reader. rewrite Hd, Hq. cbn [one_char mbind res_bind].
  rewrite (read_rows_join d q Hdia rows); [|by eapply feed_lines_kept| |done].
  - cbn [mbind res_bind]. destruct rows as [|first rows].
    { inversion Hlay; subst. done. }
    rewrite (layout_columns _ _ _ _ _ Hlay). f_equal.
    assert (filter (λ row, row ≠ []) data = data) as ->.
    { apply layout_data in Hlay as [k Hk]. rewrite Hk in Hfit. apply Forall_app in Hfit as [_ Hfit]. clear -Hfit.
      induction Hfit as [|row table [Hr _] _ IH]; [done|]. rewrite filter_cons_True by done. by f_equal. }
    apply list_fmap_ext. intros i row _. by apply csv_record_named.
  - apply Forall_forall. intros l [Hk Hin]%list_elem_of_filter.
    rewrite <- (splitlines_written _ _ Hw) in Hin. split; [by eapply splitlines_no_break|]. intros ->. done.
Qed.

(** ** Samples *)

(** A decoder that takes bytes for code points. *)
Definition latin1 (enc : string) (b : bytes) : res string :=
  Ok (String.string_of_list_ascii (ascii_of_byte <$> b)).
Definition bytes_of (s : string) : bytes := byte_of_ascii <$> String.list_ascii_of_string s.

Definition lf : string := String (chr 10) "".
Definition csv_text : string :=
  "# exported" +:+ lf +:+ "ip, note" +:+ lf +:+ "10.0.0.1," +:+ dq +:+ "a, " +:+ dq +:+ dq +:+ "b" +:+ dq +:+ dq
  +:+ dq +:+ lf +:+ lf +:+ " 10.0.0.2 ,x" +:+ lf.
Definition csv_payload (text : string) : RawPayload := MkRawPayload (bytes_of text) "text/csv" [] 0 None None None.
Definition csv_ctx : RunContext := MkRunContext 1 "src" 0 "c" [] None [].

Lemma csv_round_trip_witness :
  csv_parse_sync latin1 default_CsvParserConfig (csv_payload csv_text) csv_ctx
  = Ok [[("ip", PyStr "10.0.0.1"); ("note", PyStr ("a, " +:+ dq +:+ "b" +:+ dq))];
        [("ip", PyStr "10.0.0.2"); ("note", PyStr "x")]].
Proof.
  apply (csv_round_trip latin1 default_CsvParserConfig (csv_payload csv_text) csv_ctx csv_text
           ["# exported"; "ip, note"; "10.0.0.1," +:+ dq +:+ "a, " +:+ dq +:+ dq +:+ "b" +:+ dq +:+ dq +:+ dq; ""; " 10.0.0.2 ,x"]
           [["ip"; " note"]; ["10.0.0.1"; "a, " +:+ dq +:+ "b" +:+ dq]; [" 10.0.0.2 "; "x"]]
           ["ip"; "note"] [["10.0.0.1"; "a, " +:+ dq +:+ "b" +:+ dq]; [" 10.0.0.2 "; "x"]]
           ","%char dquote_char).
  - vm_compute. reflexivity.
  - exact (w_lf "# exported" _ _ eq_refl (w_lf "ip, note" _ _ eq_refl
             (w_lf ("10.0.0.1," +:+ dq +:+ "a, " +:+ dq +:+ dq +:+ "b" +:+ dq +:+ dq +:+ dq) _ _ eq_refl
             (w_lf "" _ _ eq_refl (w_lf " 10.0.0.2 ,x" _ _ eq_refl w_none))))).
  - reflexivity.
  - reflexivity.
  - split; [discriminate|split; reflexivity].
  - apply (fl_comment _ _ "#" " exported"). apply fl_row; [|discriminate|discriminate|apply fl_row; [|discriminate|discriminate|
      apply fl_blank, fl_row; [|discriminate|discriminate|constructor]]].
    + exists ["ip"; " note"]. split; [repeat constructor; discriminate|reflexivity].
    + eexists ["10.0.0.1"; _]. split; [|reflexivity].
      constructor; [constructor; [reflexivity|discriminate]|]. constructor; [apply cell_quoted|constructor].
    + exists [" 10.0.0.2 "; "x"]. split; [repeat constructor; discriminate|reflexivity].
  - repeat constructor; vm_compute; congruence.
  - apply (in_header default_CsvParserConfig ["ip"; " note"]). reflexivity.
  - repeat constructor; set_solver.
Defined.

(** An empty comment prefix is a prefix of every line: nothing is read. *)
Theorem csv_empty_prefix decode cfg payload ctx records :
  skip_comment_prefix cfg = "" → csv_parse_sync decode cfg payload ctx = Ok records → records = [].
Proof.
  intros Hp H. unfold csv_parse_sync in H. apply bind_Ok in H as (text & _ & H).
  assert (filter (λ l, kept cfg l = true) (splitlines text) = []) as Hl.
  { assert (∀ l, kept cfg l = false) as Hk by (intros l; unfold kept; rewrite Hp; by destruct l).
    clear H. induction (splitlines text) as [|l ls IH]; [done|]. rewrite filter_cons_False; [done|].
    by rewrite Hk. }
  rewrite Hl in H. unfold csv_reader in H. apply bind_Ok in H as (rows & Hr & H).
  apply bind_Ok in Hr as (d & _ & Hr). apply bind_Ok in Hr as (q & _ & Hr).
  injection Hr as <-. by injection H as <-.
Qed.

(** A quote that is not closed swallows the rest of the feed into one field. *)
Example csv_open_quote :
  csv_parse_sync latin1 default_CsvParserConfig
    (csv_payload ("ip" +:+ lf +:+ "10.0.0.1" +:+ lf +:+ dq +:+ "10.0.0.2" +:+ lf +:+ "10.0.0.3" +:+ lf +:+ "10.0.0.4"))
    csv_ctx
  = Ok [[("ip", PyStr "10.0.0.1")]; [("ip", PyStr ("10.0.0.2" +:+ lf +:+ "10.0.0.3" +:+ lf +:+ "10.0.0.4"))]].
Proof. vm_compute. reflexivity. Qed.
