(* ===== verification/JsonParser.v ===== *)
(** [plugins/parsers/json_parser.py] on the reader of [Json].  What the node of a
    dotted path is and which records are there is also said by relations of their
    own, [chosen] and [node_records]. *)

From S2P Require Import Prelude Errors PyStr PyStrFacts PyDict PyVal Json JsonFacts Models Effects Stages.

Abbreviation bytes := (list Byte.byte).

Record JsonParserConfig := MkJsonConfig {
  ndjson : bool;
  root_path : option string;
  encoding : string
}.
Definition default_JsonParserConfig : JsonParserConfig := MkJsonConfig false None "utf-8".

(** The loop of [_resolve_path]. *)
Fixpoint descend (cur : pyval) (parts : list string) : pyval :=
  match parts with
  | [] => cur
  | part :: parts =>
      match cur with
      | PyDict d => descend (default PyNone (dget d part)) parts
      | _ => PyNone
      end
  end.

(** [_resolve_path(doc, path)]. *)
Definition resolve_path (doc : pyval) (path : option string) : pyval :=
  match path with
  | None | Some "" => doc
  | Some p => descend doc (split "." p)
  end.

Definition as_record (v : pyval) : option record := match v with PyDict d => Some d | _ => None end.

(** The records of a node. *)
Definition records_of (node : pyval) : list record :=
  match node with
  | PyList l => omap as_record l
  | PyDict d => [d]
  | _ => []
  end.

Section parser.
Context (decode : string → bytes → res string).
Context (wide : N → string) (float_of : string → pyfloat) (recursion_limit : nat).

Abbreviation json_loads := (loads wide float_of recursion_limit).

(** The loop over the lines of NDJSON. *)
Fixpoint ndjson_records (lines : list string) : res (list record) :=
  match lines with
  | [] => Ok []
  | line :: lines =>
      let line := strip line in
      if String.eqb line "" then ndjson_records lines
      else
        obj ← try_except (v ← json_loads line; Ok (Some v)) [JSONDecodeError] (λ _, Ok None);
        rest ← ndjson_records lines;
        Ok (match (obj ≫= as_record) with Some d => d :: rest | None => rest end)
  end.

Definition json_parse_sync (cfg : JsonParserConfig) (payload : RawPayload) (ctx : RunContext)
    : res (list record) :=
  text ← try_except (decode (encoding cfg) (body payload)) [UnicodeError]
           (λ e, raise PermanentError ("json decode error: " +:+ Errors.msg e));
  if ndjson cfg then ndjson_records (splitlines text)
  else
    doc ← try_except (json_loads text) [JSONDecodeError]
            (λ e, raise PermanentError ("invalid json: " +:+ Errors.msg e));
    Ok (records_of (resolve_path doc (root_path cfg))).

Definition JsonParser (cfg : JsonParserConfig) : Parser := MkParser (SyncParser_parse (json_parse_sync cfg)).

(** ** Facts *)

(** The texts that [json.dumps] writes are printable ASCII. *)
Lemma escape_char_ascii c : all_str (in_range 32 126) (escape_char c) = true.
Proof. revert c. check_ascii. Qed.

Lemma str_of_Z_ascii n : all_str (in_range 32 126) (str_of_Z n) = true.
Proof.
  assert (∀ c, is_digit c = true → in_range 32 126 c = true) as Hd.
  { assert (∀ c, negb (is_digit c) || in_range 32 126 c = true) as H by check_ascii.
    intros c Hc. specialize (H c). by rewrite Hc in H. }
  destruct (str_of_Z_shape n) as [->|(sign & c & t & -> & Hall & _ & Hs & _)]; [done|].
  rewrite all_str_app. apply andb_true_iff. split; [by destruct Hs as [[-> _]|[-> _]]|].
  eapply all_str_impl; [exact Hd|exact Hall].
Qed.

Lemma dumps_str_ascii s : all_str (in_range 32 126) (dumps_str s) = true.
Proof.
  unfold dumps_str. cbn [all_str]. rewrite all_str_app.
  assert (all_str (in_range 32 126) (escape s) = true) as ->; [|done].
  induction s as [|c s IH]; [done|]. cbn [escape]. by rewrite all_str_app, escape_char_ascii, IH.
Qed.

Lemma dumps_ascii v : plain v = true → all_str (in_range 32 126) (dumps v) = true.
Proof.
  induction v as [|[]|n|f|s|l IH|l IH] using pyval_nested_ind; intros Hp; try done.
  - apply str_of_Z_ascii.
  - apply dumps_str_ascii.
  - cbn [plain dumps] in *. rewrite forallb_true_forall in Hp. rewrite Forall_forall in IH.
    cbn [all_str]. rewrite all_str_app, all_str_join; [done|done|].
    apply Forall_forall. intros x Hx. apply list_elem_of_In, in_map_iff in Hx as (v & <- & Hv%list_elem_of_In).
    by apply IH, Hp.
  - cbn [plain dumps] in *. apply andb_true_iff in Hp as [_ Hp]. rewrite forallb_true_forall in Hp.
    rewrite Forall_forall in IH. cbn [all_str]. rewrite all_str_app, all_str_join; [done|done|].
    apply Forall_forall. intros x Hx. apply list_elem_of_In, in_map_iff in Hx as (v & <- & Hv%list_elem_of_In).
    rewrite !all_str_app, dumps_str_ascii, IH by (done || by apply Hp). done.
Qed.

Lemma ascii_no_break s : all_str (in_range 32 126) s = true → no_break s = true.
Proof.
  apply all_str_impl. assert (∀ c, negb (in_range 32 126 c) || negb (is_linebreak c) = true) as H by check_ascii.
  intros c Hc. specialize (H c). by rewrite Hc in H.
Qed.

(** A text that begins and ends without a blank. *)
Lemma dumps_dict_strip d : strip (dumps (PyDict d)) = dumps (PyDict d).
Proof.
  apply strip_id; [done|]. cbn [dumps]. set (t := join _ _). change (String "{" (t +:+ "}")) with (("{" +:+ t) +:+ "}").
  by rewrite last_ok_app.
Qed.

(** Lines that are no documents, and documents that are no objects, are
    skipped; whatever else the reader raises ends the payload. *)
Theorem ndjson_skips_bad_lines lines :
  Forall (λ l, raises_only (json_loads (strip l)) [JSONDecodeError]) lines →
  ndjson_records lines
  = Ok (omap (λ l, if String.eqb (strip l) "" then None
                   else match json_loads (strip l) with Ok v => as_record v | Raise _ => None end) lines).
Proof.
  induction 1 as [|l lines Hl _ IH]; [done|]. cbn [ndjson_records omap list_omap]. rewrite IH.
  destruct (String.eqb (strip l) ""); [done|]. unfold try_except.
  destruct (json_loads (strip l)) as [v|e] eqn:E; cbn [mbind res_bind].
  - simpl. by destruct (as_record v).
  - rewrite (Hl e eq_refl). done.
Qed.

(** ** The node of a path, and its records *)

(** The node under a document that a list of keys leads to. *)
Inductive at_path : pyval → list string → pyval → Prop :=
  | ap_here v : at_path v [] v
  | ap_key d k v ks w : (k, v) ∈ d → at_path v ks w → at_path (PyDict d) (k :: ks) w.

Definition dotless (k : string) : bool := all_str (λ a, negb (bool_decide (a = "."%char))) k.

(** The node that the configuration asks for, if the document has it: the document,
    or what the keys between the dots lead to. *)
Inductive chosen (doc : pyval) : option string → option pyval → Prop :=
  | ch_none : chosen doc None (Some doc)
  | ch_empty : chosen doc (Some "") (Some doc)
  | ch_path ks v :
      Forall (λ k, dotless k = true) ks → join "." ks ≠ "" → at_path doc ks v →
      chosen doc (Some (join "." ks)) (Some v)
  | ch_missing ks :
      Forall (λ k, dotless k = true) ks → join "." ks ≠ "" → (¬ ∃ v, at_path doc ks v) →
      chosen doc (Some (join "." ks)) None.

(** The objects among the elements of a list. *)
Inductive objects : list pyval → list record → Prop :=
  | ob_nil : objects [] []
  | ob_dict d l ds : objects l ds → objects (PyDict d :: l) (d :: ds)
  | ob_other v l ds : (∀ d, v ≠ PyDict d) → objects l ds → objects (v :: l) ds.

(** The records at a node: the objects of a list, an object itself, nothing else. *)
Inductive node_records : option pyval → list record → Prop :=
  | nr_list l ds : objects l ds → node_records (Some (PyList l)) ds
  | nr_dict d : node_records (Some (PyDict d)) [d]
  | nr_other v : (∀ l, v ≠ PyList l) → (∀ d, v ≠ PyDict d) → node_records (Some v) []
  | nr_none : node_records None [].

Lemma descend_at doc ks v : plain doc = true → at_path doc ks v → descend doc ks = v.
Proof.
  intros Hp H. induction H as [v|d k v ks w Hin _ IH]; [done|]. cbn [plain descend] in *.
  apply andb_true_iff in Hp as [Hnd Hp]. apply bool_decide_eq_true in Hnd. rewrite forallb_true_forall in Hp.
  rewrite (dget_elem d k v) by done. apply IH, (Hp _ Hin).
Qed.

Lemma descend_missing doc ks : (¬ ∃ v, at_path doc ks v) → descend doc ks = PyNone.
Proof.
  revert doc. induction ks as [|k ks IH]; intros doc Hn; [destruct Hn; exists doc; constructor|].
  cbn [descend]. destruct doc as [| | | | | |d]; try done. destruct (dget d k) as [w|] eqn:E; simpl.
  - apply IH. intros [v Hv]. apply Hn. exists v. econstructor; [by apply dget_Some_elem|done].
  - by destruct ks.
Qed.

Lemma chosen_resolve doc path node :
  plain doc = true → chosen doc path node → resolve_path doc path = default PyNone node.
Proof.
  intros Hp [| |ks v Hks Hne Hat|ks Hks Hne Hno]; [done|done|..]; unfold resolve_path.
  all: destruct (join "." ks) as [|c t] eqn:E; [done|]; rewrite <- E.
  all: rewrite split_join; [|by intros ->|exact Hks].
  - by apply descend_at.
  - by apply descend_missing.
Qed.

Lemma objects_records l ds : objects l ds → omap as_record l = ds.
Proof.
  induction 1 as [|d l ds _ IH|v l ds Hv _ IH]; [done|by cbn; rewrite IH|].
  cbn. destruct v as [| | | | | |d]; try done. by destruct (Hv d).
Qed.

Lemma node_records_of node ds : node_records node ds → records_of (default PyNone node) = ds.
Proof.
  intros [l ds' H|d|v Hl Hd|]; [by apply objects_records|done| |done].
  destruct v as [| | | | |l|d]; try done; [by destruct (Hl l)|by destruct (Hd d)].
Qed.

(** C35: documents are read back.  Of a document that [json.dumps] wrote the parser
    yields the records at the configured root path: the objects of the list that
    the keys between its dots lead to, or the object there; nothing if there is
    something else or the document has no such path; and without a path, the
    records of the document itself.  Objects written one per line are the records
    of NDJSON, in order.  This holds for values without floats that the interpreter
    can nest and whose integers it can read. *)
Theorem json_round_trip cfg payload ctx :
  (∀ doc node records, ndjson cfg = false → decode (encoding cfg) (body payload) = Ok (dumps doc) →
     plain doc = true → depth doc <= recursion_limit →
     chosen doc (root_path cfg) node → node_records node records →
     json_parse_sync cfg payload ctx = Ok records) ∧
  (∀ records, ndjson cfg = true →
     decode (encoding cfg) (body payload) = Ok (join (String (chr 10) "") ((λ d, dumps (PyDict d)) <$> records)) →
     Forall (λ d, plain (PyDict d) = true ∧ depth (PyDict d) <= recursion_limit) records →
     json_parse_sync cfg payload ctx = Ok records).
Proof.
  split.
  - intros doc node records Hn Hd Hp Hdep Hc Hr. unfold json_parse_sync. rewrite Hd, Hn. cbn [try_except mbind res_bind].
    rewrite loads_dumps by done. cbn [try_except mbind res_bind].
    by rewrite (chosen_resolve _ _ _ Hp Hc), (node_records_of _ _ Hr).
  - intros records Hn Hd Hall. unfold json_parse_sync. rewrite Hd, Hn. cbn [try_except mbind res_bind].
    rewrite splitlines_join.
    + clear Hd. induction Hall as [|d records [Hp Hdep] _ IH]; [done|]. rewrite fmap_cons. cbn [ndjson_records].
      rewrite dumps_dict_strip, loads_dumps by done.
      change (String.eqb (dumps (PyDict d)) "") with false. cbn iota. cbn [try_except mbind res_bind].
      by rewrite IH.
    + apply Forall_forall. intros x (d & -> & Hd')%list_elem_of_fmap. rewrite Forall_forall in Hall.
      destruct (Hall d Hd') as [Hp _]. split; [|done]. by apply ascii_no_break, dumps_ascii.
Qed.
End parser.

(** ** Samples *)

Definition no_float (s : string) : pyfloat := PyFloatV s None false false.
Definition utf8 (enc : string) (b : bytes) : res string :=
  Ok (String.string_of_list_ascii (ascii_of_byte <$> b)).
Definition json_payload (text : string) : RawPayload :=
  MkRawPayload (byte_of_ascii <$> String.list_ascii_of_string text) "application/json" [] 0 None None None.
Definition json_ctx : RunContext := MkRunContext 1 "src" 0 "c" [] None [].
Definition json_doc : pyval :=
  PyDict [("data", PyDict [("items", PyList [PyDict [("v", PyStr "a"); ("n", PyInt (-7))]; PyInt 1; PyDict []])])].

Lemma json_round_trip_witness :
  json_parse_sync utf8 (λ _, "") no_float 900 (MkJsonConfig false (Some "data.items") "utf-8")
    (json_payload (dumps json_doc)) json_ctx = Ok [[("v", PyStr "a"); ("n", PyInt (-7))]; []] ∧
  json_parse_sync utf8 (λ _, "") no_float 900 (MkJsonConfig true None "utf-8")
    (json_payload (dumps (PyDict [("v", PyNone)]) +:+ String (chr 10) (dumps (PyDict [])))) json_ctx
  = Ok [[("v", PyNone)]; []].
Proof.
  split.
  - apply (json_round_trip utf8 (λ _, "") no_float 900 (MkJsonConfig false (Some "data.items") "utf-8")
             (json_payload (dumps json_doc)) json_ctx)
      with (doc := json_doc) (node := Some (PyList [PyDict [("v", PyStr "a"); ("n", PyInt (-7))]; PyInt 1; PyDict []])).
    + reflexivity.
    + vm_compute. reflexivity.
    + vm_compute. reflexivity.
    + vm_compute. lia.
    + apply (ch_path json_doc ["data"; "items"]); [repeat constructor|discriminate|].
      repeat (econstructor; [by left|]). constructor.
    + repeat (constructor; try discriminate).
  - apply (json_round_trip utf8 (λ _, "") no_float 900 (MkJsonConfig true None "utf-8")
             (json_payload (dumps (PyDict [("v", PyNone)]) +:+ String (chr 10) (dumps (PyDict [])))) json_ctx)
      with (records := [[("v", PyNone)]; []]).
    + reflexivity.
    + vm_compute. reflexivity.
    + repeat constructor; vm_compute; lia.
Defined.

Lemma ndjson_skips_bad_lines_witness :
  ndjson_records (λ _, "") no_float 900 ["{}"; "oops"; "[1]"; " "] = Ok [[]].
Proof.
  rewrite (ndjson_skips_bad_lines (λ _, "") no_float 900 ["{}"; "oops"; "[1]"; " "]).
  - reflexivity.
  - repeat (apply Forall_cons; split; [intros e He; vm_compute in He; try discriminate He; injection He as <-; reflexivity|]).
    constructor.
Defined.

(** Two limits of the interpreter escape the handler for bad documents: an
    integer with more digits than it converts, and nesting deeper than it recurses. *)
Definition ones : string := String.string_of_list_ascii (replicate (Z.to_nat 4301) "1"%char).
Definition brackets (n : nat) : string := String.string_of_list_ascii (replicate n "["%char).

Theorem ndjson_limits_escape :
  (∃ e, ndjson_records (λ _, "") no_float 900 ["{}"; ones] = Raise e ∧ cls e = ValueError) ∧
  (∃ e, ndjson_records (λ _, "") no_float 900 ["{}"; brackets 901] = Raise e ∧ cls e = RuntimeError).
Proof. split; eexists; (split; [vm_compute; reflexivity|reflexivity]). Qed.
