(* ===== verification/TxtExtractor.v ===== *)
(** [plugins/parsers/txt_extractor.py]: addresses, networks, URLs, domains and
    hashes in lines of text. *)

From S2P Require Import Prelude Errors PyStr PyStrFacts PyDict PyVal Regex RegexFacts IpAddr IpAddrFacts.
From S2P Require Import Enums UrlParse Uuid Hashing HashingFacts Models Effects Stages.

Abbreviation bytes := (list Byte.byte).

(** ** Patterns *)

Definition digits13 : regex := RRepeat (RChar is_digit) 1 (Some 3).
Definition RE_IPV4 : regex :=
  RSeq RWordB (RSeq digits13 (RSeq (RLit ".") (RSeq digits13 (RSeq (RLit ".") (RSeq digits13
    (RSeq (RLit ".") (RSeq digits13
      (RSeq (ROpt (RSeq (RLit "/") (RRepeat (RChar is_digit) 1 (Some 2)))) RWordB)))))))).

(** [a-z] and [a-z0-9] under [re.IGNORECASE]. *)
Definition is_letter (c : ascii) : bool := is_lower_ascii c || is_upper_ascii c.
Definition is_letter_digit (c : ascii) : bool := is_letter c || is_digit c.
Definition is_letter_digit_hyphen (c : ascii) : bool := is_letter_digit c || bool_decide (c = "-"%char).

Definition RE_DOMAIN : regex :=
  RSeq RWordB
    (RSeq (RPlus (RSeq (RChar is_letter_digit)
             (RSeq (ROpt (RSeq (RRepeat (RChar is_letter_digit_hyphen) 0 (Some 61)) (RChar is_letter_digit)))
                (RLit "."))))
       (RSeq (RRepeat (RChar is_letter) 2 (Some 24)) RWordB)).

(** No blank, quote or angle bracket. *)
Definition is_url_char (c : ascii) : bool :=
  negb (is_space c || existsb (N.eqb (code c)) [34; 39; 60; 62]%N).
Definition RE_URL : regex :=
  RSeq RWordB (RSeq (RStrI "http") (RSeq (ROpt (RLitI "s")) (RSeq (RStrI "://") (RPlus (RChar is_url_char))))).

Definition hex_run (n : nat) : regex := RSeq RWordB (RSeq (RRepeat (RChar is_hex_digit) n (Some n)) RWordB).
Definition RE_HASH : regex := RAlt (hex_run 32) (RAlt (hex_run 40) (hex_run 64)).

(** [pattern.findall(s)] of a pattern without groups. *)
Definition findall (r : regex) (s : string) : list string := m_text <$> finditer r s.

(** ** The extractor *)

Record TxtExtractorConfig := MkTxtConfig {
  extract : list string;
  skip_comment_prefix : string;
  expand_cidrs : bool;
  encoding : string
}.
Definition default_TxtExtractorConfig : TxtExtractorConfig := MkTxtConfig ["ipv4"] "#" false "utf-8".

(** The values of one token of [_extract_ipv4]. *)
Definition token_values (expand : bool) (token : string) : res (list string) :=
  if contains_char "/" token then
    net ← ip_net false false token;
    Ok (if expand && (24 <=? net_prefixlen net)%Z then str_ipv4 <$> hosts4 net else [str_net4 net])
  else n ← IPv4Address token; Ok [str_ipv4 n].

(** [_extract_ipv4(line, expand_cidrs)]. *)
Fixpoint extract_tokens (expand : bool) (tokens : list string) : res (list string) :=
  match tokens with
  | [] => Ok []
  | token :: tokens =>
      out ← try_except (token_values expand token) [ValueError] (λ _, Ok []);
      rest ← extract_tokens expand tokens;
      Ok (out ++ rest)
  end.
Definition extract_ipv4 (line : string) (expand : bool) : res (list string) :=
  extract_tokens expand (findall RE_IPV4 line).

(** [{32: "md5", 40: "sha1", 64: "sha256"}[len(m)]]. *)
Definition hash_type (m : string) : res string :=
  let n := String.length m in
  if (n =? 32)%nat then Ok "md5" else if (n =? 40)%nat then Ok "sha1"
  else if (n =? 64)%nat then Ok "sha256" else raise KeyError (str_of_Z (Z.of_nat n)).

Definition txt_record (ty v line : string) : record :=
  [("type", PyStr ty); ("value", PyStr v); ("_raw", PyStr line)].

Definition hash_record (line m : string) : res record := ty ← hash_type m; Ok (txt_record ty m line).

(** What one kind finds in a line. *)
Definition kind_records (expand : bool) (line kind : string) : res (list record) :=
  if String.eqb kind "ipv4" then
    vs ← extract_ipv4 line expand; Ok (map (λ v, txt_record "ipv4" v line) vs)
  else if String.eqb kind "url" then Ok (map (λ m, txt_record "url" m line) (findall RE_URL line))
  else if String.eqb kind "domain" then Ok (map (λ m, txt_record "domain" m line) (findall RE_DOMAIN line))
  else if String.eqb kind "hash" then mapM_res (hash_record line) (findall RE_HASH line)
  else Ok [].

Definition line_records (cfg : TxtExtractorConfig) (raw : string) : res (list record) :=
  let line := strip raw in
  if String.eqb line "" || startswith line (skip_comment_prefix cfg) then Ok []
  else found ← mapM_res (kind_records (expand_cidrs cfg) line) (extract cfg); Ok (concat found).

Section parser.
Context (decode_replace : string → bytes → res string).   (* [body.decode(encoding, errors="replace")] *)

Definition txt_parse_sync (cfg : TxtExtractorConfig) (payload : RawPayload) (ctx : RunContext)
    : res (list record) :=
  text ← decode_replace (encoding cfg) (body payload);
  found ← mapM_res (line_records cfg) (splitlines text);
  Ok (concat found).

Definition TxtExtractor (cfg : TxtExtractorConfig) : Parser := MkParser (SyncParser_parse (txt_parse_sync cfg)).
End parser.

(** ** Samples, checked against the interpreter *)

Example find_ipv4 :
  extract_ipv4 "a 1.2.3.4, 10.0.0.0/30 and 01.2.3.4 1.2.3.400 1.2.3.4.5" true
  = Ok ["1.2.3.4"; "10.0.0.1"; "10.0.0.2"; "1.2.3.4"].
Proof. vm_compute. reflexivity. Qed.
Example find_ipv4_net : extract_ipv4 "10.1.2.3/8" true = Ok ["10.0.0.0/8"].
Proof. vm_compute. reflexivity. Qed.
Example find_domain : findall RE_DOMAIN "see evil.example.com, x_y.a and a-.b.co1" = ["evil.example.com"].
Proof. vm_compute. reflexivity. Qed.
Example find_url : findall RE_URL "<HTTPS://x.example/a?b> or http://y" = ["HTTPS://x.example/a?b"; "http://y"].
Proof. vm_compute. reflexivity. Qed.
Example find_hash :
  findall RE_HASH "d41d8cd98f00b204e9800998ecf8427e d41d8cd98f00b204e9800998ecf8427" = ["d41d8cd98f00b204e9800998ecf8427e"].
Proof. vm_compute. reflexivity. Qed.
