(* ===== verification/TxtFacts.v ===== *)
(** What the text extractor finds: every record comes from a kept line, no
    failure escapes, and which values can become indicators. *)

From S2P Require Import Prelude Errors PyStr PyStrFacts PyDict PyVal Regex RegexFacts IpAddr IpAddrFacts.
From S2P Require Import Enums UrlParse Uuid Hashing HashingFacts Models Effects Normalize NormalizeFacts.
From S2P Require Import Stages TxtExtractor.

(** ** Hashes *)

Lemma span_wordb_inv p q : span RWordB p q → p = q.
Proof. by inversion 1. Qed.

Lemma span_alt_inv r1 r2 p q : span (RAlt r1 r2) p q → span r1 p q ∨ span r2 p q.
Proof. inversion 1; subst; [by left|by right]. Qed.

Lemma span_hex_run n p q :
  span (hex_run n) p q → ∃ w, after p = w +:+ after q ∧ String.length w = n ∧ all_str is_hex_digit w = true.
Proof.
  unfold hex_run. intros (p1 & ->%span_wordb_inv & (p2 & Hw & ->%span_wordb_inv)%span_seq_inv)%span_seq_inv.
  apply span_repeat_chars in Hw as (w & Hp & Hall & Hlo & Hhi). exists w. specialize (Hhi n eq_refl).
  split; [done|]. split; [lia|done].
Qed.

(** A match of the hash pattern is a run of hexadecimal digits of one of the
    three lengths. *)
Lemma findall_hash w line :
  w ∈ findall RE_HASH line →
  occurs w line ∧ all_str is_hex_digit w = true ∧
  (String.length w = 32 ∨ String.length w = 40 ∨ String.length w = 64).
Proof.
  intros (m & -> & Hm)%list_elem_of_fmap. apply finditer_matched in Hm as (Hocc & p & Hs & Hp).
  split; [done|]. assert (∃ n, span (hex_run n) p (m_end m) ∧ (n = 32 ∨ n = 40 ∨ n = 64)) as (n & Hn & Hlen).
  { unfold RE_HASH in Hs. apply span_alt_inv in Hs as [Hs|[Hs|Hs]%span_alt_inv]; eexists; (split; [exact Hs|]); auto. }
  apply span_hex_run in Hn as (w & Hw & Hl & Hall). rewrite Hp in Hw. apply app_str_inj_r in Hw as ->.
  rewrite Hl. by split.
Qed.

Lemma lower_hex c : is_hex_digit c = true → is_lower_hex (lower_char c) = true ∧ is_space c = false.
Proof.
  assert (∀ c, negb (is_hex_digit c) || is_lower_hex (lower_char c) && negb (is_space c) = true) as H by check_ascii.
  intros Hc. specialize (H c). rewrite Hc in H. simpl in H. by apply andb_true_iff in H as [-> ?%negb_true_iff].
Qed.

(** The type of a hash, by its length. *)
Definition hash_of_length (n : nat) : option IndicatorType :=
  if (n =? 32)%nat then Some MD5 else if (n =? 40)%nat then Some SHA1
  else if (n =? 64)%nat then Some SHA256 else None.

Lemma hash_canonical idna t w :
  all_str is_hex_digit w = true → hash_of_length (String.length w) = Some t →
  canonicalize idna t w = Ok (lower w).
Proof.
  intros Hall Ht.
  assert (strip w = w) as Hs.
  { apply strip_none. eapply all_str_impl; [|exact Hall]. intros c Hc. by destruct (lower_hex c Hc) as [_ ->]. }
  assert (all_str is_lower_hex (lower w) = true) as Hl.
  { clear -Hall. induction w as [|c w IH]; [done|]. simpl in *. apply andb_true_iff in Hall as [Hc Hw].
    destruct (lower_hex c Hc) as [-> _]. by apply IH. }
  assert (∃ n, hash_length t = Ok n ∧ String.length w = n ∧ n ≠ 0 ∧ t ∈ [MD5; SHA1; SHA256]) as (n & Hn & Hlen & H0 & Hin).
  { unfold hash_of_length in Ht.
    destruct (Nat.eqb_spec (String.length w) 32) as [->|]; [injection Ht as <-; exists 32; split_and!; (done || set_solver)|].
    destruct (Nat.eqb_spec (String.length w) 40) as [->|]; [injection Ht as <-; exists 40; split_and!; (done || set_solver)|].
    destruct (Nat.eqb_spec (String.length w) 64) as [->|]; [injection Ht as <-; exists 64; split_and!; (done || set_solver)|done]. }
  assert (canonical_hash t w = Ok (lower w)) as Hc.
  { apply (canonical_hash_spec t w _ n Hn). rewrite Hs. unfold lower. rewrite length_map_str. done. }
  unfold canonicalize. rewrite Hs. destruct (String.eqb_spec w "") as [->|_]; [by subst|].
  repeat (apply elem_of_cons in Hin as [->|Hin]); [exact Hc..|by apply elem_of_nil in Hin].
Qed.

(** ** Addresses and networks *)

#[local] Open Scope Z_scope.

Lemma parse_prefixlen_bound v6 s p : parse_prefixlen v6 s = Ok p → 0 <= p <= max_prefixlen v6.
Proof.
  unfold parse_prefixlen. destruct (is_digits s); [|done].
  destruct (Z.leb_spec (Z.of_N (digits_val 0 s)) (max_prefixlen v6)); [|done]. intros [= <-]. lia.
Qed.

Lemma ip_net_raises strict s : raises_only (ip_net false strict s) value_errors.
Proof.
  assert (∀ m, raises_only (parse_prefixlen false m) value_errors) as Hp by (intros m; unfold parse_prefixlen; raises).
  unfold ip_net, address_error. destruct (split "/" s) as [|a [|m [|]]];
    repeat (apply raises_only_bind; [first [apply IPv4Address_raises|apply Hp|raises]|intros ? _]); raises.
Qed.

Lemma ip_net_inv s net :
  ip_net false false s = Ok net →
  ∃ n p, 0 <= n < 4294967296 ∧ 0 <= p <= 32 ∧ net = Net false (mask_addr false p n) p.
Proof.
  unfold ip_net. intros H.
  destruct (match split "/" s with
            | [a] => (a, Ok (max_prefixlen false))
            | [a; m] => (a, parse_prefixlen false m)
            | _ => (s, address_error "Only one '/' permitted")
            end) as [addr mask] eqn:Es.
  apply bind_Ok in H as (n & Hn & H). apply bind_Ok in H as (p & Hp & [= <-]).
  apply IPv4Address_canonical in Hn as [_ Hn]. exists n, p. split; [done|]. split; [|done].
  destruct (split "/" s) as [|a [|m [|]]]; injection Es as <- <-; try discriminate Hp.
  - injection Hp as <-. done.
  - by apply parse_prefixlen_bound in Hp.
Qed.

Lemma hosts4_bound n p x :
  0 <= n < 4294967296 → 0 <= p <= 32 → x ∈ hosts4 (Net false (mask_addr false p n) p) →
  0 <= x < 4294967296.
Proof.
  intros Hn Hp Hx. unfold hosts4, mask_addr, net_size in Hx. simpl in Hx.
  set (size := 2 ^ (32 - p)) in *. assert (0 < size) as Hs by (apply Z.pow_pos_nonneg; lia).
  assert (2 ^ p * size = 4294967296) as Hsz by (unfold size; rewrite <- Z.pow_add_r by lia; by replace (p + (32 - p)) with 32 by lia).
  assert (0 <= n / size < 2 ^ p) as Hq.
  { split; [apply Z.div_pos; lia|]. apply Z.div_lt_upper_bound; lia. }
  assert (0 <= n / size * size ∧ n / size * size + size <= 4294967296) as [Hlo Hhi] by nia.
  destruct (31 <=? p); apply elem_of_seqZ in Hx; lia.
Qed.

(** An expanded network gives at most 254 addresses. *)
Lemma length_hosts4 net :
  24 <= net_prefixlen net <= 32 → (length (hosts4 net) <= 254)%nat.
Proof.
  intros Hp. unfold hosts4. destruct (Z.leb_spec 31 (net_prefixlen net)) as [H|H]; rewrite length_seqZ.
  - assert (net_prefixlen net = 31 ∨ net_prefixlen net = 32) as [-> | ->] by lia; vm_compute; lia.
  - unfold net_size, max_prefixlen. assert (2 ^ (32 - net_prefixlen net) <= 2 ^ 8) by (apply Z.pow_le_mono_r; lia).
    change (2 ^ 8) with 256 in *. lia.
Qed.

Lemma ipv4_chars n :
  0 <= n < 4294967296 → all_str (λ c, is_digit c || bool_decide (c = "."%char)) (str_ipv4 n) = true.
Proof.
  intros Hn. destruct (bytes_of_octets n Hn) as (a & b & c & d & Ho & _ & Ha & Hb & Hc & Hd).
  unfold str_ipv4. rewrite Ho. apply all_str_join; [done|]. cbn [map].
  repeat (apply Forall_cons; split; [eapply all_str_impl; [|by apply str_octet_digits]; intros x ->; done|]).
  constructor.
Qed.

Lemma canonical_ipv4 idna n :
  0 <= n < 4294967296 → canonicalize idna IPV4 (str_ipv4 n) = Ok (str_ipv4 n).
Proof.
  intros Hn. pose proof (IPv4Address_str n Hn) as Ha.
  assert (strip (str_ipv4 n) = str_ipv4 n) as Hs.
  { apply strip_none. eapply all_str_impl; [|by apply ipv4_chars].
    assert (∀ c, negb (is_digit c || bool_decide (c = "."%char)) || negb (is_space c) = true) as H by check_ascii.
    intros c Hc. specialize (H c). by rewrite Hc in H. }
  unfold canonicalize. rewrite Hs. destruct (String.eqb_spec (str_ipv4 n) "") as [E|_].
  - rewrite E in Ha. discriminate Ha.
  - by rewrite Ha.
Qed.

(** Stripping keeps a character that is no blank. *)
Lemma contains_strip p c s : p c = false → contains_char c s = true → contains_char c (strip_by p s) = true.
Proof.
  assert (∀ q s, contains_char q s = true ↔ ∃ u v, s = u +:+ String q v) as Hiff.
  { intros q t. unfold contains_char. rewrite negb_true_iff. split.
    - intros H. induction t as [|a t IH]; [done|]. simpl in H.
      destruct (bool_decide (a = q)) eqn:E; [apply bool_decide_eq_true in E as ->; by exists "", t|].
      destruct (IH H) as (u & v & ->). by exists (String a u), v.
    - intros (u & v & ->). rewrite all_str_app. simpl. rewrite bool_decide_eq_true_2 by done.
      simpl. by rewrite andb_false_r. }
  intros Hp (u & v & ->)%Hiff. apply Hiff. unfold strip_by.
  assert (∃ u', lstrip_by p (u +:+ String c v) = u' +:+ String c v) as [u' ->].
  { induction u as [|a u IH]; simpl; [rewrite Hp; by exists ""|].
    destruct (p a); [done|]. by exists (String a u). }
  exists u'. induction u' as [|a u' [v' IH]]; simpl.
  - exists (rstrip_by p v). rewrite Hp. by destruct (rstrip_by p v).
  - exists v'. rewrite IH. by destruct u'.
Qed.

(** A network never is an IPv4 indicator. *)
Lemma network_rejected idna net : is_ok (canonicalize idna IPV4 (str_net4 net)) = false.
Proof.
  unfold canonicalize. destruct (String.eqb (strip (str_net4 net)) ""); [done|].
  assert (contains_char "/" (strip (str_net4 net)) = true) as Hc.
  { apply contains_strip; [done|]. unfold contains_char, str_net4. rewrite !all_str_app. simpl.
    by rewrite andb_false_r. }
  unfold IPv4Address. by rewrite Hc.
Qed.

(** ** Records *)

Lemma mapM_res_total {A B} (f : A → res B) (P : B → Prop) l :
  (∀ x, x ∈ l → ∃ y, f x = Ok y ∧ P y) → ∃ ys, mapM_res f l = Ok ys ∧ Forall P ys.
Proof.
  induction l as [|x l IH]; intros H; [by exists []|].
  destruct (H x) as (y & Hy & HP); [set_solver|]. destruct IH as (ys & Hys & HPs); [intros; apply H; set_solver|].
  exists (y :: ys). simpl. rewrite Hy. simpl. rewrite Hys. split; [done|by constructor].
Qed.

(** What [_extract_ipv4] may return: an address in canonical form, or a network
    that is not expanded. *)
Definition address_or_net (expand : bool) (v : string) : Prop :=
  (∃ n, 0 <= n < 4294967296 ∧ v = str_ipv4 n) ∨
  (∃ net, v = str_net4 net ∧ (expand = false ∨ net_prefixlen net < 24)).

Lemma token_values_spec expand token :
  match token_values expand token with
  | Ok vs => Forall (address_or_net expand) vs
  | Raise e => isinstance e ValueError = true
  end.
Proof.
  unfold token_values. destruct (contains_char "/" token).
  - destruct (ip_net false false token) as [net|e] eqn:E; cbn [mbind res_bind].
    + apply ip_net_inv in E as (n & p & Hn & Hp & ->). cbn [net_prefixlen].
      destruct (expand && (24 <=? p)) eqn:Ex.
      * apply Forall_forall. intros v (x & -> & Hx)%list_elem_of_fmap. left. exists x.
        split; [by eapply (hosts4_bound n p)|done].
      * apply Forall_singleton. right. eexists. split; [reflexivity|]. cbn [net_prefixlen].
        apply andb_false_iff in Ex as [->|Ex]; [by left|right; lia].
    + pose proof (ip_net_raises _ _ _ E) as He. simpl in He. by rewrite orb_false_r in He.
  - destruct (IPv4Address token) as [n|e] eqn:E; cbn [mbind res_bind].
    + apply Forall_singleton. left. exists n. by apply IPv4Address_canonical in E as [_ ?].
    + pose proof (IPv4Address_raises _ _ E) as He. simpl in He. by rewrite orb_false_r in He.
Qed.

Lemma extract_ipv4_total line expand :
  ∃ vs, extract_ipv4 line expand = Ok vs ∧ Forall (address_or_net expand) vs.
Proof.
  unfold extract_ipv4. induction (findall RE_IPV4 line) as [|token tokens (vs & Hvs & Hall)]; [by exists []|].
  cbn [extract_tokens]. rewrite Hvs. pose proof (token_values_spec expand token) as Ht.
  destruct (token_values expand token) as [ws|e]; cbn [try_except].
  - cbn [mbind res_bind]. exists (ws ++ vs). split; [done|by apply Forall_app].
  - simpl. rewrite Ht. simpl. by exists vs.
Qed.

(** A value of a record, its type, and the line it was found in. *)
Inductive finding (idna : string → res string) (expand : bool) (line : string) : string → string → Prop :=
  | found_address v : canonicalize idna IPV4 v = Ok v → finding idna expand line "ipv4" v
  | found_net net :
      expand = false ∨ net_prefixlen net < 24 →
      is_ok (canonicalize idna IPV4 (str_net4 net)) = false →
      finding idna expand line "ipv4" (str_net4 net)
  | found_hash t v :
      hash_of_length (String.length v) = Some t → canonicalize idna t v = Ok (lower v) → occurs v line →
      finding idna expand line (value t) v
  | found_url v : occurs v line → finding idna expand line "url" v
  | found_domain v : occurs v line → finding idna expand line "domain" v.

Definition found_in (idna : string → res string) (expand : bool) (line : string) (r : record) : Prop :=
  ∃ ty v, r = txt_record ty v line ∧ finding idna expand line ty v.

Lemma hash_record_total idna expand line w :
  w ∈ findall RE_HASH line → ∃ r, hash_record line w = Ok r ∧ found_in idna expand line r.
Proof.
  intros (Hocc & Hall & Hl)%findall_hash. unfold hash_record, hash_type.
  destruct Hl as [Hl|[Hl|Hl]]; rewrite Hl; (eexists; split; [reflexivity|]);
    eexists _, w; (split; [reflexivity|]).
  - apply (found_hash _ _ _ MD5); [by rewrite Hl| |done]. apply hash_canonical; [done|by rewrite Hl].
  - apply (found_hash _ _ _ SHA1); [by rewrite Hl| |done]. apply hash_canonical; [done|by rewrite Hl].
  - apply (found_hash _ _ _ SHA256); [by rewrite Hl| |done]. apply hash_canonical; [done|by rewrite Hl].
Qed.

Lemma findall_occurs r line v : v ∈ findall r line → occurs v line.
Proof. intros (m & -> & Hm)%list_elem_of_fmap. by apply finditer_matched in Hm as [? _]. Qed.

Lemma found_map idna expand line ty (l : list string) :
  (∀ v, v ∈ l → finding idna expand line ty v) →
  Forall (found_in idna expand line) (map (λ v, txt_record ty v line) l).
Proof.
  intros H. apply Forall_forall. intros r Hr. apply list_elem_of_In, in_map_iff in Hr as (v & <- & Hv).
  exists ty, v. split; [done|]. by apply H, list_elem_of_In.
Qed.

Lemma kind_records_total idna expand line kind :
  ∃ rs, kind_records expand line kind = Ok rs ∧ Forall (found_in idna expand line) rs.
Proof.
  unfold kind_records. destruct (String.eqb kind "ipv4").
  { destruct (extract_ipv4_total line expand) as (vs & -> & Hall). eexists. split; [reflexivity|].
    apply found_map. intros v Hv. rewrite Forall_forall in Hall.
    destruct (Hall v Hv) as [(n & Hn & ->)|(net & -> & Hnet)].
    - apply found_address. by apply canonical_ipv4.
    - apply found_net; [done|apply network_rejected]. }
  destruct (String.eqb kind "url").
  { eexists. split; [reflexivity|]. apply found_map. intros v Hv. by eapply found_url, findall_occurs. }
  destruct (String.eqb kind "domain").
  { eexists. split; [reflexivity|]. apply found_map. intros v Hv. by eapply found_domain, findall_occurs. }
  destruct (String.eqb kind "hash"); [|by exists []].
  apply (mapM_res_total _ (found_in idna expand line)). intros w. apply hash_record_total.
Qed.

Lemma line_records_total idna cfg raw :
  ∃ rs, line_records cfg raw = Ok rs ∧
    Forall (λ r, strip raw ≠ "" ∧ startswith (strip raw) (skip_comment_prefix cfg) = false ∧
                 found_in idna (expand_cidrs cfg) (strip raw) r) rs.
Proof.
  unfold line_records. destruct (String.eqb_spec (strip raw) "") as [|Hne]; [by exists []|].
  destruct (startswith (strip raw) (skip_comment_prefix cfg)) eqn:E; [by exists []|]. cbn [orb].
  destruct (mapM_res_total (kind_records (expand_cidrs cfg) (strip raw))
              (Forall (found_in idna (expand_cidrs cfg) (strip raw))) (extract cfg)) as (found & -> & Hall).
  { intros kind _. apply kind_records_total. }
  eexists. split; [reflexivity|]. apply Forall_concat. eapply Forall_impl; [exact Hall|].
  intros rs Hrs. eapply Forall_impl; [exact Hrs|]. intros r Hr. done.
Qed.

(** C36: what the text extractor yields.  Once the payload is decoded the extractor
    never fails.  Every record comes from a line that is neither blank nor a
    comment, and names that line.  Its value is an IPv4 address in canonical form,
    or a hash of the length of its type, which both become indicators, or text of
    the line taken for a URL or a domain, or a network that is not expanded, which
    no IPv4 indicator can be made of. *)
Theorem txt_records_sound decode_replace idna cfg payload ctx text :
  decode_replace (encoding cfg) (body payload) = Ok text →
  ∃ records, txt_parse_sync decode_replace cfg payload ctx = Ok records ∧
    Forall (λ r, ∃ raw, raw ∈ splitlines text ∧ strip raw ≠ "" ∧
                   startswith (strip raw) (skip_comment_prefix cfg) = false ∧
                   found_in idna (expand_cidrs cfg) (strip raw) r) records.
Proof.
  intros Hd. unfold txt_parse_sync. rewrite Hd. cbn [mbind res_bind].
  destruct (mapM_res_total (line_records cfg)
              (Forall (λ r, ∃ raw, raw ∈ splitlines text ∧ strip raw ≠ "" ∧
                 startswith (strip raw) (skip_comment_prefix cfg) = false ∧
                 found_in idna (expand_cidrs cfg) (strip raw) r)) (splitlines text)) as (found & -> & Hall).
  { intros raw Hraw. destruct (line_records_total idna cfg raw) as (rs & -> & Hrs). eexists. split; [reflexivity|].
    eapply Forall_impl; [exact Hrs|]. intros r Hr. by exists raw. }
  eexists. split; [reflexivity|]. by apply Forall_concat.
Qed.

Definition txt_payload (text : string) : RawPayload :=
  MkRawPayload (byte_of_ascii <$> String.list_ascii_of_string text) "text/plain" [] 0 None None None.
Definition latin (enc : string) (b : bytes) : res string :=
  Ok (String.string_of_list_ascii (ascii_of_byte <$> b)).
Definition txt_ctx : RunContext := MkRunContext 1 "src" 0 "c" [] None [].
Definition txt_text : string :=
  "# list" +:+ String (chr 10) ("10.1.2.3/8" +:+ String (chr 10) "10.0.0.9 x") .

Lemma txt_records_sound_witness :
  ∃ records, txt_parse_sync latin default_TxtExtractorConfig (txt_payload txt_text) txt_ctx = Ok records ∧
    records = [txt_record "ipv4" "10.0.0.0/8" "10.1.2.3/8"; txt_record "ipv4" "10.0.0.9" "10.0.0.9 x"] ∧
    Forall (λ r, ∃ raw, raw ∈ splitlines txt_text ∧ found_in no_idna false (strip raw) r) records.
Proof.
  destruct (txt_records_sound latin no_idna default_TxtExtractorConfig (txt_payload txt_text) txt_ctx txt_text)
    as (records & Hr & Hall).
  - vm_compute. reflexivity.
  - exists records. split; [exact Hr|]. split; [vm_compute in Hr; injection Hr as <-; reflexivity|].
    eapply Forall_impl; [exact Hall|]. intros r (raw & Hin & _ & _ & Hf). exists raw. split; [exact Hin|exact Hf].
Defined.
