(* ===== verification/Commands.v ===== *)
(** [cli/commands/*.py]: the commands of the command line.

    A command is a function of its options and of the database.  It ends as the
    process does: with what it printed, with a status, or with the exception that
    leaves it.  The settings and the connection that [init_engine] makes are
    arguments; so are the clock readings, identifiers and the pipeline of a run,
    as in [Runner]. *)

From Stdlib Require Import QArith.
From stdpp Require Import sorting.
From S2P Require Import Prelude DateTime Errors PyStr PyStrFacts PyDict PyVal Json Uuid UuidText Enums Secrets Config Models.
From S2P Require Import Stages Pipeline Breaker Registry Retry Concurrency Rows State Builder.
From S2P Require Import Runner Worker Repositories Partitioning.
#[local] Open Scope string_scope.
#[local] Open Scope list_scope.

Inductive ended :=
  | Printed (out : list string)         (** the lines on the standard output *)
  | Exit (code : Z) (err : string)      (** [typer.Exit] after a line on the standard error *)
  | Died (t : exc_tree).

Definition ended_of {A} (f : A → ended) (r : res A) : ended :=
  match r with Ok a => f a | Raise e => Died (Leaf e) end.

Definition tab : string := String (chr 9) "".
Definition pad : string := "  ".
Definition indented (v : pyval) : string := dumps_indent pad (String (chr 10) "") v.

Section commands.
Context {D : Type} `{!Database D} `{!Retrying}.
Context (pipeline_run : PipelineSpec → RunContext → D → (RunResult + exc_tree) * (RunContext * D)).
Context (aclose : plugin → res unit) (format_exception : exn → string) (eps : entry_points).
Context (safe_load : string → res pyval) (model_validate : pyval → res (list SourceConfig)).
Context (h : host) (dispose : res unit).
Context (fromisoformat : string → res Z).
Context (settings : res Settings).                     (* [get_settings()] *)

(** ** Runs *)

(** The registry, the source and a new runner. *)
Definition prepare (source_id : string) (d : D) : res (SourceConfig * runner D) :=
  s ← settings;
  registry ← load_registry safe_load model_validate h s;
  source ← get source_id registry;
  r ← new_runner s d;
  Ok (source, r).

Abbreviation run_of := (execute true pipeline_run aclose format_exception eps).

(** [run_once(source_id)]; [finally] releases the connection.  [None] when the
    run has to wait for a permit, as in [execute]. *)
Definition run_once (c : clock) (run_id : N) (corr source_id : string) (d : D) : option (ended * D) :=
  match prepare source_id d with
  | Raise e => Some (Died (Leaf e), d)
  | Ok (source, r) =>
      x ← run_of c source run_id corr None r;
      Some (match dispose, x.1 with
            | Raise e, _ => Died (Leaf e)
            | Ok _, inr t => Died t
            | Ok _, inl st =>
                Printed [dumps (PyDict [("source_id", PyStr source_id); ("state", PyStr (value st))])]
            end, r_db x.2)
  end.

Definition replay_stages : list string := ["parse"; "normalize"; "enrich"; "persist"].

(** [replay(run_id, from_stage)]; [new_id] is the identifier of the new run. *)
Definition replay (c : clock) (new_id : N) (corr run_id from_stage : string) (d : D) : option (ended * D) :=
  if decide (from_stage ∈ replay_stages) then
    match settings with
    | Raise e => Some (Died (Leaf e), d)
    | Ok _ =>
        match db_session true (id ← ((λ s, (parse_uuid run_id, s)) : Sess D N); run_get id) d with
        | (Raise e, d) => Some (Died (Leaf e), d)
        | (Ok None, d) => Some (Exit 1 "run not found", d)
        | (Ok (Some row), d) =>
            match run_raw_uri row with
            | None | Some "" => Some (Exit 3 "run has no raw_uri archived; cannot replay", d)
            | Some uri =>
                match prepare (run_source_id row) d with
                | Raise e => Some (Died (Leaf e), d)
                | Ok (cfg, r) =>
                    x ← run_of c cfg new_id corr (Some uri) r;
                    Some (match x.1 with
                          | inr t => Died t
                          | inl st => Printed ["replay " +:+ run_source_id row +:+ " from_stage=" +:+ from_stage
                                               +:+ " -> " +:+ value st]
                          end, r_db x.2)
                end
            end
        end
    end
  else Some (Exit 2 ("unsupported --from-stage " +:+ repr_str from_stage), d).

(** The columns that [_wipe] resets. *)
Definition wiped (row : SourceRow) : SourceRow :=
  MkSourceRow (src_id row) (src_name row) (src_plugin row) (src_config_hash row) (src_enabled row)
    (Some []) None None None (src_created_at row) (src_updated_at row).

Definition wipe (source_id : string) : Sess D unit :=
  row ← get_source source_id;
  match row with
  | Some row => _ ← s_write (update_source (wiped row)); s_commit
  | None => mret tt
  end.

(** [backfill(source_id, since)]. *)
Definition backfill (since : string) (c : clock) (run_id : N) (corr source_id : string) (d : D)
    : option (ended * D) :=
  match fromisoformat since with
  | Raise e =>
      Some (if isinstance e ValueError then Exit 2 ("invalid --since: " +:+ Errors.msg e)
            else Died (Leaf e), d)
  | Ok _ =>
      match settings with
      | Raise e => Some (Died (Leaf e), d)
      | Ok _ =>
          match db_session true (wipe source_id) d with
          | (Raise e, d) => Some (Died (Leaf e), d)
          | (Ok _, d) => run_once c run_id corr source_id d
          end
      end
  end.

(** ** Dead letters *)

(** A command whose only work is one session. *)
Definition session_command {A} (body : Sess D A) (f : A → ended) (d : D) : ended * D :=
  match settings with
  | Raise e => (Died (Leaf e), d)
  | Ok _ => let '(r, d) := db_session true body d in (ended_of f r, d)
  end.

Definition letter_line (r : DeadLetterRow) : string :=
  join tab [str_of_Z (dl_id r); dl_source_id r; dl_error_class r; isoformat (dl_created_at r);
            take_str 80 (dl_error_msg r)].

(** [list_dlq(source, show_all)]. *)
Definition list_dlq (source : option string) (show_all : bool) : D → ended * D :=
  session_command (dead_letter_list source (negb show_all) 200) (λ rows, Printed (letter_line <$> rows)).

Definition letter_doc (r : DeadLetterRow) : pyval :=
  PyDict [("id", PyInt (dl_id r)); ("feed_run_id", PyStr (str_uuid (dl_feed_run_id r)));
          ("source_id", PyStr (dl_source_id r)); ("error_class", PyStr (dl_error_class r));
          ("error_msg", PyStr (dl_error_msg r)); ("reason", PyStr (dl_reason r));
          ("traceback", PyStr (dl_traceback r)); ("created_at", PyStr (isoformat (dl_created_at r)));
          ("replayed_at", match dl_replayed_at r with Some t => PyStr (isoformat t) | None => PyNone end)].

(** [show(dlq_id)]. *)
Definition show (dlq_id : Z) : D → ended * D :=
  session_command (s_read (λ t, find (λ r, dl_id r =? dlq_id)%Z (t_dead_letters t)))
    (λ row, match row with
            | None => Exit 1 "not found"
            | Some r => Printed [indented (letter_doc r)]
            end).

(** [replay(dlq_id)] of the dead letters: the entry is marked. *)
Definition replay_letter (dlq_id now : Z) : D → ended * D :=
  session_command (x ← mark_replayed dlq_id now; _ ← s_commit; mret x)
    (λ _, Printed ["marked " +:+ str_of_Z dlq_id +:+ " replayed"]).

(** ** Sources and plugins *)

(** [_registry()]. *)
Definition registry : res sources := s ← settings; load_registry safe_load model_validate h s.

Definition py_bool (b : bool) : string := if b then "True" else "False".

Definition source_line (source : SourceConfig) : string :=
  join tab [sc_id source; sc_plugin source; "enabled=" +:+ py_bool (sc_enabled source);
            "schedule='" +:+ sc_schedule source +:+ "'"].

Definition list_sources : ended := ended_of (λ r, Printed (source_line <$> all r)) registry.

(** [validate_config()]. *)
Definition validate_config : ended :=
  match registry with
  | Raise e => if isinstance e PyException then Exit 2 ("INVALID: " +:+ Errors.msg e) else Died (Leaf e)
  | Ok r => Printed ["OK: " +:+ str_of_Z (Z.of_nat (length (all r))) +:+ " sources"]
  end.

(** [show_effective_config(source_id)]. *)
Definition print_effective_config (model_dump : SourceConfig → pyval) (source_id : string) : ended :=
  ended_of (λ cfg, Printed [indented (show_effective_config (model_dump cfg))])
    (r ← registry; get source_id r).

(** [show_config()]. *)
Definition print_config : ended := ended_of (λ s, Printed [indented (show_config s)]) settings.

Definition str_le (x y : string) : Prop := String.leb x y = true.
#[global] Instance str_le_dec : RelDecision str_le.
Proof. intros x y. unfold str_le. apply _. Defined.

(** The lines of a group; [class_path] is the module and the name of a class. *)
Definition group_lines (class_path : string → string → string) (g : string * list string) : list string :=
  ("# " +:+ g.1) ::
  match g.2 with
  | [] => ["  (none)"]
  | names => (λ name, "  " +:+ name +:+ tab +:+ class_path g.1 name) <$> merge_sort str_le names
  end.

Definition plugins (class_path : string → string → string) : ended :=
  ended_of (λ found, Printed (mjoin (group_lines class_path <$> found))) (discover eps).

(** ** Partitions *)

(** [ensure_partitions(months)] at [now]; [engine.begin()] rolls back what an
    exception interrupts. *)
Definition ensure_partitions {C} (execute : string → C → res C) (now months : Z) (conn : C)
    : ended * C :=
  match (_ ← settings; ensure_next_n_months execute now months conn) with
  | Raise e => (Died (Leaf e), conn)
  | Ok (created, conn) => (Printed [join (String (chr 10) "") created], conn)
  end.
End commands.
