(* ===== verification/Processes.v ===== *)
(** [cli/app.py] and the processes that it starts: [cli/commands/api.py],
    [cli/commands/scheduler.py], [cli/commands/worker.py], [startup] of
    [manager/worker.py] and [main] of [manager/scheduler.py].

    A process starts by a sequence of effects on what is global to it, the logging
    configuration and the engine; the servers that then run, and the queue and the
    store of jobs that they connect to, are the libraries'. *)

From Stdlib Require Import QArith.
From S2P Require Import Prelude Errors PyStr PyStrFacts PyDict PyVal Json Uuid UuidText Enums Secrets Config Models.
From S2P Require Import Stages Pipeline Breaker Registry Retry Concurrency Rows Engine State Builder.
From S2P Require Import Runner Logging Worker Auth HttpApp Commands.
#[local] Open Scope string_scope.
#[local] Open Scope list_scope.

(** ** The table of commands *)

Inductive command :=
  | RunOnce | ListSources | ValidateConfig | ShowEffectiveConfig | Plugins | Backfill | Replay
  | Scheduler | WorkerCmd | Api | ShowConfig
  | Migrate | EnsurePartitions | DlqList | DlqShow | DlqReplay.
#[export] Instance command_eq_dec : EqDecision command.
Proof. solve_decision. Defined.

(** [app.command(name)(...)] of the application and of a group. *)
Definition app_commands : list (string * command) :=
  [("run-once", RunOnce); ("list-sources", ListSources); ("validate-config", ValidateConfig);
   ("show-effective-config", ShowEffectiveConfig); ("plugins", Plugins); ("backfill", Backfill);
   ("replay", Replay); ("scheduler", Scheduler); ("worker", WorkerCmd); ("api", Api);
   ("show-config", ShowConfig)].
Definition db_commands : list (string * command) := [("migrate", Migrate); ("ensure-partitions", EnsurePartitions)].
Definition dlq_commands : list (string * command) := [("list", DlqList); ("show", DlqShow); ("replay", DlqReplay)].
Definition groups : list (string * list (string * command)) := [("db", db_commands); ("dlq", dlq_commands)].

(** The command that the first words of a command line name. *)
Definition find_command (words : list string) : option command :=
  match words with
  | [] => None
  | w :: ws =>
      match dget app_commands w, dget groups w, ws with
      | Some c, _, _ => Some c
      | None, Some g, w' :: _ => dget g w'
      | None, _, _ => None
      end
  end.

(** The words that name a command. *)
Definition command_words : list (list string * command) :=
  ((λ '(w, c), ([w], c)) <$> app_commands) ++
  (groups ≫= λ '(g, cs), (λ '(w, c), ([g; w], c)) <$> cs).

(** ** The start of a process *)

Record process (W : Type) := MkProcess { p_logging : logging_state W; p_engine : option engine }.
Arguments MkProcess {W}.
Arguments p_logging {W}.
Arguments p_engine {W}.

Section boot.
Context {W : Type} (make_filtering_bound_logger : attribute → res W) (styles : string).
Context (create : engine → res unit).
Context (settings : res Settings).                     (* [get_settings()] *)

Definition Proc (A : Type) : Type := process W → res A * process W.

#[export] Instance Proc_ret : MRet Proc := λ A a p, (Ok a, p).
#[export] Instance Proc_bind : MBind Proc := λ A B f m p,
  match m p with (Ok a, p) => f a p | (Raise e, p) => (Raise e, p) end.

Definition of_res {A} (r : res A) : Proc A := λ p, (r, p).

(** [configure(settings.obs.log_level, settings.obs.log_json)]. *)
Definition configure_logging (s : Settings) : Proc unit := λ p,
  let '(r, g) := configure make_filtering_bound_logger styles (log_level (obs s)) (log_json (obs s)) (p_logging p) in
  (r, MkProcess g (p_engine p)).

(** [init_engine(settings.db.dsn, pool_size=...)]. *)
Definition connect (s : Settings) (pool : option Z) : Proc engine := λ p,
  let '(r, e) := init_engine create (dsn (db s)) pool None (p_engine p) in (r, MkProcess (p_logging p) e).

(** The first three statements of every process. *)
Definition boot (pool : Settings → option Z) : Proc Settings :=
  s ← of_res settings; _ ← configure_logging s; _ ← connect s (pool s); mret s.

Context (safe_load : string → res pyval) (model_validate : pyval → res (list SourceConfig)) (h : host).
Context (token_text : option string → option (res string)).

(** What [uvicorn.run] is given. *)
Record server := MkServer { sv_host : string; sv_port : Z; sv_app : app_state }.

(** [port or settings.obs.api_port]. *)
Definition port_or (port : option Z) (fallback : Z) : Z :=
  match port with None | Some 0%Z => fallback | Some p => p end.

(** [api(host, port)] up to [uvicorn.run]. *)
Definition api (host : string) (port : option Z) : Proc server :=
  s ← boot (λ _, None);
  registry ← of_res (load_registry safe_load model_validate h s);
  app ← of_res (build_app safe_load token_text s registry None None);
  mret (MkServer host (port_or port (api_port (obs s))) app).

(** [startup(ctx)] of the worker, with the line it logs. *)
Definition worker_start {D} (d : D) : Proc (worker_ctx D * log_line) :=
  s ← boot (λ s, Some (pool_size (db s)));
  ctx ← of_res (startup safe_load model_validate h s d);
  mret (ctx, worker_startup (w_registry ctx)).

(** [worker()]: [arq] is the import of the library; [worker_settings] are
    evaluated when their module is imported. *)
Definition worker (arq : res unit) (run_worker : WorkerSettings → ended) : ended :=
  match arq with
  | Raise e => if isinstance e ImportError then Exit 2 ("arq not installed: " +:+ Errors.msg e) else Died (Leaf e)
  | Ok _ => match worker_settings h with Ok ws => run_worker ws | Raise e => Died (Leaf e) end
  end.

(** [main()] of the scheduler: the jobs that its store then has, and the line
    logged once it has started; [jobstore] is the constructor of the store and
    [collectors] the number of metrics. *)
Definition scheduler_start {S} `{!JobStore S} (from_crontab : string → res unit)
    (create_pool jobstore : string → res unit) (collectors : Z) (jobs : S) : Proc (S * log_line) :=
  s ← boot (λ _, None);
  registry ← of_res (load_registry safe_load model_validate h s);
  _ ← of_res (create_pool (url (redis s)));
  _ ← of_res (jobstore (sync_dsn (dsn (db s))));
  jobs ← of_res (schedule from_crontab registry (arq_queue (runtime s)) jobs);
  mret (jobs, MkLine "scheduler.started" 20
                [("sources", PyInt (Z.of_nat (length (enabled registry)))); ("registry", PyInt collectors)]).

(** How a process starts.  It ends at the first failure of the three: without
    settings nothing has changed; with a level that [logging] refuses there is no
    new engine; with an address that is refused the logging is configured already.
    Otherwise both are set up, and the engine has the pool that the caller asked
    for, else five connections, and always ten more. *)
Theorem boot_outcome pool p :
  (∀ e, settings = Raise e → boot pool p = (Raise e, p)) ∧
  (∀ s r g, settings = Ok s →
     configure make_filtering_bound_logger styles (log_level (obs s)) (log_json (obs s)) (p_logging p) = (r, g) →
     let e := MkEngine (dsn (db s)) (default 5%Z (pool s)) 10 true in
     boot pool p = match r, create e with
                   | Raise x, _ => (Raise x, MkProcess g (p_engine p))
                   | Ok _, Raise x => (Raise x, MkProcess g (p_engine p))
                   | Ok _, Ok _ => (Ok s, MkProcess g (Some e))
                   end).
Proof.
  split.
  - intros e He. unfold boot, of_res. cbn. by rewrite He.
  - intros s r g Hs Hg e. unfold boot, mbind, Proc_bind, of_res. rewrite Hs. unfold configure_logging. rewrite Hg.
    destruct r as [[]|x]; [|done]. unfold connect, init_engine. simpl. fold e. by destruct (create e).
Qed.
End boot.

(** ** Settings that nothing reads *)

(** The settings that the processes read are the same. *)
Definition same_read (s s' : Settings) : Prop :=
  dsn (db s) = dsn (db s') ∧ pool_size (db s) = pool_size (db s') ∧ redis s = redis s' ∧
  log_level (obs s) = log_level (obs s') ∧ log_json (obs s) = log_json (obs s') ∧ api_port (obs s) = api_port (obs s') ∧
  api_token_file (security s) = api_token_file (security s') ∧
  sources_file (runtime s) = sources_file (runtime s') ∧
  global_concurrency (runtime s) = global_concurrency (runtime s') ∧ arq_queue (runtime s) = arq_queue (runtime s').

Lemma boot_same {W A} make styles create s s' pool (f f' : Settings → Proc (W := W) A) p :
  dsn (db s) = dsn (db s') → log_level (obs s) = log_level (obs s') → log_json (obs s) = log_json (obs s') →
  pool s = pool s' → (∀ p, f s p = f' s' p) →
  Proc_bind _ _ f (boot make styles create (Ok s) pool) p = Proc_bind _ _ f' (boot make styles create (Ok s') pool) p.
Proof.
  intros Hd Hl Hj Hp Hf. unfold boot, mbind, Proc_bind, of_res, configure_logging, connect. rewrite Hd, Hl, Hj, Hp.
  destruct (configure _ _ _ _ _) as [[[]|x] g]; [|done]. destruct (init_engine _ _ _ _ _) as [[e|x] e']; [|done]. apply Hf.
Qed.

(** Twelve settings have no effect.  Two processes whose settings differ only
    in the archive, the egress rules, the default rate, [max_overflow],
    [metrics_port], [otel_endpoint] and [service_name] start alike: the API serves
    the same application at the same address, the worker has the same sources,
    limits and engine, the scheduler the same jobs, and a run from the command line
    is prepared alike. *)
Theorem settings_unread {W} make styles create safe_load model_validate h token_text (s s' : Settings) :
  same_read s s' →
  (∀ host port p, api (W := W) make styles create (Ok s) safe_load model_validate h token_text host port p =
                  api make styles create (Ok s') safe_load model_validate h token_text host port p) ∧
  (∀ D (d : D) p, worker_start (W := W) make styles create (Ok s) safe_load model_validate h d p =
                  worker_start make styles create (Ok s') safe_load model_validate h d p) ∧
  (∀ S (J : JobStore S) cron pool store n (jobs : S) p,
     scheduler_start (W := W) make styles create (Ok s) safe_load model_validate h cron pool store n jobs p =
     scheduler_start make styles create (Ok s') safe_load model_validate h cron pool store n jobs p) ∧
  (∀ D (d : D) source_id, prepare safe_load model_validate h (Ok s) source_id d =
                          prepare safe_load model_validate h (Ok s') source_id d).
Proof.
  destruct s as [[] [] [] [] [] []], s' as [[] [] [] [] [] []]. unfold same_read. simpl.
  intros (-> & -> & [= ->] & -> & -> & -> & -> & -> & -> & ->).
  split; [|split; [|split]]; intros; [apply boot_same..|]; reflexivity.
Qed.

(** Two settings that differ in everything that is not read, and processes that
    start with both. *)
Lemma settings_unread_witness :
  let s := default_Settings in
  let s' := MkSettings (MkDBSettings (dsn (db s)) 5 99) (redis s) (MkArchiveSettings "s3" "/" (Some "b") "p" None)
              (MkObsSettings "INFO" true 1 8080 (Some "http://otel:4317") "other") (MkSecuritySettings None true ["10.0.0.0/8"])
              (MkRuntimeSettings "config/sources.yaml" 50 (PyFloatV "0.1" None false false) "cti:queue") in
  let start s := api (W := attribute) Ok "" (λ _, Ok tt) (Ok s) (λ _, Ok PyNone) (λ _, Ok []) (Host [] (λ _, false) (λ _, Ok ""))
                   (λ _, None) "0.0.0.0" (Some 0%Z) (MkProcess (MkLogging (MkRoot [] 30%Z) None) None) in
  start s = start s' ∧ (sv_port <$> (match (start s').1 with Ok x => Some x | Raise _ => None end)) = Some 8080%Z.
Proof.
  intros s s' start. split; [|vm_compute; reflexivity]. unfold start.
  destruct (settings_unread (W := attribute) Ok "" (λ _, Ok tt) (λ _, Ok PyNone) (λ _, Ok []) (Host [] (λ _, false) (λ _, Ok ""))
              (λ _, None) s s') as [Ha _].
  - vm_compute. repeat split.
  - apply Ha.
Defined.

Definition boot_sample (level : string) (create : engine → res unit) :=
  boot (W := attribute) Ok "" create
    (Ok (MkSettings (db default_Settings) (redis default_Settings) (s_archive default_Settings)
           (MkObsSettings level true 9090 8080 None "cti") (security default_Settings) (runtime default_Settings)))
    (λ s, Some (pool_size (db s))) (MkProcess (MkLogging (MkRoot [] 30%Z) None) None).

Example boot_samples :
  is_ok (boot_sample "info" (λ _, Ok tt)).1 = true ∧
  p_engine (boot_sample "basic_format" (λ _, Ok tt)).2 = None ∧
  root_level (root (p_logging (boot_sample "error" (λ _, raise ValueError "dsn")).2)) = 40%Z.
Proof. vm_compute. done. Qed.

(** ** Finding a command *)

(** The table of commands names every command once.  The words of a
    command, followed by any arguments, find it, a command line that finds one
    begins with its words, and no two commands share their words. *)
Theorem command_table :
  NoDup (command_words.*1) ∧
  (∀ c, c ∈ command_words.*2) ∧
  (∀ words c args, (words, c) ∈ command_words → find_command (words ++ args) = Some c) ∧
  (∀ line c, find_command line = Some c → ∃ words args, line = words ++ args ∧ (words, c) ∈ command_words).
Proof.
  split_and!.
  - apply (bool_decide_unpack _). by vm_compute.
  - intros c. apply (bool_decide_unpack _). by destruct c; vm_compute.
  - assert (Forall (λ x, ∀ args, find_command (x.1 ++ args) = Some x.2) command_words) as Hall by repeat constructor.
    intros words c args Hin. rewrite Forall_forall in Hall. by apply (Hall (words, c)).
  - intros [|w ws] c; cbn [find_command]; [done|]. destruct (dget app_commands w) as [c'|] eqn:Ha; [|destruct (dget groups w) as [g|] eqn:Hg; [|by destruct ws]].
    + intros [= ->]. exists [w], ws. split; [done|]. apply elem_of_app. left.
      apply (list_elem_of_fmap_2' _ _ (w, c)); [by apply dget_Some_elem|done].
    + destruct ws as [|w' ws]; [done|]. intros Hc. exists [w; w'], ws. split; [done|]. apply elem_of_app. right.
      apply list_elem_of_bind. exists (w, g). split; [|by apply dget_Some_elem].
      apply (list_elem_of_fmap_2' _ _ (w', c)); [by apply dget_Some_elem|done].
Qed.
