(* ===== verification/System.v ===== *)
(** The system as a whole: the processes that share the database take steps, and
    what every sequence of steps keeps.

    A step is a job of a worker, a command of the command line or a request to
    the HTTP interface, each with any clock, identifiers and options. *)

From Stdlib Require Import QArith.
From S2P Require Import Prelude Errors PyStr PyDict PyVal Json Enums Uuid UuidText Secrets Config Models Effects.
From S2P Require Import Stages Network NetworkFacts Completion Pipeline PipelineFacts PipelineRuns.
From S2P Require Import Breaker Registry Retry Concurrency Rows State Builder Feed Metrics.
From S2P Require Import Runner RunnerFacts RunnerProps Worker Repositories PostgresFacts Auth HttpApp.
From S2P Require Import HttpConnector Commands.
#[local] Open Scope string_scope.
#[local] Open Scope list_scope.

(** The pipelines that are built from these plugins leave [raw_uri] as it is: they
    have no archive, and their connectors do not write it. *)
Definition keeps_uri {D} (eps : entry_points) (pipeline_run : PipelineSpec → RunContext → D →
    (RunResult + exc_tree) * (RunContext * D)) : Prop :=
  ∀ source uri spec ctx d r ctx' d',
    build_pipeline_spec eps source uri = Ok spec → pipeline_run spec ctx d = (r, (ctx', d')) →
    raw_uri ctx' = raw_uri ctx ∧ ∀ result, r = inl result → res_raw_uri result = raw_uri ctx'.

(** The invariant: the sources that have a row are these, under their own
    identifiers, and every run is one of theirs and names no archived payload. *)
Record sound (ids : gset string) (m : managed) : Prop := {
  sound_keyed : keyed (m_sources m);
  sound_known : dom (m_sources m) = ids;
  sound_runs id row : m_runs m !! id = Some row → run_source_id row ∈ ids ∧ run_raw_uri row = None
}.

(** Writing the row of a known source, and a run of one. *)
Lemma sound_source ids m k row row' :
  sound ids m → m_sources m !! k = Some row → src_id row' = src_id row →
  sound ids (MkManaged (<[src_id row := row']> (m_sources m)) (m_runs m) (m_letters m)).
Proof.
  intros [Hkey Hdom Hruns] Hrow Hid. pose proof (Hkey _ _ Hrow) as <-. split; simpl; [| |done].
  - intros id r. destruct (decide (src_id row = id)) as [<-|Hne].
    + rewrite lookup_insert_eq. by intros [= <-].
    + rewrite lookup_insert_ne by done. apply Hkey.
  - rewrite dom_insert_lookup_L; [done|]. by exists row.
Qed.

Lemma sound_run ids m k run :
  sound ids m → run_source_id run ∈ ids → run_raw_uri run = None →
  sound ids (MkManaged (m_sources m) (<[k := run]> (m_runs m)) (m_letters m)).
Proof.
  intros [Hkey Hdom Hruns] Hs Hu. split; [done|done|]. simpl. intros id row.
  destruct (decide (k = id)) as [<-|Hne].
  - rewrite lookup_insert_eq. by intros [= <-].
  - rewrite lookup_insert_ne by done. apply Hruns.
Qed.

Lemma sound_letters ids m l : sound ids m → sound ids (MkManaged (m_sources m) (m_runs m) l).
Proof. by intros [Hkey Hdom Hruns]. Qed.

(** Every ending of a run keeps the invariant. *)
Lemma ending_sound ids c source run_id (P : RunResult → Prop) b m o b' m' :
  (∀ result, P result → res_raw_uri result = None) →
  ending c source run_id P b m o b' m' → sound ids m → sound ids m'.
Proof.
  intros HP Hend Hm.
  assert (registered source run_id m → sc_id source ∈ ids) as Hin.
  { intros [Hs _]. rewrite <- (sound_known _ _ Hm). by apply elem_of_dom. }
  assert (registered source run_id m → sound ids (opened c source run_id m)) as Hopen.
  { intros Hr. apply (sound_run ids m run_id); [done|by apply Hin|done]. }
  destruct Hend as [| | |b1 _ Hr|b1 result _ Hr HPr|b1 t m1 _ _ [->|[-> Hr]]]; auto.
  unfold finished. apply (sound_run ids (MkManaged (advanced source result (m_sources m)) (m_runs m) (m_letters m)));
    [|by apply Hin|by apply HP].
  unfold advanced. destruct Hr as [[row Hrow] _]. rewrite Hrow.
  destruct (decide (state result = SUCCESS)); [|by destruct m].
  by apply (sound_source ids m (sc_id source) row).
Qed.

(** A run of a source without a row leaves the tables of the manager as they
    are and is no success. *)
Lemma ending_unregistered c source run_id P b m o b' m' :
  ending c source run_id P b m o b' m' → m_sources m !! sc_id source = None →
  m' = m ∧ o ≠ inl SUCCESS.
Proof.
  intros Hend Hnone.
  assert (¬ registered source run_id m) as Hno by (intros [[row Hrow] _]; by rewrite Hrow in Hnone).
  by destruct Hend as [| | | | |b1 t m1 _ _ [->|[-> Hr]]].
Qed.

Section system.
Context {D : Type} {HD : Database D} {HO : OrdinaryErrors D} {HR : Retrying}.
Context (pipeline_run : PipelineSpec → RunContext → D → (RunResult + exc_tree) * (RunContext * D)).
Context (aclose : plugin → res unit) (format_exception : exn → string) (eps : entry_points).
Context (safe_load : string → res pyval) (model_validate : pyval → res (list SourceConfig)).
Context (h : host) (dispose : res unit).
Context (fromisoformat : string → res Z) (settings : res Settings).
Context (generate_latest : string) (text_le : string → string → bool) (model_dump : SourceConfig → pyval).

Hypothesis pipeline_tables : keeps_managed pipeline_run.
Hypothesis pipeline_uri : keeps_uri eps pipeline_run.
Hypothesis ordinary_close : ∀ p e, aclose p = Raise e → isinstance e PyException = true.

Abbreviation man d := (managed_of (tables d)).
Abbreviation execute_ := (execute true pipeline_run aclose format_exception eps).
Abbreviation run_once_ := (run_once pipeline_run aclose format_exception eps safe_load model_validate h dispose settings).
Abbreviation replay_ := (replay pipeline_run aclose format_exception eps safe_load model_validate h settings).
Abbreviation backfill_ :=
  (backfill pipeline_run aclose format_exception eps safe_load model_validate h dispose fromisoformat settings).

(** The steps of the system. *)
Inductive step : D → D → Prop :=
  | step_job c registry source_id run_id corr r x r' :
      run_feed true pipeline_run aclose format_exception eps c registry source_id run_id corr r = Some (x, r') →
      step (r_db r) (r_db r')
  | step_run_once c run_id corr source_id d e d' :
      run_once_ c run_id corr source_id d = Some (e, d') → step d d'
  | step_replay c new_id corr run_id from_stage d e d' :
      replay_ c new_id corr run_id from_stage d = Some (e, d') → step d d'
  | step_backfill since c run_id corr source_id d e d' :
      backfill_ since c run_id corr source_id d = Some (e, d') → step d d'
  | step_letter dlq_id now d : step d (replay_letter settings dlq_id now d).2
  | step_request app now path m hd req d :
      (path, m, hd) ∈ routes true generate_latest text_le model_dump app now →
      step d (serve hd req d).2.

(** ** Every step keeps the invariant *)

Lemma built_archive source uri spec : build_pipeline_spec eps source uri = Ok spec → archive spec = None.
Proof.
  unfold build_pipeline_spec. destruct (load_connector _ _ _); simpl; [|done].
  destruct (load_parser _ _ _); simpl; [|done]. destruct (mapM_res _ (sc_enrichers source)); simpl; [|done].
  destruct (load_publishers _ _ _ _ _) as [[[p|] ex]|e]; simpl; [|done|done]. by intros [= <-].
Qed.

Lemma result_unarchived c source run_id corr uri result :
  pipeline_result_of pipeline_run eps c source run_id corr uri result → res_raw_uri result = None.
Proof.
  intros (spec & w & d & [ctx' d'] & Hspec & Hrun). unfold run_pipeline in Hrun. simpl in Hrun.
  destruct (pipeline_run spec _ d) as [r [ctx1 d1]] eqn:E. injection Hrun as Hout -> ->.
  destruct (pipeline_uri _ _ _ _ _ _ _ _ Hspec E) as [Hctx Hres]. simpl in Hctx.
  unfold run_with_outcome in Hout. destruct r as [res|exc].
  - injection Hout as <-. by rewrite (Hres res eq_refl).
  - destruct (existsb _ _); [by injection Hout as <-|]. destruct (existsb _ _); [by injection Hout as <-|done].
Qed.

Lemma execute_sound ids c source run_id corr uri r o r' :
  execute_ c source run_id corr uri r = Some (o, r') → sound ids (man (r_db r)) → sound ids (man (r_db r')).
Proof.
  intros [Hend _]%execute_ending; [|done|done].
  eapply ending_sound; [|exact Hend]. intros result. apply result_unarchived.
Qed.
Lemma prepare_db source_id (d : D) source (r : runner D) :
  prepare safe_load model_validate h settings source_id d = Ok (source, r) → r_db r = d.
Proof.
  unfold prepare, new_runner. intros H. apply bind_Ok in H as (s & _ & H). apply bind_Ok in H as (reg & _ & H).
  apply bind_Ok in H as (src & _ & H). apply bind_Ok in H as (r0 & Hr & [= <- <-]).
  by apply bind_Ok in Hr as (g & _ & [= <-]).
Qed.

(** [run_once] executes the source on the database, or leaves it alone. *)
Lemma run_once_cases c run_id corr source_id d e d' :
  run_once_ c run_id corr source_id d = Some (e, d') →
  (d' = d ∧ ∃ ex, e = Died (Leaf ex)) ∨
  ∃ source r o r', prepare safe_load model_validate h settings source_id d = Ok (source, r) ∧ r_db r = d ∧
    execute_ c source run_id corr None r = Some (o, r') ∧ d' = r_db r' ∧
    ∀ out, e = Printed out → ∃ st, o = inl st ∧
      out = [dumps (PyDict [("source_id", PyStr source_id); ("state", PyStr (value st))])].
Proof.
  unfold run_once. destruct (prepare _ _ _ _ _ _) as [[source r]|ex] eqn:Ep.
  2:{ intros [= <- <-]. left. eauto. }
  destruct (execute_ _ _ _ _ _ _) as [[o r']|] eqn:Ex; simpl; [|done]. intros [= <- <-]. right.
  exists source, r, o, r'. split_and!; [done|by eapply prepare_db|done|done|].
  intros out. destruct dispose; [destruct o as [st|tr]|]; try done. intros [= <-]. eauto.
Qed.

Lemma run_once_sound ids c run_id corr source_id d e d' :
  run_once_ c run_id corr source_id d = Some (e, d') → sound ids (man d) → sound ids (man d').
Proof.
  intros [[-> _]|(source & r & o & r' & _ & <- & Hex & -> & _)]%run_once_cases; [done|].
  by eapply execute_sound.
Qed.

(** The rows after a wipe. *)
Definition wiped_sources (source_id : string) (m : gmap string SourceRow) : gmap string SourceRow :=
  match m !! source_id with Some row => <[src_id row := wiped row]> m | None => m end.

Lemma wipe_tables source_id d r d' :
  db_session true (wipe source_id) d = (r, d') →
  match r with
  | Ok _ => tables d' = with_sources (wiped_sources source_id) (tables d)
  | Raise _ => d' = d
  end.
Proof.
  unfold db_session, wipe, wiped_sources. simpl.
  unfold mbind, Sess_bind, get_source, s_read. simpl.
  destruct (read _ d) as [row|e] eqn:Er; [apply read_Ok in Er as ->|by intros [= <- <-]].
  destruct (t_sources (tables d) !! source_id) as [row|] eqn:Hrow.
  2:{ unfold mret, Sess_ret, with_sources. intros [= <- <-]. simpl. rewrite Hrow. by destruct (tables d). }
  unfold s_write, s_commit. simpl. destruct (write _ d) as [d1|e] eqn:Ew; simpl; [|by intros [= <- <-]].
  apply write_Ok in Ew. injection Ew as Ew. destruct (db_commit d1) as [d2|e] eqn:Ec; simpl; intros [= <- <-]; [|done].
  apply commit_Ok in Ec. rewrite Ec, <- Ew. unfold with_sources. by rewrite Hrow.
Qed.

Lemma wipe_sound ids source_id d r d' :
  db_session true (wipe source_id) d = (r, d') → sound ids (man d) → sound ids (man d').
Proof.
  intros Hw%wipe_tables Hm. destruct r as [u|e]; [|by rewrite Hw]. rewrite Hw. unfold managed_of, with_sources. simpl.
  unfold wiped_sources. destruct (t_sources (tables d) !! source_id) as [row|] eqn:Hrow; [|done].
  by apply (sound_source ids (man d) source_id row).
Qed.

Lemma backfill_cases since c run_id corr source_id d e d' :
  backfill_ since c run_id corr source_id d = Some (e, d') →
  d' = d ∨ ∃ u d1, db_session true (wipe source_id) d = (Ok u, d1) ∧ run_once_ c run_id corr source_id d1 = Some (e, d').
Proof.
  unfold backfill. destruct (fromisoformat since) as [t|ex]; [|intros [= _ <-]; by left].
  destruct settings as [s|ex]; [|intros [= _ <-]; by left].
  destruct (db_session true (wipe source_id) d) as [[u|ex] d1] eqn:Ew.
  - intros H. right. eauto.
  - apply wipe_tables in Ew as ->. intros [= _ <-]. by left.
Qed.

(** How [replay] ends without a run: the stage is unknown, the settings, the
    identifier or the database fail, or the run is not there or not archived. *)
Inductive no_replay (run_id from_stage : string) (d : D) : ended → Prop :=
  | no_stage : from_stage ∉ replay_stages →
      no_replay run_id from_stage d (Exit 2 ("unsupported --from-stage " +:+ repr_str from_stage))
  | no_access ex : no_replay run_id from_stage d (Died (Leaf ex))
  | no_run id : parse_uuid run_id = Ok id → t_feed_runs (tables d) !! id = None →
      no_replay run_id from_stage d (Exit 1 "run not found")
  | no_payload id row : parse_uuid run_id = Ok id → t_feed_runs (tables d) !! id = Some row →
      no_replay run_id from_stage d (Exit 3 "run has no raw_uri archived; cannot replay").

Lemma replay_cases c new_id corr run_id from_stage d :
  (∃ e, replay_ c new_id corr run_id from_stage d = Some (e, d) ∧ no_replay run_id from_stage d e) ∨
  ∃ id row uri, parse_uuid run_id = Ok id ∧ t_feed_runs (tables d) !! id = Some row ∧ run_raw_uri row = Some uri ∧ uri ≠ "".
Proof.
  unfold replay. case_decide; [|left; eexists; split; [done|by apply no_stage]].
  destruct settings as [s|ex]; [|left; eexists; split; [done|by apply no_access]].
  unfold db_session. simpl. unfold mbind, Sess_bind. simpl.
  destruct (parse_uuid run_id) as [id|ex] eqn:Ep; simpl; [|left; eexists; split; [done|by apply no_access]].
  destruct (read _ d) as [row|ex] eqn:Er; [apply read_Ok in Er as ->|left; eexists; split; [done|by apply no_access]].
  destruct (t_feed_runs (tables d) !! id) as [row|] eqn:Hrow; [|left; eexists; split; [done|by eapply no_run]].
  destruct (run_raw_uri row) as [[|a uri]|] eqn:Hu; [left; eexists; split; [done|by eapply no_payload]| |
    left; eexists; split; [done|by eapply no_payload]].
  right. by exists id, row, (String a uri).
Qed.

Lemma step_sound ids d d' : step d d' → sound ids (man d) → sound ids (man d').
Proof.
  destruct 1 as [c registry source_id run_id corr r x r' H|c run_id corr source_id d e d' H
    |c new_id corr run_id from_stage d e d' H|since c run_id corr source_id d e d' H|dlq_id now d
    |app now path m hd req d Hin]; intros Hm.
  - unfold run_feed in H. destruct (get source_id registry) as [cfg|ex]; [|by injection H as _ <-].
    destruct (execute_ _ _ _ _ _ _) as [[o r1]|] eqn:Ex; simpl in H; [|done]. injection H as _ <-.
    by eapply execute_sound.
  - by eapply run_once_sound.
  - destruct (replay_cases c new_id corr run_id from_stage d) as [(e0 & He & _)|(id & row & uri & _ & Hrow & Hu & _)].
    + rewrite He in H. by injection H as _ <-.
    + apply (sound_runs _ _ Hm) in Hrow as [_ Hn]. by rewrite Hn in Hu.
  - apply backfill_cases in H as [->|(u & d1 & Hw & Hr)]; [done|].
    eapply run_once_sound; [exact Hr|]. by eapply wipe_sound.
  - unfold replay_letter, session_command. destruct settings; [|done].
    destruct (db_session _ _ d) as [r d'] eqn:E. apply session_atomic in E; [|apply keeps_write].
    destruct r as [[]|e]; simpl; [|by rewrite E]. destruct E as (_ & s & [Hw _]%s_write_Ok & ->).
    injection Hw as <-. by apply (sound_letters ids (man d)).
  - pose proof (routes_state true generate_latest text_le model_dump app now path m hd req d Hin) as Hs.
    destruct m; [by rewrite Hs|]. destruct Hs as [->|[Ht|[i Ht]]]; [done|by rewrite Ht|].
    rewrite Ht. by apply (sound_letters ids (man d)).
Qed.

Lemma steps_sound ids d d' : rtc step d d' → sound ids (man d) → sound ids (man d').
Proof. induction 1 as [|d d1 d' Hs _ IH]; [done|]. intros Hm. by apply IH, (step_sound ids d). Qed.

(** C37: nothing registers a source.  Whatever sequence of jobs, commands and
    requests the system takes from a database whose sources are stored under
    their identifiers and whose runs are theirs and unarchived, the sources that
    have a row stay the same, and so does the rest of the invariant, provided the
    connectors that can be loaded leave [raw_uri] alone. *)
Theorem system_invariant ids d d' : rtc step d d' → sound ids (man d) → sound ids (man d').
Proof. apply steps_sound. Qed.

(** A source without a row never runs.  In every state that the system reaches
    from a database in which a source has no row, which is the state of every
    source after the migrations, its runs are no success and are not even
    recorded: the sources, the runs and the dead letters stay as they are. *)
Theorem unregistered_never_runs ids d d' c source run_id corr uri r o r' :
  sound ids (man d) → rtc step d d' → t_sources (tables d) !! sc_id source = None →
  r_db r = d' → execute_ c source run_id corr uri r = Some (o, r') →
  t_sources (tables d') !! sc_id source = None ∧ man (r_db r') = man d' ∧ o ≠ inl SUCCESS.
Proof.
  intros Hd Hrtc Hnone <- [Hend _]%execute_ending; [|done|done].
  pose proof (steps_sound _ _ _ Hrtc Hd) as Hd'.
  assert (m_sources (man (r_db r)) !! sc_id source = None) as Hn.
  { apply not_elem_of_dom. rewrite (sound_known _ _ Hd'), <- (sound_known _ _ Hd). by apply not_elem_of_dom. }
  split; [exact Hn|]. by eapply ending_unregistered.
Qed.

(** Replay never replays.  From a database in which no run names an archived
    payload, such as a new one, no sequence of steps leads to a run that can be
    replayed: the command ends without running anything and without touching the
    database, with status 3 for every recorded run. *)
Theorem replay_never_replays ids d d' c new_id corr run_id from_stage :
  sound ids (man d) → rtc step d d' →
  ∃ e, replay_ c new_id corr run_id from_stage d' = Some (e, d') ∧ no_replay run_id from_stage d' e.
Proof.
  intros Hd Hrtc. destruct (replay_cases c new_id corr run_id from_stage d') as [He|(id & row & uri & _ & Hrow & Hu & _)]; [done|].
  apply (sound_runs _ _ (steps_sound _ _ _ Hrtc Hd)) in Hrow as [_ Hn]. by rewrite Hn in Hu.
Qed.

(** The date of a backfill has no effect. *)
Theorem backfill_ignores_since since since' t t' c run_id corr source_id d :
  fromisoformat since = Ok t → fromisoformat since' = Ok t' →
  backfill_ since c run_id corr source_id d = backfill_ since' c run_id corr source_id d.
Proof. intros H H'. unfold backfill. by rewrite H, H'. Qed.
End system.

(** ** The hypotheses hold of the program's own parts *)

(** The canonical publisher leaves the tables of the manager alone. *)
Lemma publish_managed {D} `{!Database D} initialized batch (d : D) r d' :
  postgres_publish initialized batch d = (r, d') → managed_of (tables d') = managed_of (tables d).
Proof.
  destruct batch as [|p l]; [by intros [= _ <-]|]. intros Hp%publish_cases; [|done].
  destruct r as [u|e]; [|by rewrite Hp]. destruct Hp as (_ & Ht & _). by rewrite Ht.
Qed.

(** Every context of a generator has this [raw_uri]. *)
Inductive gen_uri (uri : option string) : generator → Prop :=
  | gu_yield p ctx k : raw_uri ctx = uri → (∀ c, raw_uri c = uri → gen_uri uri (k c)) → gen_uri uri (GYield p ctx k)
  | gu_return ctx : raw_uri ctx = uri → gen_uri uri (GReturn ctx)
  | gu_raise ctx e : raw_uri ctx = uri → gen_uri uri (GRaise ctx e).

Lemma http_fetch_uri env ct now cfg ctx : gen_uri (raw_uri ctx) (http_fetch env ct now cfg ctx).
Proof.
  unfold http_fetch. destruct (retrieve env ct now cfg ctx) as [[[ctx' p]|]|e] eqn:E; [|by constructor..].
  apply gu_yield; [|by constructor]. unfold retrieve in E. apply bind_Ok in E as (u & _ & E).
  apply bind_Ok in E as (r & _ & E). apply bind_Ok in E as ([r'|] & _ & E); [|done].
  apply bind_Ok in E as (v & _ & E). apply bind_Ok in E as (b & _ & [= <- _]). done.
Qed.

(** Without an archive the fetch stage only passes the contexts on. *)
Lemma fetch_keeps_uri uri g es r :
  gen_uri uri g → fetch_loop None g = (es, r) → ∀ ctx, SetCtx ctx ∈ es → raw_uri ctx = uri.
Proof.
  intros Hg. revert es r. induction Hg as [p ctx k Hctx _ IH|ctx Hctx|ctx e Hctx]; intros es r; simpl.
  - destruct (fetch_loop None (k ctx)) as [es' r'] eqn:Ek. intros [= <- <-] c.
    rewrite !elem_of_cons. intros [[= ->]|[?|[?|[?|Hin]]]]; [done..|]. by eapply (IH ctx Hctx).
  - intros [= <- <-] c Hin%list_elem_of_singleton. by injection Hin as ->.
  - intros [= <- <-] c Hin%list_elem_of_singleton. by injection Hin as ->.
Qed.

Lemma ctx_after_uri uri ctx es :
  (∀ c, SetCtx c ∈ es → raw_uri c = uri) → raw_uri ctx = uri → raw_uri (ctx_after ctx es) = uri.
Proof.
  unfold ctx_after. revert ctx. induction es as [|e es IH]; intros ctx Hes Hc; [done|]. simpl.
  apply IH; [set_solver|]. destruct e; try done. apply Hes. set_solver.
Qed.

(** The hypotheses on the pipeline hold of the concurrent one.  An execution
    without an archive, in any interleaving, of a connector whose contexts have the
    [raw_uri] that it was given, as those of the HTTP connectors do, leaves the
    sources, the runs and the dead letters alone and names no archived payload,
    neither in the context nor in the result. *)
Theorem execution_grounded {D} `{!Database D} w spec ctx (d : D) n r ctx' d' :
  archive spec = None → gen_uri (raw_uri ctx) (fetch (connector spec) ctx) →
  execution w spec ctx d n (r, (ctx', d')) →
  managed_of (tables d') = managed_of (tables d) ∧ raw_uri ctx' = raw_uri ctx ∧
  ∀ result, r = inl result → res_raw_uri result = raw_uri ctx'.
Proof.
  intros Ha Hg Hex. pose proof (execution_managed _ _ _ _ _ _ _ _ Hex) as Hm. split; [done|].
  inversion Hex as [p n0 t0 t1 d2 Hr Hd _ _]; subst. split.
  - apply ctx_after_uri; [|done]. intros c Hc. pose proof (pipeline_wf w _ ctx n Hr) as Hwf.
    assert (∃ t, tasks n !! FETCH = Some t) as [t Ht].
    { apply lookup_lt_is_Some. pose proof (wf_tasks _ _ Hwf). simpl in *. lia. }
    destruct (wf_task _ _ Hwf FETCH t _ Ht eq_refl) as [_ Hok].
    apply task_ok_prefix in Hok. unfold fetch_process in Hok. rewrite effects_source in Hok.
    destruct Hok as [rest Hrest].
    destruct (run_fetch (connector spec) (archive spec) ctx) as [es o] eqn:E. unfold run_fetch in E. rewrite Ha in E.
    eapply fetch_keeps_uri; [exact Hg|exact E|]. unfold with_canonical, run_fetch in Hrest. simpl in Hrest.
    rewrite Ha, E in Hrest. simpl in Hrest. rewrite Hrest. set_solver.
  - intros result. unfold pipeline_result. destruct (errors n); [|done]. by intros [= <-].
Qed.

(** So executions of pipelines whose connectors leave [raw_uri] alone keep it. *)
Lemma executions_keep_uri {D} `{!Database D} eps w
    (prun : PipelineSpec → RunContext → D → (RunResult + exc_tree) * (RunContext * D)) :
  (∀ source uri spec ctx, build_pipeline_spec eps source uri = Ok spec →
     gen_uri (raw_uri ctx) (fetch (connector spec) ctx)) →
  (∀ spec ctx d, ∃ n, execution w spec ctx d n (prun spec ctx d)) → keeps_uri eps prun.
Proof.
  intros Hg Hex source uri spec ctx d r ctx' d' Hspec E. destruct (Hex spec ctx d) as [n Hn]. rewrite E in Hn.
  destruct (execution_grounded w spec ctx d n r ctx' d') as (_ & Hu & Hres); [by eapply built_archive|by eapply Hg|done|].
  split; [exact Hu|exact Hres].
Qed.

(** A run that gets its permits ends. *)
Lemma execute_permitted {D} `{!Database D} `{!Retrying} initialized prun aclose fe eps c source run_id corr uri
    (r : runner D) g s :
  global_enter (r_globals r) = Some g →
  sem_acquire (get_semaphore (sc_id source) (sc_max_parallelism source) (r_per_source r)).1 = Some s →
  ∃ o r', execute initialized prun aclose fe eps c source run_id corr uri r = Some (o, r').
Proof.
  intros Hg Hs. unfold execute. destruct (get_breaker _ _ _) as [b store].
  destruct (get_semaphore _ _ _) as [sem sems]. simpl in Hs. rewrite Hg. simpl. rewrite Hs. simpl.
  destruct (execute_inside _ _ _ _ _ _ _ _ _ _ _ _) as [[[o b'] d'] closed]. eauto.
Qed.

(** ** Samples *)

Lemma succeeding_uri : keeps_uri sample_eps succeeding.
Proof. intros source uri spec ctx d r ctx' d' _ [= <- <- _]. split; [done|]. by intros result [= <-]. Qed.

Definition sample_step := step succeeding (λ _, Ok tt) (λ _, "") sample_eps (λ _, Ok PyNone) (λ _, Ok [sample_source])
  sample_host (Ok tt) (λ _, Ok 0%Z) (Ok default_Settings) "" (λ _ _, true) (λ _, PyNone).

Lemma sample_sound : sound {["feed"]} (managed_of sample_tables).
Proof.
  split; simpl.
  - intros id row. rewrite lookup_singleton_Some. by intros [<- <-].
  - by rewrite dom_singleton_L.
  - intros id row. by rewrite lookup_empty.
Qed.

(** After one job of a worker. *)
Lemma sample_job : ∃ d', rtc sample_step (MkMemoryDb sample_tables true) d' ∧
  run_state <$> (t_feed_runs (tables d') !! 7%N) = Some "SUCCESS" ∧ mem_up d' = true.
Proof.
  assert (∃ x r', run_feed true succeeding (λ _, Ok tt) (λ _, "") sample_eps sample_clock
            [("feed", sample_source)] "feed" 7 "corr" sample_runner = Some (x, r') ∧
            run_state <$> (t_feed_runs (tables (r_db r')) !! 7%N) = Some "SUCCESS" ∧ mem_up (r_db r') = true)
    as (x & r' & Hr & Hs & Hu).
  { do 2 eexists. split; [vm_compute; reflexivity|]. split; vm_compute; reflexivity. }
  exists (r_db r'). split; [|done]. apply rtc_once. unfold sample_step.
  change (MkMemoryDb sample_tables true) with (r_db sample_runner). eapply step_job. exact Hr.
Qed.

Lemma system_invariant_witness :
  ∃ d', rtc sample_step (MkMemoryDb sample_tables true) d' ∧
    run_state <$> (t_feed_runs (tables d') !! 7%N) = Some "SUCCESS" ∧ sound {["feed"]} (managed_of (tables d')).
Proof.
  destruct sample_job as (d' & Hrtc & Hs & _). exists d'. split; [exact Hrtc|]. split; [exact Hs|].
  eapply system_invariant; [| | |exact Hrtc|].
  - exact succeeding_keeps.
  - exact succeeding_uri.
  - discriminate.
  - exact sample_sound.
Defined.

Definition ghost : SourceConfig := default_SourceConfig "ghost" "http" "json".

Lemma unregistered_never_runs_witness :
  ∃ d' o r', rtc sample_step (MkMemoryDb sample_tables true) d' ∧
    execute true succeeding (λ _, Ok tt) (λ _, "") sample_eps sample_clock ghost 8 "corr" None
      (MkRunner [] [] (MkSemaphore 1 1) d' []) = Some (o, r') ∧
    o ≠ inl SUCCESS ∧ t_sources (tables d') !! "ghost" = None ∧ managed_of (tables (r_db r')) = managed_of (tables d').
Proof.
  destruct sample_job as (d' & Hrtc & _ & _).
  destruct (execute_permitted true succeeding (λ _, Ok tt) (λ _, "") sample_eps sample_clock ghost 8 "corr" None
              (MkRunner [] [] (MkSemaphore 1 1) d' []) (MkSemaphore 1 0) (MkSemaphore 1 0)) as (o & r' & E);
    [reflexivity|reflexivity|].
  exists d', o, r'. split; [exact Hrtc|]. split; [exact E|].
  destruct (unregistered_never_runs succeeding (λ _, Ok tt) (λ _, "") sample_eps (λ _, Ok PyNone)
                (λ _, Ok [sample_source]) sample_host (Ok tt) (λ _, Ok 0%Z) (Ok default_Settings) ""
                (λ _ _, true) (λ _, PyNone) succeeding_keeps succeeding_uri ltac:(discriminate) {["feed"]}
                (MkMemoryDb sample_tables true) d' sample_clock ghost 8 "corr" None
                (MkRunner [] [] (MkSemaphore 1 1) d' []) o r') as (Hn & Hm & Ho).
  - exact sample_sound.
  - exact Hrtc.
  - reflexivity.
  - reflexivity.
  - exact E.
  - split; [exact Ho|]. split; [exact Hn|exact Hm].
Defined.

Lemma replay_never_replays_witness :
  ∃ d' e, rtc sample_step (MkMemoryDb sample_tables true) d' ∧
    replay succeeding (λ _, Ok tt) (λ _, "") sample_eps (λ _, Ok PyNone) (λ _, Ok [sample_source]) sample_host
      (Ok default_Settings) sample_clock 9 "corr" (str_uuid 7) "parse" d' = Some (e, d') ∧
    no_replay (str_uuid 7) "parse" d' e.
Proof.
  destruct sample_job as (d' & Hrtc & _ & _).
  destruct (replay_never_replays succeeding (λ _, Ok tt) (λ _, "") sample_eps (λ _, Ok PyNone)
              (λ _, Ok [sample_source]) sample_host (Ok tt) (λ _, Ok 0%Z) (Ok default_Settings) ""
              (λ _ _, true) (λ _, PyNone) succeeding_keeps succeeding_uri ltac:(discriminate) {["feed"]}
              (MkMemoryDb sample_tables true) d' sample_clock 9 "corr" (str_uuid 7) "parse") as (e & He & Hn).
  - exact sample_sound.
  - exact Hrtc.
  - exists d', e. split; [exact Hrtc|]. split; [exact He|exact Hn].
Defined.

Definition grounded_ctx : RunContext := new_context sample_clock 7 "feed" "corr" [].
Definition grounded_db : MemoryDb := MkMemoryDb sample_tables true.

Lemma execution_grounded_witness :
  ∃ result, (live_run live_spec grounded_ctx grounded_db).1 = inl result ∧ res_raw_uri result = None ∧
    managed_of (tables (live_run live_spec grounded_ctx grounded_db).2.2) = managed_of sample_tables.
Proof.
  destruct (execution_grounded sample_world live_spec grounded_ctx grounded_db
              (live_net live_spec grounded_ctx grounded_db)
              (live_run live_spec grounded_ctx grounded_db).1 (live_run live_spec grounded_ctx grounded_db).2.1
              (live_run live_spec grounded_ctx grounded_db).2.2) as (Hm & Hu & Hres).
  - reflexivity.
  - simpl. apply gu_yield; [reflexivity|]. intros c Hc. by apply gu_return.
  - apply (live_execution live_spec grounded_ctx grounded_db); vm_compute; reflexivity.
  - assert (match (live_run live_spec grounded_ctx grounded_db).1 with inl _ => true | inr _ => false end = true) as Hok
      by (vm_compute; reflexivity).
    destruct (live_run live_spec grounded_ctx grounded_db).1 as [result|t]; [|discriminate].
    exists result. split; [reflexivity|]. split; [|exact Hm]. rewrite (Hres result eq_refl), Hu. reflexivity.
Defined.
