(* ===== verification/Transactions.v ===== *)
(** The runs of all processes side by side: each is a sequence of transactions,
    and those of different runs come in any order.

    [System] takes a run as one step.  Here the steps are the transactions that
    [manager/runner.py], [plugins/publishers/postgres.py], [cli/commands/backfill.py]
    and the dead-letter commands commit, each under the label of what it did, with
    the runs that are under way as ghost state.  A transaction is one step because
    the rows it reads and writes are its own run, or a source that it has locked
    ([with_for_update]), or written by single statements. *)

From Stdlib Require Import QArith.
From S2P Require Import Prelude Errors PyStr PyDict PyVal Enums Models Effects Stages Network Pipeline.
From S2P Require Import Breaker Registry Retry Concurrency Rows State Builder Runner RunnerFacts RunnerProps.
From S2P Require Import Repositories PostgresFacts Aggregate Feed Commands System.
#[local] Open Scope string_scope.
#[local] Open Scope list_scope.

(** ** Labels *)

Inductive label :=
  | Opened (c : clock) (rid : N) (sid : string)
  | Published (rid : N) (batch : list pair)
  | Finished (c : clock) (rid : N) (result : RunResult)
  | Ended (rid : N)                         (** the run ends without having been finalized *)
  | Wiped (sid : string)
  | Marked (dlq_id now : Z)
  | Idle.                                   (** nothing of the tables *)

Definition about (rid : N) (x : label) : Prop :=
  match x with
  | Opened _ r _ | Published r _ | Finished _ r _ | Ended r => r = rid
  | _ => False
  end.
#[export] Instance about_dec rid x : Decision (about rid x).
Proof. destruct x; simpl; apply _. Defined.

(** ** What a label does to the tables *)

Definition opened_row (c : clock) (rid : N) (sid : string) : FeedRunRow :=
  set_state RUNNING (pending_row sid rid (at_open c)).

Definition closed_row (c : clock) (result : RunResult) (row : FeedRunRow) : FeedRunRow :=
  finalized_row row (state result) (at_final c) (final_of result).

(** The sources once a run of [sid] has ended with that result. *)
Definition advance_source (sid : string) (result : RunResult) (m : gmap string SourceRow) : gmap string SourceRow :=
  if decide (state result = SUCCESS) then
    match m !! sid with
    | Some row => <[src_id row := set_watermark_of (Some (res_watermark result)) row]> m
    | None => m
    end
  else m.

Definition effect (x : label) (t : db_tables) : db_tables :=
  match x with
  | Opened c rid sid => with_feed_runs (<[rid := opened_row c rid sid]>) t
  | Published _ b =>
      with_observations (λ l, l ++ (obs_row ∘ snd <$> b))
        (with_indicators (λ m, fold_left upsert_row (ind_row ∘ fst <$> b) m) t)
  | Finished c rid result =>
      match t_feed_runs t !! rid with
      | Some row => with_feed_runs (<[run_row_id row := closed_row c result row]>)
                      (with_sources (advance_source (run_source_id row) result) t)
      | None => t
      end
  | Wiped sid => with_sources (wiped_sources sid) t
  | Marked dlq_id now =>
      with_dead_letters (map (λ r, if (dl_id r =? dlq_id)%Z then set_replayed now r else r)) t
  | Ended _ | Idle => t
  end.

(** ** The steps *)

Section transactions.
Context {D : Type} {HD : Database D}.

(** The database, and the runs under way with their sources. *)
Record system := MkSystem { sy_db : D; sy_live : gmap N string }.

Abbreviation tab s := (tables (sy_db s)).

(** The pairs of a batch are observations of this run. *)
Definition own (rid : N) (sid : string) (batch : list pair) : Prop :=
  Forall (λ p, feed_run_id p.2 = rid ∧ obs_source_id p.2 = sid) batch.

Inductive commits : system → label → system → Prop :=
  | c_open c rid sid x d d' L :
      open_session true c sid rid d = (Ok x, d') →
      commits (MkSystem d L) (Opened c rid sid) (MkSystem d' (<[rid := sid]> L))
  | c_publish rid sid b d d' L :
      L !! rid = Some sid → own rid sid b → postgres_publish true b d = (Ok tt, d') →
      commits (MkSystem d L) (Published rid b) (MkSystem d' L)
  | c_finish c rid sid result d d' L :
      L !! rid = Some sid → final_session true c rid result d = (Ok tt, d') →
      commits (MkSystem d L) (Finished c rid result) (MkSystem d' (delete rid L))
  | c_end rid sid d L :
      L !! rid = Some sid → commits (MkSystem d L) (Ended rid) (MkSystem d (delete rid L))
  | c_wipe sid d d' L :
      db_session true (wipe sid) d = (Ok tt, d') → commits (MkSystem d L) (Wiped sid) (MkSystem d' L)
  | c_mark dlq_id now d d' L :
      db_session true (x ← mark_replayed dlq_id now; _ ← s_commit; mret x) d = (Ok tt, d') →
      commits (MkSystem d L) (Marked dlq_id now) (MkSystem d' L)
  | c_idle d d' L : tables d' = tables d → commits (MkSystem d L) Idle (MkSystem d' L).

(** A history: the transactions of all processes, in the order of their commits. *)
Inductive history : system → list label → system → Prop :=
  | h_nil s : history s [] s
  | h_cons s x s1 l s' : commits s x s1 → history s1 l s' → history s (x :: l) s'.

Lemma history_app s l s1 l' s' : history s l s1 → history s1 l' s' → history s (l ++ l') s'.
Proof. induction 1 as [|s x s0 l s1 Hx _ IH]; [done|]. intros H. econstructor; [exact Hx|by apply IH]. Qed.

Lemma history_one s x s' : commits s x s' → history s [x] s'.
Proof. intros H. econstructor; [exact H|constructor]. Qed.

(** ** Every step does what its label says *)

Lemma open_effect c rid sid x d d' :
  open_session true c sid rid d = (Ok x, d') →
  tables d' = effect (Opened c rid sid) (tables d) ∧ t_feed_runs (tables d) !! rid = None ∧
  is_Some (t_sources (tables d) !! sid).
Proof.
  intros H. unfold open_session in H.
  apply session_atomic in H; [|apply keeps_bind; [apply keeps_open_run|intros;
    apply keeps_bind; [apply keeps_mark_running|intros; apply keeps_ret]]].
  destruct H as (_ & s & Hm & Ht). session_inv Hm. injection Hm as Hx Hs0. subst.
  destruct a as [row w]. apply open_run_Ok in E as (src & Hsrc & Hrow & _ & Hnew & Hs1).
  apply mark_running_Ok in E0 as [-> Hs2]. subst row. simpl in *. split; [|by eauto].
  rewrite Ht, Hs2, Hs1. unfold with_feed_runs. simpl. by rewrite insert_insert_eq.
Qed.

Lemma final_effect c rid result d d' :
  final_session true c rid result d = (Ok tt, d') →
  tables d' = effect (Finished c rid result) (tables d) ∧ is_Some (t_feed_runs (tables d) !! rid).
Proof.
  intros H. pose proof (final_session_storage _ _ _ _ _ _ _ H) as [= Hi Ho]. unfold final_session in H.
  apply session_atomic in H.
  2:{ apply keeps_bind; [apply keeps_read|]. intros [row|]; [apply keeps_finalize_run|apply keeps_raise]. }
  destruct H as (_ & s & Hm & Ht). session_inv Hm. apply s_read_Ok in E as [-> ->]. simpl in Hm.
  destruct (t_feed_runs (tables d) !! rid) as [row|] eqn:Hrow; [|done]. split; [|by eauto].
  apply finalize_run_Ok in Hm as (Hr & Hs & Hl). simpl in *. rewrite Hrow. rewrite Ht in Hi, Ho |- *.
  unfold advance_source, closed_row. destruct (tables (working s)) as [so ru ind ob le]. simpl in *. subst.
  unfold with_feed_runs, with_sources. simpl. f_equal. by repeat case_match.
Qed.

Lemma step_effect s x s' : commits s x s' → tab s' = effect x (tab s).
Proof.
  destruct 1 as [c rid sid x d d' L H|rid sid b d d' L _ _ H|c rid sid result d d' L _ H| |sid d d' L H
    |dlq_id now d d' L H|]; simpl; try done.
  - by apply open_effect in H as [-> _].
  - by apply publish_tables in H as ->.
  - by apply final_effect in H as [-> _].
  - by apply wipe_tables in H.
  - apply session_atomic in H; [|apply keeps_write]. destruct H as (_ & s & [Hw _]%s_write_Ok & ->).
    by injection Hw as <-.
Qed.

(** ** What is known of every state *)

Record consistent (s : system) : Prop := {
  con_sources : keyed (t_sources (tab s));
  con_runs rid row : t_feed_runs (tab s) !! rid = Some row → run_row_id row = rid;
  con_live rid sid : sy_live s !! rid = Some sid →
    ∃ row, t_feed_runs (tab s) !! rid = Some row ∧ run_state row = value RUNNING ∧ run_source_id row = sid
}.

Lemma keyed_update (m : gmap string SourceRow) sid row row' :
  keyed m → m !! sid = Some row → src_id row' = src_id row → keyed (<[src_id row := row']> m).
Proof.
  intros Hk Hrow Hid k r. pose proof (Hk _ _ Hrow) as <-.
  destruct (decide (src_id row = k)) as [<-|Hne].
  - rewrite lookup_insert_eq. by intros [= <-].
  - rewrite lookup_insert_ne by done. apply Hk.
Qed.

Lemma keyed_effect x t : keyed (t_sources t) → keyed (t_sources (effect x t)).
Proof.
  intros Hk. destruct x as [c rid sid|rid b|c rid result|rid|sid|dlq_id now|]; simpl; try done.
  - destruct (t_feed_runs t !! rid) as [row|]; [|done]. simpl. unfold advance_source. case_decide; [|done].
    destruct (t_sources t !! _) as [src|] eqn:Hs; [|done]. by eapply keyed_update.
  - unfold wiped_sources. destruct (t_sources t !! sid) as [src|] eqn:Hs; [|done]. by eapply keyed_update.
Qed.

(** The row of a run after a transaction of that run. *)
Definition run_effect (x : label) (o : option FeedRunRow) : option FeedRunRow :=
  match x with
  | Opened c rid sid => Some (opened_row c rid sid)
  | Finished c _ result => closed_row c result <$> o
  | _ => o
  end.

(** A transaction changes the row of the run it is about and no other. *)
Lemma effect_run x t rid :
  (∀ r row, t_feed_runs t !! r = Some row → run_row_id row = r) →
  t_feed_runs (effect x t) !! rid
  = if decide (about rid x) then run_effect x (t_feed_runs t !! rid) else t_feed_runs t !! rid.
Proof.
  intros Hk. destruct x as [c r sid|r b|c r result|r|sid|dlq_id now|]; simpl; try first [done | by case_decide].
  - case_decide as Hr; [subst r; by rewrite lookup_insert_eq|by rewrite lookup_insert_ne].
  - destruct (t_feed_runs t !! r) as [row|] eqn:Hrow.
    + rewrite (Hk r row Hrow). simpl. case_decide as Hr.
      * subst r. by rewrite lookup_insert_eq, Hrow.
      * by rewrite lookup_insert_ne.
    + case_decide as Hr; [subst r; by rewrite Hrow|done].
Qed.

Lemma runs_effect x t :
  (∀ r row, t_feed_runs t !! r = Some row → run_row_id row = r) →
  ∀ r row, t_feed_runs (effect x t) !! r = Some row → run_row_id row = r.
Proof.
  intros Hk r row. rewrite effect_run by done. case_decide as Ha; [|apply Hk].
  destruct x as [c r' sid|r' b|c r' result|r'|sid|dlq_id now|]; simpl in *; try done; subst; try apply Hk.
  - by intros [= <-].
  - intros (row' & Hrow & ->)%fmap_Some. exact (Hk _ _ Hrow).
Qed.

Lemma consistent_step s x s' : commits s x s' → consistent s → consistent s'.
Proof.
  intros Hx [Hs Hr Hl]. pose proof (step_effect _ _ _ Hx) as He.
  split; rewrite He; [by apply keyed_effect|by apply runs_effect|].
  intros rid sid. rewrite effect_run by done. revert Hl He.
  destruct Hx as [c r s0 x d d' L H|r s0 b d d' L _ _ H|c r s0 result d d' L _ H|r s0 d L _|s0 d d' L H
    |dlq_id now d d' L H|d d' L H]; simpl; intros Hl He Hrid; try first [by apply Hl | case_decide; by apply Hl].
  - case_decide as Hd.
    + subst r. rewrite lookup_insert_eq in Hrid. injection Hrid as <-. by eexists.
    + rewrite lookup_insert_ne in Hrid by done. by apply Hl.
  - apply lookup_delete_Some in Hrid as [Hne Hrid]. rewrite decide_False by done. by apply Hl.
  - apply lookup_delete_Some in Hrid as [Hne Hrid]. case_decide; by apply Hl.
Qed.

Lemma consistent_history s l s' : history s l s' → consistent s → consistent s'.
Proof. induction 1 as [|s x s1 l s' Hx _ IH]; [done|]. intros Hc. by eapply IH, consistent_step. Qed.

(** ** The life of a run *)

Inductive phase := Fresh | Live | Over.

(** The order of the transactions of a run. *)
Definition next (p : phase) (x : label) : option phase :=
  match p, x with
  | Fresh, Opened _ _ _ | Live, Published _ _ => Some Live
  | Live, (Finished _ _ _ | Ended _) => Some Over
  | _, _ => None
  end.

Definition phase_of (rid : N) (s : system) : phase :=
  match sy_live s !! rid, t_feed_runs (tab s) !! rid with
  | Some _, _ => Live
  | None, Some _ => Over
  | None, None => Fresh
  end.

Lemma phase_step s x s' rid :
  commits s x s' → consistent s →
  (if decide (about rid x) then next (phase_of rid s) x else Some (phase_of rid s)) = Some (phase_of rid s').
Proof.
  intros Hx Hc. unfold phase_of. rewrite (step_effect _ _ _ Hx), effect_run by apply Hc.
  pose proof (con_live _ Hc rid) as Hl. revert Hl.
  destruct Hx as [c r sid x d d' L H|r sid b d d' L Hs _ H|c r sid result d d' L Hs H|r sid d L Hs|sid d d' L H
    |dlq_id now d d' L H|d d' L H]; simpl; intros Hl; try done; case_decide as Hr; try done; subst.
  - rewrite lookup_insert_eq. apply open_effect in H as (_ & Hn & _). rewrite Hn.
    destruct (L !! rid) as [sid0|]; [|done]. destruct (Hl sid0 eq_refl) as (row & Hrow & _). by rewrite Hn in Hrow.
  - by rewrite lookup_insert_ne.
  - by rewrite Hs.
  - rewrite Hs, lookup_delete_eq. apply final_effect in H as (_ & row & ->). done.
  - by rewrite lookup_delete_ne.
  - rewrite Hs, lookup_delete_eq. by destruct (Hl _ Hs) as (row & -> & _).
  - by rewrite lookup_delete_ne.
Qed.

Definition advance_phase (o : option phase) (x : label) : option phase := p ← o; next p x.

Lemma phase_history s l s' rid :
  history s l s' → consistent s →
  fold_left advance_phase (filter (about rid) l) (Some (phase_of rid s)) = Some (phase_of rid s').
Proof.
  induction 1 as [s|s x s1 l s' Hx _ IH]; intros Hc; [done|]. rewrite filter_cons.
  pose proof (phase_step s x s1 rid Hx Hc) as Hp. rewrite <- IH by by eapply consistent_step.
  case_decide; simpl; [by rewrite Hp|]. by injection Hp as ->.
Qed.

Lemma run_history s l s' rid :
  history s l s' → consistent s →
  t_feed_runs (tab s') !! rid = fold_left (λ o x, run_effect x o) (filter (about rid) l) (t_feed_runs (tab s) !! rid).
Proof.
  induction 1 as [s|s x s1 l s' Hx _ IH]; intros Hc; [done|]. rewrite filter_cons, IH by by eapply consistent_step.
  rewrite (step_effect _ _ _ Hx), effect_run by apply Hc. by case_decide.
Qed.

Lemma over_done l : (∃ p, fold_left advance_phase l (Some Over) = Some p) → l = [].
Proof.
  destruct l as [|x l]; [done|]. intros [p H]. simpl in H. exfalso. revert H.
  by induction l as [|y l IH].
Qed.

Lemma row_stays l o : is_Some o → is_Some (fold_left (λ o x, run_effect x o) l o).
Proof.
  revert o. induction l as [|x l IH]; intros o Ho; [done|]. simpl. apply IH.
  destruct x; simpl; try done. by apply fmap_is_Some.
Qed.

(** C20: runs do not disturb each other.  In any history, whatever transactions of
    other runs come between, the row of a run is what its own transactions make of
    it, and these come in order: it is opened, publishes, and is finalized or left
    at most once.  So the row of a run that is over never changes again, and no row
    disappears. *)
Theorem runs_isolated s l s' rid :
  consistent s → history s l s' →
  t_feed_runs (tab s') !! rid = fold_left (λ o x, run_effect x o) (filter (about rid) l) (t_feed_runs (tab s) !! rid) ∧
  fold_left advance_phase (filter (about rid) l) (Some (phase_of rid s)) = Some (phase_of rid s') ∧
  (phase_of rid s = Over → filter (about rid) l = [] ∧ t_feed_runs (tab s') !! rid = t_feed_runs (tab s) !! rid) ∧
  (is_Some (t_feed_runs (tab s) !! rid) → is_Some (t_feed_runs (tab s') !! rid)).
Proof.
  intros Hc Hh. pose proof (run_history _ _ _ rid Hh Hc) as Hr. pose proof (phase_history _ _ _ rid Hh Hc) as Hp.
  split; [done|]. split; [done|]. split.
  - intros Ho. rewrite Ho in Hp. assert (filter (about rid) l = []) as Hn by (apply over_done; by eexists).
    by rewrite Hr, Hn.
  - rewrite Hr. apply row_stays.
Qed.

(** ** Watermarks *)

(** The run that the watermark of a source comes from. *)
Definition earned (t : db_tables) (sid : string) (w : option pydict) : Prop :=
  ∃ rid row, t_feed_runs t !! rid = Some row ∧ run_source_id row = sid ∧ run_state row = value SUCCESS ∧ run_watermark row = w.

Definition accounted (w0 : string → option pydict) (s : system) : Prop :=
  ∀ sid row, t_sources (tab s) !! sid = Some row →
    src_watermark row = w0 sid ∨ src_watermark row = Some [] ∨ earned (tab s) sid (src_watermark row).

Lemma earned_step s x s' sid w :
  commits s x s' → consistent s → earned (tab s) sid w → earned (tab s') sid w.
Proof.
  intros Hx Hc (rid & row & Hrow & Hs & Hst & Hw). exists rid, row. split; [|done].
  rewrite (step_effect _ _ _ Hx), effect_run by apply Hc. case_decide as Ha; [|done].
  pose proof (phase_step s x s' rid Hx Hc) as Hp. rewrite decide_True in Hp by done. unfold phase_of in Hp.
  rewrite Hrow in Hp. destruct (sy_live s !! rid) as [sid'|] eqn:Hl; [|by destruct x].
  destruct (con_live _ Hc rid sid' Hl) as (row' & Hrow' & Hst' & _). rewrite Hrow in Hrow'. injection Hrow' as <-.
  by rewrite Hst in Hst'.
Qed.

Lemma accounted_step w0 s x s' : commits s x s' → consistent s → accounted w0 s → accounted w0 s'.
Proof.
  intros Hx Hc Ha sid row Hrow. pose proof (step_effect _ _ _ Hx) as He. rewrite He in Hrow.
  assert (∀ row0, t_sources (tab s) !! sid = Some row0 → src_watermark row = src_watermark row0 →
            src_watermark row = w0 sid ∨ src_watermark row = Some [] ∨ earned (tab s') sid (src_watermark row)) as Hkeep.
  { intros row0 Hrow0 Hw. rewrite Hw. destruct (Ha _ _ Hrow0) as [?|[?|?]]; auto.
    right. right. by eapply earned_step. }
  destruct x as [c r s0|r b|c r result|r|s0|dlq_id now|]; simpl in Hrow; try by apply (Hkeep row).
  - destruct (t_feed_runs (tab s) !! r) as [run|] eqn:Hrun; [|by apply (Hkeep row)].
    simpl in Hrow. unfold advance_source in Hrow. case_decide as Hok; [|by apply (Hkeep row)].
    destruct (t_sources (tab s) !! run_source_id run) as [src|] eqn:Hsrc; [|by apply (Hkeep row)].
    rewrite (con_sources _ Hc _ _ Hsrc) in Hrow. apply lookup_insert_Some in Hrow as [[<- <-]|[_ Hrow]]; [|by apply (Hkeep row)].
    right. right. exists r, (closed_row c result run).
    split; [|by unfold closed_row, finalized_row; simpl; rewrite Hok].
    rewrite He. simpl. rewrite Hrun. simpl. rewrite (con_runs _ Hc _ _ Hrun). apply lookup_insert_eq.
  - unfold wiped_sources in Hrow. destruct (t_sources (tab s) !! s0) as [src|] eqn:Hsrc; [|by apply (Hkeep row)].
    rewrite (con_sources _ Hc _ _ Hsrc) in Hrow. apply lookup_insert_Some in Hrow as [[<- <-]|[_ Hrow]]; [auto|by apply (Hkeep row)].
Qed.

(** C21: where a watermark comes from.  In any history the watermark of a source is
    the one it had at the start, the empty one that a backfill left, or the one
    that a run of this source has in its row, and that row says SUCCESS: no
    failed, partial or unfinished run, and no run of another source, ever moves it,
    however the runs overlap. *)
Theorem watermark_earned s l s' sid row :
  consistent s → history s l s' → t_sources (tab s') !! sid = Some row →
  src_watermark row = (t_sources (tab s) !! sid) ≫= src_watermark ∨ src_watermark row = Some [] ∨
  ∃ rid run, t_feed_runs (tab s') !! rid = Some run ∧ run_source_id run = sid ∧
             run_state run = value SUCCESS ∧ run_watermark run = src_watermark row.
Proof.
  intros Hc Hh. set (w0 sid := (t_sources (tab s) !! sid) ≫= src_watermark).
  assert (accounted w0 s) as Ha by (intros k r Hr; left; unfold w0; by rewrite Hr).
  assert (accounted w0 s') as Ha'.
  { clearbody w0. induction Hh as [|s x s1 l s' Hx _ IH]; [done|]. apply IH; [by eapply consistent_step|by eapply accounted_step]. }
  intros Hrow. apply (Ha' sid row Hrow).
Qed.

(** ** Indicators and observations *)

(** The pairs of the batches that a history commits, and those of one run. *)
Definition pairs_in (l : list label) : list pair :=
  l ≫= λ x, match x with Published _ b => b | _ => [] end.

Lemma pairs_in_app l l' : pairs_in (l ++ l') = pairs_in l ++ pairs_in l'.
Proof. apply bind_app. Qed.

Lemma storage_history s l s' : history s l s' →
  (∀ id, t_indicators (tab s') !! id
         = aggregate (option_list (t_indicators (tab s) !! id) ++ sightings id (pairs_in l))) ∧
  t_observations (tab s') = t_observations (tab s) ++ (obs_row ∘ snd <$> pairs_in l).
Proof.
  induction 1 as [s|s x s1 l s' Hx _ [Hi Ho]].
  { split; [|by rewrite app_nil_r]. intros id. by rewrite app_nil_r, aggregate_stored. }
  pose proof (step_effect _ _ _ Hx) as He. rewrite Ho, He. split.
  - intros id. rewrite Hi, He. destruct x as [c r sid|r b|c r result|r|sid|dlq_id now|]; try done.
    + change (pairs_in (Published r b :: l)) with (b ++ pairs_in l). rewrite sightings_app, app_assoc.
      rewrite (aggregate_app (option_list _) (sightings id (pairs_in l))), (aggregate_app (_ ++ _)). f_equal.
      rewrite aggregate_app, !aggregate_stored. apply upsert_rows_sight.
    + simpl. by case_match.
  - destruct x as [c r sid|r b|c r result|r|sid|dlq_id now|]; try done.
    + change (pairs_in (Published r b :: l)) with (b ++ pairs_in l). simpl. by rewrite fmap_app, app_assoc.
    + simpl. by case_match.
Qed.

(** The columns that fix what an indicator is. *)
Definition identity_of (r : IndicatorRow) :=
  (ir_id r, ir_type r, ir_value r, ir_pattern r, (ir_severity r, ir_tlp r, ir_first_seen_by_us r),
   (ir_valid_from r, ir_valid_until r, ir_schema_version r)).

Lemma aggregate_keeps row l : ∃ row',
  aggregate (row :: l) = Some row' ∧ identity_of row' = identity_of row ∧
  (ir_confidence row <= ir_confidence row')%Z ∧ (ir_last_seen_by_us row <= ir_last_seen_by_us row')%Z.
Proof.
  eexists. split; [reflexivity|]. split; [by destruct row|]. simpl.
  assert (∀ f, (f row <= greatest f row l)%Z) as Hg; [|split; apply Hg].
  intros f. unfold greatest. induction l as [|x l IH]; simpl; lia.
Qed.

(** C23: nothing that is known is lost.  Whatever transactions any number of runs
    and commands commit, in any order, an indicator stays with all that identifies
    it, its marking included; its confidence and its last sighting never go down;
    and the observations are only added to. *)
Theorem knowledge_grows s l s' :
  history s l s' →
  (∀ id row, t_indicators (tab s) !! id = Some row → ∃ row',
     t_indicators (tab s') !! id = Some row' ∧ identity_of row' = identity_of row ∧
     (ir_confidence row <= ir_confidence row')%Z ∧ (ir_last_seen_by_us row <= ir_last_seen_by_us row')%Z) ∧
  t_observations (tab s) `prefix_of` t_observations (tab s').
Proof.
  intros [Hi Ho]%storage_history. split.
  - intros id row Hrow. rewrite Hi, Hrow. apply aggregate_keeps.
  - rewrite Ho. by eexists.
Qed.

(** ** The observations of a run *)

(** Every batch of a history holds observations of its own run. *)
Lemma own_batch s x s' r b :
  commits s x s' → x = Published r b → ∃ sid, sy_live s !! r = Some sid ∧ own r sid b.
Proof. by destruct 1; intros [= -> ->]; eauto. Qed.

Lemma own_rows rid r sid b : own r sid b →
  filter (λ o, or_feed_run_id o = rid) (obs_row ∘ snd <$> b) = if decide (r = rid) then obs_row ∘ snd <$> b else [].
Proof.
  induction 1 as [|p b [Hp _] _ IH]; [by simpl; case_decide|]. rewrite fmap_cons, filter_cons, IH. simpl.
  rewrite Hp. by case_decide.
Qed.

Lemma rows_of_run s l s' rid : history s l s' →
  filter (λ o, or_feed_run_id o = rid) (obs_row ∘ snd <$> pairs_in l)
  = obs_row ∘ snd <$> pairs_in (filter (about rid) l).
Proof.
  induction 1 as [s|s x s1 l s' Hx _ IH]; [done|]. rewrite filter_cons.
  destruct x as [c r sid|r b|c r result|r|sid|dlq_id now|];
    try (case_decide; exact IH).
  destruct (own_batch _ _ _ _ _ Hx eq_refl) as (sid & _ & Hown).
  change (pairs_in (Published r b :: l)) with (b ++ pairs_in l).
  rewrite fmap_app, filter_app, IH.
  rewrite (own_rows rid r sid b Hown).
  destruct (decide (about rid (Published r b))) as [Ha|Ha]; destruct (decide (r = rid)) as [Hr|Hr]; try done.
  change (pairs_in (Published r b :: filter (about rid) l)) with (b ++ pairs_in (filter (about rid) l)).
  by rewrite fmap_app.
Qed.

Lemma source_stays s x s' rid row :
  commits s x s' → consistent s → t_feed_runs (tab s) !! rid = Some row →
  ∃ row', t_feed_runs (tab s') !! rid = Some row' ∧ run_source_id row' = run_source_id row.
Proof.
  intros Hx Hc Hrow. rewrite (step_effect _ _ _ Hx), effect_run by apply Hc. case_decide as Ha; [|by eauto].
  pose proof (phase_step s x s' rid Hx Hc) as Hp. rewrite decide_True in Hp by done. unfold phase_of in Hp.
  rewrite Hrow in *. destruct x as [c r sid|r b|c r result|r|sid|dlq_id now|]; simpl; eauto.
  by destruct (sy_live s !! rid).
Qed.

Lemma sources_stay s l s' rid row :
  history s l s' → consistent s → t_feed_runs (tab s) !! rid = Some row →
  ∃ row', t_feed_runs (tab s') !! rid = Some row' ∧ run_source_id row' = run_source_id row.
Proof.
  intros Hh. revert row. induction Hh as [|s x s1 l s' Hx _ IH]; intros row Hc Hrow; [by eauto|].
  destruct (source_stays _ _ _ _ _ Hx Hc Hrow) as (row1 & Hrow1 & <-). apply IH; [by eapply consistent_step|done].
Qed.

(** C22: observations belong to their run.  In any history the observations that
    name a run are those of the batches that this run published, in its order,
    whatever other runs published in between; and every observation that is added
    names a recorded run of the source that it names, though the schema asks for
    neither.  That the batch of a run holds its own observations is a premise of the
    step [c_publish]; it is proved of the pipeline in [SharedRuns.accepted_own]. *)
Theorem observations_isolated s l s' :
  consistent s → history s l s' →
  (∀ rid, filter (λ o, or_feed_run_id o = rid) (t_observations (tab s'))
          = filter (λ o, or_feed_run_id o = rid) (t_observations (tab s)) ++
            (obs_row ∘ snd <$> pairs_in (filter (about rid) l))) ∧
  (∀ o, o ∈ obs_row ∘ snd <$> pairs_in l → ∃ run,
     t_feed_runs (tab s') !! or_feed_run_id o = Some run ∧ run_source_id run = or_source_id o).
Proof.
  intros Hc Hh. split.
  - intros rid. rewrite (proj2 (storage_history _ _ _ Hh)), filter_app. f_equal. by eapply rows_of_run.
  - intros o. induction Hh as [s|s x s1 l s' Hx Hh IH]; [by intros ?%elem_of_nil|].
    assert (consistent s1) as Hc1 by by eapply consistent_step.
    destruct x as [c r sid|r b|c r result|r|sid|dlq_id now|]; try exact (IH Hc1).
    destruct (own_batch _ _ _ _ _ Hx eq_refl) as (sid & Hlive & Hown).
    change (pairs_in (Published r b :: l)) with (b ++ pairs_in l). rewrite fmap_app, elem_of_app.
    intros [(p & -> & Hin)%list_elem_of_fmap|Hin]; [|by apply IH].
    unfold own in Hown. rewrite Forall_forall in Hown. destruct (Hown p Hin) as [Hr Hs]. simpl. rewrite Hr, Hs.
    destruct (con_live _ Hc r sid Hlive) as (row & Hrow & _ & <-).
    apply (sources_stay s (Published r b :: l)); [|done..]. by econstructor.
Qed.
End transactions.
