(* ===== verification/SharedRuns.v ===== *)
(** A feed run among others: [FeedRunner.execute] over the concurrent pipeline, while
    other processes commit transactions between its own.

    [Feed] has the database to itself.  Here the transactions of [Transactions]
    that are about other runs may come before and after every batch that the
    canonical publisher commits; those before a run and after it belong to the
    histories that surround it. *)

From Stdlib Require Import QArith.
From S2P Require Import Prelude Errors PyStr PyDict PyVal Enums Hashing Models Effects Normalize.
From S2P Require Import Stages PersistFacts PublishFacts StageFacts Queue Network NetworkFacts.
From S2P Require Import Completion Pipeline PipelineFacts Converse PipelineRuns Breaker Registry Retry.
From S2P Require Import Concurrency Rows State Builder Runner RunnerFacts RunnerProps Repositories.
From S2P Require Import PostgresFacts Aggregate Feed System Transactions.
#[local] Open Scope string_scope.
#[local] Open Scope list_scope.

(** ** What a run publishes is its own *)

Lemma pairs_own ctx clk k h : own (run_id ctx) (source_id ctx) (pairs_of ctx clk k h).
Proof.
  revert k. induction h as [|m h IH]; intros k; [constructor|]. simpl. destruct m as [| |i raw|]; try constructor.
  destruct (new_Observation _ _ _ _) as [obs|e] eqn:E; [|constructor]. constructor; [|apply IH].
  unfold new_Observation in E. apply bind_Ok in E as (u & _ & [= <-]). done.
Qed.

Lemma accepted_own w spec ctx p n :
  reachable (pipeline_net w (with_canonical p spec) ctx) n →
  Forall (own (run_id ctx) (source_id ctx)) (accepted_batches n).
Proof.
  intros Hr. destruct (accepted_facts w spec ctx p n Hr) as (_ & h & rest & Hh).
  pose proof (pairs_own ctx (obs_clock w) 0 h) as Ho. rewrite Hh in Ho. unfold own in *.
  apply Forall_app in Ho as [Ho _]. by apply Forall_concat in Ho.
Qed.

(** ** A run in the midst of others *)

Section shared.
Context {D : Type} {HD : Database D}.

Definition others (rid : N) (l : list label) : Prop := Forall (λ x, ¬ about rid x) l.

Lemma others_filter rid l : others rid l → filter (about rid) l = [].
Proof. induction 1 as [|x l Hx _ IH]; [done|]. rewrite filter_cons. by case_decide. Qed.

(** The batches of a run, each stored on the tables that it finds. *)
Inductive meanwhile (rid : N) : system (D := D) → list (list pair) → system (D := D) → Prop :=
  | m_others s l s' : history s l s' → others rid l → meanwhile rid s [] s'
  | m_publish s l s1 b d bs s' :
      history s l s1 → others rid l → postgres_publish true b (sy_db s1) = (Ok tt, d) →
      meanwhile rid (MkSystem d (sy_live s1)) bs s' → meanwhile rid s (b :: bs) s'.

(** [Pipeline.run] from a context, among other runs: [Feed.execution] with a
    publisher that meets whatever is there when it is called. *)
Inductive shared_execution (w : world) (spec : PipelineSpec) (ctx : RunContext) (s : system (D := D))
    : net → (RunResult + exc_tree) * (RunContext * system (D := D)) → Prop :=
  | SharedExecution p n started finished s' :
      reachable (pipeline_net w (with_canonical p spec) ctx) n → all_done n →
      (∀ k b, ∃ dk : D, publish p k b ctx = (postgres_publish true b dk).1) →
      meanwhile (run_id ctx) s (accepted_batches n) s' →
      shared_execution w spec ctx s n
        (pipeline_result ctx started finished n, (ctx_after ctx (trace FETCH n), s')).

Lemma live_other s x s' rid : commits s x s' → ¬ about rid x → sy_live s' !! rid = sy_live s !! rid.
Proof.
  destruct 1; simpl; intros Hr; try done; by rewrite ?lookup_insert_ne, ?lookup_delete_ne.
Qed.

Lemma live_others s l s' rid : history s l s' → others rid l → sy_live s' !! rid = sy_live s !! rid.
Proof.
  induction 1 as [|s x s1 l s' Hx _ IH]; [done|]. intros [Ha Ho]%Forall_cons. rewrite IH by done.
  by eapply live_other.
Qed.

(** The transactions that then were committed. *)
Lemma meanwhile_history rid sid s bs s' :
  meanwhile rid s bs s' → sy_live s !! rid = Some sid → Forall (own rid sid) bs →
  ∃ l, history s l s' ∧ filter (about rid) l = Published rid <$> bs ∧ sy_live s' !! rid = Some sid.
Proof.
  induction 1 as [s l s' Hh Ho|s l s1 b d bs s' Hh Ho Hp _ IH]; intros Hl Hbs.
  - exists l. split; [done|]. split; [by apply others_filter|]. by rewrite (live_others _ _ _ _ Hh Ho).
  - apply Forall_cons in Hbs as [Hb Hbs]. pose proof (live_others _ _ _ _ Hh Ho) as Hl1. rewrite Hl in Hl1.
    destruct (IH Hl1 Hbs) as (l' & Hh' & Hf & Hl'). exists (l ++ Published rid b :: l'). split; [|split; [|done]].
    + eapply history_app; [exact Hh|]. econstructor; [|exact Hh']. destruct s1 as [d1 L1]. by eapply c_publish.
    + rewrite filter_app, (others_filter _ _ Ho), filter_cons, decide_True by done. simpl. by rewrite Hf.
Qed.

(** ** The transactions of a run *)

(** What a run commits, with how it ends: nothing, or its row, its batches, and
    either the end or an exception before that. *)
Inductive transcript (c : clock) (rid : N) (sid : string) (bs : list (list pair))
    : list label → RunState + exc_tree → Prop :=
  | t_nothing o : bs = [] → o ≠ inl SUCCESS → transcript c rid sid bs [] o
  | t_left o : o ≠ inl SUCCESS →
      transcript c rid sid bs (Opened c rid sid :: (Published rid <$> bs) ++ [Ended rid]) o
  | t_finished result o : (∀ st, o = inl st → st = state result) →
      transcript c rid sid bs (Opened c rid sid :: (Published rid <$> bs) ++ [Finished c rid result]) o.

Context {HO : OrdinaryErrors D} {HR : Retrying}.
Context (pipeline_run : PipelineSpec → RunContext → D → (RunResult + exc_tree) * (RunContext * D)).
Context (aclose : plugin → res unit) (format_exception : exn → string) (eps : entry_points).

(** The call of the pipeline that a run makes is such an execution, whose tasks end
    in the state [final]; [L] are the other runs under way. *)
Definition runs_shared (w : world) (c : clock) (source : SourceConfig) (spec : PipelineSpec) (rid : N)
    (corr : string) (d : D) (L : gmap N string) (final : RunContext → net) : Prop :=
  ∀ row wm d1, open_session true c (sc_id source) rid d = (Ok (row, wm), d1) →
    let ctx := new_context c rid (sc_id source) corr wm in
    ∃ r ctx' s', shared_execution w spec ctx (MkSystem d1 (<[rid := sc_id source]> L)) (final ctx) (r, (ctx', s')) ∧
                 pipeline_run spec ctx d1 = (r, (ctx', sy_db s')).

(** What a run then has done. *)
Definition ran (w : world) (c : clock) (source : SourceConfig) (spec : PipelineSpec) (rid : N) (corr : string)
    (d : D) (L : gmap N string) (final : RunContext → net) (o : RunState + exc_tree) (d' : D) : Prop :=
  ∃ bs l L', history (MkSystem d L) l (MkSystem d' L') ∧
    transcript c rid (sc_id source) bs (filter (about rid) l) o ∧
    (o = inl SUCCESS → ∃ row wm d1, open_session true c (sc_id source) rid d = (Ok (row, wm), d1) ∧
       let ctx := new_context c rid (sc_id source) corr wm in
       uncancelled (final ctx) → feed_pairs w spec ctx = Some (concat bs)).

Lemma ran_ending w c source spec rid corr d L final o o' d' :
  ran w c source spec rid corr d L final o d' → o' = o ∨ (∃ t, o' = inr t) →
  ran w c source spec rid corr d L final o' d'.
Proof.
  intros Hr [->|[t ->]]; [done|]. destruct Hr as (bs & l & L' & Hh & Ht & _). exists bs, l, L'.
  split; [done|]. split; [|done]. inversion Ht as [o0 Hb Ho E|o0 Ho E|result o0 Ho E]; subst.
  - by apply t_nothing.
  - by apply t_left.
  - by apply t_finished.
Qed.

Lemma close_plugins_inl ps o o' closed :
  close_plugins aclose ps o = (o', closed) → o' = o ∨ ∃ t, o' = inr t.
Proof.
  revert o' closed. induction ps as [|p ps IH]; intros o' closed; simpl; [intros [= <- _]; by left|].
  destruct (close_plugins aclose ps o) as [o1 cl] eqn:E. specialize (IH _ _ eq_refl).
  destruct (aclose p) as [u|e]; [|destruct (isinstance e PyException)]; intros [= <- _]; eauto.
Qed.

(** The history of a run that was opened and whose batches were stored. *)
Lemma opened_history c rid sid x d d1 L bs s' :
  open_session true c sid rid d = (Ok x, d1) →
  meanwhile rid (MkSystem d1 (<[rid := sid]> L)) bs s' → Forall (own rid sid) bs →
  ∃ l, history (MkSystem d L) l s' ∧ filter (about rid) l = Opened c rid sid :: (Published rid <$> bs) ∧
       sy_live s' !! rid = Some sid.
Proof.
  intros Hopen Hm Hbs. destruct (meanwhile_history rid sid _ _ _ Hm) as (l & Hh & Hf & Hl);
    [apply lookup_insert_eq|done|].
  exists (Opened c rid sid :: l). split; [econstructor; [by eapply c_open|exact Hh]|].
  split; [|done]. rewrite filter_cons, decide_True by done. by rewrite Hf.
Qed.

(** The last label after the others. *)
Lemma history_last rid s l s1 x s' :
  history s l s1 → commits s1 x s' → about rid x →
  ∃ l', history s l' s' ∧ filter (about rid) l' = filter (about rid) l ++ [x].
Proof.
  intros Hh Hx Ha. exists (l ++ [x]). split; [by eapply history_app, history_one|].
  by rewrite filter_app, filter_cons, decide_True.
Qed.

Lemma final_raises c rid result d e d' :
  final_session true c rid result d = (Raise e, d') → d' = d ∧ isinstance e PermanentError = false.
Proof.
  intros H. unfold final_session in H. pose proof H as Hord. apply session_atomic in H.
  2:{ apply keeps_bind; [apply keeps_read|]. intros [row|]; [apply keeps_finalize_run|apply keeps_raise]. }
  split; [done|]. eapply session_ordinary; [|exact Hord]. apply ordinary_bind; [apply ordinary_read|].
  intros [row|]; [apply ordinary_finalize|by apply ordinary_raise].
Qed.

Lemma handlers_foreign c sid rid t b d o b' d' :
  tree_isinstance t PermanentError = false →
  handlers true format_exception c sid rid (inr t, b, d) = (o, b', d') → d' = d ∧ o ≠ inl SUCCESS.
Proof. intros Ht. simpl. rewrite Ht. destruct (tree_isinstance t PyException); by intros [= <- _ <-]. Qed.

(** A run that is left without its second session. *)
Lemma ran_left w c source spec rid corr d L final bs l s' o :
  history (MkSystem d L) l s' → sy_live s' !! rid = Some (sc_id source) →
  filter (about rid) l = Opened c rid (sc_id source) :: (Published rid <$> bs) → o ≠ inl SUCCESS →
  ran w c source spec rid corr d L final o (sy_db s').
Proof.
  intros Hh Hl Hf Ho. destruct s' as [d' L'].
  destruct (history_last rid _ l _ (Ended rid) (MkSystem d' (delete rid L')) Hh) as (l' & Hh' & Hf'); [eapply c_end; exact Hl|done|].
  exists bs, l', (delete rid L'). split; [done|]. split; [|done]. rewrite Hf', Hf. by apply t_left.
Qed.

(** The pairs of a run that succeeds are those of its feed. *)
Lemma success_pairs w spec ctx p n started finished t0 t1 ctx' result :
  reachable (pipeline_net w (with_canonical p spec) ctx) n → all_done n → uncancelled n →
  run_with_outcome ctx' t0 t1 (pipeline_result ctx started finished n) = inl result → state result = SUCCESS →
  feed_pairs w spec ctx = Some (concat (accepted_batches n)).
Proof.
  intros Hr Hd Hu Hw Hs. unfold pipeline_result in Hw. destruct (errors n) as [|e es] eqn:He.
  - destruct (clean_feed w spec ctx p n Hr Hd) as (l & Hf & Hc & _); [by split|]. by rewrite Hf, Hc.
  - unfold run_with_outcome in Hw. destruct (existsb _ _); [injection Hw as <-; discriminate Hs|].
    destruct (existsb _ _); [injection Hw as <-; discriminate Hs|done].
Qed.

Lemma handlers_shared w c source spec rid corr b d L final o b' d' :
  runs_shared w c source spec rid corr d L final →
  handlers true format_exception c (sc_id source) rid
    (attempt true pipeline_run c source spec rid corr b d) = (o, b', d') →
  ran w c source spec rid corr d L final o d'.
Proof.
  intros Hrun. unfold attempt. destruct (open_session _ _ _ _ _) as [[[row wm]|e] d1] eqn:Eo.
  2:{ apply open_session_spec in Eo as [-> He]. intros [-> Ho]%handlers_foreign; [|done].
      exists [], [], L. split; [constructor|]. split; [by apply t_nothing|done]. }
  destruct (Hrun _ _ _ Eo) as (r & ctx' & s' & Hex & Hp).
  destruct (pipeline_once pipeline_run c (sc_retry source) spec (new_context c rid (sc_id source) corr wm, d1))
    as [-> Hforeign].
  unfold run_pipeline in *. cbn [fst snd] in *. rewrite Hp in *. cbn [fst snd] in *.
  inversion Hex as [p n t0 t1 s0 Hr Hd _ Hm En E1]; subst n. subst.
  destruct (opened_history c rid (sc_id source) _ _ _ _ _ _ Eo Hm) as (l & Hh & Hf & Hl).
  { exact (accepted_own w spec (new_context c rid (sc_id source) corr wm) p _ Hr). }
  destruct (run_with_outcome _ _ _ _) as [result|t] eqn:Ew.
  2:{ intros [-> Ho]%handlers_foreign; [|by eapply Hforeign]. by eapply ran_left. }
  destruct (final_session _ _ _ _ _) as [[[]|e] d3] eqn:Ef.
  2:{ apply final_raises in Ef as [-> He]. intros [-> Ho]%handlers_foreign; [|done]. by eapply ran_left. }
  intros [= <- _ <-]. destruct s' as [d2 L2].
  destruct (history_last rid _ l _ (Finished c rid result) (MkSystem d3 (delete rid L2)) Hh) as (l' & Hh' & Hf'); [eapply c_finish; [exact Hl|exact Ef]|done|].
  eexists _, l', (delete rid L2). split; [done|]. split.
  - rewrite Hf', Hf. apply t_finished. by intros st [= ->].
  - intros [= Hs]. exists row, wm, d1. split; [done|]. intros ctx Hu. by eapply success_pairs.
Qed.

(** A run is a sequence of transactions. *)
Lemma execute_shared w c source spec rid corr uri L final r o r' :
  build_pipeline_spec eps source uri = Ok spec → runs_shared w c source spec rid corr (r_db r) L final →
  execute true pipeline_run aclose format_exception eps c source rid corr uri r = Some (o, r') →
  ran w c source spec rid corr (r_db r) L final o (r_db r').
Proof.
  intros Hspec Hrun. unfold execute. destruct (get_breaker _ _ _) as [b store].
  destruct (get_semaphore _ _ _) as [sem sems]. destruct (global_enter _) as [g|]; simpl; [|done].
  destruct (sem_acquire sem) as [sem'|]; simpl; [|done].
  unfold execute_inside. destruct (before (at_before c) b) as [[u|e] b1].
  2:{ intros [= <- <-]. exists [], [], L. split; [constructor|]. split; [by apply t_nothing|done]. }
  rewrite Hspec. destruct (handlers _ _ _ _ _ _) as [[o1 b2] d2] eqn:Eh.
  destruct (close_plugins _ _ _) as [o2 closed] eqn:Ec. intros [= <- <-]. simpl.
  eapply ran_ending; [by eapply handlers_shared|by eapply close_plugins_inl].
Qed.

Lemma pairs_published rid bs : pairs_in (Published rid <$> bs) = concat bs.
Proof. unfold pairs_in. induction bs as [|b bs IH]; [done|]. simpl. by rewrite <- IH. Qed.

Lemma fold_published rid bs row :
  fold_left (λ o x, run_effect x o) (Published rid <$> bs) (Some row) = Some row.
Proof. induction bs as [|b bs IH]; [done|exact IH]. Qed.

(** C3: a feed run among others.  Take a run whose pipeline is executed
    concurrently, while any other runs, backfills and commands commit transactions
    of their own between its batches.  All that it does is a sequence of
    transactions in that history, nothing or its row, its batches and its end, and
    nothing else in the history is about it.  If it returns SUCCESS, its row says
    SUCCESS, and if no stage raised a [CancelledError] of its own, the observations
    that name it are exactly those of the pairs of its feed, in order and once
    each. *)
Theorem feed_among_others w c source spec rid corr uri L final (r r' : runner D) o :
  consistent (MkSystem (r_db r) L) →
  build_pipeline_spec eps source uri = Ok spec → runs_shared w c source spec rid corr (r_db r) L final →
  execute true pipeline_run aclose format_exception eps c source rid corr uri r = Some (o, r') →
  ∃ bs l L', history (MkSystem (r_db r) L) l (MkSystem (r_db r') L') ∧
    transcript c rid (sc_id source) bs (filter (about rid) l) o ∧
    (o = inl SUCCESS →
       run_state <$> (t_feed_runs (tables (r_db r')) !! rid) = Some (value SUCCESS) ∧
       ∃ row wm d1, open_session true c (sc_id source) rid (r_db r) = (Ok (row, wm), d1) ∧
         let ctx := new_context c rid (sc_id source) corr wm in
         uncancelled (final ctx) → ∃ pairs, feed_pairs w spec ctx = Some pairs ∧
           filter (λ row, or_feed_run_id row = rid) (t_observations (tables (r_db r')))
           = filter (λ row, or_feed_run_id row = rid) (t_observations (tables (r_db r))) ++ (obs_row ∘ snd <$> pairs)).
Proof.
  intros Hc Hspec Hrun Hex. destruct (execute_shared w c source spec rid corr uri L final r o r' Hspec Hrun Hex)
    as (bs & l & L' & Hh & Ht & Hs).
  exists bs, l, L'. split; [done|]. split; [done|]. intros Ho. destruct (Hs Ho) as (row & wm & d1 & Hopen & Hf).
  pose proof (rows_of_run _ _ _ rid Hh) as Hrows. destruct (storage_history _ _ _ Hh) as [_ Hobs].
  pose proof (run_history _ _ _ rid Hh Hc) as Hrun'. simpl in Hobs, Hrun'.
  assert (pairs_in (filter (about rid) l) = concat bs ∧
          run_state <$> (t_feed_runs (tables (r_db r')) !! rid) = Some (value SUCCESS)) as [Hp Hrow].
  { rewrite Hrun'. subst o. clear -Ht. inversion Ht as [o0 Hb Hn E|o0 Hn E|result o0 Hn E]; [done..|]. split.
    - change (pairs_in ((Published rid <$> bs) ++ [Finished c rid result]) = concat bs).
      rewrite pairs_in_app, pairs_published. apply app_nil_r.
    - simpl. rewrite fold_left_app, fold_published. simpl. by rewrite <- (Hn SUCCESS eq_refl). }
  split; [exact Hrow|]. exists row, wm, d1. split; [exact Hopen|]. intros ctx Hu. exists (concat bs). split; [by apply Hf|].
  by rewrite Hobs, filter_app, Hrows, Hp.
Qed.
End shared.

(** ** A sample *)

(** Another run of the same source starts before the batch of this one is stored,
    and ends after that. *)
Definition other_opens (d : MemoryDb) : MemoryDb := (open_session true sample_clock "feed" 8 d).2.

Definition other_result : RunResult :=
  MkRunResult_default (new_context sample_clock 8 "feed" "other" [("etag", PyStr "v9")]) SUCCESS 0 0 None.
Definition other_finishes (d : MemoryDb) : MemoryDb := (final_session true sample_clock 8 other_result d).2.

Definition crowded_run (spec : PipelineSpec) (ctx : RunContext) (d : MemoryDb)
    : (RunResult + exc_tree) * (RunContext * MemoryDb) :=
  let d1 := other_opens d in
  (pipeline_result ctx 0 0 (live_net spec ctx d1),
   (ctx_after ctx (trace FETCH (live_net spec ctx d1)),
    other_finishes (postgres_publish true (live_pairs spec ctx) d1).2)).

Lemma other_commits d L :
  is_ok (open_session true sample_clock "feed" 8 d).1 = true →
  commits (MkSystem d L) (Opened sample_clock 8 "feed") (MkSystem (other_opens d) (<[8%N := "feed"]> L)).
Proof.
  unfold other_opens. destruct (open_session true sample_clock "feed" 8 d) as [[x|e] d1] eqn:E; simpl; [|discriminate].
  intros _. eapply c_open. exact E.
Qed.

Lemma crowded_shared spec ctx d L :
  is_ok (open_session true sample_clock "feed" 8 d).1 = true → run_id ctx = 7%N →
  done_b (live_net spec ctx (other_opens d)) = true →
  accepted_batches (live_net spec ctx (other_opens d)) = [live_pairs spec ctx] →
  (postgres_publish true (live_pairs spec ctx) (other_opens d)).1 = Ok tt →
  (final_session true sample_clock 8 other_result (postgres_publish true (live_pairs spec ctx) (other_opens d)).2).1 = Ok tt →
  shared_execution sample_world spec ctx (MkSystem d L) (live_net spec ctx (other_opens d))
    ((crowded_run spec ctx d).1, ((crowded_run spec ctx d).2.1,
      MkSystem (crowded_run spec ctx d).2.2 (delete 8%N (<[8%N := "feed"]> L)))).
Proof.
  intros Ho Hid Hd Ha Hp Hf. unfold crowded_run. cbn [fst snd].
  apply (SharedExecution _ _ _ _ (live_publisher spec ctx (other_opens d))); [apply run_schedule_reachable|by apply done_b_all_done|intros k b; eexists; reflexivity|].
  rewrite Ha, Hid.
  apply (m_publish 7 (MkSystem d L) [Opened sample_clock 8 "feed"] (MkSystem (other_opens d) (<[8%N := "feed"]> L))
           _ (postgres_publish true (live_pairs spec ctx) (other_opens d)).2).
  - apply history_one. exact (other_commits d L Ho).
  - by repeat constructor.
  - cbn [sy_db]. by rewrite <- Hp, <- surjective_pairing.
  - cbn [sy_live]. apply (m_others 7 _ [Finished sample_clock 8 other_result]); [|by repeat constructor].
    apply history_one. eapply c_finish; [apply lookup_insert_eq|]. unfold other_finishes.
    by rewrite <- Hf, <- surjective_pairing.
Qed.

Definition crowded_execute :=
  execute true crowded_run (λ _, Ok tt) (λ _, "") live_eps sample_clock live_source 7 "corr" None sample_runner.

Lemma consistent_sample : consistent (MkSystem (r_db sample_runner) ∅).
Proof.
  split; [apply sample_sound| |].
  - intros rid row. change (t_feed_runs _ !! rid) with ((∅ : gmap N FeedRunRow) !! rid). by rewrite lookup_empty.
  - intros rid sid. change (sy_live _ !! rid) with ((∅ : gmap N string) !! rid). by rewrite lookup_empty.
Qed.

(** Both runs succeed, and the observations of the first are its own two. *)
Lemma feed_among_others_witness :
  ∃ r', crowded_execute = Some (inl SUCCESS, r') ∧
    run_state <$> (t_feed_runs (tables (r_db r')) !! 7%N) = Some "SUCCESS" ∧
    run_state <$> (t_feed_runs (tables (r_db r')) !! 8%N) = Some "SUCCESS" ∧
    ∃ pairs wm, feed_pairs sample_world live_spec (new_context sample_clock 7 "feed" "corr" wm) = Some pairs ∧
      filter (λ row, or_feed_run_id row = 7%N) (t_observations (tables (r_db r'))) = obs_row ∘ snd <$> pairs.
Proof.
  assert ((λ x, (x.1, run_state <$> (t_feed_runs (tables (r_db x.2)) !! 8%N))) <$> crowded_execute
          = Some (inl SUCCESS, Some "SUCCESS")) as Hs by (vm_compute; reflexivity).
  destruct crowded_execute as [[o r']|] eqn:E; [|discriminate]. injection Hs as -> H8.
  destruct (feed_among_others crowded_run (λ _, Ok tt) (λ _, "") live_eps sample_world sample_clock live_source
              live_spec 7 "corr" None ∅ (λ ctx, live_net live_spec ctx (other_opens live_opened))
              sample_runner r' (inl SUCCESS)) as (bs & l & L' & _ & _ & Hsuc).
  - by apply consistent_sample.
  - exact live_built.
  - intros row wm d1 Hopen ctx. change (open_session true sample_clock "feed" 7 (r_db sample_runner) = (Ok (row, wm), d1)) in Hopen.
    unfold live_opened. rewrite Hopen. cbn [snd]. vm_compute in Hopen. injection Hopen as _ Hwm Hd. subst ctx wm d1.
    do 3 eexists. split; [apply crowded_shared; try (vm_compute; reflexivity)|].
    by rewrite <- !surjective_pairing.
  - exact E.
  - destruct (Hsuc eq_refl) as (H7 & row & wm & d1 & Hopen & Hpairs). exists r'. split; [reflexivity|].
    split; [exact H7|]. split; [exact H8|].
    destruct Hpairs as (pairs & Hf & Ho); [|exists pairs, wm; split; [exact Hf|exact Ho]].
    vm_compute in Hopen. injection Hopen as _ <- _. apply uncancelled_b_true. vm_compute. reflexivity.
Defined.

(** ** A concrete history *)

Definition hist_ctx : RunContext := new_context sample_clock 7 "feed" "corr" [].
Definition hist_batch : list pair := live_pairs live_spec hist_ctx.

Definition hist_0 : MemoryDb := MkMemoryDb sample_tables true.
Definition hist_1 : MemoryDb := (open_session true sample_clock "feed" 7 hist_0).2.
Definition hist_2 : MemoryDb := other_opens hist_1.
Definition hist_3 : MemoryDb := (postgres_publish true hist_batch hist_2).2.
Definition hist_4 : MemoryDb := other_finishes hist_3.

Definition hist_live : gmap N string := <[8%N := "feed"]> (<[7%N := "feed"]> ∅).

Lemma hist_start : consistent (MkSystem hist_0 ∅).
Proof. exact consistent_sample. Qed.

Lemma hist_opened : history (MkSystem hist_0 ∅) [Opened sample_clock 7 "feed"; Opened sample_clock 8 "feed"]
                      (MkSystem hist_2 hist_live).
Proof.
  econstructor; [|apply history_one, other_commits; vm_compute; reflexivity].
  assert (∃ x, open_session true sample_clock "feed" 7 hist_0 = (Ok x, hist_1)) as [x Hx]
    by (eexists; vm_compute; reflexivity).
  eapply c_open. exact Hx.
Qed.

Lemma hist_stored : history (MkSystem hist_2 hist_live) [Published 7 hist_batch] (MkSystem hist_3 hist_live).
Proof.
  apply history_one, (c_publish 7 "feed"); [by vm_compute| |vm_compute; reflexivity].
  repeat constructor.
Qed.

Lemma hist_finished : history (MkSystem hist_3 hist_live) [Finished sample_clock 8 other_result]
                        (MkSystem hist_4 (delete 8%N hist_live)).
Proof. apply history_one. eapply c_finish; vm_compute; reflexivity. Qed.

Definition hist_labels : list label :=
  [Opened sample_clock 7 "feed"; Opened sample_clock 8 "feed"; Published 7 hist_batch; Finished sample_clock 8 other_result].

Lemma hist_all : history (MkSystem hist_0 ∅) hist_labels (MkSystem hist_4 (delete 8%N hist_live)).
Proof.
  change hist_labels with ([Opened sample_clock 7 "feed"; Opened sample_clock 8 "feed"] ++ [Published 7 hist_batch] ++
                           [Finished sample_clock 8 other_result]).
  eapply history_app; [exact hist_opened|]. eapply history_app; [exact hist_stored|exact hist_finished].
Qed.

(** The first run is still under way when the second one has ended. *)
Lemma runs_isolated_witness :
  t_feed_runs (tables hist_4) !! 7%N = Some (opened_row sample_clock 7 "feed") ∧
  run_state <$> (t_feed_runs (tables hist_4) !! 8%N) = Some "SUCCESS".
Proof.
  destruct (runs_isolated _ _ _ 7%N hist_start hist_all) as [H7 _].
  destruct (runs_isolated _ _ _ 8%N hist_start hist_all) as [H8 _].
  cbn [sy_db] in H7, H8. rewrite H7, H8. split; vm_compute; reflexivity.
Defined.

Lemma watermark_earned_witness :
  ∃ row rid run, t_sources (tables hist_4) !! "feed" = Some row ∧ src_watermark row = Some [("etag", PyStr "v9")] ∧
    t_feed_runs (tables hist_4) !! rid = Some run ∧ run_watermark run = src_watermark row.
Proof.
  assert (∃ row, t_sources (tables hist_4) !! "feed" = Some row ∧ src_watermark row = Some [("etag", PyStr "v9")])
    as (row & Hrow & Hw) by (eexists; split; vm_compute; reflexivity).
  destruct (watermark_earned _ _ _ "feed" row hist_start hist_all Hrow) as [H|[H|(rid & run & Hrun & _ & _ & Hr)]].
  - rewrite Hw in H. vm_compute in H. discriminate.
  - rewrite Hw in H. discriminate.
  - exists row, rid, run. split; [exact Hrow|]. split; [exact Hw|]. split; [exact Hrun|exact Hr].
Defined.

Lemma knowledge_grows_witness :
  t_observations (tables hist_3) `prefix_of` t_observations (tables hist_4) ∧
  length (t_observations (tables hist_3)) = 2%nat.
Proof.
  destruct (knowledge_grows _ _ _ hist_finished) as [_ H]. split; [exact H|vm_compute; reflexivity].
Defined.

Lemma observations_isolated_witness :
  filter (λ o, or_feed_run_id o = 7%N) (t_observations (tables hist_4)) = obs_row ∘ snd <$> hist_batch ∧
  filter (λ o, or_feed_run_id o = 8%N) (t_observations (tables hist_4)) = [].
Proof.
  destruct (observations_isolated _ _ _ hist_start hist_all) as [H _].
  pose proof (H 7%N) as H7. pose proof (H 8%N) as H8. cbn [sy_db] in H7, H8. rewrite H7, H8.
  split; vm_compute; reflexivity.
Defined.
